(* ===== verification/_CoqProject ===== *)
-Q . S2P
Prelude.v
GoString.v
GoStd.v
GoURL.v
GoQuery.v
Msgpack.v
TunnelEnvelope.v
HttpEnvelope.v
Headers.v
Config.v
Tls.v
GoTime.v
Link.v
FlowSpec.v
FlowControl.v
SessionUser.v
Pipe.v
Relay.v
RelayPipe.v
WsRelay.v
EdgeRoutes.v
EdgeUnary.v
EdgeTunnel.v
ConnectorProxy.v
ConnectorTunnel.v
Dial.v
EndToEnd.v
StreamPipe.v
Tunnels.v
Observer.v
Lifecycle.v
EdgeRun.v
WireTyping.v
Flag.v
Cli.v
Interact.v
E2eEcho.v
E2eCheck.v
E2eSmoke.v
Metrics.v
Natscore.v
