(* ===== verification/Prelude.v ===== *)
(** * airpc: a verification development

    airpc publishes private services through an edge.  A public client talks to
    the edge ([internal/edge]); a connector ([internal/connector]) next to the
    private service dials out to NATS and to the edge.  A plain HTTP request
    crosses NATS as one message each way.  TCP, gRPC and WebSocket connections,
    and response bodies that are large or endless, cross the data tunnel: one
    WebSocket per connector, on which sessions are multiplexed with
    credit-based flow control ([internal/datatunnel]).

    ** The files and the parts they model

    - [Prelude]: results ([let?]), [int64], transition systems and their
      invariants, tactics and the hint database.
    - [GoString], [GoStd], [GoURL], [GoQuery]: the parts of Go's strings,
      unicode, strconv, net, net/http, time and net/url that the program uses,
      as functions on byte strings.
    - [Msgpack]: the interface of the MessagePack library, a class with the
      laws used (encoding is total and decoding undoes it); a concrete
      instance serves the witnesses.
    - [TunnelEnvelope] ([protocol/tunnel/envelope.go]) and [HttpEnvelope]
      ([protocol/httpunary/envelope.go]): frames, open requests, unary
      envelopes; validation as a grammar, codecs as round trips.
    - [Headers] ([httpheaders/headers.go]): the two header filters.
    - [Config] ([config/config.go]), [GoTime] (its durations), [Tls]
      ([config/tls.go]): configuration, subjects, byte sizes, certificates.
    - [Link] ([datatunnel/link.go], [session.go]): sessions as shared objects in
      a store ([ref] is a pointer), a link as the map of sessions, the store,
      the messages written to its connection and whether it is open; one
      definition per method.
    - [FlowSpec]: the abstract flow control, two ends and what is between them.
      [FlowControl]: two links joined by their connections, one session watched
      and all others arbitrary; the refinement to [FlowSpec] and the promises
      that follow.  The callback that accepts sessions is the class [Acceptor].
    - [SessionUser], [Pipe]: the interface between a session and whoever uses
      it (a class), and what holds of any two users at the ends of a session.
    - [Relay] ([RelayConn]), [WsRelay] ([RelayWebSocket]) of
      [datatunnel/relay.go]: reader goroutine, main loop and idle guard as
      steps; [RelayPipe]: two relays.
    - [EdgeRoutes], [EdgeUnary] ([edge/edge.go]): routing, limits, ids, the
      unary handler, streamed responses.  [EdgeTunnel] ([edge/data.go]): the
      registry of links, the endpoint connectors dial, opening of sessions.
    - [ConnectorProxy] ([connector/proxy.go]), [ConnectorTunnel]
      ([connector/data.go], the open handler of [connector.go]), [Dial]
      ([startTunnelClient], [dial]): backend requests, answers and cancels;
      accepted sessions, reconnection; how a connector reaches the edge.
    - [StreamPipe]: the pump of [streamResponse] and the loop of
      [serveStreamedResponse] as users of a session.  [Tunnels]: the real open
      handlers as acceptors, and connections and streams across the tunnel.
      [WireTyping]: the types of what the users of a link put on it.
      [EndToEnd]: edge and connector joined by NATS.
    - [Observer] ([grpcobs/observer.go], [observedConn] of [edge/data.go]): the
      passive gRPC observer.
    - [Lifecycle] ([Start] of both processes, shutdown, accepted connections,
      [telemetry.StartServer]), [EdgeRun] (the goroutines of a started edge,
      [Wait], [Close]), [Flag] (Go's package flag) and [Cli]
      ([cmd/airpc/main.go]).
    - [Metrics] ([telemetry/metrics.go], [statusRecorder] and whatever updates a
      collector), [Natscore] ([natscore/nats.go], as programs over the calls to
      the NATS library).
    - [Interact]: two interaction trees joined by a pair of queues, their
      interleavings, and that all of them reach a goal.  [E2eEcho], [E2eCheck]
      ([cmd/airpc-e2e/main.go]): the echo sessions of the smoke test, its HTTP
      checks and commands.  [E2eSmoke]: the smoke test run against the edge,
      the connector and its backend with [deploy/airpc.yaml].

    ** How code is modelled

    A Go function of values is a function; [(T, error)] is [res]; a method on a
    shared object takes and returns the state that holds the object.  A
    blocking operation returns [Blocked] or [None] when it cannot proceed.
    Concurrent goroutines are step relations, whose interleavings are the
    reachable states: [rtc] over a sum of the steps of each.  A [select] with
    several ready cases is nondeterministic: the case is an argument.  Map
    iteration order is an argument ([order], [iterate]).  Random ids, clocks,
    deadlines, the outcome of system calls and of the network are arguments.
    Integers are [Z]; [int64] arithmetic that can overflow goes through
    [wrap64], [uint64] through a modulus.  Mutexes and atomics appear as the
    atomicity of steps.

    ** What the theorems show

    - End to end ([EndToEnd], [Tunnels]): an HTTP request reaches the backend as
      it was received and the client gets the backend's answer; a streamed
      answer is announced, claimed, sent with the backend's status and headers,
      and complete or visibly cut; a session is negotiated and opened; TCP bytes
      and WebSocket messages cross intact.  Half-close ([half_closed]): only a
      connection that ended with [io.EOF] is announced as ended, after all its
      bytes, and the other end's write side is then shut.
    - The tunnel ([FlowControl], [Link], [Relay]): refinement of the abstract
      flow control, window, order, absence of deadlock, isolation of sessions,
      the link's invariant, cleaning up of relays.  The idle guard, over timed
      runs of a relay ([Timed]: a clock, and when data last moved): it ends the
      relay exactly when nothing moved for the timeout.
    - The edge: the longest pattern wins among routes with one pattern; what
      crosses NATS is the request as received, or nothing for a stated reason;
      every outcome of a unary request has its own answer; the registry hands
      out what a log of dials and drops says ([current]); opening terminates
      and is retried only after attempts that found no tunnel; a stream has one
      consumer, or is closed when nobody claims it in time.
    - The connector: only configured backends are dialed; every request and
      every open request is answered, truthfully; cancels are exact; the tunnel
      heals itself; it is known by its own id.
    - Codecs, filters, configuration: validation is exactly a grammar, codecs
      are inverse on it, filters are exact, subjects round trip, durations are
      exact or refused, the command line is exact.
    - The smoke test: its HTTP check passes through the modelled edge, NATS,
      connector and backend; [check-down] and [wait-health] succeed without a
      connector.  Its session checks are not run against the modelled system:
      their echo programs end, and pass, over any channel that loses nothing
      ([E2eEcho]), which is what [Tunnels] promises of a session.
    - Types: whatever the peer sends, every frame written is of the grammar and
      is read back as written.
    - Metrics: a scrape shows exactly the series that were used, with values
      computed from the responses that went out, the connections, and the
      records of the observers; histograms count observations, informational
      statuses are not counted as answers.  A series is absent before its first
      use: [airpc_tunnel_connected] does not exist before the first successful
      dial, so the documented alert on its being 0 is silent until then.
    - Processes: a server listens as configured; a started edge runs until it
      has a reason to stop and then ends.  A failed start, and a shutdown,
      release everything but the configured metrics server, which stops with
      the context ([metrics_held], [metrics_stops], [metrics_server]).
    - Divergences found while modelling, each with a theorem:
      [parseBytes_overflow], [readBounded_overflow], [slash_prefix_unservable],
      [exact_path_trailing_slash], [path_decoded_twice],
      [stream_close_unnoticed], [statusCode_unbounded], [client_reset_ignored],
      [both_fields_beat_longer_prefix]; the gauge before the first dial and the
      metrics server after a failed start are part of the theorems on these.

    ** Bounds and fuel

    Fuel appears only in [durationLoop], whose caller gives the length of the
    string plus one; [durationLoop_fuel] shows that more makes no difference.
    Everything else is structural, or takes the list of turns it makes
    ([openDataSession], [run_turns]), for which a theorem says when they
    suffice.

    ** Not modelled

    MessagePack, YAML, websockets, NATS, HTTP transport, HTTP/2 framing, TLS and
    X.509 are libraries: parameters with the behaviour relied on as
    hypotheses.  Durations in metrics are not, only how often they are observed;
    a float counter is exact below 2^53.  [Addr] and the like, what [Run] of the
    two processes prints, log lines and usage texts are output.  The client
    preface that [parseClient] expects is part of the framing.  The gRPC service
    description of the smoke test's backend is data for the library.  What is
    left of the source beyond that is imports and comments. *)
From Stdlib Require Export ZArith Lia Ascii.
From Stdlib Require String.
From stdpp Require Export base tactics option list strings gmap relations numbers.

#[global] Set Default Proof Using "Type".
#[global] Unset Printing Records.
#[export] Set Warnings "-notation-overridden".

#[global] Arguments String.append : simpl nomatch.

(** ** Go's [(T, error)] results *)

(** A function that returns [(v, nil)] yields [Ok v]; one that returns a zero
    value with a non-nil error yields [Err e].  Each component has its own
    inductive type of errors, with one constructor per [fmt.Errorf] of the
    source. *)
Inductive res (E A : Type) : Type :=
| Ok (a : A)
| Err (e : E).
Arguments Ok {E A} a.
Arguments Err {E A} e.

Declare Scope go_scope.
Delimit Scope go_scope with go.
Bind Scope go_scope with res.

(** [if err := e; err != nil { return err }] followed by [k]. *)
Notation "'let?' x ':=' e 'in' k" :=
  (match e with Ok x => k | Err err => Err err end)
  (at level 10, x pattern, e at level 100, k at level 200,
   format "'[v' 'let?'  x  ':='  e  'in' '/' k ']'") : go_scope.
#[global] Open Scope go_scope.

Definition is_ok {E A} (r : res E A) : bool :=
  match r with Ok _ => true | Err _ => false end.

#[export] Instance res_eq_dec {E A} `{EqDecision E, EqDecision A} :
  EqDecision (res E A).
Proof. solve_decision. Defined.

Lemma is_ok_unit {E} (r : res E unit) : is_ok r = true <-> r = Ok tt.
Proof. destruct r as [[]|e]; simpl; split; congruence. Qed.

(** ** Machine integers *)

(** Two's complement wrap-around of Go's [int64] (and of [int] on 64-bit
    targets). *)
Definition min_int64 : Z := -9223372036854775808.
Definition max_int64 : Z := 9223372036854775807.
Definition int64_range (z : Z) : Prop := (min_int64 <= z <= max_int64)%Z.
Definition wrap64 (z : Z) : Z :=
  ((z + 9223372036854775808) mod 18446744073709551616 - 9223372036854775808)%Z.

Lemma wrap64_small z : int64_range z -> wrap64 z = z.
Proof.
  unfold int64_range, wrap64, min_int64, max_int64. intros H.
  rewrite Z.mod_small; lia.
Qed.

Lemma wrap64_range z : int64_range (wrap64 z).
Proof.
  unfold int64_range, wrap64, min_int64, max_int64.
  pose proof (Z.mod_pos_bound (z + 9223372036854775808) 18446744073709551616).
  lia.
Qed.

(** ** Transition systems *)

Section Invariants.
Context {St : Type} (step : St -> St -> Prop) (init : St -> Prop).

(** States reachable from an initial one. *)
Definition reachable (s : St) : Prop := exists s0, init s0 /\ rtc step s0 s.

(** An inductive invariant holds in every reachable state. *)
Lemma reachable_inv (Inv : St -> Prop) :
  (forall s, init s -> Inv s) ->
  (forall s s', Inv s -> step s s' -> Inv s') ->
  forall s, reachable s -> Inv s.
Proof.
  intros Hi Hs s (s0 & H0 & Hr). specialize (Hi s0 H0). clear H0.
  induction Hr; eauto.
Qed.

Lemma reachable_step s s' : reachable s -> step s s' -> reachable s'.
Proof.
  intros (s0 & H0 & Hr) Hstep. exists s0. split; [done|].
  eapply rtc_r; eauto.
Qed.
End Invariants.

(** ** Automation *)

(** Splits the boolean conjunctions and disjunctions the guards of the source
    turn into, and the [Z] comparisons below them. *)
Ltac bsimpl :=
  repeat match goal with
  | H : _ && _ = true |- _ => apply andb_true_iff in H as [? ?]
  | H : _ || _ = false |- _ => apply orb_false_iff in H as [? ?]
  | H : negb _ = true |- _ => apply negb_true_iff in H
  | H : negb _ = false |- _ => apply negb_false_iff in H
  | H : (_ =? _)%Z = true |- _ => apply Z.eqb_eq in H
  | H : (_ =? _)%Z = false |- _ => apply Z.eqb_neq in H
  | H : (_ <=? _)%Z = true |- _ => apply Z.leb_le in H
  | H : (_ <=? _)%Z = false |- _ => apply Z.leb_gt in H
  | H : (_ <? _)%Z = true |- _ => apply Z.ltb_lt in H
  | H : (_ <? _)%Z = false |- _ => apply Z.ltb_ge in H
  | H : String.eqb _ _ = true |- _ => apply String.eqb_eq in H
  | H : String.eqb _ _ = false |- _ => apply String.eqb_neq in H
  end.

(** A sequence of early returns succeeds when no guard fires: rewriting with
    these turns a validator into the conjunction of what it checks. *)
Lemma guard_ok {E} (b : bool) (e : E) (k : res E unit) :
  (if b then Err e else k) = Ok tt <-> b = false /\ k = Ok tt.
Proof. destruct b; naive_solver. Qed.

Lemma guard_last {E} (b : bool) (e : E) :
  (if b then Ok tt else Err e) = Ok tt <-> b = true.
Proof. destruct b; naive_solver. Qed.

Lemma bind_ok {E} (m k : res E unit) :
  (let? _ := m in k) = Ok tt <-> m = Ok tt /\ k = Ok tt.
Proof. destruct m as [[]|]; naive_solver. Qed.

Lemma forall_Some {A} (a : A) (P : A -> Prop) :
  (forall x, Some a = Some x -> P x) <-> P a.
Proof. split; [auto|]. by intros Ha x [= <-]. Qed.

Create Rewrite HintDb airpc_ok.
#[export] Hint Rewrite @guard_ok @guard_last @bind_ok negb_false_iff negb_true_iff
  orb_false_iff orb_true_iff Z.eqb_eq Z.eqb_neq Z.leb_gt Z.leb_le Z.ltb_ge Z.ltb_lt
  String.eqb_eq String.eqb_neq bool_decide_eq_true bool_decide_eq_false : airpc_ok.

(** Case analysis on every guard of a goal or hypothesis, keeping the
    equations. *)
Ltac guards :=
  repeat match goal with
  | |- context [if ?b then _ else _] => destruct b eqn:?; simpl in *
  | H : context [if ?b then _ else _] |- _ => destruct b eqn:?; simpl in *
  end.

Create HintDb airpc.
Create Rewrite HintDb airpc_str.
#[export] Hint Resolve wrap64_range : airpc.
