(* ===== verification/GoString.v ===== *)
(** * Go strings

    A Go [string] (and a [[]byte]) is a sequence of bytes: Rocq's [string] of
    [ascii].  This file gives the operations of the packages [strings],
    [unicode] and [unicode/utf8] the program calls, and the lemmas its
    components share: a [for _, r := range s] loop that accepts only ASCII
    characters is a byte-wise test ([runes_forallb_ascii]). *)
From S2P Require Import Prelude.

#[local] Open Scope Z_scope.

(** ** Bytes *)

Definition bz (c : ascii) : Z := Z.of_N (N_of_ascii c).
Definition zb (z : Z) : ascii := ascii_of_N (Z.to_N z).
Definition within (lo hi r : Z) : bool := (lo <=? r) && (r <=? hi).

Lemma bz_range c : 0 <= bz c < 256.
Proof. unfold bz. pose proof (N_ascii_bounded c). lia. Qed.

Lemma zb_bz c : zb (bz c) = c.
Proof. unfold zb, bz. rewrite N2Z.id. apply ascii_N_embedding. Qed.

Lemma bz_zb z : 0 <= z < 256 -> bz (zb z) = z.
Proof. intros. unfold zb, bz. rewrite N_ascii_embedding; lia. Qed.

Lemma bz_inj c d : bz c = bz d -> c = d.
Proof. intros H. by rewrite <-(zb_bz c), H, zb_bz. Qed.

Lemma within_true lo hi r : within lo hi r = true <-> lo <= r <= hi.
Proof. unfold within. rewrite andb_true_iff, !Z.leb_le. done. Qed.

(** [c >= 'a' && c <= 'z' || c >= 'A' && c <= 'Z' || c >= '0' && c <= '9'] *)
Definition is_lower (r : Z) : bool := within 97 122 r.
Definition is_upper (r : Z) : bool := within 65 90 r.
Definition is_digit (r : Z) : bool := within 48 57 r.
Definition is_alnum (r : Z) : bool := is_lower r || is_upper r || is_digit r.

(** ** Byte-wise traversal *)

Fixpoint str_forallb (P : ascii -> bool) (s : string) : bool :=
  match s with
  | EmptyString => true
  | String c s' => P c && str_forallb P s'
  end.

Fixpoint str_map (f : ascii -> ascii) (s : string) : string :=
  match s with
  | EmptyString => EmptyString
  | String c s' => String (f c) (str_map f s')
  end.

Fixpoint str_mem (c : ascii) (s : string) : bool :=
  match s with
  | EmptyString => false
  | String d s' => Ascii.eqb c d || str_mem c s'
  end.

Fixpoint str_take (n : nat) (s : string) : string :=
  match n, s with
  | S n', String c s' => String c (str_take n' s')
  | _, _ => EmptyString
  end.

Fixpoint str_drop (n : nat) (s : string) : string :=
  match n, s with
  | O, _ => s
  | S n', String _ s' => str_drop n' s'
  | S _, EmptyString => EmptyString
  end.

Definition str_concat (l : list string) : string := foldr String.append EmptyString l.

(** Go's [len]: the number of bytes. *)
Definition len (s : string) : Z := Z.of_nat (String.length s).

(** ** [strings] *)

Fixpoint HasPrefix (s p : string) : bool :=
  match p, s with
  | EmptyString, _ => true
  | String c p', String d s' => Ascii.eqb c d && HasPrefix s' p'
  | String _ _, EmptyString => false
  end.

Definition TrimPrefix (s p : string) : string :=
  if HasPrefix s p then str_drop (String.length p) s else s.

Definition HasSuffix (s p : string) : bool :=
  (String.length p <=? String.length s)%nat &&
  String.eqb (str_drop (String.length s - String.length p) s) p.

(** [strings.ContainsAny(s, chars)] for a set [chars] of ASCII characters:
    one of them occurs as a byte of [s]. *)
Definition ContainsAny (s chars : string) : bool :=
  negb (str_forallb (fun c => negb (str_mem c chars)) s).

(** [strings.IndexByte] and [strings.LastIndexByte]; [None] is [-1]. *)
Fixpoint IndexByte (s : string) (c : ascii) : option nat :=
  match s with
  | EmptyString => None
  | String d s' => if Ascii.eqb c d then Some 0%nat else S <$> IndexByte s' c
  end.

Fixpoint LastIndexByte (s : string) (c : ascii) : option nat :=
  match s with
  | EmptyString => None
  | String d s' =>
      match LastIndexByte s' c with
      | Some i => Some (S i)
      | None => if Ascii.eqb c d then Some 0%nat else None
      end
  end.

(** [strings.Cut(s, sep)] for a one-byte separator. *)
Definition Cut (s : string) (c : ascii) : string * string * bool :=
  match IndexByte s c with
  | Some i => (str_take i s, str_drop (S i) s, true)
  | None => (s, EmptyString, false)
  end.

(** [strings.TrimRight(s, c)] for a one-byte cut set. *)
Fixpoint TrimRightByte (s : string) (c : ascii) : string :=
  match s with
  | EmptyString => EmptyString
  | String d s' =>
      match TrimRightByte s' c with
      | EmptyString => if Ascii.eqb c d then EmptyString else String d EmptyString
      | t => String d t
      end
  end.

Definition CR : ascii := "013"%char.
Definition LF : ascii := "010"%char.
(** The cut set ["\r\n"]. *)
Definition crlf : string := String CR (String LF EmptyString).

(** ** [unicode/utf8] *)

Definition RuneError : Z := 65533.
Definition is_cont (c : ascii) : bool := within 128 191 (bz c).

(** [utf8.DecodeRuneInString] on a non-empty string [String b0 s1]: the rune
    and the number of continuation bytes consumed after [b0].  An invalid
    encoding is [RuneError] of width one. *)
Definition rune_at (b0 : ascii) (s1 : string) : Z * nat :=
  let c0 := bz b0 in
  if c0 <? 128 then (c0, 0%nat)
  else if within 194 223 c0 then
    match s1 with
    | String b1 _ =>
        if is_cont b1 then ((c0 - 192) * 64 + (bz b1 - 128), 1%nat) else (RuneError, 0%nat)
    | _ => (RuneError, 0%nat)
    end
  else if within 224 239 c0 then
    match s1 with
    | String b1 (String b2 _) =>
        let lo := if c0 =? 224 then 160 else 128 in
        let hi := if c0 =? 237 then 159 else 191 in
        if within lo hi (bz b1) && is_cont b2
        then ((c0 - 224) * 4096 + (bz b1 - 128) * 64 + (bz b2 - 128), 2%nat)
        else (RuneError, 0%nat)
    | _ => (RuneError, 0%nat)
    end
  else if within 240 244 c0 then
    match s1 with
    | String b1 (String b2 (String b3 _)) =>
        let lo := if c0 =? 240 then 144 else 128 in
        let hi := if c0 =? 244 then 143 else 191 in
        if within lo hi (bz b1) && is_cont b2 && is_cont b3
        then ((c0 - 240) * 262144 + (bz b1 - 128) * 4096 + (bz b2 - 128) * 64 + (bz b3 - 128), 3%nat)
        else (RuneError, 0%nat)
    | _ => (RuneError, 0%nat)
    end
  else (RuneError, 0%nat).

(** The runes of [for i, r := range s], each with the bytes it was decoded
    from. *)
Fixpoint utf8_decode (s : string) : list (Z * string) :=
  match s with
  | EmptyString => []
  | String b0 s1 =>
      let '(r, k) := rune_at b0 s1 in
      match k, s1 with
      | 1%nat, String b1 s2 => (r, String b0 (String b1 EmptyString)) :: utf8_decode s2
      | 2%nat, String b1 (String b2 s3) =>
          (r, String b0 (String b1 (String b2 EmptyString))) :: utf8_decode s3
      | 3%nat, String b1 (String b2 (String b3 s4)) =>
          (r, String b0 (String b1 (String b2 (String b3 EmptyString)))) :: utf8_decode s4
      | _, _ => (r, String b0 EmptyString) :: utf8_decode s1
      end
  end.

Definition runes (s : string) : list Z := (utf8_decode s).*1.

(** [utf8.AppendRune]. *)
Definition encode_rune (r : Z) : string :=
  if within 0 127 r then String (zb r) EmptyString
  else if within 128 2047 r then
    String (zb (192 + r / 64)) (String (zb (128 + r mod 64)) EmptyString)
  else if (r <? 0) || (1114111 <? r) || within 55296 57343 r || within 2048 65535 r then
    let r := if (r <? 0) || (1114111 <? r) || within 55296 57343 r then RuneError else r in
    String (zb (224 + r / 4096)) (String (zb (128 + (r / 64) mod 64))
      (String (zb (128 + r mod 64)) EmptyString))
  else
    String (zb (240 + r / 262144)) (String (zb (128 + (r / 4096) mod 64))
      (String (zb (128 + (r / 64) mod 64)) (String (zb (128 + r mod 64)) EmptyString))).

(** ** [unicode] *)

(** The tables of the [unicode] package above the ranges the functions below
    test directly: the model is parameterised by them, and its theorems hold
    for every version of the tables. *)
Class UnicodeTables := {
  (** [isExcludingLatin(Digit, r)], for [r > MaxLatin1] *)
  digit_table : Z -> bool;
  (** [unicode.ToLower(r)], for [r > MaxASCII] *)
  lower_table : Z -> Z;
  (** [r2] is in the [SimpleFold] orbit of [r1], one of them not ASCII *)
  fold_table : Z -> Z -> bool
}.

(** The tables of a Unicode with no cased letters or digits outside ASCII,
    used to evaluate the model on ASCII inputs. *)
Definition ascii_tables : UnicodeTables :=
  {| digit_table := fun _ => false; lower_table := fun r => r; fold_table := Z.eqb |}.

Definition lower_byte (c : ascii) : ascii :=
  if is_upper (bz c) then zb (bz c + 32) else c.
Definition is_ascii (s : string) : bool := str_forallb (fun c => bz c <? 128) s.

(** [unicode.IsSpace]. *)
Definition IsSpace (r : Z) : bool :=
  if r <=? 255 then within 9 13 r || (r =? 32) || (r =? 133) || (r =? 160)
  else (r =? 5760) || within 8192 8202 r || (r =? 8232) || (r =? 8233) ||
       (r =? 8239) || (r =? 8287) || (r =? 12288).

Section Unicode.
Context {UT : UnicodeTables}.

Definition IsDigit (r : Z) : bool := if r <=? 255 then is_digit r else digit_table r.

Definition lower_rune (r : Z) : Z :=
  if r <? 128 then (if is_upper r then r + 32 else r) else lower_table r.

(** [strings.ToLower]: byte-wise on ASCII strings, [strings.Map] with
    [unicode.ToLower] otherwise. *)
Definition ToLower (s : string) : string :=
  if is_ascii s then str_map lower_byte s
  else str_concat (map encode_rune (filter (fun r => 0 <= r) (map lower_rune (runes s)))).

Definition fold_eq (r1 r2 : Z) : bool :=
  (r1 =? r2) ||
  (if (r1 <? 128) && (r2 <? 128) then
     (is_upper r1 && (r2 =? r1 + 32)) || (is_upper r2 && (r1 =? r2 + 32))
   else fold_table r1 r2).

(** [strings.EqualFold]. *)
Definition EqualFold (s t : string) : bool :=
  (length (runes s) =? length (runes t))%nat &&
  forallb (fun p => fold_eq p.1 p.2) (zip (runes s) (runes t)).
End Unicode.

Fixpoint drop_while {A} (P : A -> bool) (l : list A) : list A :=
  match l with
  | [] => []
  | x :: l' => if P x then drop_while P l' else l
  end.

(** [strings.TrimSpace]: leading and trailing white space removed rune by
    rune. *)
Definition TrimSpace (s : string) : string :=
  let sp := fun p : Z * string => IsSpace p.1 in
  str_concat (rev (drop_while sp (rev (drop_while sp (utf8_decode s))))).*2.

(** ** Lemmas: concatenation and lengths *)

Lemma app_str_nil_r s : s +:+ EmptyString = s.
Proof. induction s as [|c s IH]; simpl; [done|]. by rewrite IH. Qed.

Lemma app_str_assoc s t u : (s +:+ t) +:+ u = s +:+ (t +:+ u).
Proof. induction s as [|c s IH]; simpl; [done|]. by rewrite IH. Qed.

Lemma app_str_inj s t u : s +:+ t = s +:+ u -> t = u.
Proof. induction s as [|c s IH]; simpl; intros H; [done|]. injection H; auto. Qed.

Lemma length_app_str s t : String.length (s +:+ t) = (String.length s + String.length t)%nat.
Proof. induction s as [|c s IH]; simpl; [done|]. by rewrite IH. Qed.

Lemma str_drop_app s t : str_drop (String.length s) (s +:+ t) = t.
Proof. induction s as [|c s IH]; simpl; [by destruct t|done]. Qed.

Lemma str_take_app s t : str_take (String.length s) (s +:+ t) = s.
Proof. induction s as [|c s IH]; simpl; [by destruct t|by rewrite IH]. Qed.

Lemma str_concat_app l k : str_concat (l ++ k) = str_concat l +:+ str_concat k.
Proof. induction l as [|s l IH]; simpl; [done|]. by rewrite IH, app_str_assoc. Qed.

(** Any split of a Go string [s[:n]] / [s[n:]] loses nothing. *)
Lemma str_take_drop n s : str_take n s +:+ str_drop n s = s.
Proof. revert n. induction s as [|c s IH]; intros [|n]; simpl; try done. by rewrite IH. Qed.

Lemma length_str_take n s :
  String.length (str_take n s) = Nat.min n (String.length s).
Proof. revert n. induction s as [|c s IH]; intros [|n]; simpl; try done. by rewrite IH. Qed.

(** ** Lemmas: prefixes *)

Lemma HasPrefix_spec s p : HasPrefix s p = true <-> exists r, s = p +:+ r.
Proof.
  revert s. induction p as [|c p IH]; intros s; simpl.
  { split; [by exists s|by destruct s]. }
  destruct s as [|d s]; simpl.
  { split; [done|by intros [r ?]]. }
  rewrite andb_true_iff, Ascii.eqb_eq, IH. split.
  - intros [-> [r ->]]. by exists r.
  - intros [r [= -> ->]]. eauto.
Qed.

Lemma HasPrefix_app p r : HasPrefix (p +:+ r) p = true.
Proof. apply HasPrefix_spec. by exists r. Qed.

Lemma TrimPrefix_app p r : TrimPrefix (p +:+ r) p = r.
Proof. unfold TrimPrefix. by rewrite HasPrefix_app, str_drop_app. Qed.

Lemma TrimPrefix_spec s p :
  HasPrefix s p = true -> s = p +:+ TrimPrefix s p.
Proof. intros [r ->]%HasPrefix_spec. by rewrite TrimPrefix_app. Qed.

Lemma HasPrefix_refl s : HasPrefix s s = true.
Proof. rewrite <-(app_str_nil_r s) at 1. apply HasPrefix_app. Qed.

Lemma HasSuffix_spec s p : HasSuffix s p = true <-> exists r, s = r +:+ p.
Proof.
  unfold HasSuffix. rewrite andb_true_iff, Nat.leb_le, String.eqb_eq. split.
  - intros [Hl He]. exists (str_take (String.length s - String.length p) s).
    rewrite <-He at 2. by rewrite str_take_drop.
  - intros [r ->]. rewrite length_app_str. split; [lia|].
    replace (String.length r + String.length p - String.length p)%nat
      with (String.length r) by lia.
    apply str_drop_app.
Qed.

(** ** Lemmas: byte-wise predicates *)

Lemma str_forallb_app P s t : str_forallb P (s +:+ t) = str_forallb P s && str_forallb P t.
Proof. induction s as [|c s IH]; simpl; [done|]. by rewrite IH, andb_assoc. Qed.

Lemma str_forallb_impl (P Q : ascii -> bool) s :
  (forall c, P c = true -> Q c = true) -> str_forallb P s = true -> str_forallb Q s = true.
Proof.
  intros HPQ. induction s as [|c s IH]; simpl; [done|].
  rewrite !andb_true_iff. intros [? ?]; auto.
Qed.

Lemma str_forallb_ext (P Q : ascii -> bool) s :
  (forall c, P c = Q c) -> str_forallb P s = str_forallb Q s.
Proof. intros H. induction s as [|c s IH]; simpl; [done|]. by rewrite H, IH. Qed.

Lemma str_forallb_drop P n s : str_forallb P s = true -> str_forallb P (str_drop n s) = true.
Proof.
  rewrite <-(str_take_drop n s) at 1. rewrite str_forallb_app. by intros [_ ?]%andb_true_iff.
Qed.

Lemma ContainsAny_false s chars :
  ContainsAny s chars = false <-> str_forallb (fun c => negb (str_mem c chars)) s = true.
Proof. unfold ContainsAny. by rewrite negb_false_iff. Qed.

Lemma ContainsAny_app s t chars :
  ContainsAny (s +:+ t) chars = ContainsAny s chars || ContainsAny t chars.
Proof. unfold ContainsAny. by rewrite str_forallb_app, negb_andb. Qed.

(** ** Lemmas: decoding *)

Ltac rune_cases :=
  repeat match goal with
  | |- context [match ?s with EmptyString => _ | String _ _ => _ end] => destruct s
  | |- context [if ?b then _ else _] => destruct b eqn:?
  end; simpl.

Lemma rune_at_ascii b0 s1 : bz b0 < 128 -> rune_at b0 s1 = (bz b0, 0%nat).
Proof. intros. unfold rune_at. by rewrite (proj2 (Z.ltb_lt _ _)) by lia. Qed.

Lemma rune_at_high b0 s1 : 128 <= bz b0 -> 128 <= (rune_at b0 s1).1.
Proof.
  intros H. unfold rune_at, is_cont, RuneError. rune_cases; bsimpl;
    repeat match goal with
    | H : within _ _ _ = true |- _ => apply within_true in H
    | H : (_ =? _) = true |- _ => apply Z.eqb_eq in H
    end; repeat case_match; try lia.
Qed.

(** One step of the loop: the first rune's bytes are a non-empty prefix; an
    ASCII byte decodes to itself and every other rune is above ASCII. *)
Lemma utf8_decode_step b0 s1 : exists r seg rest,
  utf8_decode (String b0 s1) = (r, String b0 seg) :: utf8_decode rest /\
  s1 = seg +:+ rest /\
  (bz b0 < 128 -> r = bz b0 /\ seg = EmptyString) /\
  (128 <= bz b0 -> 128 <= r).
Proof.
  pose proof (rune_at_high b0 s1) as Hhi. pose proof (rune_at_ascii b0 s1) as Hlo.
  cbn [utf8_decode]. destruct (rune_at b0 s1) as [r k]. cbn in Hhi.
  destruct k as [|[|[|[|k]]]];
    repeat match goal with
    | |- context [match ?s with EmptyString => _ | String _ _ => _ end] => destruct s
    end; do 3 eexists; (split; [reflexivity|]); (split; [reflexivity|]);
    (split; [|done]); intros Hb; specialize (Hlo Hb); naive_solver.
Qed.

(** Induction following the decoding loop. *)
Lemma utf8_decode_ind (P : string -> Prop) :
  P EmptyString ->
  (forall b0 r seg rest,
     utf8_decode (String b0 (seg +:+ rest)) = (r, String b0 seg) :: utf8_decode rest ->
     (bz b0 < 128 -> r = bz b0 /\ seg = EmptyString) ->
     (128 <= bz b0 -> 128 <= r) ->
     P rest -> P (String b0 (seg +:+ rest))) ->
  forall s, P s.
Proof.
  intros H0 HS s. remember (String.length s) as n eqn:Hn.
  revert s Hn. induction (lt_wf n) as [n _ IH]. intros [|b0 s1] ->; [done|].
  destruct (utf8_decode_step b0 s1) as (r & seg & rest & Hd & -> & Hlo & Hhi).
  eapply HS; eauto. eapply IH; [|done]. simpl. rewrite length_app_str. lia.
Qed.

(** Decoding loses no byte. *)
Lemma utf8_decode_concat s : str_concat (utf8_decode s).*2 = s.
Proof.
  induction s as [|b0 r seg rest Hd _ _ IH] using utf8_decode_ind; [done|].
  rewrite Hd, fmap_cons. unfold str_concat in *. simpl. by rewrite IH.
Qed.

(** A [for range] loop that only lets ASCII characters through tests the
    bytes. *)
Lemma runes_forallb_ascii (P : Z -> bool) s :
  (forall r, 128 <= r -> P r = false) ->
  forallb P (runes s) = str_forallb (fun c => P (bz c)) s.
Proof.
  intros HP. unfold runes.
  induction s as [|b0 r seg rest Hd Hlo Hhi IH] using utf8_decode_ind; [done|].
  rewrite Hd, fmap_cons. cbn [forallb fst str_forallb].
  destruct (Z_lt_ge_dec (bz b0) 128) as [Hb|Hb].
  - destruct (Hlo Hb) as [-> ->]. by rewrite IH.
  - rewrite !HP by lia. done.
Qed.

(** ASCII strings are their own list of runes. *)
Lemma utf8_decode_ascii s :
  is_ascii s = true -> (utf8_decode s).*2 = (fun c => String c EmptyString) <$> String.list_ascii_of_string s.
Proof.
  induction s as [|b0 r seg rest Hd Hlo Hhi IH] using utf8_decode_ind; [done|].
  unfold is_ascii. cbn [str_forallb]. intros [Hb Hr]%andb_true_iff. bsimpl.
  destruct (Hlo Hb) as [-> ->]. rewrite Hd, !fmap_cons. cbn. f_equal. by apply IH.
Qed.

#[export] Hint Rewrite app_str_nil_r app_str_assoc length_app_str str_forallb_app
  ContainsAny_app TrimPrefix_app HasPrefix_app HasPrefix_refl : airpc_str.

(** ** Examples *)

Example ToLower_ascii : ToLower (UT := ascii_tables) "KiB" = "kib".
Proof. reflexivity. Qed.
Example TrimSpace_both : TrimSpace " a b
 " = "a b".
Proof. reflexivity. Qed.
Example runes_two_bytes : runes (String (zb 195) (String (zb 169) "x")) = [233; 120].
Proof. reflexivity. Qed.
Example runes_invalid : runes (String (zb 255) "x") = [RuneError; 120].
Proof. reflexivity. Qed.

(** ** Sets of characters *)

Lemma str_mem_In c s : str_mem c s = true <-> In c (String.list_ascii_of_string s).
Proof.
  induction s as [|d s IH]; simpl; [done|].
  rewrite orb_true_iff, Ascii.eqb_eq, IH. naive_solver.
Qed.

Lemma str_forallb_In P s :
  str_forallb P s = true <-> forall c, In c (String.list_ascii_of_string s) -> P c = true.
Proof.
  induction s as [|d s IH]; simpl; [done|]. rewrite andb_true_iff, IH. naive_solver.
Qed.

(** None of [chars] occurs in [s]. *)
Definition avoids (chars s : string) : Prop :=
  forall c, In c (String.list_ascii_of_string s) -> ~ In c (String.list_ascii_of_string chars).

Lemma ContainsAny_avoids s chars : ContainsAny s chars = false <-> avoids chars s.
Proof.
  rewrite ContainsAny_false, str_forallb_In. unfold avoids.
  split; intros H c Hc; specialize (H c Hc).
  - intros Hm%str_mem_In. by rewrite Hm in H.
  - apply negb_true_iff, not_true_iff_false. by rewrite str_mem_In.
Qed.

#[export] Hint Rewrite ContainsAny_avoids : airpc_ok.

#[export] Instance avoids_dec chars s : Decision (avoids chars s).
Proof.
  destruct (ContainsAny s chars) eqn:E.
  - right. rewrite <-ContainsAny_avoids, E. done.
  - left. by apply ContainsAny_avoids.
Defined.

Lemma avoids_app chars s t : avoids chars (s +:+ t) <-> avoids chars s /\ avoids chars t.
Proof. by rewrite <-!ContainsAny_avoids, ContainsAny_app, orb_false_iff. Qed.

(** Decoding through an ASCII prefix. *)
Lemma utf8_decode_cons_ascii c s :
  bz c < 128 -> utf8_decode (String c s) = (bz c, String c EmptyString) :: utf8_decode s.
Proof. intros Hc. cbn [utf8_decode]. by rewrite rune_at_ascii. Qed.

(** [strings.Split(s, c)] for a one-byte separator. *)
Fixpoint Split (s : string) (c : ascii) : list string :=
  match s with
  | EmptyString => [EmptyString]
  | String d s' =>
      if Ascii.eqb c d then EmptyString :: Split s' c
      else match Split s' c with
           | [] => [String d EmptyString]
           | t :: ts => String d t :: ts
           end
  end.

Lemma Split_nonempty s c : exists t ts, Split s c = t :: ts.
Proof. destruct s as [|d s]; simpl; [eauto|]. repeat case_match; eauto. Qed.

Lemma Split_app s c t :
  str_mem c s = false -> Split (s +:+ String c t) c = s :: Split t c.
Proof.
  induction s as [|d s IH]; simpl; [by rewrite Ascii.eqb_refl|].
  intros [-> Hs]%orb_false_iff. by rewrite IH.
Qed.

Lemma Split_none s c : str_mem c s = false -> Split s c = [s].
Proof.
  induction s as [|d s IH]; simpl; [done|].
  intros [-> Hs]%orb_false_iff. by rewrite IH.
Qed.

Lemma str_forallb_not_mem P c s :
  P c = false -> str_forallb P s = true -> str_mem c s = false.
Proof.
  intros Hc. induction s as [|d s IH]; simpl; [done|].
  intros [Hd Hs]%andb_true_iff. rewrite IH by done.
  destruct (Ascii.eqb_spec c d) as [->|]; [congruence|done].
Qed.
