(* ===== verification/GoStd.v ===== *)
(** * Go's standard library: [strconv], [net], [net/textproto], [net/http]

    The functions of the standard library the program's own logic rests on,
    other than string handling ([GoString]) and URLs ([GoURL]):
    [strconv.ParseUint]/[ParseInt]/[Atoi] in base ten, [net.SplitHostPort],
    [http.CanonicalHeaderKey] and [http.Header]. *)
From S2P Require Import Prelude GoString.

#[local] Open Scope Z_scope.

(** ** [strconv] *)

Inductive num_error := ErrSyntax | ErrRange.

(** The digit loop of [strconv.ParseUint(s, 10, bitSize)] with
    [maxVal = 1<<bitSize - 1]. *)
Fixpoint parse_digits (maxVal n : Z) (s : string) : res num_error Z :=
  match s with
  | EmptyString => Ok n
  | String c s' =>
      if is_digit (bz c) then
        let n' := n * 10 + (bz c - 48) in
        if maxVal <? n' then Err ErrRange else parse_digits maxVal n' s'
      else Err ErrSyntax
  end.

Definition ParseUint (s : string) (maxVal : Z) : res num_error Z :=
  if String.eqb s "" then Err ErrSyntax else parse_digits maxVal 0 s.

Definition max_uint64 : Z := 18446744073709551615.

(** [strconv.ParseInt(s, 10, 64)]; [strconv.Atoi] returns the same. *)
Definition ParseInt (s : string) : res num_error Z :=
  if String.eqb s "" then Err ErrSyntax
  else
    let '(neg, digits) :=
      match s with
      | String "+" s' => (false, s')
      | String "-" s' => (true, s')
      | _ => (false, s)
      end in
    let cutoff := 9223372036854775808 in
    match ParseUint digits max_uint64 with
    | Err ErrSyntax => Err ErrSyntax
    | Err ErrRange => Err ErrRange
    | Ok un =>
        if negb neg && (cutoff <=? un) then Err ErrRange
        else if neg && (cutoff <? un) then Err ErrRange
        else Ok (if neg then - un else un)
    end.

Definition Atoi : string -> res num_error Z := ParseInt.

(** ** [net.SplitHostPort] *)

Inductive addr_error :=
| MissingPort | TooManyColons | MissingBracket | UnexpectedOpen | UnexpectedClose.

Definition has_byte (s : string) (c : ascii) : bool := str_mem c s.

Definition SplitHostPort (hostport : string) : res addr_error (string * string) :=
  match LastIndexByte hostport ":" with
  | None => Err MissingPort
  | Some i =>
      let finish (host : string) (j k : nat) :=
        if has_byte (str_drop j hostport) "[" then Err UnexpectedOpen
        else if has_byte (str_drop k hostport) "]" then Err UnexpectedClose
        else Ok (host, str_drop (S i) hostport) in
      if HasPrefix hostport "[" then
        match IndexByte hostport "]" with
        | None => Err MissingBracket
        | Some e =>
            if (S e =? String.length hostport)%nat then Err MissingPort
            else if (S e =? i)%nat then
              finish (str_drop 1 (str_take e hostport)) 1%nat (S e)
            else if HasPrefix (str_drop (S e) hostport) ":" then Err TooManyColons
            else Err MissingPort
        end
      else
        let host := str_take i hostport in
        if has_byte host ":" then Err TooManyColons else finish host 0%nat 0%nat
  end.

(** ** [net/textproto] and [net/http] headers *)

(** An RFC 7230 token character: [validHeaderFieldByte]. *)
Definition token_symbols : string := "!#$%&'*+-.^_`|~".
Definition is_token_byte (c : ascii) : bool := is_alnum (bz c) || str_mem c token_symbols.

Definition upper_byte (c : ascii) : ascii :=
  if is_lower (bz c) then zb (bz c - 32) else c.

Fixpoint canon_mime (upper : bool) (s : string) : string :=
  match s with
  | EmptyString => EmptyString
  | String c s' =>
      let c' := if upper then upper_byte c else lower_byte c in
      String c' (canon_mime (Ascii.eqb c' "-") s')
  end.

(** [http.CanonicalHeaderKey]: a name with a byte that is not a token
    character is returned unchanged. *)
Definition CanonicalHeaderKey (s : string) : string :=
  if str_forallb is_token_byte s then canon_mime true s else s.

(** [http.Header]: a nil map and an empty one are the same value here, as are
    a nil and an empty slice of values. *)
Abbreviation Header := (gmap string (list string)).

(** [h.Add(key, value)]. *)
Definition Header_Add (h : Header) (key value : string) : Header :=
  let k := CanonicalHeaderKey key in
  <[k := default [] (h !! k) ++ [value]]> h.

(** [h.Get(key)]: the first value, or [""]. *)
Definition Header_Get (h : Header) (key : string) : string :=
  match h !! CanonicalHeaderKey key with
  | Some (v :: _) => v
  | _ => ""
  end.

(** [for name, values := range h]: Go iterates over a map in an unspecified
    order; [iteration h order] says that [order] is one of them. *)
Definition iteration (h : Header) (order : list (string * list string)) : Prop :=
  order ≡ₚ map_to_list h.

(** ** [time] *)

(** A [time.Time] as the pair of the seconds since year 1 (an [int64]) and the
    nanoseconds within the second. *)
Record Time := mkTime { t_sec : Z; t_nsec : Z }.
Definition unixToInternal : Z := 62135596800.

(** [time.Unix(sec, nsec)]. *)
Definition time_Unix (sec nsec : Z) : Time :=
  let '(sec, nsec) :=
    if (nsec <? 0) || (1000000000 <=? nsec) then
      let n := Z.quot nsec 1000000000 in
      let sec := wrap64 (sec + n) in
      let nsec := nsec - n * 1000000000 in
      if nsec <? 0 then (wrap64 (sec - 1), nsec + 1000000000) else (sec, nsec)
    else (sec, nsec) in
  mkTime (wrap64 (sec + unixToInternal)) nsec.

(** [time.UnixMilli(ms)]. *)
Definition time_UnixMilli (ms : Z) : Time :=
  time_Unix (Z.quot ms 1000) (Z.rem ms 1000 * 1000000).

(** [t.Before(u)]. *)
Definition time_Before (t u : Time) : bool :=
  (t_sec t <? t_sec u) || ((t_sec t =? t_sec u) && (t_nsec t <? t_nsec u)).

(** A positive number of milliseconds is never before the epoch: no [int64]
    wraps on the way. *)
Lemma UnixMilli_not_before ms :
  0 < ms -> int64_range ms -> time_Before (time_UnixMilli ms) (time_Unix 0 0) = false.
Proof.
  unfold int64_range, min_int64, max_int64. intros H0 Hr.
  pose proof (Z.rem_bound_pos ms 1000 ltac:(lia) ltac:(lia)) as Hrem.
  pose proof (Z.quot_pos ms 1000 ltac:(lia) ltac:(lia)) as Hq.
  pose proof (Z.quot_le_upper_bound ms 1000 9223372036854776 ltac:(lia) ltac:(lia)) as Hqu.
  unfold time_UnixMilli, time_Unix, time_Before.
  rewrite (proj2 (Z.ltb_ge (Z.rem ms 1000 * 1000000) 0)) by lia.
  rewrite (proj2 (Z.leb_gt 1000000000 (Z.rem ms 1000 * 1000000))) by lia.
  simpl. rewrite !wrap64_small by (unfold int64_range, min_int64, max_int64, unixToInternal; lia).
  unfold unixToInternal. destruct (_ <? _) eqn:E1; bsimpl; [lia|].
  destruct (_ =? _) eqn:E2; bsimpl; [|done]. simpl. apply Z.ltb_ge. lia.
Qed.

(** ** Identifier characters *)

(** The character class of route names, session ids and connector ids, written
    out in four functions of the source:
    [a-z], [A-Z], [0-9], [_] and [-]. *)
Definition is_ident_rune (r : Z) : bool := is_alnum r || (r =? 95) || (r =? 45).
Definition is_ident_byte (c : ascii) : bool := is_ident_rune (bz c).

(** A non-empty string of identifier bytes. *)
Definition ident (s : string) : Prop := s <> "" /\ str_forallb is_ident_byte s = true.

#[export] Instance ident_dec s : Decision (ident s).
Proof. apply _. Defined.

Lemma runes_ident s : forallb is_ident_rune (runes s) = str_forallb is_ident_byte s.
Proof.
  apply runes_forallb_ascii. intros r Hr.
  unfold is_ident_rune, is_alnum, is_lower, is_upper, is_digit, within.
  repeat match goal with |- context [(?a <=? ?b) ] => destruct (Z.leb_spec a b); try lia end.
  all: simpl; rewrite ?(proj2 (Z.eqb_neq _ _)) by lia; done.
Qed.

(** A non-empty string of RFC 7230 token characters. *)
Definition token (s : string) : Prop := s <> "" /\ str_forallb is_token_byte s = true.

#[export] Instance token_dec s : Decision (token s).
Proof. apply _. Defined.

Lemma ident_token s : ident s -> token s.
Proof.
  intros [Hne Hs]. split; [done|]. eapply str_forallb_impl; [|exact Hs].
  intros c. unfold is_ident_byte, is_ident_rune, is_token_byte.
  rewrite !orb_true_iff, !Z.eqb_eq. intros [[?|Hc]|Hc]; [by left| |]; right;
    [rewrite (bz_inj c "_")|rewrite (bz_inj c "-")]; done.
Qed.

(** Turns the tests of a goal into the propositions they decide, one case
    each. *)
Ltac reflect_guards :=
  repeat match goal with
  | |- context [bool_decide ?P] => destruct (bool_decide_reflect P)
  | |- context [ContainsAny ?s ?cs] =>
      let H := fresh "Hav" in
      destruct (ContainsAny s cs) eqn:H;
      [apply not_false_iff_true in H; rewrite ContainsAny_avoids in H
      |apply ContainsAny_avoids in H]
  | |- context [String.eqb ?a ?b] => destruct (String.eqb_spec a b)
  | |- context [(?a =? ?b)%Z] => destruct (Z.eqb_spec a b)
  | |- context [(?a <? ?b)%Z] => destruct (Z.ltb_spec a b)
  | |- context [(?a <=? ?b)%Z] => destruct (Z.leb_spec a b)
  end; simpl.

(** ** Lemmas *)

Lemma parse_digits_digits maxVal n s v :
  parse_digits maxVal n s = Ok v -> str_forallb (fun c => is_digit (bz c)) s = true.
Proof.
  revert n. induction s as [|c s IH]; intros n; simpl; [done|].
  destruct (is_digit (bz c)); [|done]. destruct (_ <? _); [done|]. apply IH.
Qed.

Lemma parse_digits_bounds maxVal n s v :
  0 <= n <= maxVal -> parse_digits maxVal n s = Ok v -> 0 <= v <= maxVal.
Proof.
  revert n. induction s as [|c s IH]; intros n Hn; simpl; [by intros [= <-]|].
  destruct (is_digit (bz c)) eqn:Hd; [|done].
  apply within_true in Hd. destruct (_ <? _) eqn:Hm; [done|]. bsimpl.
  apply IH. lia.
Qed.

Lemma ParseUint_bounds s maxVal v :
  0 <= maxVal -> ParseUint s maxVal = Ok v -> 0 <= v <= maxVal.
Proof.
  intros Hm. unfold ParseUint. destruct (String.eqb s ""); [done|].
  apply parse_digits_bounds. lia.
Qed.

Lemma ParseUint_digits s maxVal v :
  ParseUint s maxVal = Ok v -> s <> "" /\ str_forallb (fun c => is_digit (bz c)) s = true.
Proof.
  unfold ParseUint. destruct (String.eqb s "") eqn:E; [done|]. bsimpl.
  eauto using parse_digits_digits.
Qed.

Lemma ParseInt_range s v : ParseInt s = Ok v -> int64_range v.
Proof.
  unfold ParseInt, int64_range, min_int64, max_int64.
  destruct (String.eqb s ""); [done|].
  destruct (match s with EmptyString => _ | String _ _ => _ end) as [neg ds].
  destruct (ParseUint ds max_uint64) as [un|[]] eqn:Hu; try done.
  apply ParseUint_bounds in Hu; [|done].
  destruct neg; simpl; guards; intros [= <-]; bsimpl; lia.
Qed.

Lemma upper_byte_token c : is_token_byte c = true -> is_token_byte (upper_byte c) = true.
Proof.
  unfold upper_byte. destruct (is_lower (bz c)) eqn:Hl; [|done]. intros _.
  apply within_true in Hl. unfold is_token_byte, is_alnum, is_upper.
  rewrite bz_zb by lia. rewrite (proj2 (within_true 65 90 (bz c - 32))) by lia.
  by rewrite orb_true_r.
Qed.

Lemma lower_byte_token c : is_token_byte c = true -> is_token_byte (lower_byte c) = true.
Proof.
  unfold lower_byte. destruct (is_upper (bz c)) eqn:Hl; [|done]. intros _.
  apply within_true in Hl. unfold is_token_byte, is_alnum, is_lower.
  rewrite bz_zb by lia. by rewrite (proj2 (within_true 97 122 (bz c + 32))) by lia.
Qed.

Lemma upper_lower_byte_idem c :
  upper_byte (upper_byte c) = upper_byte c /\ lower_byte (lower_byte c) = lower_byte c.
Proof.
  unfold upper_byte, lower_byte, is_lower, is_upper. split.
  - destruct (within 97 122 (bz c)) eqn:E; [|by rewrite E]. apply within_true in E.
    rewrite bz_zb by lia. destruct (within 97 122 _) eqn:E'; [|done].
    apply within_true in E'. lia.
  - destruct (within 65 90 (bz c)) eqn:E; [|by rewrite E]. apply within_true in E.
    rewrite bz_zb by lia. destruct (within 65 90 _) eqn:E'; [|done].
    apply within_true in E'. lia.
Qed.

Lemma canon_mime_token u s :
  str_forallb is_token_byte s = true -> str_forallb is_token_byte (canon_mime u s) = true.
Proof.
  revert u. induction s as [|c s IH]; intros u; simpl; [done|].
  rewrite !andb_true_iff. intros [Hc Hs]. split; [|by apply IH].
  destruct u; auto using upper_byte_token, lower_byte_token.
Qed.

Lemma canon_mime_idem u s : canon_mime u (canon_mime u s) = canon_mime u s.
Proof.
  revert u. induction s as [|c s IH]; intros u; simpl; [done|].
  destruct (upper_lower_byte_idem c) as [Hu Hl].
  destruct u; rewrite ?Hu, ?Hl, IH; done.
Qed.

Lemma CanonicalHeaderKey_idem s : CanonicalHeaderKey (CanonicalHeaderKey s) = CanonicalHeaderKey s.
Proof.
  unfold CanonicalHeaderKey. destruct (str_forallb is_token_byte s) eqn:E; [|by rewrite E].
  by rewrite canon_mime_token, canon_mime_idem.
Qed.

#[export] Hint Rewrite CanonicalHeaderKey_idem : airpc_str.

(** ** Examples *)

Example SplitHostPort_ipv6 : SplitHostPort "[::1]:8080" = Ok ("::1", "8080").
Proof. reflexivity. Qed.
Example SplitHostPort_bracket_only : SplitHostPort "[::1]" = Err MissingPort.
Proof. reflexivity. Qed.
Example ParseInt_min : ParseInt "-9223372036854775808" = Ok min_int64.
Proof. reflexivity. Qed.
Example CanonicalHeaderKey_ex : CanonicalHeaderKey "x-rEQUEST-id" = "X-Request-Id".
Proof. reflexivity. Qed.
