(* ===== verification/GoQuery.v ===== *)
(** * Go's net/url, queries

    [url.Values], [u.Query()] and [Values.Encode], as [startTunnelClient]
    ([internal/connector/data.go]) writes and the data endpoint
    ([internal/edge/data.go]) reads them. *)
From S2P Require Import Prelude GoString GoURL.
From stdpp Require Import sorting.

#[local] Open Scope Z_scope.

(** [url.Values]: a map from keys to lists of values. *)
Abbreviation Values := (gmap string (list string)).

Definition Values_Get (v : Values) (key : string) : string :=
  match v !! key with
  | Some (x :: _) => x
  | _ => ""
  end.

Definition Values_Set (key value : string) (v : Values) : Values := <[key := [value]]> v.

(** [m[key] = append(m[key], value)]. *)
Definition Values_append (key value : string) (v : Values) : Values :=
  <[key := default [] (v !! key) ++ [value]]> v.

Definition QueryEscape (s : string) : string := escape s encodeQueryComponent.
Definition QueryUnescape (s : string) : res url_error string := unescape s encodeQueryComponent.

(** ** Reading *)

(** One [key=value] of a query: what [parseQuery] adds to the map, errors being
    skipped over by [Query]. *)
Definition query_pair (piece : string) (v : Values) : Values :=
  if str_mem ";" piece then v
  else if String.eqb piece "" then v
  else
    let '(key, value, _) := Cut piece "=" in
    match QueryUnescape key with
    | Err _ => v
    | Ok key =>
        match QueryUnescape value with
        | Err _ => v
        | Ok value => Values_append key value v
        end
    end.

(** [u.Query()]. *)
Definition Query (rawQuery : string) : Values :=
  if String.eqb rawQuery "" then ∅
  else foldl (fun v piece => query_pair piece v) ∅ (Split rawQuery "&").

(** ** Writing *)

Definition encode_pair (key value : string) : string := QueryEscape key +:+ "=" +:+ QueryEscape value.

(** What [buf] becomes when a pair is written. *)
Definition write_pair (buf pair : string) : string :=
  if String.eqb buf "" then pair else buf +:+ "&" +:+ pair.

Definition string_le (s t : string) : Prop := String.leb s t = true.

#[export] Instance string_le_dec : RelDecision string_le.
Proof. intros s t. unfold string_le. apply _. Defined.

(** [v.Encode()]: the keys in order, each with its values. *)
Definition Encode (v : Values) : string :=
  foldl write_pair ""
    (concat (map (fun key => map (encode_pair key) (default [] (v !! key)))
       (merge_sort string_le (map_to_list v).*1))).

(** ** Lemmas *)

Lemma query_unescape_step c s :
  c <> "%"%char -> c <> "+"%char ->
  QueryUnescape (String c s) = let? t := QueryUnescape s in Ok (String c t).
Proof.
  intros Hc Hp. unfold QueryUnescape. destruct c as [[] [] [] [] [] [] [] []]; try reflexivity; congruence.
Qed.

Lemma query_unreserved c :
  shouldEscape c encodeQueryComponent = false ->
  c <> "%"%char /\ c <> "+"%char /\ c <> "&"%char /\ c <> "="%char /\ c <> ";"%char /\ query_byte c = true.
Proof. destruct c as [[] [] [] [] [] [] [] []]; vm_compute; intros; split_and!; congruence. Qed.

(** Escaping a query component is undone by unescaping it. *)
Lemma QueryUnescape_escape s : QueryUnescape (QueryEscape s) = Ok s.
Proof.
  unfold QueryEscape. induction s as [|c s IH]; [done|]. cbn [escape]. rewrite andb_true_r.
  destruct (Ascii.eqb_spec c " ") as [->|Hsp].
  { unfold QueryUnescape in *. cbn [unescape]. by rewrite IH. }
  destruct (shouldEscape c encodeQueryComponent) eqn:E.
  - unfold QueryUnescape in *. pose proof (bz_range c) as Hc. cbn [unescape]. rewrite !unhex_upperhex
      by (split; [apply Z.mod_pos_bound || apply Z.div_pos; lia|
                  apply Z.mod_pos_bound || apply Z.div_lt_upper_bound; lia]).
    rewrite IH. rewrite (Z.mul_comm _ 16), <-Z.div_mod, zb_bz by lia. done.
  - destruct (query_unreserved c E) as (? & ? & _). rewrite query_unescape_step by done. by rewrite IH.
Qed.

(** An escaped component holds no separator. *)
Definition component_byte (c : ascii) : bool :=
  query_byte c && negb (str_mem c "&=;").

Lemma upperhex_cases z : 0 <= z < 16 -> exists c, upperhex z = c /\ In c (String.list_ascii_of_string "0123456789ABCDEF").
Proof.
  intros Hz. eexists. split; [done|].
  assert (Hcase : z = 0 \/ z = 1 \/ z = 2 \/ z = 3 \/ z = 4 \/ z = 5 \/ z = 6 \/ z = 7 \/
    z = 8 \/ z = 9 \/ z = 10 \/ z = 11 \/ z = 12 \/ z = 13 \/ z = 14 \/ z = 15) by lia.
  repeat destruct Hcase as [->|Hcase]; try (vm_compute; tauto). subst. vm_compute. tauto.
Qed.

Lemma QueryEscape_bytes s : str_forallb component_byte (QueryEscape s) = true.
Proof.
  apply escape_forallb; [done|done| |].
  - intros z (c & -> & Hin)%upperhex_cases. cbn in Hin. by intuition subst.
  - intros c. destruct c as [[] [] [] [] [] [] [] []]; vm_compute; congruence.
Qed.

Lemma QueryEscape_avoids c s : component_byte c = false -> str_mem c (QueryEscape s) = false.
Proof. apply str_forallb_mem, QueryEscape_bytes. Qed.

(** A written pair is read back. *)
Lemma query_pair_encode key value v : query_pair (encode_pair key value) v = Values_append key value v.
Proof.
  unfold query_pair, encode_pair.
  rewrite !str_mem_app, !(QueryEscape_avoids ";") by done. cbn [str_mem Ascii.eqb orb].
  assert (Hne : String.eqb (QueryEscape key +:+ "=" +:+ QueryEscape value) "" = false) by (by destruct (QueryEscape key)).
  rewrite Hne. change ("=" +:+ QueryEscape value) with (String "=" (QueryEscape value)).
  rewrite Cut_app by (by apply QueryEscape_avoids). by rewrite !QueryUnescape_escape.
Qed.

Lemma write_pairs_app buf p ps :
  buf <> "" -> p <> "" -> foldl write_pair (buf +:+ "&" +:+ p) ps = buf +:+ "&" +:+ foldl write_pair p ps.
Proof.
  intros Hb. revert p. induction ps as [|q ps IH]; intros p Hp; [done|]. cbn [foldl].
  assert (H1 : write_pair (buf +:+ "&" +:+ p) q = buf +:+ "&" +:+ (p +:+ "&" +:+ q)).
  { unfold write_pair. rewrite (proj2 (String.eqb_neq _ _)) by (by destruct buf). by rewrite !app_str_assoc. }
  assert (H2 : write_pair p q = p +:+ "&" +:+ q) by (unfold write_pair; by rewrite (proj2 (String.eqb_neq _ _) Hp)).
  rewrite H1, H2. apply IH. by destruct p.
Qed.

Lemma Split_write_pairs p ps :
  Forall (fun q => q <> "" /\ str_mem "&" q = false) (p :: ps) ->
  Split (foldl write_pair p ps) "&" = p :: ps.
Proof.
  revert p. induction ps as [|q ps IH]; intros p [[Hp Hm] Hps]%list.Forall_cons; [by apply Split_none|].
  cbn [foldl]. pose proof Hps as [[Hq _] _]%list.Forall_cons.
  assert (H : write_pair p q = p +:+ "&" +:+ q) by (unfold write_pair; by rewrite (proj2 (String.eqb_neq _ _) Hp)).
  rewrite H, write_pairs_app by done. change ("&" +:+ ?s) with (String "&" s). rewrite Split_app by done. by rewrite IH.
Qed.

Lemma encode_pair_ok key value :
  encode_pair key value <> "" /\ str_mem "&" (encode_pair key value) = false.
Proof.
  unfold encode_pair. split; [by destruct (QueryEscape key)|].
  by rewrite !str_mem_app, !QueryEscape_avoids.
Qed.

(** Reading written pairs adds them one by one. *)
Lemma Query_write_pairs (pairs : list (string * string)) :
  Query (foldl write_pair "" (map (fun kv => encode_pair kv.1 kv.2) pairs)) =
    foldl (fun v kv => Values_append kv.1 kv.2 v) ∅ pairs.
Proof.
  destruct pairs as [|[k x] pairs]; [done|]. cbn [map foldl fst snd].
  change (write_pair "" (encode_pair k x)) with (encode_pair k x).
  set (ps := map _ pairs). set (s := foldl write_pair (encode_pair k x) ps).
  assert (Hall : Forall (fun q => q <> "" /\ str_mem "&" q = false) (encode_pair k x :: ps)).
  { constructor; [apply encode_pair_ok|]. apply list.Forall_forall. intros q Hq%list_elem_of_In.
    unfold ps in Hq. apply in_map_iff in Hq as (kv & <- & _). apply encode_pair_ok. }
  pose proof (Split_write_pairs _ _ Hall) as Hs. fold s in Hs.
  unfold Query. destruct (String.eqb_spec s "") as [E|_].
  { rewrite E in Hs. destruct (encode_pair_ok k x) as [Hne _]. destruct Hne. by injection Hs as <- _. }
  rewrite Hs. cbn [foldl]. rewrite query_pair_encode. generalize (Values_append k x ∅). subst ps. clear.
  induction pairs as [|[k x] pairs IH]; intros v; [done|]. cbn [map foldl fst snd]. by rewrite query_pair_encode, IH.
Qed.

Lemma append_values key vs v :
  vs <> [] ->
  foldl (fun v kv => Values_append kv.1 kv.2 v) v (map (pair key) vs) = <[key := default [] (v !! key) ++ vs]> v.
Proof.
  revert v. induction vs as [|x vs IH]; intros v Hne; [done|]. cbn [map foldl fst snd].
  destruct vs as [|y vs]; [done|]. rewrite IH by done. unfold Values_append.
  rewrite lookup_insert_eq, insert_insert_eq. cbn. by rewrite <- app_assoc.
Qed.

(** The values of a list of distinct keys of [v], read into a map without them. *)
Lemma append_keys (v : Values) keys acc :
  NoDup keys -> (forall k, k ∈ keys -> acc !! k = None /\ exists vs, v !! k = Some vs /\ vs <> []) ->
  forall k, foldl (fun v kv => Values_append kv.1 kv.2 v) acc
    (concat (map (fun key => map (pair key) (default [] (v !! key))) keys)) !! k =
    if bool_decide (k ∈ keys) then v !! k else acc !! k.
Proof.
  revert acc. induction keys as [|key keys IH]; intros acc Hnd H k; [done|].
  apply list.NoDup_cons in Hnd as [Hni Hnd]. cbn [map concat]. rewrite foldl_app.
  destruct (H key) as (Hacc & vs & Hv & Hne); [by left|]. rewrite Hv. cbn [default]. rewrite append_values by done.
  rewrite Hacc. cbn [default app]. rewrite IH; [|done|].
  - destruct (decide (k = key)) as [->|Hk].
    + rewrite bool_decide_eq_false_2, lookup_insert_eq by done. by rewrite bool_decide_eq_true_2 by (by left).
    + rewrite lookup_insert_ne by done. destruct (decide (k ∈ keys)) as [Hin|Hout].
      * by rewrite !bool_decide_eq_true_2 by (by right || done).
      * rewrite !bool_decide_eq_false_2; [done|by intros [->|?]%elem_of_cons|done].
  - intros k' Hk'. assert (k' <> key) by (by intros ->). rewrite lookup_insert_ne by done.
    apply H. by right.
Qed.

(** Encoding is undone by reading, for a map whose keys all have a value. *)
Lemma Query_Encode v : (forall k vs, v !! k = Some vs -> vs <> []) -> Query (Encode v) = v.
Proof.
  intros Hne. unfold Encode. set (keys := merge_sort string_le (map_to_list v).*1).
  assert (Hk : forall k, k ∈ keys <-> is_Some (v !! k)).
  { intros k. unfold keys. rewrite merge_sort_Permutation, list_elem_of_fmap. split.
    - intros ([k' vs] & -> & Hin). apply elem_of_map_to_list in Hin. by eexists.
    - intros [vs Hv]. exists (k, vs). split; [done|]. by apply elem_of_map_to_list. }
  assert (Hnd : NoDup keys) by (unfold keys; rewrite merge_sort_Permutation; apply NoDup_fst_map_to_list).
  assert (Hmap : map (fun key => map (encode_pair key) (default [] (v !! key))) keys =
    map (map (fun kv : string * string => encode_pair kv.1 kv.2)) (map (fun key => map (pair key) (default [] (v !! key))) keys)).
  { rewrite map_map. apply map_ext. intros k. by rewrite map_map. }
  rewrite Hmap, <- concat_map, Query_write_pairs. apply map_eq. intros k.
  rewrite append_keys; [|done|].
  - destruct (decide (k ∈ keys)) as [H|H]; [by rewrite bool_decide_eq_true_2|].
    rewrite bool_decide_eq_false_2 by done. symmetry. apply eq_None_not_Some. by rewrite <- Hk.
  - intros k' [vs Hv]%Hk. split; [done|]. exists vs. split; [done|by apply (Hne k')].
Qed.

(** Every key that was read has a value. *)
Lemma Query_nonempty q k vs : Query q !! k = Some vs -> vs <> [].
Proof.
  unfold Query. destruct (String.eqb q ""); [done|]. generalize (Split q "&").
  assert (H : forall l v, (forall k vs, v !! k = Some vs -> vs <> []) ->
    forall k vs, foldl (fun v piece => query_pair piece v) v l !! k = Some vs -> vs <> []).
  { induction l as [|piece l IH]; intros v Hv; [done|]. cbn [foldl]. apply IH. intros k' vs'.
    unfold query_pair. destruct (str_mem ";" piece); [apply Hv|]. destruct (String.eqb piece ""); [apply Hv|].
    destruct (Cut piece "=") as [[x y] b]. destruct (QueryUnescape x) as [x'|]; [|apply Hv].
    destruct (QueryUnescape y) as [y'|]; [|apply Hv]. unfold Values_append. rewrite lookup_insert.
    destruct (decide _); [|apply Hv]. intros [= <-]. by intros [_ ?]%app_eq_nil. }
  intros l. by apply H.
Qed.

Lemma Values_Get_Set key value v : Values_Get (Values_Set key value v) key = value.
Proof. unfold Values_Get, Values_Set. by rewrite lookup_insert_eq. Qed.

Lemma Values_Get_Set_ne key key' value v : key <> key' -> Values_Get (Values_Set key value v) key' = Values_Get v key'.
Proof. intros H. unfold Values_Get, Values_Set. by rewrite lookup_insert_ne. Qed.

(** What is written can be the query of a URL. *)
Lemma Encode_bytes v : str_forallb query_byte (Encode v) = true.
Proof.
  unfold Encode. set (pairs := concat _).
  assert (H : Forall (fun p => str_forallb query_byte p = true) pairs).
  { apply list.Forall_forall. intros p Hp%list_elem_of_In. unfold pairs in Hp.
    apply in_concat in Hp as (l & Hl & Hp). apply in_map_iff in Hl as (k & <- & _).
    apply in_map_iff in Hp as (x & <- & _). unfold encode_pair. rewrite !str_forallb_app.
    assert (He : forall s, str_forallb query_byte (QueryEscape s) = true).
    { intros s. eapply str_forallb_impl; [|apply QueryEscape_bytes]. by intros c [? _]%andb_true_iff. }
    by rewrite !He. }
  clearbody pairs. assert (Hb : str_forallb query_byte "" = true) by done. revert Hb. generalize "" as buf.
  induction H as [|p pairs Hp _ IH]; intros buf Hb; [done|]. cbn [foldl]. apply IH. unfold write_pair.
  destruct (String.eqb buf ""); [done|]. by rewrite !str_forallb_app, Hb, Hp.
Qed.

Example Encode_example :
  Encode (Values_Set "connector_id" "a b" (Query "x=1&x=2&a=%26")) = "a=%26&connector_id=a+b&x=1&x=2".
Proof. vm_compute. reflexivity. Qed.
