(* ===== verification/Msgpack.v ===== *)
(** * The MessagePack codec

    [github.com/vmihailenco/msgpack] is not part of the repository: what the
    program relies on is stated here as an interface, a pair of functions per
    message type and the law that unmarshalling undoes marshalling.  The
    envelope files are parameterised by an implementation.  A generic one,
    from the countability of the message type, shows that the interface can be
    met and evaluates the examples. *)
From S2P Require Import Prelude GoString.

(** What [msgpack.Marshal] and [msgpack.Unmarshal] may fail with. *)
Inductive msgpack_error := MsgpackError.

Class Msgpack (A : Type) := {
  Marshal : A -> res msgpack_error string;
  Unmarshal : string -> res msgpack_error A
}.

(** The documented behaviour: the message types of the program (integers,
    strings, byte slices, maps of strings) are marshalled without an error,
    and decoding an encoding gives the value back, nil and empty slices and
    maps being the same value in the model. *)
Class MsgpackLaws (A : Type) `{Msgpack A} := {
  marshal_total : forall a : A, exists bs, Marshal a = Ok bs;
  unmarshal_marshal : forall (a : A) bs, Marshal a = Ok bs -> Unmarshal bs = Ok a
}.

(** The error of an encoder or decoder of the program: the envelope does not
    validate, or the codec fails. *)
Inductive envelope_error (E : Type) :=
| Invalid (e : E)
| Codec (e : msgpack_error).
Arguments Invalid {E} e.
Arguments Codec {E} e.

(** ** Validated codecs *)

(** Every [EncodeX]/[DecodeX] pair of the source has this shape: validate then
    marshal, unmarshal then validate. *)
Section Validated.
Context {A E : Type} `{!Msgpack A} (validate : A -> res E unit).

Definition encode_validated (a : A) : res (envelope_error E) string :=
  match validate a with
  | Err e => Err (Invalid e)
  | Ok _ => match Marshal a with Ok bs => Ok bs | Err e => Err (Codec e) end
  end.

Definition decode_validated (data : string) : res (envelope_error E) A :=
  match Unmarshal data with
  | Err e => Err (Codec e)
  | Ok a => match validate a with Ok _ => Ok a | Err e => Err (Invalid e) end
  end.

(** Whatever the codec returns, an accepted envelope is valid. *)
Lemma decode_validated_valid data a :
  decode_validated data = Ok a -> validate a = Ok tt.
Proof.
  unfold decode_validated. destruct (Unmarshal data); [|done].
  destruct (validate a0) as [[]|] eqn:Hv; [|done]. by intros [= <-].
Qed.

Lemma encode_validated_valid a bs :
  encode_validated a = Ok bs -> validate a = Ok tt.
Proof. unfold encode_validated. by destruct (validate a) as [[]|]. Qed.

Lemma encode_validated_total `{!MsgpackLaws A} a :
  validate a = Ok tt -> exists bs, encode_validated a = Ok bs.
Proof.
  intros Hv. unfold encode_validated. rewrite Hv.
  destruct (marshal_total a) as [bs ->]. by exists bs.
Qed.

Lemma decode_encode_validated `{!MsgpackLaws A} a bs :
  encode_validated a = Ok bs -> decode_validated bs = Ok a.
Proof.
  unfold encode_validated, decode_validated.
  destruct (validate a) as [[]|] eqn:Hv; [|done].
  destruct (Marshal a) as [bs'|] eqn:Hm; [|done]. intros [= <-].
  by rewrite (unmarshal_marshal a bs'), Hv.
Qed.
End Validated.

(** ** A codec for countable message types *)

Fixpoint pos_bits (p : positive) : string :=
  match p with
  | xH => EmptyString
  | xO p' => String "0" (pos_bits p')
  | xI p' => String "1" (pos_bits p')
  end.

Fixpoint bits_pos (s : string) : option positive :=
  match s with
  | EmptyString => Some xH
  | String "0" s' => xO <$> bits_pos s'
  | String "1" s' => xI <$> bits_pos s'
  | _ => None
  end.

Lemma bits_pos_bits p : bits_pos (pos_bits p) = Some p.
Proof. induction p as [p IH|p IH|]; simpl; rewrite ?IH; done. Qed.

Section CountableCodec.
Context {A : Type} `{Countable A}.

Definition countable_msgpack : Msgpack A := {|
  Marshal a := Ok (pos_bits (encode a));
  Unmarshal s :=
    match bits_pos s with
    | Some p => match decode p with Some a => Ok a | None => Err MsgpackError end
    | None => Err MsgpackError
    end
|}.

Lemma countable_msgpack_laws : @MsgpackLaws A countable_msgpack.
Proof.
  split; simpl; [eauto|]. intros a bs [= <-]. by rewrite bits_pos_bits, decode_encode.
Qed.
End CountableCodec.

(** ** The contract of a validated codec *)

(** What an [EncodeX]/[DecodeX] pair promises for a well-formedness predicate
    its validator decides: exactly the well-formed values are encoded, decoding
    gives them back, and nothing else is ever accepted from the wire. *)
Record codec_contract {A E : Type} (wf : A -> Prop)
    (enc : A -> res (envelope_error E) string)
    (dec : string -> res (envelope_error E) A) : Prop := {
  contract_roundtrip : forall a, wf a -> exists bs, enc a = Ok bs /\ dec bs = Ok a;
  contract_reject : forall a, ~ wf a -> exists e, enc a = Err (Invalid e);
  contract_sound : forall bs a, dec bs = Ok a -> wf a
}.

Lemma validated_contract {A E : Type} `{MsgpackLaws A} (validate : A -> res E unit) wf :
  (forall a, validate a = Ok tt <-> wf a) ->
  codec_contract wf (encode_validated validate) (decode_validated validate).
Proof.
  intros Hv. split.
  - intros a Hwf. destruct (encode_validated_total validate a) as [bs Hbs]; [by apply Hv|].
    exists bs. split; [done|]. by apply decode_encode_validated.
  - intros a Hnwf. unfold encode_validated.
    destruct (validate a) as [[]|e] eqn:Hva; [|by exists e]. by apply Hv in Hva.
  - intros bs a Hd. apply Hv. by eapply decode_validated_valid.
Qed.
