(* ===== verification/TunnelEnvelope.v ===== *)
(** * The data-tunnel protocol messages

    [internal/protocol/tunnel/envelope.go]: the frame multiplexed on the data
    WebSocket and the two messages that negotiate a session over NATS, their
    validation and their codec. *)
From S2P Require Import Prelude GoString GoStd Msgpack.

#[local] Open Scope Z_scope.

Definition Version : Z := 1.

(** ** Wire constants *)

Definition FrameOpen : string := "open".
Definition FrameData : string := "data".
Definition FrameEOF : string := "eof".
Definition FrameWindow : string := "window".
Definition FrameClose : string := "close".
Definition FrameError : string := "error".

Definition KindTCP : string := "tcp".
Definition KindWebSocket : string := "websocket".
Definition KindGRPC : string := "grpc".
Definition KindHTTPStream : string := "http-stream".

Definition DataBinary : string := "binary".
Definition DataText : string := "text".

Definition ErrTunnelNotConnected : string := "connector data tunnel is not connected".

(** ** Messages *)

Record Frame := mkFrame {
  Frame_Version : Z;
  Frame_Type : string;
  Frame_SessionID : string;
  Frame_Route : string;
  Frame_Kind : string;
  Frame_DataKind : string;
  Frame_Payload : string;
  Frame_Window : Z;
  Frame_CloseCode : Z;
  Frame_Error : string
}.

Record OpenRequest := mkOpenRequest {
  OpenRequest_Version : Z;
  OpenRequest_RequestID : string;
  OpenRequest_SessionID : string;
  OpenRequest_Route : string;
  OpenRequest_Kind : string;
  OpenRequest_Path : string;
  OpenRequest_DeadlineUnixMS : Z
}.

Record OpenResponse := mkOpenResponse {
  OpenResponse_Version : Z;
  OpenResponse_RequestID : string;
  OpenResponse_Accepted : bool;
  OpenResponse_ConnectorID : string;
  OpenResponse_Error : string
}.

#[export] Instance Frame_eq_dec : EqDecision Frame.
Proof. solve_decision. Defined.
#[export] Instance OpenRequest_eq_dec : EqDecision OpenRequest.
Proof. solve_decision. Defined.
#[export] Instance OpenResponse_eq_dec : EqDecision OpenResponse.
Proof. solve_decision. Defined.

(** ** Validation *)

Inductive tunnel_error :=
| VersionUnsupported (v : Z)
| SessionIDInvalid (s : string)
| RequestIDInvalid (s : string)
| ConnectorIDInvalid (s : string)
| RouteInvalid (s : string)
| KindInvalid (s : string)
| DataKindInvalid (s : string)
| WindowInvalid (w : Z)
| CloseCodeInvalid (c : Z)
| ErrorTextInvalid
| PathInvalid
| DeadlineInvalid
| TypeInvalid (s : string).

(** The loop [for _, r := range s] of [validToken] accepts the runes of the
    identifier class only. *)
Definition validToken (s : string) : bool :=
  if String.eqb s "" then false else forallb is_ident_rune (runes s).

Definition validateRouteAndKind (route kind : string) : res tunnel_error unit :=
  if negb (validToken route) then Err (RouteInvalid route)
  else if String.eqb kind KindTCP || String.eqb kind KindWebSocket ||
          String.eqb kind KindGRPC || String.eqb kind KindHTTPStream
  then Ok tt
  else Err (KindInvalid kind).

Definition Frame_Validate (f : Frame) : res tunnel_error unit :=
  if negb (Frame_Version f =? Version) then Err (VersionUnsupported (Frame_Version f))
  else if negb (validToken (Frame_SessionID f)) then Err (SessionIDInvalid (Frame_SessionID f))
  else if String.eqb (Frame_Type f) FrameOpen then
    let? _ := validateRouteAndKind (Frame_Route f) (Frame_Kind f) in Ok tt
  else if String.eqb (Frame_Type f) FrameData then
    if negb (String.eqb (Frame_DataKind f) "") && negb (String.eqb (Frame_DataKind f) DataBinary) &&
       negb (String.eqb (Frame_DataKind f) DataText)
    then Err (DataKindInvalid (Frame_DataKind f)) else Ok tt
  else if String.eqb (Frame_Type f) FrameEOF then Ok tt
  else if String.eqb (Frame_Type f) FrameWindow then
    if Frame_Window f <=? 0 then Err (WindowInvalid (Frame_Window f)) else Ok tt
  else if String.eqb (Frame_Type f) FrameClose then
    if negb (Frame_CloseCode f =? 0) && ((Frame_CloseCode f <? 1000) || (4999 <? Frame_CloseCode f))
    then Err (CloseCodeInvalid (Frame_CloseCode f)) else Ok tt
  else if String.eqb (Frame_Type f) FrameError then
    if String.eqb (Frame_Error f) "" || ContainsAny (Frame_Error f) crlf
    then Err ErrorTextInvalid else Ok tt
  else Err (TypeInvalid (Frame_Type f)).

Definition OpenRequest_Validate (r : OpenRequest) : res tunnel_error unit :=
  if negb (OpenRequest_Version r =? Version) then Err (VersionUnsupported (OpenRequest_Version r))
  else if negb (validToken (OpenRequest_RequestID r)) then Err (RequestIDInvalid (OpenRequest_RequestID r))
  else if negb (validToken (OpenRequest_SessionID r)) then Err (SessionIDInvalid (OpenRequest_SessionID r))
  else
    let? _ := validateRouteAndKind (OpenRequest_Route r) (OpenRequest_Kind r) in
    if negb (String.eqb (OpenRequest_Path r) "") &&
       (negb (HasPrefix (OpenRequest_Path r) "/") ||
        ContainsAny (OpenRequest_Path r) (crlf +:+ "#"))
    then Err PathInvalid
    else if (OpenRequest_DeadlineUnixMS r <=? 0) ||
            time_Before (time_UnixMilli (OpenRequest_DeadlineUnixMS r)) (time_Unix 0 0)
    then Err DeadlineInvalid
    else Ok tt.

Definition OpenResponse_Validate (r : OpenResponse) : res tunnel_error unit :=
  if negb (OpenResponse_Version r =? Version) then Err (VersionUnsupported (OpenResponse_Version r))
  else if negb (validToken (OpenResponse_RequestID r)) then Err (RequestIDInvalid (OpenResponse_RequestID r))
  else if OpenResponse_Accepted r then
    if negb (validToken (OpenResponse_ConnectorID r))
    then Err (ConnectorIDInvalid (OpenResponse_ConnectorID r)) else Ok tt
  else if String.eqb (OpenResponse_Error r) "" || ContainsAny (OpenResponse_Error r) crlf
  then Err ErrorTextInvalid
  else Ok tt.

(** ** Codecs *)

Section Codecs.
Context {MF : Msgpack Frame} {MQ : Msgpack OpenRequest} {MR : Msgpack OpenResponse}.

Definition EncodeFrame : Frame -> res (envelope_error tunnel_error) string :=
  encode_validated Frame_Validate.
Definition DecodeFrame : string -> res (envelope_error tunnel_error) Frame :=
  decode_validated Frame_Validate.
Definition EncodeOpenRequest : OpenRequest -> res (envelope_error tunnel_error) string :=
  encode_validated OpenRequest_Validate.
Definition DecodeOpenRequest : string -> res (envelope_error tunnel_error) OpenRequest :=
  decode_validated OpenRequest_Validate.
Definition EncodeOpenResponse : OpenResponse -> res (envelope_error tunnel_error) string :=
  encode_validated OpenResponse_Validate.
Definition DecodeOpenResponse : string -> res (envelope_error tunnel_error) OpenResponse :=
  decode_validated OpenResponse_Validate.
End Codecs.

(** [NewFrame(frameType, sessionID)], and the frame literals of the source,
    which name the version, the type, the session id and one more group of
    fields. *)
Definition NewFrame (frameType sessionID : string) : Frame :=
  mkFrame Version frameType sessionID "" "" "" "" 0 0 "".
Definition openFrame (sessionID route kind payload : string) : Frame :=
  mkFrame Version FrameOpen sessionID route kind "" payload 0 0 "".
Definition dataFrame (sessionID dataKind payload : string) : Frame :=
  mkFrame Version FrameData sessionID "" "" dataKind payload 0 0 "".
Definition eofFrame (sessionID : string) : Frame := NewFrame FrameEOF sessionID.
Definition windowFrame (sessionID : string) (n : Z) : Frame :=
  mkFrame Version FrameWindow sessionID "" "" "" "" n 0 "".
Definition closeFrame (sessionID : string) (code : Z) (text : string) : Frame :=
  mkFrame Version FrameClose sessionID "" "" "" text 0 code "".
Definition errorFrame (sessionID message : string) : Frame :=
  mkFrame Version FrameError sessionID "" "" "" "" 0 0 message.

(** ** What the validators promise *)

Definition session_kind (k : string) : Prop :=
  k = KindTCP \/ k = KindWebSocket \/ k = KindGRPC \/ k = KindHTTPStream.

(** The fields a frame of each type must have. *)
Definition frame_body_wf (f : Frame) : Prop :=
  (Frame_Type f = FrameOpen /\ ident (Frame_Route f) /\ session_kind (Frame_Kind f)) \/
  (Frame_Type f = FrameData /\
     (Frame_DataKind f = "" \/ Frame_DataKind f = DataBinary \/ Frame_DataKind f = DataText)) \/
  Frame_Type f = FrameEOF \/
  (Frame_Type f = FrameWindow /\ 0 < Frame_Window f) \/
  (Frame_Type f = FrameClose /\ (Frame_CloseCode f = 0 \/ 1000 <= Frame_CloseCode f <= 4999)) \/
  (Frame_Type f = FrameError /\ Frame_Error f <> "" /\ avoids crlf (Frame_Error f)).

Definition frame_wf (f : Frame) : Prop :=
  Frame_Version f = Version /\ ident (Frame_SessionID f) /\ frame_body_wf f.

Definition open_request_wf (r : OpenRequest) : Prop :=
  OpenRequest_Version r = Version /\
  ident (OpenRequest_RequestID r) /\ ident (OpenRequest_SessionID r) /\
  ident (OpenRequest_Route r) /\ session_kind (OpenRequest_Kind r) /\
  (OpenRequest_Path r = "" \/
   HasPrefix (OpenRequest_Path r) "/" = true /\ avoids (crlf +:+ "#") (OpenRequest_Path r)) /\
  0 < OpenRequest_DeadlineUnixMS r.

Definition open_response_wf (r : OpenResponse) : Prop :=
  OpenResponse_Version r = Version /\ ident (OpenResponse_RequestID r) /\
  (if OpenResponse_Accepted r then ident (OpenResponse_ConnectorID r)
   else OpenResponse_Error r <> "" /\ avoids crlf (OpenResponse_Error r)).

Lemma validToken_decide s : validToken s = bool_decide (ident s).
Proof.
  unfold validToken. rewrite runes_ident.
  destruct (String.eqb_spec s ""), (str_forallb is_ident_byte s) eqn:E;
    case_bool_decide as H; unfold ident in H; intuition congruence.
Qed.

Lemma validToken_ident s : validToken s = true <-> ident s.
Proof. rewrite validToken_decide. apply bool_decide_eq_true. Qed.

Lemma validateRouteAndKind_spec route kind :
  validateRouteAndKind route kind = Ok tt <-> ident route /\ session_kind kind.
Proof.
  unfold validateRouteAndKind, session_kind. rewrite validToken_decide.
  reflect_guards; intuition congruence.
Qed.

(** A rejected branch of a validator: the error is not [Ok tt], and the
    negated guard refutes the specification. *)
Ltac rejected := split; [discriminate|intuition congruence].

Lemma Frame_Validate_iff f : Frame_Validate f = Ok tt <-> frame_wf f.
Proof.
  unfold Frame_Validate, frame_wf, frame_body_wf. rewrite validToken_decide.
  destruct (Z.eqb_spec (Frame_Version f) Version); simpl; [|rejected].
  destruct (bool_decide_reflect (ident (Frame_SessionID f))); simpl; [|rejected].
  destruct f as [v ty sid route kind dk payload w cc err]; simpl in *.
  pose proof (validateRouteAndKind_spec route kind) as Hrk.
  unfold FrameOpen, FrameData, FrameEOF, FrameWindow, FrameClose, FrameError in *.
  repeat match goal with
  | |- context [String.eqb ty ?t] => destruct (String.eqb_spec ty t); [subst ty; simpl|]
  end.
  - destruct (validateRouteAndKind route kind) as [[]|]; intuition congruence.
  - reflect_guards; intuition congruence.
  - intuition congruence.
  - reflect_guards; intuition (try congruence; lia).
  - reflect_guards; intuition (try congruence; lia).
  - reflect_guards; intuition congruence.
  - rejected.
Qed.

Lemma OpenRequest_Validate_iff r :
  int64_range (OpenRequest_DeadlineUnixMS r) ->
  OpenRequest_Validate r = Ok tt <-> open_request_wf r.
Proof.
  intros Hr. unfold OpenRequest_Validate, open_request_wf. rewrite !validToken_decide.
  autorewrite with airpc_ok. rewrite validateRouteAndKind_spec, andb_false_iff.
  autorewrite with airpc_ok.
  pose proof (UnixMilli_not_before (OpenRequest_DeadlineUnixMS r)) as Hd.
  intuition auto.
Qed.

Lemma OpenResponse_Validate_iff r :
  OpenResponse_Validate r = Ok tt <-> open_response_wf r.
Proof.
  unfold OpenResponse_Validate, open_response_wf. rewrite !validToken_decide.
  destruct r as [v rid acc cid err]; simpl in *.
  destruct acc; reflect_guards; intuition congruence.
Qed.

Lemma EncodeFrame_wf `{!Msgpack Frame} f bs : EncodeFrame f = Ok bs -> frame_wf f.
Proof. intros H. by eapply Frame_Validate_iff, encode_validated_valid. Qed.

(** ** Properties *)

(** C26: the frame codec.  Exactly the frames of the protocol's grammar (version
    1, an identifier as session id, and the fields of their type: a known
    route and kind, a data kind, a positive window, a close code that is zero
    or 1000-4999, a one-line error) are encoded; an encoding decodes to the
    frame; and whatever bytes arrive, [DecodeFrame] only ever yields such a
    frame. *)
Theorem frame_codec `{MsgpackLaws Frame} :
  codec_contract frame_wf EncodeFrame DecodeFrame.
Proof. apply validated_contract, Frame_Validate_iff. Qed.

(** The answers of a session negotiation.  The same contract for open
    responses: an accepted one names a connector, a rejected one carries a
    non-empty one-line reason. *)
Theorem open_response_codec `{MsgpackLaws OpenResponse} :
  codec_contract open_response_wf EncodeOpenResponse DecodeOpenResponse.
Proof. apply validated_contract, OpenResponse_Validate_iff. Qed.

(** [OpenRequest.Validate] on every [int64] deadline accepts exactly the
    well-formed requests; its second deadline test (a positive time before the
    epoch) never fires. *)
Theorem open_request_validation r :
  int64_range (OpenRequest_DeadlineUnixMS r) ->
  (OpenRequest_Validate r = Ok tt <-> open_request_wf r) /\
  (0 < OpenRequest_DeadlineUnixMS r ->
   time_Before (time_UnixMilli (OpenRequest_DeadlineUnixMS r)) (time_Unix 0 0) = false).
Proof. eauto using OpenRequest_Validate_iff, UnixMilli_not_before. Qed.

(** ** Witnesses *)

#[export] Instance Frame_countable : Countable Frame.
Proof.
  refine (inj_countable' (fun f => (Frame_Version f, Frame_Type f, Frame_SessionID f,
            Frame_Route f, Frame_Kind f, Frame_DataKind f, Frame_Payload f,
            Frame_Window f, Frame_CloseCode f, Frame_Error f))
    (fun '(a, b, c, d, e, f, g, h, i, j) => mkFrame a b c d e f g h i j) _).
  by intros [].
Defined.

#[export] Instance OpenResponse_countable : Countable OpenResponse.
Proof.
  refine (inj_countable' (fun r => (OpenResponse_Version r, OpenResponse_RequestID r,
            OpenResponse_Accepted r, OpenResponse_ConnectorID r, OpenResponse_Error r))
    (fun '(a, b, c, d, e) => mkOpenResponse a b c d e) _).
  by intros [].
Defined.

#[export] Instance OpenRequest_countable : Countable OpenRequest.
Proof.
  refine (inj_countable' (fun r => (OpenRequest_Version r, OpenRequest_RequestID r,
            OpenRequest_SessionID r, OpenRequest_Route r, OpenRequest_Kind r,
            OpenRequest_Path r, OpenRequest_DeadlineUnixMS r))
    (fun '(a, b, c, d, e, f, g) => mkOpenRequest a b c d e f g) _).
  by intros [].
Defined.

Definition frame_msgpack : Msgpack Frame := countable_msgpack.
Definition open_request_msgpack : Msgpack OpenRequest := countable_msgpack.
Definition open_response_msgpack : Msgpack OpenResponse := countable_msgpack.

Lemma frame_codec_witness :
  let enc := EncodeFrame (MF := frame_msgpack) in
  let dec := DecodeFrame (MF := frame_msgpack) in
  codec_contract frame_wf enc dec /\
  (let? bs := enc (dataFrame "s1" DataText "hi") in dec bs) = Ok (dataFrame "s1" DataText "hi") /\
  enc (windowFrame "s1" 0) = Err (Invalid (WindowInvalid 0)).
Proof.
  split; [|split].
  - apply (@frame_codec frame_msgpack countable_msgpack_laws).
  - vm_compute. reflexivity.
  - vm_compute. reflexivity.
Defined.

Lemma open_response_codec_witness :
  let enc := EncodeOpenResponse (MR := open_response_msgpack) in
  codec_contract open_response_wf enc (DecodeOpenResponse (MR := open_response_msgpack)) /\
  enc (mkOpenResponse 1 "r" false "" "") = Err (Invalid ErrorTextInvalid).
Proof.
  split.
  - apply (@open_response_codec open_response_msgpack countable_msgpack_laws).
  - vm_compute. reflexivity.
Defined.

Lemma open_request_validation_witness :
  let r := mkOpenRequest 1 "r1" "r1" "demo" "tcp" "/" 1700000000000 in
  (OpenRequest_Validate r = Ok tt <-> open_request_wf r) /\ OpenRequest_Validate r = Ok tt.
Proof.
  split.
  - apply open_request_validation. unfold int64_range, min_int64, max_int64. simpl. lia.
  - vm_compute. reflexivity.
Defined.
