(* ===== verification/HttpEnvelope.v ===== *)
(** * The HTTP unary envelopes

    [internal/protocol/httpunary/envelope.go]: the request an edge sends over
    NATS for one HTTP call and the response a connector answers, inline or by
    reference to a tunnel session, with their validation and codec. *)
From S2P Require Import Prelude GoString GoStd Msgpack.

#[local] Open Scope Z_scope.

Definition Version : Z := 1.

Record Request := mkRequest {
  Request_Version : Z;
  Request_RequestID : string;
  Request_Route : string;
  Request_DeadlineUnixMS : Z;
  Request_Method : string;
  Request_Scheme : string;
  Request_Authority : string;
  Request_Path : string;
  Request_Headers : Header;
  Request_Body : string
}.

Record Error := mkError { Error_Code : string; Error_Message : string }.

Record Response := mkResponse {
  Response_Version : Z;
  Response_RequestID : string;
  Response_Status : Z;
  Response_Headers : Header;
  Response_Body : string;
  Response_StreamSessionID : string;
  Response_ConnectorID : string;
  Response_Error : option Error
}.

#[export] Instance Error_eq_dec : EqDecision Error.
Proof. solve_decision. Defined.
#[export] Instance Request_eq_dec : EqDecision Request.
Proof. solve_decision. Defined.
#[export] Instance Response_eq_dec : EqDecision Response.
Proof. solve_decision. Defined.

Inductive unary_error :=
| VersionUnsupported (v : Z)
| RequestIDRequired
| RouteRequired
| RouteInvalid (s : string)
| DeadlineRequired
| DeadlineInvalid
| MethodInvalid (s : string)
| SchemeInvalid (s : string)
| AuthorityInvalid
| PathStart
| PathInvalid
| HeaderNameInvalid (s : string)
| HeaderValueInvalid (s : string)
| StatusInvalid (z : Z)
| StreamSessionIDInvalid
| ConnectorIDInvalid
| BodyAndStream
| ErrorCodeInvalid (s : string)
| ErrorMessageInvalid.

(** ** Validation *)

(** The byte loop of [validToken]: RFC 7230 token characters. *)
Definition validToken (s : string) : bool :=
  if str_forallb is_token_byte s then negb (String.eqb s "") else false.

Definition validateRoute (route : string) : res unary_error unit :=
  if String.eqb route "" then Err RouteRequired
  else if forallb is_ident_rune (runes route) then Ok tt
  else Err (RouteInvalid route).

Definition validatePath (path : string) : res unary_error unit :=
  if String.eqb path "" || negb (HasPrefix path "/") then Err PathStart
  else if ContainsAny path (crlf +:+ "#") then Err PathInvalid
  else Ok tt.

(** The inner loop over one header's values, and the outer loop in the order
    the map is iterated. *)
Fixpoint validateValues (name : string) (values : list string) : res unary_error unit :=
  match values with
  | [] => Ok tt
  | v :: values' =>
      if ContainsAny v crlf then Err (HeaderValueInvalid name) else validateValues name values'
  end.

Fixpoint validateEntries (entries : list (string * list string)) : res unary_error unit :=
  match entries with
  | [] => Ok tt
  | (name, values) :: entries' =>
      if String.eqb name "" || negb (validToken name) then Err (HeaderNameInvalid name)
      else let? _ := validateValues name values in validateEntries entries'
  end.

Definition validateHeaders (headers : Header) : res unary_error unit :=
  validateEntries (map_to_list headers).

Definition Request_Validate (r : Request) : res unary_error unit :=
  if negb (Request_Version r =? Version) then Err (VersionUnsupported (Request_Version r))
  else if String.eqb (Request_RequestID r) "" then Err RequestIDRequired
  else
    let? _ := validateRoute (Request_Route r) in
    if Request_DeadlineUnixMS r <=? 0 then Err DeadlineRequired
    else if time_Before (time_UnixMilli (Request_DeadlineUnixMS r)) (time_Unix 0 0)
    then Err DeadlineInvalid
    else if String.eqb (Request_Method r) "" || negb (validToken (Request_Method r))
    then Err (MethodInvalid (Request_Method r))
    else if negb (String.eqb (Request_Scheme r) "http" || String.eqb (Request_Scheme r) "https")
    then Err (SchemeInvalid (Request_Scheme r))
    else if String.eqb (Request_Authority r) "" || ContainsAny (Request_Authority r) crlf
    then Err AuthorityInvalid
    else
      let? _ := validatePath (Request_Path r) in
      validateHeaders (Request_Headers r).

Definition Error_Validate (e : Error) : res unary_error unit :=
  if String.eqb (Error_Code e) "" || negb (validToken (Error_Code e))
  then Err (ErrorCodeInvalid (Error_Code e))
  else if ContainsAny (Error_Message e) crlf then Err ErrorMessageInvalid
  else Ok tt.

Definition Response_Validate (r : Response) : res unary_error unit :=
  if negb (Response_Version r =? Version) then Err (VersionUnsupported (Response_Version r))
  else if String.eqb (Response_RequestID r) "" then Err RequestIDRequired
  else
    match Response_Error r with
    | Some e => let? _ := Error_Validate e in Ok tt
    | None =>
        if (Response_Status r <? 100) || (999 <? Response_Status r)
        then Err (StatusInvalid (Response_Status r))
        else if negb (String.eqb (Response_StreamSessionID r) "") then
          if negb (validToken (Response_StreamSessionID r)) then Err StreamSessionIDInvalid
          else if negb (validToken (Response_ConnectorID r)) then Err ConnectorIDInvalid
          else if negb (len (Response_Body r) =? 0) then Err BodyAndStream
          else validateHeaders (Response_Headers r)
        else validateHeaders (Response_Headers r)
    end.

(** ** Codecs *)

Section Codecs.
Context {MQ : Msgpack Request} {MR : Msgpack Response}.

Definition EncodeRequest : Request -> res (envelope_error unary_error) string :=
  encode_validated Request_Validate.
Definition DecodeRequest : string -> res (envelope_error unary_error) Request :=
  decode_validated Request_Validate.
Definition EncodeResponse : Response -> res (envelope_error unary_error) string :=
  encode_validated Response_Validate.
Definition DecodeResponse : string -> res (envelope_error unary_error) Response :=
  decode_validated Response_Validate.
End Codecs.

Definition NewErrorResponse (requestID code message : string) : Response :=
  mkResponse Version requestID 0 ∅ "" "" "" (Some (mkError code message)).

(** ** What the validators promise *)

(** A header name is a token, and no value spans lines: nothing a peer sends
    can split a header line in the HTTP message rebuilt from the envelope. *)
Definition headers_wf (h : Header) : Prop :=
  forall name values, h !! name = Some values ->
    token name /\ Forall (avoids crlf) values.

Definition path_wf (p : string) : Prop :=
  HasPrefix p "/" = true /\ avoids (crlf +:+ "#") p.

Definition request_wf (r : Request) : Prop :=
  Request_Version r = Version /\ Request_RequestID r <> "" /\ ident (Request_Route r) /\
  0 < Request_DeadlineUnixMS r /\ token (Request_Method r) /\
  (Request_Scheme r = "http" \/ Request_Scheme r = "https") /\
  Request_Authority r <> "" /\ avoids crlf (Request_Authority r) /\
  path_wf (Request_Path r) /\ headers_wf (Request_Headers r).

Definition response_wf (r : Response) : Prop :=
  Response_Version r = Version /\ Response_RequestID r <> "" /\
  match Response_Error r with
  | Some e => token (Error_Code e) /\ avoids crlf (Error_Message e)
  | None =>
      100 <= Response_Status r <= 999 /\ headers_wf (Response_Headers r) /\
      (Response_StreamSessionID r = "" \/
       token (Response_StreamSessionID r) /\ token (Response_ConnectorID r) /\
       Response_Body r = "")
  end.

(** ** Lemmas *)

Lemma unary_validToken_decide s : validToken s = bool_decide (token s).
Proof.
  unfold validToken.
  destruct (str_forallb is_token_byte s) eqn:E, (String.eqb_spec s "");
    case_bool_decide as H; unfold token in H; simpl; intuition congruence.
Qed.

Lemma validateRoute_spec route : validateRoute route = Ok tt <-> ident route.
Proof.
  unfold validateRoute, ident. rewrite runes_ident.
  destruct (str_forallb is_ident_byte route); reflect_guards; intuition congruence.
Qed.

Lemma validatePath_spec path : validatePath path = Ok tt <-> path_wf path.
Proof.
  unfold validatePath, path_wf.
  destruct (HasPrefix path "/") eqn:Hp; reflect_guards; subst; simpl in *; intuition congruence.
Qed.

Lemma validateValues_spec name values :
  validateValues name values = Ok tt <-> Forall (avoids crlf) values.
Proof.
  induction values as [|v values IH]; simpl; [done|].
  rewrite list.Forall_cons. reflect_guards; rewrite ?IH; intuition congruence.
Qed.

(** The verdict does not depend on the order the map is iterated in, only the
    error does. *)
Lemma validateEntries_spec entries :
  validateEntries entries = Ok tt <->
  Forall (fun e => token e.1 /\ Forall (avoids crlf) e.2) entries.
Proof.
  induction entries as [|[name values] entries IH]; simpl; [done|].
  rewrite list.Forall_cons, unary_validToken_decide; simpl.
  pose proof (validateValues_spec name values) as Hv.
  destruct (validateValues name values) as [[]|]; reflect_guards; rewrite ?IH;
    unfold token in *; intuition congruence.
Qed.

Lemma validateHeaders_spec h : validateHeaders h = Ok tt <-> headers_wf h.
Proof.
  unfold validateHeaders, headers_wf. rewrite validateEntries_spec, list.Forall_forall. split.
  - intros H name values Hl. apply (H (name, values)). by apply elem_of_map_to_list.
  - intros H [name values] Hin. apply elem_of_map_to_list in Hin. by apply H.
Qed.

Lemma validateHeaders_order h order :
  iteration h order -> (validateEntries order = Ok tt <-> validateHeaders h = Ok tt).
Proof.
  intros Hp. unfold validateHeaders. by rewrite !validateEntries_spec, Hp.
Qed.

Lemma Error_Validate_spec e :
  Error_Validate e = Ok tt <-> token (Error_Code e) /\ avoids crlf (Error_Message e).
Proof.
  unfold Error_Validate. rewrite unary_validToken_decide.
  reflect_guards; unfold token in *; intuition congruence.
Qed.

Lemma Request_Validate_iff r :
  int64_range (Request_DeadlineUnixMS r) ->
  Request_Validate r = Ok tt <-> request_wf r.
Proof.
  intros Hr. unfold Request_Validate, request_wf.
  autorewrite with airpc_ok. rewrite unary_validToken_decide.
  autorewrite with airpc_ok. rewrite validateRoute_spec, validatePath_spec, validateHeaders_spec.
  pose proof (UnixMilli_not_before (Request_DeadlineUnixMS r)) as Hd.
  unfold token in *. intuition auto.
Qed.

Lemma Response_Validate_iff r : Response_Validate r = Ok tt <-> response_wf r.
Proof.
  unfold Response_Validate, response_wf.
  destruct r as [v rid st hs body sid cid [e|]]; simpl in *.
  - rewrite <-Error_Validate_spec. destruct (Error_Validate e) as [[]|];
      reflect_guards; intuition congruence.
  - rewrite <-validateHeaders_spec, !unary_validToken_decide.
    destruct body as [|c body]; simpl;
      [|replace (len (String c body) =? 0) with false by (symmetry; apply Z.eqb_neq; done)];
      reflect_guards; subst; intuition (try congruence; try lia).
Qed.

(** ** Properties *)

(** [Request.Validate], on every [int64] deadline, accepts exactly the
    requests that can be rebuilt safely: an identifier route, a token method,
    scheme http or https, a one-line authority, an absolute path without
    fragment, and headers whose names are tokens and whose values stay on one
    line. *)
Theorem request_validation r :
  int64_range (Request_DeadlineUnixMS r) ->
  (Request_Validate r = Ok tt <-> request_wf r).
Proof. apply Request_Validate_iff. Qed.

(** C27: the response codec.  An envelope is encoded exactly when it is an error
    with a token code and a one-line message, or a status in 100-999 with safe
    headers and either an inline body or a reference to a tunnel session, never
    both; encodings decode back and nothing else is accepted. *)
Theorem response_codec `{MsgpackLaws Response} :
  codec_contract response_wf EncodeResponse DecodeResponse.
Proof. apply validated_contract, Response_Validate_iff. Qed.

(** ** Witnesses *)

#[export] Instance Error_countable : Countable Error.
Proof.
  refine (inj_countable' (fun e => (Error_Code e, Error_Message e))
    (fun '(a, b) => mkError a b) _). by intros [].
Defined.

#[export] Instance Request_countable : Countable Request.
Proof.
  refine (inj_countable' (fun r => (Request_Version r, Request_RequestID r, Request_Route r,
            Request_DeadlineUnixMS r, Request_Method r, Request_Scheme r, Request_Authority r,
            Request_Path r, Request_Headers r, Request_Body r))
    (fun '(a, b, c, d, e, f, g, h, i, j) => mkRequest a b c d e f g h i j) _).
  by intros [].
Defined.

#[export] Instance Response_countable : Countable Response.
Proof.
  refine (inj_countable' (fun r => (Response_Version r, Response_RequestID r, Response_Status r,
            Response_Headers r, Response_Body r, Response_StreamSessionID r,
            Response_ConnectorID r, Response_Error r))
    (fun '(a, b, c, d, e, f, g, h) => mkResponse a b c d e f g h) _).
  by intros [].
Defined.

Definition request_msgpack : Msgpack Request := countable_msgpack.
Definition response_msgpack : Msgpack Response := countable_msgpack.

Lemma request_validation_witness :
  let r := mkRequest 1 "r1" "demo" 1700000000000 "GET" "http" "h:80" "/x?y=1"
             {["Accept" := ["*/*"]]} "" in
  (Request_Validate r = Ok tt <-> request_wf r) /\ Request_Validate r = Ok tt.
Proof.
  split.
  - apply request_validation. unfold int64_range, min_int64, max_int64. simpl. lia.
  - vm_compute. reflexivity.
Defined.

Lemma response_codec_witness :
  let enc := EncodeResponse (MR := response_msgpack) in
  let dec := DecodeResponse (MR := response_msgpack) in
  codec_contract response_wf enc dec /\
  (let? bs := enc (mkResponse 1 "r" 200 ∅ "ok" "" "" None) in dec bs) =
    Ok (mkResponse 1 "r" 200 ∅ "ok" "" "" None) /\
  enc (mkResponse 1 "r" 200 ∅ "ok" "s" "c" None) = Err (Invalid BodyAndStream).
Proof.
  split; [|split].
  - apply (@response_codec response_msgpack countable_msgpack_laws).
  - vm_compute. reflexivity.
  - vm_compute. reflexivity.
Defined.
