(* ===== verification/Headers.v ===== *)
(** * Header filtering

    [internal/httpheaders/headers.go]: the allowlist applied to request
    headers before they cross the boundary and the hop-by-hop strip applied to
    response headers.  A [range] over a Go map visits the entries in an
    unspecified order: the loops take the entries in the order they are
    visited, and the theorems hold for every order. *)
From S2P Require Import Prelude GoString GoStd.

(** [var hopByHop]. *)
Definition hopByHop : gset string :=
  {["connection"; "keep-alive"; "proxy-authenticate"; "proxy-authorization";
    "te"; "trailer"; "transfer-encoding"; "upgrade"]}.

(** [copyValues(dst, name, values)]. *)
Fixpoint copyValues (dst : Header) (name : string) (values : list string) : Header :=
  match values with
  | [] => dst
  | v :: values' => copyValues (Header_Add dst name v) name values'
  end.

Section Filter.
Context {UT : UnicodeTables}.

Definition isHopByHop (name : string) : bool := bool_decide (ToLower name ∈ hopByHop).

(** The first loop of [FilterRequest]: the set of canonical allowed names. *)
Fixpoint allowedSet (allowed : list string) (set : gset string) : gset string :=
  match allowed with
  | [] => set
  | name :: allowed' =>
      let canonical := CanonicalHeaderKey (TrimSpace name) in
      if String.eqb canonical "" || isHopByHop canonical then allowedSet allowed' set
      else allowedSet allowed' ({[canonical]} ∪ set)
  end.

(** The second loop, over the entries of [src]. *)
Fixpoint filterRequestLoop (allowed : gset string) (entries : list (string * list string))
    (dst : Header) : Header :=
  match entries with
  | [] => dst
  | (name, values) :: entries' =>
      let canonical := CanonicalHeaderKey name in
      if negb (bool_decide (canonical ∈ allowed)) || isHopByHop canonical
      then filterRequestLoop allowed entries' dst
      else filterRequestLoop allowed entries' (copyValues dst canonical values)
  end.

(** [FilterRequest(src, allowed)], [src] visited in the order [order]. *)
Definition FilterRequest (order : list (string * list string)) (allowed : list string) : Header :=
  filterRequestLoop (allowedSet allowed ∅) order ∅.

Fixpoint filterResponseLoop (entries : list (string * list string)) (dst : Header) : Header :=
  match entries with
  | [] => dst
  | (name, values) :: entries' =>
      let canonical := CanonicalHeaderKey name in
      if String.eqb canonical "" || isHopByHop canonical then filterResponseLoop entries' dst
      else filterResponseLoop entries' (copyValues dst canonical values)
  end.

(** [FilterResponse(src)], [src] visited in the order [order]. *)
Definition FilterResponse (order : list (string * list string)) : Header :=
  filterResponseLoop order ∅.
End Filter.

(** ** What the filters promise *)

(** A header map whose names are all in canonical form, as the Go HTTP server
    and client build them. *)
Definition canonical_header (h : Header) : Prop :=
  forall name values, h !! name = Some values -> CanonicalHeaderKey name = name.

(** The name may cross towards the backend: some entry of the allowlist
    canonicalises to it, and it is not hop-by-hop. *)
Definition allows {UT : UnicodeTables} (allowed : list string) (name : string) : Prop :=
  name <> "" /\ isHopByHop name = false /\
  exists a, a ∈ allowed /\ CanonicalHeaderKey (TrimSpace a) = name.

(** ** Lemmas *)

Lemma copyValues_lookup dst name values k :
  CanonicalHeaderKey name = name ->
  copyValues dst name values !! k =
  if decide (name = k) then
    match values with [] => dst !! k | _ => Some (default [] (dst !! k) ++ values) end
  else dst !! k.
Proof.
  intros Hc. revert dst. induction values as [|v values IH]; intros dst; simpl.
  { by case_decide. }
  rewrite IH. unfold Header_Add. rewrite Hc. case_decide; subst.
  - rewrite lookup_insert_eq. destruct values; simpl; [done|by rewrite <-app_assoc].
  - by rewrite lookup_insert_ne.
Qed.

Section Lemmas.
Context {UT : UnicodeTables}.

Lemma allows_cons a allowed name :
  allows (a :: allowed) name <->
  (name <> "" /\ isHopByHop name = false /\ CanonicalHeaderKey (TrimSpace a) = name) \/
  allows allowed name.
Proof.
  unfold allows. setoid_rewrite elem_of_cons. split.
  - intros (? & ? & x & [->|?] & ?); [by left|]. right. eauto.
  - intros [(? & ? & ?)|(? & ? & x & ? & ?)]; eauto 6.
Qed.

Lemma allowedSet_spec allowed set name :
  name ∈ allowedSet allowed set <-> name ∈ set \/ allows allowed name.
Proof.
  revert set. induction allowed as [|a allowed IH]; intros set; simpl.
  { split; [by left|]. intros [?|(_ & _ & x & Hx & _)]; [done|]. by apply elem_of_nil in Hx. }
  rewrite allows_cons. set (c := CanonicalHeaderKey (TrimSpace a)).
  destruct (String.eqb_spec c "") as [Hc|Hc]; simpl.
  { rewrite IH. intuition congruence. }
  destruct (isHopByHop c) eqn:Hh; rewrite IH, ?elem_of_union, ?elem_of_singleton;
    intuition congruence.
Qed.

(** Both loops copy the entries whose canonical name passes a test. *)
Fixpoint copyLoop (keep : string -> bool) (entries : list (string * list string))
    (dst : Header) : Header :=
  match entries with
  | [] => dst
  | (name, values) :: entries' =>
      let c := CanonicalHeaderKey name in
      copyLoop keep entries' (if keep c then copyValues dst c values else dst)
  end.

Lemma filterRequestLoop_copy allowed entries dst :
  filterRequestLoop allowed entries dst =
  copyLoop (fun c => bool_decide (c ∈ allowed) && negb (isHopByHop c)) entries dst.
Proof.
  revert dst. induction entries as [|[name values] entries IH]; intros dst; simpl; [done|].
  destruct (bool_decide _), (isHopByHop _); apply IH.
Qed.

Lemma filterResponseLoop_copy entries dst :
  filterResponseLoop entries dst =
  copyLoop (fun c => negb (String.eqb c "") && negb (isHopByHop c)) entries dst.
Proof.
  revert dst. induction entries as [|[name values] entries IH]; intros dst; simpl; [done|].
  destruct (String.eqb _ _), (isHopByHop _); apply IH.
Qed.

(** Whatever the source map holds, only names that pass the test appear in
    the result. *)
Lemma copyLoop_keys keep entries dst k vs :
  copyLoop keep entries dst !! k = Some vs ->
  dst !! k = Some vs \/ keep k = true /\ CanonicalHeaderKey k = k.
Proof.
  revert dst. induction entries as [|[name values] entries IH]; intros dst; simpl; [by left|].
  set (c := CanonicalHeaderKey name). intros [Hd|?]%IH; [|by right].
  destruct (keep c) eqn:Hk; [|by left].
  assert (Hc : CanonicalHeaderKey c = c) by apply CanonicalHeaderKey_idem.
  rewrite copyValues_lookup in Hd by done. destruct (decide (c = k)) as [<-|]; [by right|by left].
Qed.

(** On a canonical header map the loop selects entries and leaves their
    values alone. *)
Lemma copyLoop_lookup keep entries dst k :
  NoDup entries.*1 ->
  (forall e, e ∈ entries -> CanonicalHeaderKey e.1 = e.1 /\ dst !! e.1 = None) ->
  copyLoop keep entries dst !! k =
  match list_to_map (M := Header) entries !! k with
  | Some (v :: vs) => if keep k then Some (v :: vs) else dst !! k
  | _ => dst !! k
  end.
Proof.
  revert dst. induction entries as [|[name values] entries IH]; intros dst Hnd Hc; simpl.
  { by rewrite lookup_empty. }
  rewrite fmap_cons in Hnd. apply list.NoDup_cons in Hnd as [Hni Hnd].
  destruct (Hc (name, values)) as [Hcn Hdn]; [set_solver|]. simpl in *. rewrite Hcn.
  assert (Hrest : forall e, e ∈ entries -> name <> e.1) by set_solver.
  assert (Hnone : list_to_map (M := Header) entries !! name = None)
    by (by apply not_elem_of_list_to_map_1).
  assert (Hdst : forall k', (if keep name then copyValues dst name values else dst) !! k' =
    if decide (name = k') then
      match values with
      | v :: vs => if keep name then Some (v :: vs) else None | [] => None end
    else dst !! k').
  { intros k'. destruct (keep name) eqn:Hk; rewrite ?copyValues_lookup by done;
      destruct (decide (name = k')) as [<-|]; rewrite ?Hdn; by destruct values. }
  rewrite IH, lookup_insert, Hdst; [|done|].
  - destruct (decide (name = k)) as [<-|]; [|done]. rewrite Hnone, Hdn.
    by destruct values, (keep name).
  - intros e He. rewrite Hdst, decide_False by auto. apply Hc. set_solver.
Qed.

Lemma copyLoop_iteration keep src order k vs :
  canonical_header src -> iteration src order ->
  copyLoop keep order ∅ !! k = Some vs <->
  src !! k = Some vs /\ vs <> [] /\ keep k = true.
Proof.
  intros Hc Hit. unfold iteration in Hit.
  assert (Hnd : NoDup order.*1) by (rewrite Hit; apply NoDup_fst_map_to_list).
  rewrite copyLoop_lookup; [|done|].
  - rewrite (list_to_map_proper order (map_to_list src)), list_to_map_to_list, lookup_empty by done.
    destruct (src !! k) as [[|v vs']|], (keep k); naive_solver.
  - intros [name values] He. rewrite lookup_empty. split; [|done].
    rewrite Hit in He. apply elem_of_map_to_list in He. by eapply Hc.
Qed.

(** What the request filter lets through. *)
Lemma FilterRequest_lookup src order allowed k vs :
  canonical_header src -> iteration src order ->
  FilterRequest order allowed !! k = Some vs <->
  src !! k = Some vs /\ vs <> [] /\ allows allowed k.
Proof.
  intros Hc Hit. unfold FilterRequest.
  rewrite filterRequestLoop_copy, (copyLoop_iteration _ src) by done.
  rewrite andb_true_iff, bool_decide_eq_true, negb_true_iff, allowedSet_spec, elem_of_empty.
  unfold allows. tauto.
Qed.

(** What the response filter lets through. *)
Lemma FilterResponse_lookup src order k vs :
  canonical_header src -> iteration src order ->
  FilterResponse order !! k = Some vs <->
  src !! k = Some vs /\ vs <> [] /\ k <> "" /\ isHopByHop k = false.
Proof.
  intros Hc Hit. unfold FilterResponse.
  rewrite filterResponseLoop_copy, (copyLoop_iteration _ src) by done.
  rewrite andb_true_iff, !negb_true_iff, String.eqb_neq. done.
Qed.

(** Whatever the peer sent, what leaves the response filter is canonical. *)
Lemma FilterResponse_canonical order : canonical_header (FilterResponse order).
Proof.
  intros k vs. unfold FilterResponse. rewrite filterResponseLoop_copy.
  intros [?|[_ ?]]%copyLoop_keys; [by rewrite lookup_empty in *|done].
Qed.
End Lemmas.

(** ** Properties *)

Section Properties.
Context {UT : UnicodeTables}.

(** C28: the request allowlist is exact.  For a header map with canonical
    names, visited in any order, a header reaches the backend with all its
    values and in their order precisely when it has a value, some entry of
    [forwarded_headers] names it, and it is not hop-by-hop; nothing else
    does. *)
Theorem FilterRequest_exact src order allowed k vs :
  canonical_header src -> iteration src order ->
  FilterRequest order allowed !! k = Some vs <->
  src !! k = Some vs /\ vs <> [] /\ allows allowed k.
Proof. apply FilterRequest_lookup. Qed.

(** The response filter is exact: every header with a value survives
    unchanged except the hop-by-hop ones. *)
Theorem FilterResponse_exact src order k vs :
  canonical_header src -> iteration src order ->
  FilterResponse order !! k = Some vs <->
  src !! k = Some vs /\ vs <> [] /\ k <> "" /\ isHopByHop k = false.
Proof. apply FilterResponse_lookup. Qed.

(** Header hygiene against any peer.  Whatever map arrives (names in any
    case, duplicates up to case) and whatever the order of iteration, no
    hop-by-hop header leaves either filter, the names are canonical, and a
    request header is always one the allowlist names. *)
Theorem filters_never_leak order allowed k vs :
  (FilterRequest order allowed !! k = Some vs ->
     allows allowed k /\ CanonicalHeaderKey k = k) /\
  (FilterResponse order !! k = Some vs ->
     isHopByHop k = false /\ k <> "" /\ CanonicalHeaderKey k = k).
Proof.
  unfold FilterRequest, FilterResponse.
  rewrite filterRequestLoop_copy, filterResponseLoop_copy. split.
  - intros [?|[Hk ?]]%copyLoop_keys; [by rewrite lookup_empty in *|]. split; [|done].
    rewrite andb_true_iff, bool_decide_eq_true, allowedSet_spec, elem_of_empty in Hk. tauto.
  - intros [?|[Hk ?]]%copyLoop_keys; [by rewrite lookup_empty in *|].
    rewrite andb_true_iff, !negb_true_iff, String.eqb_neq in Hk. tauto.
Qed.
End Properties.

(** ** Witnesses *)

Section Witnesses.
#[local] Existing Instance ascii_tables.

Definition example_headers : Header :=
  {["Accept" := ["application/json"]; "Authorization" := ["secret"];
    "Connection" := ["keep-alive"]; "X-Not-Forwarded" := ["nope"]]}.
Definition example_allowed : list string := ["accept"; " authorization "; "connection"].

Lemma example_canonical : canonical_header example_headers.
Proof.
  change (map_Forall (fun name _ => CanonicalHeaderKey name = name) example_headers).
  apply (bool_decide_unpack _). vm_compute. exact I.
Qed.

Lemma FilterRequest_exact_witness :
  let order := map_to_list example_headers in
  (FilterRequest order example_allowed !! "Authorization" = Some ["secret"] <->
   example_headers !! "Authorization" = Some ["secret"] /\ ["secret"] <> [] /\
   allows example_allowed "Authorization") /\
  FilterRequest order example_allowed =
    {["Accept" := ["application/json"]; "Authorization" := ["secret"]]}.
Proof.
  split.
  - apply FilterRequest_exact; [apply example_canonical|unfold iteration; reflexivity].
  - vm_compute. reflexivity.
Defined.

Lemma FilterResponse_exact_witness :
  let order := map_to_list example_headers in
  (FilterResponse order !! "Connection" = Some ["keep-alive"] <->
   example_headers !! "Connection" = Some ["keep-alive"] /\ ["keep-alive"] <> [] /\
   "Connection" <> "" /\ isHopByHop "Connection" = false) /\
  FilterResponse order !! "Connection" = None.
Proof.
  split.
  - apply FilterResponse_exact; [apply example_canonical|unfold iteration; reflexivity].
  - vm_compute. reflexivity.
Defined.
End Witnesses.
