(* ===== verification/Config.v ===== *)
(** * Configuration

    [internal/config/config.go]: the configuration both processes load, its
    validation, the NATS subjects derived from it and the byte-size syntax.
    The YAML decoder is a parameter of [Load]. *)
From stdpp Require Import pretty.
From S2P Require Import Prelude GoString GoStd GoURL.

#[local] Open Scope Z_scope.

Definition ModeHTTP : string := "http".
Definition ModeGRPC : string := "grpc".
Definition ModeWebSocket : string := "websocket".
Definition ModeTCP : string := "tcp".

(** ** Data *)

Record NATSConfig := mkNATSConfig {
  NATS_URL : string;
  NATS_EdgeURL : string;
  NATS_ConnectorURL : string;
  NATS_CredsFile : string
}.

Record TLSServerConfig := mkTLSServerConfig {
  TLSServer_CertFile : string;
  TLSServer_KeyFile : string;
  TLSServer_ClientCAFile : string
}.

Record TLSClientConfig := mkTLSClientConfig {
  TLSClient_CAFile : string;
  TLSClient_CertFile : string;
  TLSClient_KeyFile : string;
  TLSClient_ServerName : string
}.

(** A nil pointer is [None]. *)
Record EdgeConfig := mkEdgeConfig {
  Edge_HTTPAddr : string;
  Edge_DataAddr : string;
  Edge_MetricsAddr : string;
  Edge_TLS : option TLSServerConfig
}.

Record ConnectorConfig := mkConnectorConfig {
  Connector_EdgeDataURL : string;
  Connector_TunnelToken : string;
  Connector_MetricsAddr : string;
  Connector_TLS : option TLSClientConfig
}.

(** [Bytes] is an [int64]; [Duration] is a [time.Duration], an [int64] number
    of nanoseconds. *)
Record Route := mkRoute {
  Route_Name : string;
  Route_Mode : string;
  Route_PublicHost : string;
  Route_PublicPrefix : string;
  Route_PublicPath : string;
  Route_Listen : string;
  Route_Target : string;
  Route_MaxInlineRequestBytes : Z;
  Route_MaxInlineResponseBytes : Z;
  Route_MaxRequestBodyBytes : Z;
  Route_MaxResponseBodyBytes : Z;
  Route_Timeout : Z;
  Route_IdleTimeout : Z;
  Route_ForwardedHeaders : list string;
  Route_TLS : bool
}.

Record Config := mkConfig {
  Config_NATS : NATSConfig;
  Config_Edge : EdgeConfig;
  Config_Connector : ConnectorConfig;
  Config_Routes : list Route
}.

#[export] Instance Route_eq_dec : EqDecision Route.
Proof. solve_decision. Defined.

(** One constructor per error of the validators; [field] is the name the
    message starts with. *)
Inductive config_error :=
| Required (field : string)
| TooLong (field : string)
| SubjectCharacter (field : string)
| InvalidCharacter (field : string) (r : Z)
| NotURL (field : string)
| SchemeUnsupported (field scheme : string)
| Credentials (field : string)
| NotHostPort (field : string)
| HostRequired (field : string)
| PortRequired (field : string)
| PortRange (field : string)
| ModeUnsupported (field mode : string)
| NotHostName (field : string)
| PublicPathRequired (field mode : string)
| PathStart (field : string)
| PathQuery (field : string)
| Negative (field : string)
| HeaderName (field : string) (j : Z) (header : string)
| EdgeTLSPair
| ConnectorTLSPair
| ConnectorTLSScheme
| NoRoutes
| RouteTLSMode (i : Z)
| RouteTLSNeedsEdge (i : Z)
| DuplicateName (i : Z) (name : string).

(** ** Derived names and limits *)

Definition EdgeURLOrDefault (n : NATSConfig) : string :=
  if negb (String.eqb (NATS_EdgeURL n) "") then NATS_EdgeURL n else NATS_URL n.

Definition ConnectorURLOrDefault (n : NATSConfig) : string :=
  if negb (String.eqb (NATS_ConnectorURL n) "") then NATS_ConnectorURL n else NATS_URL n.

Definition UnarySubject (r : Route) : string :=
  "airpc.v1.route." +:+ Route_Name r +:+ ".unary".
Definition OpenSubject (r : Route) : string :=
  "airpc.v1.route." +:+ Route_Name r +:+ ".open".
Definition QueueGroup (r : Route) : string :=
  "airpc.route." +:+ Route_Name r +:+ ".connectors".

Definition cancelSubjectPrefix : string := "airpc.v1.cancel.".
Definition CancelSubjectWildcard : string := cancelSubjectPrefix +:+ ">".
Definition CancelSubject (requestID : string) : string := cancelSubjectPrefix +:+ requestID.

Definition MaxInlineRequest (r : Route) : Z :=
  if 0 <? Route_MaxInlineRequestBytes r then Route_MaxInlineRequestBytes r
  else Route_MaxRequestBodyBytes r.
Definition MaxInlineResponse (r : Route) : Z :=
  if 0 <? Route_MaxInlineResponseBytes r then Route_MaxInlineResponseBytes r
  else Route_MaxResponseBodyBytes r.

(** ** Field validators *)

(** The loop of [ValidateSubjectToken]. *)
Fixpoint subjectTokenLoop (field : string) (rs : list Z) : res config_error unit :=
  match rs with
  | [] => Ok tt
  | r :: rs' =>
      if (r =? 42) || (r =? 62) || (r =? 46) then Err (SubjectCharacter field)
      else if is_ident_rune r then subjectTokenLoop field rs'
      else Err (InvalidCharacter field r)
  end.

Definition ValidateSubjectToken (field value : string) : res config_error unit :=
  if String.eqb value "" then Err (Required field)
  else if 128 <? len value then Err (TooLong field)
  else subjectTokenLoop field (runes value).

(** [RequestIDFromCancelSubject]: [None] is [("", false)]. *)
Definition RequestIDFromCancelSubject (subject : string) : option string :=
  let requestID := TrimPrefix subject cancelSubjectPrefix in
  if String.eqb requestID subject || negb (is_ok (ValidateSubjectToken "request_id" requestID))
  then None else Some requestID.

Definition isTokenChar (c : ascii) : bool :=
  if is_alnum (bz c) then true else str_mem c "!#$%&'*+-.^_`|~".

Definition validHeaderName (value : string) : bool :=
  if String.eqb value "" then false
  else forallb (fun r => negb ((127 <? r) || negb (isTokenChar (zb r)))) (runes value).

Definition validMode (mode : string) : bool :=
  String.eqb mode ModeHTTP || String.eqb mode ModeGRPC ||
  String.eqb mode ModeWebSocket || String.eqb mode ModeTCP.

Definition validatePath (field value : string) : res config_error unit :=
  if String.eqb value "" then Ok tt
  else if negb (HasPrefix value "/") then Err (PathStart field)
  else if ContainsAny value "?#" then Err (PathQuery field)
  else Ok tt.

Definition validateHostPort (field value : string) : res config_error unit :=
  if String.eqb value "" then Err (Required field)
  else
    match SplitHostPort value with
    | Err _ => Err (NotHostPort field)
    | Ok (host, port) =>
        if String.eqb host "" && negb (HasPrefix value ":") then Err (HostRequired field)
        else if String.eqb port "" then Err (PortRequired field)
        else match ParseUint port 65535 with
             | Err _ => Err (PortRange field)
             | Ok _ => Ok tt
             end
    end.

Section Validate.
Context {UT : UnicodeTables}.

Definition validateNATSURL (field raw : string) : res config_error unit :=
  if String.eqb raw "" then Err (Required field)
  else
    match Parse raw with
    | Err _ => Err (NotURL field)
    | Ok u =>
        if String.eqb (Scheme u) "" || String.eqb (Host u) "" then Err (NotURL field)
        else if String.eqb (Scheme u) "nats" || String.eqb (Scheme u) "tls" ||
                String.eqb (Scheme u) "ws" || String.eqb (Scheme u) "wss"
        then Ok tt
        else Err (SchemeUnsupported field (Scheme u))
    end.

Definition validateConnectorURL (raw : string) : res config_error unit :=
  let field := "connector.edge_data_url" in
  if String.eqb raw "" then Err (Required field)
  else
    match Parse raw with
    | Err _ => Err (NotURL field)
    | Ok u =>
        if String.eqb (Scheme u) "" || String.eqb (Host u) "" then Err (NotURL field)
        else if match User u with Some _ => true | None => false end then Err (Credentials field)
        else if String.eqb (Scheme u) "ws" || String.eqb (Scheme u) "wss" then Ok tt
        else Err (SchemeUnsupported field (Scheme u))
    end.

Definition validateURLTarget (field raw : string) (schemes : list string) : res config_error unit :=
  match Parse raw with
  | Err _ => Err (NotURL field)
  | Ok u =>
      if String.eqb (Scheme u) "" || String.eqb (Host u) "" then Err (NotURL field)
      else if match User u with Some _ => true | None => false end then Err (Credentials field)
      else if existsb (String.eqb (Scheme u)) schemes then Ok tt
      else Err (SchemeUnsupported field (Scheme u))
  end.

Definition validateRouteTarget (field mode raw : string) : res config_error unit :=
  if String.eqb mode ModeHTTP then validateURLTarget field raw ["http"; "https"]
  else if String.eqb mode ModeWebSocket then validateURLTarget field raw ["ws"; "wss"]
  else if String.eqb mode ModeTCP || String.eqb mode ModeGRPC then validateHostPort field raw
  else Ok tt.

Definition validateRoutePublicFields (prefix : string) (r : Route) : res config_error unit :=
  if String.eqb (Route_Mode r) ModeHTTP || String.eqb (Route_Mode r) ModeWebSocket then
    if negb (String.eqb (Route_PublicHost r) "") && ContainsAny (Route_PublicHost r) "/?#"
    then Err (NotHostName (prefix +:+ ".public_host"))
    else if String.eqb (Route_PublicPrefix r) "" && String.eqb (Route_PublicPath r) ""
    then Err (PublicPathRequired prefix (Route_Mode r))
    else
      let? _ := validatePath (prefix +:+ ".public_prefix") (Route_PublicPrefix r) in
      validatePath (prefix +:+ ".public_path") (Route_PublicPath r)
  else if String.eqb (Route_Mode r) ModeTCP || String.eqb (Route_Mode r) ModeGRPC then
    validateHostPort (prefix +:+ ".listen") (Route_Listen r)
  else Ok tt.

(** The loop over [r.ForwardedHeaders] from index [j]. *)
Fixpoint validateForwarded (prefix : string) (j : Z) (headers : list string) : res config_error unit :=
  match headers with
  | [] => Ok tt
  | h :: headers' =>
      if negb (validHeaderName h) then Err (HeaderName (prefix +:+ ".forwarded_headers") j h)
      else validateForwarded prefix (j + 1) headers'
  end.

Definition Route_validate (i : Z) (r : Route) : res config_error unit :=
  let prefix := "routes[" +:+ pretty i +:+ "]" in
  let? _ := ValidateSubjectToken (prefix +:+ ".name") (Route_Name r) in
  if negb (validMode (Route_Mode r)) then Err (ModeUnsupported (prefix +:+ ".mode") (Route_Mode r))
  else if String.eqb (Route_Target r) "" then Err (Required (prefix +:+ ".target"))
  else
    let? _ := validateRouteTarget (prefix +:+ ".target") (Route_Mode r) (Route_Target r) in
    let? _ := validateRoutePublicFields prefix r in
    if Route_MaxInlineRequestBytes r <? 0 then Err (Negative (prefix +:+ ".max_inline_request"))
    else if Route_MaxInlineResponseBytes r <? 0 then Err (Negative (prefix +:+ ".max_inline_response"))
    else if Route_MaxRequestBodyBytes r <? 0 then Err (Negative (prefix +:+ ".max_request_body_bytes"))
    else if Route_MaxResponseBodyBytes r <? 0 then Err (Negative (prefix +:+ ".max_response_body_bytes"))
    else if Route_Timeout r <? 0 then Err (Negative (prefix +:+ ".timeout"))
    else if Route_IdleTimeout r <? 0 then Err (Negative (prefix +:+ ".idle_timeout"))
    else validateForwarded prefix 0 (Route_ForwardedHeaders r).

(** ** The whole configuration *)

(** The route loop of [Config.Validate], from index [i] with the names seen so
    far; [edgeTLS] says that [edge.tls] is configured. *)
Fixpoint validateRoutes (edgeTLS : bool) (i : Z) (seen : gset string) (routes : list Route) :
    res config_error unit :=
  match routes with
  | [] => Ok tt
  | route :: routes' =>
      let? _ := Route_validate i route in
      if Route_TLS route && negb (String.eqb (Route_Mode route) ModeTCP) &&
         negb (String.eqb (Route_Mode route) ModeGRPC)
      then Err (RouteTLSMode i)
      else if Route_TLS route && negb edgeTLS then Err (RouteTLSNeedsEdge i)
      else if bool_decide (Route_Name route ∈ seen) then Err (DuplicateName i (Route_Name route))
      else validateRoutes edgeTLS (i + 1) ({[Route_Name route]} ∪ seen) routes'
  end.

Definition optionally (present : bool) (check : res config_error unit) : res config_error unit :=
  if present then check else Ok tt.

Definition validateEdgeTLS (c : Config) : res config_error unit :=
  match Edge_TLS (Config_Edge c) with
  | Some t =>
      if String.eqb (TLSServer_CertFile t) "" || String.eqb (TLSServer_KeyFile t) ""
      then Err EdgeTLSPair else Ok tt
  | None => Ok tt
  end.

Definition validateConnectorTLS (c : Config) : res config_error unit :=
  match Connector_TLS (Config_Connector c) with
  | Some t =>
      if negb (Bool.eqb (String.eqb (TLSClient_CertFile t) "") (String.eqb (TLSClient_KeyFile t) ""))
      then Err ConnectorTLSPair
      else if negb (HasPrefix (Connector_EdgeDataURL (Config_Connector c)) "wss://")
      then Err ConnectorTLSScheme
      else Ok tt
  | None => Ok tt
  end.

Definition Config_Validate (c : Config) : res config_error unit :=
  let n := Config_NATS c in
  let e := Config_Edge c in
  let k := Config_Connector c in
  let? _ := validateNATSURL "nats.url" (NATS_URL n) in
  let? _ := optionally (negb (String.eqb (NATS_EdgeURL n) ""))
              (validateNATSURL "nats.edge_url" (NATS_EdgeURL n)) in
  let? _ := optionally (negb (String.eqb (NATS_ConnectorURL n) ""))
              (validateNATSURL "nats.connector_url" (NATS_ConnectorURL n)) in
  let? _ := validateHostPort "edge.http_addr" (Edge_HTTPAddr e) in
  let? _ := validateHostPort "edge.data_addr" (Edge_DataAddr e) in
  let? _ := validateConnectorURL (Connector_EdgeDataURL k) in
  let? _ := optionally (negb (String.eqb (Edge_MetricsAddr e) ""))
              (validateHostPort "edge.metrics_addr" (Edge_MetricsAddr e)) in
  let? _ := optionally (negb (String.eqb (Connector_MetricsAddr k) ""))
              (validateHostPort "connector.metrics_addr" (Connector_MetricsAddr k)) in
  let? _ := validateEdgeTLS c in
  let? _ := validateConnectorTLS c in
  if (length (Config_Routes c) =? 0)%nat then Err NoRoutes
  else validateRoutes (match Edge_TLS e with Some _ => true | None => false end) 0 ∅
         (Config_Routes c).

(** ** Byte sizes *)

Inductive bytes_error :=
| MissingNumber | BadNumber (e : num_error) | UnknownUnit (unit : string) | NotScalar.

Definition byteUnits : gmap string Z :=
  {["b" := 1; "kb" := 1000; "mb" := 1000000; "gb" := 1000000000;
    "kib" := 1024; "mib" := 1048576; "gib" := 1073741824]}.

(** The loop of [parseBytes] over the runes of [s], [i] the byte offset of the
    current one; [n * multiplier] is an [int64] product. *)
Fixpoint parseBytesLoop (s : string) (i : nat) (rs : list (Z * string)) : res bytes_error Z :=
  match rs with
  | [] => match ParseInt s with Ok n => Ok n | Err e => Err (BadNumber e) end
  | (r, enc) :: rs' =>
      if IsDigit r then parseBytesLoop s (i + String.length enc) rs'
      else if (i =? 0)%nat then Err MissingNumber
      else
        match ParseInt (str_take i s) with
        | Err e => Err (BadNumber e)
        | Ok n =>
            match byteUnits !! ToLower (str_drop i s) with
            | None => Err (UnknownUnit (str_drop i s))
            | Some multiplier => Ok (wrap64 (n * multiplier))
            end
        end
  end.

Definition parseBytes (raw : string) : res bytes_error Z :=
  let s := TrimSpace raw in
  if String.eqb s "" then Ok 0 else parseBytesLoop s 0 (utf8_decode s).

(** A YAML scalar as the decoder hands it to [UnmarshalYAML]. *)
Record yaml_node := { node_is_scalar : bool; node_value : string }.

(** [(b *Bytes) UnmarshalYAML]: the new value of [*b]. *)
Definition Bytes_UnmarshalYAML (b : Z) (value : yaml_node) : res bytes_error Z :=
  if negb (node_is_scalar value) then Err NotScalar
  else if String.eqb (node_value value) "" then Ok b
  else parseBytes (node_value value).
End Validate.

(** ** Loading *)

Inductive load_error := ReadError | YAMLError | ConfigInvalid (e : config_error).

Section Load.
Context {UT : UnicodeTables}.
(** [yaml.NewDecoder(..).Decode] with unknown fields rejected. *)
Variable yaml_decode : string -> option Config.
(** [os.ReadFile]. *)
Variable readFile : string -> option string.

Definition Load (data : string) : res load_error Config :=
  match yaml_decode data with
  | None => Err YAMLError
  | Some cfg =>
      match Config_Validate cfg with
      | Err e => Err (ConfigInvalid e)
      | Ok _ => Ok cfg
      end
  end.

Definition LoadFile (path : string) : res load_error Config :=
  match readFile path with
  | None => Err ReadError
  | Some data => Load data
  end.
End Load.

(** ** What a valid configuration is *)

(** One NATS subject token: an identifier of at most 128 bytes. *)
Definition subject_token (s : string) : Prop := ident s /\ len s <= 128.

Definition host_port_wf (v : string) : Prop :=
  exists host port n, SplitHostPort v = Ok (host, port) /\
    (host <> "" \/ HasPrefix v ":" = true) /\ ParseUint port 65535 = Ok n.

Definition public_path_wf (p : string) : Prop :=
  p = "" \/ HasPrefix p "/" = true /\ avoids "?#" p.

Section Wellformed.
Context {UT : UnicodeTables}.

Definition nats_url_wf (raw : string) : Prop :=
  exists u, Parse raw = Ok u /\ Host u <> "" /\ In (Scheme u) ["nats"; "tls"; "ws"; "wss"].

(** A URL of one of the schemes, with a host and without credentials. *)
Definition url_wf (schemes : list string) (raw : string) : Prop :=
  exists u, Parse raw = Ok u /\ Host u <> "" /\ User u = None /\ In (Scheme u) schemes.

Definition web_public_wf (r : Route) : Prop :=
  avoids "/?#" (Route_PublicHost r) /\
  (Route_PublicPrefix r <> "" \/ Route_PublicPath r <> "") /\
  public_path_wf (Route_PublicPrefix r) /\ public_path_wf (Route_PublicPath r).

Definition stream_mode (m : string) : Prop := m = ModeTCP \/ m = ModeGRPC.

(** Target and public fields of each mode. *)
Definition route_mode_wf (r : Route) : Prop :=
  (Route_Mode r = ModeHTTP /\ url_wf ["http"; "https"] (Route_Target r) /\ web_public_wf r) \/
  (Route_Mode r = ModeWebSocket /\ url_wf ["ws"; "wss"] (Route_Target r) /\ web_public_wf r) \/
  (stream_mode (Route_Mode r) /\ host_port_wf (Route_Target r) /\ host_port_wf (Route_Listen r)).

Definition route_limits_wf (r : Route) : Prop :=
  0 <= Route_MaxInlineRequestBytes r /\ 0 <= Route_MaxInlineResponseBytes r /\
  0 <= Route_MaxRequestBodyBytes r /\ 0 <= Route_MaxResponseBodyBytes r /\
  0 <= Route_Timeout r /\ 0 <= Route_IdleTimeout r.

Definition route_wf (r : Route) : Prop :=
  subject_token (Route_Name r) /\ route_mode_wf r /\ route_limits_wf r /\
  Forall token (Route_ForwardedHeaders r).

Definition config_wf (c : Config) : Prop :=
  let n := Config_NATS c in
  let e := Config_Edge c in
  let k := Config_Connector c in
  nats_url_wf (NATS_URL n) /\
  (NATS_EdgeURL n <> "" -> nats_url_wf (NATS_EdgeURL n)) /\
  (NATS_ConnectorURL n <> "" -> nats_url_wf (NATS_ConnectorURL n)) /\
  host_port_wf (Edge_HTTPAddr e) /\ host_port_wf (Edge_DataAddr e) /\
  url_wf ["ws"; "wss"] (Connector_EdgeDataURL k) /\
  (Edge_MetricsAddr e <> "" -> host_port_wf (Edge_MetricsAddr e)) /\
  (Connector_MetricsAddr k <> "" -> host_port_wf (Connector_MetricsAddr k)) /\
  (forall t, Edge_TLS e = Some t -> TLSServer_CertFile t <> "" /\ TLSServer_KeyFile t <> "") /\
  (forall t, Connector_TLS k = Some t ->
     (TLSClient_CertFile t = "" <-> TLSClient_KeyFile t = "") /\
     HasPrefix (Connector_EdgeDataURL k) "wss://" = true) /\
  Config_Routes c <> [] /\ NoDup (Route_Name <$> Config_Routes c) /\
  Forall (fun r => route_wf r /\
    (Route_TLS r = true -> stream_mode (Route_Mode r) /\ is_Some (Edge_TLS e))) (Config_Routes c).

(** ** Lemmas *)

Lemma subjectTokenLoop_spec field rs :
  subjectTokenLoop field rs = Ok tt <-> forallb is_ident_rune rs = true.
Proof.
  induction rs as [|r rs IH]; simpl; [done|].
  assert (Hsep : (r =? 42) || (r =? 62) || (r =? 46) = true -> is_ident_rune r = false).
  { rewrite !orb_true_iff, !Z.eqb_eq. intros [[->| ->]| ->]; done. }
  destruct ((r =? 42) || (r =? 62) || (r =? 46)) eqn:E.
  - rewrite Hsep by done. done.
  - destruct (is_ident_rune r); simpl; [done|]. done.
Qed.

Lemma ValidateSubjectToken_spec field v :
  ValidateSubjectToken field v = Ok tt <-> subject_token v.
Proof.
  unfold ValidateSubjectToken, subject_token, ident.
  autorewrite with airpc_ok. rewrite subjectTokenLoop_spec, runes_ident. tauto.
Qed.

Lemma ValidateSubjectToken_is_ok field v :
  is_ok (ValidateSubjectToken field v) = true <-> subject_token v.
Proof. by rewrite is_ok_unit, ValidateSubjectToken_spec. Qed.

Lemma validHeaderName_spec v : validHeaderName v = true <-> token v.
Proof.
  unfold validHeaderName, token.
  assert (HP : forallb (fun r => negb ((127 <? r) || negb (isTokenChar (zb r)))) (runes v) =
          str_forallb is_token_byte v).
  { rewrite runes_forallb_ascii.
    - apply str_forallb_ext. intros c. rewrite zb_bz.
      unfold isTokenChar, is_token_byte, token_symbols.
      destruct (127 <? bz c) eqn:E; cbn [orb negb]; bsimpl;
        [|destruct (is_alnum (bz c)); [done|apply negb_involutive]].
      destruct c as [[] [] [] [] [] [] [] []]; (reflexivity || discriminate E || (vm_compute in E; lia)).
    - intros r Hr. by rewrite (proj2 (Z.ltb_lt _ _)) by lia. }
  rewrite HP. destruct (String.eqb_spec v ""); intuition congruence.
Qed.

Lemma validateHostPort_spec field v : validateHostPort field v = Ok tt <-> host_port_wf v.
Proof.
  unfold validateHostPort, host_port_wf.
  destruct (String.eqb_spec v "") as [->|Hv].
  { split; [done|]. intros (h & p & n & Hs & _). discriminate Hs. }
  destruct (SplitHostPort v) as [[host port]|]; [|naive_solver].
  destruct (ParseUint port 65535) as [n|] eqn:Hp.
  - autorewrite with airpc_ok. rewrite andb_false_iff, negb_false_iff, String.eqb_neq.
    destruct (ParseUint_digits _ _ _ Hp) as [Hne _]. split.
    + intros ([?|?] & _ & _); exists host, port, n; auto.
    + intros (? & ? & ? & [= <- <-] & Hh & _). tauto.
  - split; [repeat case_match; discriminate|].
    intros (? & ? & ? & [= <- <-] & _ & ?). congruence.
Qed.

Lemma public_path_spec field v : validatePath field v = Ok tt <-> public_path_wf v.
Proof.
  unfold validatePath, public_path_wf.
  destruct (String.eqb_spec v "") as [->|Hv]; [naive_solver|].
  autorewrite with airpc_ok. tauto.
Qed.

Lemma url_wf_nonempty schemes raw : ~ In "" schemes -> url_wf schemes raw -> raw <> "".
Proof. intros Hs (u & Hu & _ & _ & Hin) ->. by injection Hu as <-. Qed.

Lemma validateURLTarget_spec field raw schemes :
  ~ In "" schemes -> validateURLTarget field raw schemes = Ok tt <-> url_wf schemes raw.
Proof.
  intros Hs. unfold validateURLTarget, url_wf.
  destruct (Parse raw) as [u|]; [|naive_solver].
  autorewrite with airpc_ok. rewrite existsb_exists.
  split.
  - intros ([? ?] & HU & x & Hx & <-%String.eqb_eq). exists u. by destruct (User u).
  - intros (u' & [= <-] & ? & -> & Hin).
    assert (Scheme u <> "") by (intros E; apply Hs; by rewrite <-E).
    split_and!; [done..|]. exists (Scheme u). split; [done|]. apply String.eqb_refl.
Qed.

Lemma validateNATSURL_spec field raw : validateNATSURL field raw = Ok tt <-> nats_url_wf raw.
Proof.
  unfold validateNATSURL, nats_url_wf.
  destruct (String.eqb_spec raw "") as [->|Hr].
  { split; [done|]. intros (u & Hu & Hh & _). by injection Hu as <-. }
  destruct (Parse raw) as [u|]; [|naive_solver].
  autorewrite with airpc_ok. simpl. split.
  - intros. exists u. intuition congruence.
  - intros (u' & [= <-] & ? & Hin). intuition congruence.
Qed.

Lemma validateConnectorURL_spec raw :
  validateConnectorURL raw = Ok tt <-> url_wf ["ws"; "wss"] raw.
Proof.
  unfold validateConnectorURL. rewrite <-(validateURLTarget_spec "connector.edge_data_url").
  2: simpl; intuition congruence.
  unfold validateURLTarget. destruct (String.eqb_spec raw "") as [->|Hr]; [done|].
  destruct (Parse raw) as [u|]; [|done]. simpl. by rewrite orb_false_r.
Qed.

Lemma validMode_spec m :
  validMode m = true <-> m = ModeHTTP \/ m = ModeGRPC \/ m = ModeWebSocket \/ m = ModeTCP.
Proof. unfold validMode. autorewrite with airpc_ok. tauto. Qed.

Lemma validateForwarded_spec prefix j hs :
  validateForwarded prefix j hs = Ok tt <-> Forall token hs.
Proof.
  revert j. induction hs as [|h hs IH]; intros j; simpl; [done|].
  autorewrite with airpc_ok. by rewrite IH, validHeaderName_spec, list.Forall_cons.
Qed.

Lemma web_public_spec prefix r :
  (let? _ := validatePath (prefix +:+ ".public_prefix") (Route_PublicPrefix r) in
   validatePath (prefix +:+ ".public_path") (Route_PublicPath r)) = Ok tt <->
  public_path_wf (Route_PublicPrefix r) /\ public_path_wf (Route_PublicPath r).
Proof. by rewrite bind_ok, !public_path_spec. Qed.

Lemma public_host_spec r :
  negb (String.eqb (Route_PublicHost r) "") && ContainsAny (Route_PublicHost r) "/?#" = false <->
  avoids "/?#" (Route_PublicHost r).
Proof.
  rewrite andb_false_iff, negb_false_iff, String.eqb_eq, ContainsAny_avoids.
  split; [|by right]. intros [->|?]; [|done]. by apply ContainsAny_avoids.
Qed.

(** Target and public fields, mode by mode. *)
Lemma validateRoute_mode_spec prefix r :
  validMode (Route_Mode r) = true ->
  validateRouteTarget (prefix +:+ ".target") (Route_Mode r) (Route_Target r) = Ok tt /\
  validateRoutePublicFields prefix r = Ok tt <-> route_mode_wf r.
Proof.
  unfold validateRouteTarget, validateRoutePublicFields, route_mode_wf, stream_mode, web_public_wf.
  intros [E|[E|[E|E]]]%validMode_spec; rewrite E; simpl;
    rewrite ?validateHostPort_spec, ?validateURLTarget_spec by (simpl; intuition congruence);
    autorewrite with airpc_ok;
    rewrite ?public_host_spec, ?andb_false_iff, ?String.eqb_neq, ?public_path_spec;
    unfold ModeHTTP, ModeGRPC, ModeWebSocket, ModeTCP in *; intuition congruence.
Qed.

Lemma route_mode_target r : route_mode_wf r -> Route_Target r <> "".
Proof.
  intros [(_ & H & _)|[(_ & H & _)|(_ & (h & p & n & H & _) & _)]].
  - eapply url_wf_nonempty; [|exact H]. simpl. intuition congruence.
  - eapply url_wf_nonempty; [|exact H]. simpl. intuition congruence.
  - by intros E; rewrite E in H.
Qed.

Lemma route_mode_valid r : route_mode_wf r -> validMode (Route_Mode r) = true.
Proof. unfold route_mode_wf, stream_mode. rewrite validMode_spec. tauto. Qed.

Lemma Route_validate_spec i r : Route_validate i r = Ok tt <-> route_wf r.
Proof.
  unfold Route_validate, route_wf, route_limits_wf. set (prefix := "routes[" +:+ _ +:+ "]").
  autorewrite with airpc_ok. rewrite ValidateSubjectToken_spec, validateForwarded_spec.
  pose proof (validateRoute_mode_spec prefix r) as Hm.
  pose proof (route_mode_target r) as Ht. pose proof (route_mode_valid r) as Hv.
  tauto.
Qed.

Lemma validateRoutes_spec edgeTLS i seen routes :
  validateRoutes edgeTLS i seen routes = Ok tt <->
  NoDup (Route_Name <$> routes) /\
  Forall (fun r => (route_wf r /\
    (Route_TLS r = true -> stream_mode (Route_Mode r) /\ edgeTLS = true)) /\
    Route_Name r ∉ seen) routes.
Proof.
  revert i seen. induction routes as [|r routes IH]; intros i seen; simpl.
  { split; [|done]. intros _. split; [apply NoDup_nil_2|done]. }
  autorewrite with airpc_ok. rewrite IH, Route_validate_spec, list.NoDup_cons, list.Forall_cons.
  assert (HT : Route_TLS r && negb (String.eqb (Route_Mode r) ModeTCP) &&
               negb (String.eqb (Route_Mode r) ModeGRPC) = false /\
               Route_TLS r && negb edgeTLS = false <->
               (Route_TLS r = true -> stream_mode (Route_Mode r) /\ edgeTLS = true)).
  { unfold stream_mode. destruct (Route_TLS r), edgeTLS,
      (String.eqb_spec (Route_Mode r) ModeTCP), (String.eqb_spec (Route_Mode r) ModeGRPC);
      simpl; intuition congruence. }
  assert (HN : Forall (fun r' => (route_wf r' /\ (Route_TLS r' = true ->
                 stream_mode (Route_Mode r') /\ edgeTLS = true)) /\
                 Route_Name r' ∉ {[Route_Name r]} ∪ seen) routes <->
               (Route_Name r ∉ (Route_Name <$> routes)) /\
               Forall (fun r' => (route_wf r' /\ (Route_TLS r' = true ->
                 stream_mode (Route_Mode r') /\ edgeTLS = true)) /\ Route_Name r' ∉ seen) routes).
  { rewrite !list.Forall_forall, list_elem_of_fmap. split.
    - intros H. split; [|intros r' Hr; specialize (H r' Hr)].
      + intros (r' & E & Hr). specialize (H r' Hr). rewrite E in H. set_solver.
      + rewrite not_elem_of_union in H. tauto.
    - intros [Hn H] r' Hr. specialize (H r' Hr). rewrite not_elem_of_union, not_elem_of_singleton.
      split; [tauto|]. split; [|tauto]. intros E. apply Hn. eauto. }
  tauto.
Qed.

Lemma optionally_spec s check (P : Prop) :
  (check = Ok tt <-> P) ->
  (optionally (negb (String.eqb s "")) check = Ok tt <-> (s <> "" -> P)).
Proof. intros HP. unfold optionally. destruct (String.eqb_spec s ""); simpl; intuition congruence. Qed.

Lemma validateEdgeTLS_spec c :
  validateEdgeTLS c = Ok tt <->
  forall t, Edge_TLS (Config_Edge c) = Some t -> TLSServer_CertFile t <> "" /\ TLSServer_KeyFile t <> "".
Proof.
  unfold validateEdgeTLS. destruct (Edge_TLS (Config_Edge c)) as [t|]; [|done].
  autorewrite with airpc_ok. rewrite forall_Some. tauto.
Qed.

Lemma validateConnectorTLS_spec c :
  validateConnectorTLS c = Ok tt <->
  forall t, Connector_TLS (Config_Connector c) = Some t ->
     (TLSClient_CertFile t = "" <-> TLSClient_KeyFile t = "") /\
     HasPrefix (Connector_EdgeDataURL (Config_Connector c)) "wss://" = true.
Proof.
  unfold validateConnectorTLS. destruct (Connector_TLS (Config_Connector c)) as [t|]; [|done].
  autorewrite with airpc_ok. rewrite Bool.eqb_true_iff.
  assert (Hb : String.eqb (TLSClient_CertFile t) "" = String.eqb (TLSClient_KeyFile t) "" <->
               (TLSClient_CertFile t = "" <-> TLSClient_KeyFile t = "")).
  { destruct (String.eqb_spec (TLSClient_CertFile t) ""), (String.eqb_spec (TLSClient_KeyFile t) "");
      intuition congruence. }
  rewrite Hb, forall_Some. tauto.
Qed.

Lemma Config_Validate_iff c : Config_Validate c = Ok tt <-> config_wf c.
Proof.
  unfold Config_Validate, config_wf.
  rewrite !bind_ok, guard_ok.
  rewrite !(optionally_spec _ _ _ (validateNATSURL_spec _ _)).
  rewrite !(optionally_spec _ _ _ (validateHostPort_spec _ _)).
  rewrite validateNATSURL_spec, !validateHostPort_spec, validateConnectorURL_spec.
  rewrite validateEdgeTLS_spec, validateConnectorTLS_spec, validateRoutes_spec.
  rewrite Nat.eqb_neq, length_zero_iff_nil.
  assert (HF : Forall (fun r => (route_wf r /\ (Route_TLS r = true -> stream_mode (Route_Mode r) /\
                  match Edge_TLS (Config_Edge c) with Some _ => true | None => false end = true)) /\
                  Route_Name r ∉ (∅ : gset string)) (Config_Routes c) <->
               Forall (fun r => route_wf r /\ (Route_TLS r = true ->
                  stream_mode (Route_Mode r) /\ is_Some (Edge_TLS (Config_Edge c)))) (Config_Routes c)).
  { apply Forall_proper; [|done]. intros r. rewrite elem_of_empty.
    destruct (Edge_TLS (Config_Edge c)) as [t|]; [pose proof (mk_is_Some (Some t) t eq_refl); tauto|].
    rewrite <-not_eq_None_Some. intuition congruence. }
  rewrite HF. tauto.
Qed.
End Wellformed.

(** ** Subjects and byte sizes *)

Lemma subject_token_no_dot s : subject_token s -> str_mem "." s = false.
Proof. intros [[_ H] _]. by apply (str_forallb_not_mem is_ident_byte). Qed.

Lemma ToLower_cons_ascii {UT : UnicodeTables} u d t :
  is_ascii u = true -> ToLower u = String d t ->
  exists c u', u = String c u' /\ bz c < 128 /\ d = lower_byte c.
Proof.
  intros Ha. unfold ToLower. rewrite Ha. destruct u as [|c u']; [done|].
  simpl. intros [= <- <-]. unfold is_ascii in Ha. simpl in Ha. bsimpl. eauto.
Qed.

(** Every key of [byteUnits] starts with a letter, so an ASCII unit does too. *)
Lemma unit_start {UT : UnicodeTables} u m :
  is_ascii u = true -> byteUnits !! ToLower u = Some m ->
  exists c u', u = String c u' /\ bz c < 128 /\ is_digit (bz c) = false.
Proof.
  intros Ha Hm.
  assert (Hk : exists d t, ToLower u = String d t /\ is_digit (bz d) = false).
  { assert (HF : map_Forall (fun k _ =>
      match k with String d _ => negb (is_digit (bz d)) | EmptyString => false end = true) byteUnits)
      by (apply (bool_decide_unpack _); vm_compute; exact I).
    specialize (HF _ _ Hm). simpl in HF. destruct (ToLower u) as [|d t]; [done|].
    apply negb_true_iff in HF. eauto. }
  destruct Hk as (d & t & Hd & Hdig).
  destruct (ToLower_cons_ascii u d t Ha Hd) as (c & u' & -> & Hc & ->).
  exists c, u'. split_and!; [done..|]. unfold lower_byte in Hdig.
  destruct (is_upper (bz c)) eqn:E; [|done]. apply within_true in E.
  unfold is_digit, within. destruct (48 <=? bz c) eqn:E1, (bz c <=? 57) eqn:E2; bsimpl; lia || done.
Qed.

Lemma parseBytesLoop_digits {UT : UnicodeTables} s ds rest i :
  str_forallb (fun c => is_digit (bz c)) ds = true ->
  parseBytesLoop s i (utf8_decode (ds +:+ rest)) =
  parseBytesLoop s (i + String.length ds) (utf8_decode rest).
Proof.
  revert i. induction ds as [|c ds IH]; intros i Hds; [by rewrite Nat.add_0_r|].
  cbn [str_forallb] in Hds. apply andb_true_iff in Hds as [Hc Hds].
  pose proof Hc as Hr. apply within_true in Hr.
  change (String c ds +:+ rest) with (String c (ds +:+ rest)).
  rewrite utf8_decode_cons_ascii by lia. cbn [parseBytesLoop]. unfold IsDigit at 1.
  rewrite (proj2 (Z.leb_le _ _)), Hc by lia. rewrite IH by done. f_equal. simpl. lia.
Qed.

(** The byte-size syntax.  Digits alone are a number of bytes; digits
    followed by one of the seven units, in any case, are that number times the
    unit, exactly when the product is an [int64] and wrapped around otherwise:
    the multiplication is not checked. *)
Theorem parseBytes_value {UT : UnicodeTables} raw ds u n :
  TrimSpace raw = ds +:+ u -> ds <> "" ->
  str_forallb (fun c => is_digit (bz c)) ds = true -> ParseInt ds = Ok n ->
  (u = "" -> parseBytes raw = Ok n) /\
  (forall m, is_ascii u = true -> byteUnits !! ToLower u = Some m ->
     parseBytes raw = Ok (wrap64 (n * m)) /\
     (int64_range (n * m) -> parseBytes raw = Ok (n * m))).
Proof.
  intros Ht Hne Hd Hn. unfold parseBytes. rewrite Ht.
  assert (Hs : String.eqb (ds +:+ u) "" = false) by (by destruct ds).
  rewrite Hs, parseBytesLoop_digits by done. split.
  - intros ->. rewrite app_str_nil_r. simpl. by rewrite Hn.
  - intros m Ha Hm. destruct (unit_start u m Ha Hm) as (c & u' & Hu & Hc & Hcd).
    enough (parseBytesLoop (ds +:+ u) (0 + String.length ds) (utf8_decode u) =
            Ok (wrap64 (n * m))) as ->.
    { split; [done|]. intros Hr. by rewrite wrap64_small. }
    rewrite Hu at 2. rewrite utf8_decode_cons_ascii by done. cbn [parseBytesLoop].
    unfold IsDigit. rewrite (proj2 (Z.leb_le _ _)), Hcd by lia.
    rewrite (proj2 (Nat.eqb_neq _ _)) by (destruct ds; simpl; [done|lia]).
    by rewrite Nat.add_0_l, str_take_app, str_drop_app, Hn, Hm.
Qed.

(** The unchecked multiplication makes large limits meaningless: sixteen
    exbibytes are accepted as zero bytes (no limit configured) and eight as a
    negative number. *)
Theorem parseBytes_overflow {UT : UnicodeTables} :
  parseBytes "17179869184GiB" = Ok 0 /\ parseBytes "8589934592GiB" = Ok min_int64.
Proof. split; vm_compute; reflexivity. Qed.

(** The two directions between cancel subjects and request ids. *)
Lemma cancel_subject_read subject id :
  RequestIDFromCancelSubject subject = Some id <->
  subject = CancelSubject id /\ subject_token id.
Proof.
  unfold RequestIDFromCancelSubject, CancelSubject.
  destruct (HasPrefix subject cancelSubjectPrefix) eqn:Hp.
  - apply TrimPrefix_spec in Hp. set (t := TrimPrefix subject cancelSubjectPrefix) in *.
    rewrite Hp. rewrite <-(ValidateSubjectToken_is_ok "request_id").
    assert (Hne : String.eqb t (cancelSubjectPrefix +:+ t) = false).
    { apply String.eqb_neq. intros E. apply (f_equal String.length) in E.
      rewrite length_app_str in E. simpl in E. lia. }
    rewrite Hne. cbn [orb]. split.
    + destruct (is_ok _) eqn:Hok; cbn [negb]; intros [= <-]. done.
    + intros [E%app_str_inj Hok]. by rewrite E, Hok.
  - unfold TrimPrefix. rewrite Hp, String.eqb_refl. cbn [orb]. split; [done|].
    intros [-> _]. by rewrite HasPrefix_app in Hp.
Qed.

(** The cancel subject carries exactly the request id: a subject is read
    back as [id] when and only when it is the cancel subject of [id] and [id]
    is a valid subject token. *)
Theorem cancel_subject_roundtrip subject id :
  RequestIDFromCancelSubject subject = Some id <->
  subject = CancelSubject id /\ subject_token id.
Proof. apply cancel_subject_read. Qed.

(** No route name can smuggle a subject separator: the subjects of a valid
    route have exactly the tokens the two processes agree on, the name being
    one of them, so distinct routes never share a subject and the unary, open
    and cancel subjects never meet. *)
Theorem subjects_tokens r id :
  subject_token (Route_Name r) -> subject_token id ->
  Split (UnarySubject r) "." = ["airpc"; "v1"; "route"; Route_Name r; "unary"] /\
  Split (OpenSubject r) "." = ["airpc"; "v1"; "route"; Route_Name r; "open"] /\
  Split (QueueGroup r) "." = ["airpc"; "route"; Route_Name r; "connectors"] /\
  Split (CancelSubject id) "." = ["airpc"; "v1"; "cancel"; id].
Proof.
  intros Hr%subject_token_no_dot Hid%subject_token_no_dot.
  unfold UnarySubject, OpenSubject, QueueGroup, CancelSubject, cancelSubjectPrefix.
  split_and!; simpl;
    rewrite ?(Split_none id), ?(Split_app (Route_Name r)) by done; reflexivity.
Qed.

(** C30: validation is exact: [Config.Validate] accepts a configuration if and
    only if every URL, address, route, limit and TLS block satisfies the
    documented rules and route names are unique. *)
Theorem config_validation {UT : UnicodeTables} c :
  Config_Validate c = Ok tt <-> config_wf c.
Proof. apply Config_Validate_iff. Qed.

(** ** Witnesses *)

Lemma parseBytes_value_witness :
  let UT := ascii_tables in
  parseBytes "4MiB" = Ok 4194304 /\
  (("MiB" = "" -> parseBytes "4MiB" = Ok 4) /\
   (forall m, is_ascii "MiB" = true -> byteUnits !! ToLower "MiB" = Some m ->
      parseBytes "4MiB" = Ok (wrap64 (4 * m)) /\
      (int64_range (4 * m) -> parseBytes "4MiB" = Ok (4 * m)))).
Proof.
  split; [vm_compute; reflexivity|].
  apply (parseBytes_value (UT := ascii_tables) "4MiB" "4" "MiB" 4); (reflexivity || discriminate).
Defined.

Lemma subjects_tokens_witness :
  let r := mkRoute "demo" "http" "" "/demo" "" "" "http://h" 0 0 0 0 0 0 [] false in
  Split (UnarySubject r) "." = ["airpc"; "v1"; "route"; "demo"; "unary"] /\
  Split (OpenSubject r) "." = ["airpc"; "v1"; "route"; "demo"; "open"] /\
  Split (QueueGroup r) "." = ["airpc"; "route"; "demo"; "connectors"] /\
  Split (CancelSubject "r1") "." = ["airpc"; "v1"; "cancel"; "r1"].
Proof. apply subjects_tokens; split; [by split|done|by split|done]. Defined.
