(* ===== verification/Tls.v ===== *)
(** * TLS configurations

    [internal/config/tls.go].  What is read from files, and how PEM data
    becomes certificates and pools, are parameters: the file system and
    crypto/x509. *)
From S2P Require Import Prelude GoString Config.

#[local] Open Scope Z_scope.

(** [tls.ClientAuthType]: the two values in use. *)
Inductive ClientAuthType := NoClientCert | RequireAndVerifyClientCert.

Definition VersionTLS12 : Z := 771.

Inductive pool_error := PoolUnreadable | NoPEMCertificates.

Inductive tls_error :=
| EdgeKeyPair | EdgeClientCA (e : pool_error) | ConnectorCA (e : pool_error) | ConnectorKeyPair.

Section TLS.
Context {Certificate CertPool : Type}.

(** The files and the decoding of their contents. *)
Record TLSFiles := mkTLSFiles {
  tf_ReadFile : string -> option string;
  tf_X509KeyPair : string -> string -> option Certificate;
  tf_AppendCertsFromPEM : string -> option CertPool
}.

(** The fields of [tls.Config] that are set. *)
Record TLSConfig := mkTLSConfig {
  tls_Certificates : list Certificate;
  tls_MinVersion : Z;
  tls_ClientAuth : ClientAuthType;
  tls_ClientCAs : option CertPool;
  tls_RootCAs : option CertPool;      (** nil: the system's *)
  tls_ServerName : string
}.

Context (fs : TLSFiles).

(** [tls.LoadX509KeyPair]. *)
Definition LoadX509KeyPair (certFile keyFile : string) : option Certificate :=
  match tf_ReadFile fs certFile, tf_ReadFile fs keyFile with
  | Some certPEM, Some keyPEM => tf_X509KeyPair fs certPEM keyPEM
  | _, _ => None
  end.

Definition loadCertPool (path : string) : res pool_error CertPool :=
  match tf_ReadFile fs path with
  | None => Err PoolUnreadable
  | Some pem =>
      match tf_AppendCertsFromPEM fs pem with
      | None => Err NoPEMCertificates
      | Some pool => Ok pool
      end
  end.

Definition ServerTLS (t : TLSServerConfig) : res tls_error TLSConfig :=
  match LoadX509KeyPair (TLSServer_CertFile t) (TLSServer_KeyFile t) with
  | None => Err EdgeKeyPair
  | Some cert => Ok (mkTLSConfig [cert] VersionTLS12 NoClientCert None None "")
  end.

Definition DataTLS (t : TLSServerConfig) : res tls_error TLSConfig :=
  let? cfg := ServerTLS t in
  if String.eqb (TLSServer_ClientCAFile t) "" then Ok cfg
  else
    match loadCertPool (TLSServer_ClientCAFile t) with
    | Err e => Err (EdgeClientCA e)
    | Ok pool =>
        Ok (mkTLSConfig (tls_Certificates cfg) (tls_MinVersion cfg) RequireAndVerifyClientCert
              (Some pool) (tls_RootCAs cfg) (tls_ServerName cfg))
    end.

Definition ClientTLS (t : TLSClientConfig) : res tls_error TLSConfig :=
  let? roots :=
    if String.eqb (TLSClient_CAFile t) "" then Ok None
    else match loadCertPool (TLSClient_CAFile t) with Err e => Err (ConnectorCA e) | Ok pool => Ok (Some pool) end in
  let? certificates :=
    if String.eqb (TLSClient_CertFile t) "" then Ok []
    else match LoadX509KeyPair (TLSClient_CertFile t) (TLSClient_KeyFile t) with
         | None => Err ConnectorKeyPair | Some cert => Ok [cert] end in
  Ok (mkTLSConfig certificates VersionTLS12 NoClientCert None roots (TLSClient_ServerName t)).

(** ** What they promise *)

(** A certificate of the edge, presented to whoever connects. *)
Definition presents (t : TLSServerConfig) (cfg : TLSConfig) : Prop :=
  exists cert, LoadX509KeyPair (TLSServer_CertFile t) (TLSServer_KeyFile t) = Some cert /\
    tls_Certificates cfg = [cert] /\ tls_MinVersion cfg = VersionTLS12.

Lemma ServerTLS_Ok t cfg :
  ServerTLS t = Ok cfg -> presents t cfg /\ tls_ClientAuth cfg = NoClientCert.
Proof.
  unfold ServerTLS, presents. destruct (LoadX509KeyPair _ _) as [cert|]; [|done]. intros [= <-].
  split; [by exists cert|done].
Qed.

(** Clients of the data listener are verified exactly when a client CA is
    configured, against that CA's certificates. *)
Lemma DataTLS_Ok t cfg :
  DataTLS t = Ok cfg ->
  presents t cfg /\
  (if String.eqb (TLSServer_ClientCAFile t) "" then tls_ClientAuth cfg = NoClientCert
   else tls_ClientAuth cfg = RequireAndVerifyClientCert /\
     exists pool, loadCertPool (TLSServer_ClientCAFile t) = Ok pool /\ tls_ClientCAs cfg = Some pool).
Proof.
  unfold DataTLS. destruct (ServerTLS t) as [cfg0|] eqn:E; [|done]. cbn.
  destruct (ServerTLS_Ok t cfg0 E) as [(cert & ? & ? & ?) Ha].
  destruct (String.eqb _ ""); [intros [= <-]; split; [by exists cert|done]|].
  destruct (loadCertPool _) as [pool|]; [|done]. intros [= <-]. split; [by exists cert|]. split; [done|]. by exists pool.
Qed.

(** The connector verifies the edge against the configured CA, or the system's,
    and presents the configured certificate. *)
Lemma ClientTLS_Ok t cfg :
  ClientTLS t = Ok cfg ->
  tls_MinVersion cfg = VersionTLS12 /\ tls_ServerName cfg = TLSClient_ServerName t /\
  (if String.eqb (TLSClient_CAFile t) "" then tls_RootCAs cfg = None
   else exists pool, loadCertPool (TLSClient_CAFile t) = Ok pool /\ tls_RootCAs cfg = Some pool) /\
  (if String.eqb (TLSClient_CertFile t) "" then tls_Certificates cfg = []
   else exists cert, LoadX509KeyPair (TLSClient_CertFile t) (TLSClient_KeyFile t) = Some cert /\ tls_Certificates cfg = [cert]).
Proof.
  unfold ClientTLS. destruct (String.eqb (TLSClient_CAFile t) ""), (String.eqb (TLSClient_CertFile t) ""); cbn.
  - by intros [= <-].
  - destruct (LoadX509KeyPair _ _) as [cert|]; [|done]. cbn. intros [= <-]. cbn. split_and!; [done..|by exists cert].
  - destruct (loadCertPool _) as [pool|]; [|done]. cbn. intros [= <-]. cbn. split_and!; [done..|by exists pool|done].
  - destruct (loadCertPool _) as [pool|]; [|done]. cbn. destruct (LoadX509KeyPair _ _) as [cert|]; [|done]. cbn.
    intros [= <-]. cbn. split_and!; [done..|by exists pool|by exists cert].
Qed.
End TLS.

Arguments TLSFiles : clear implicits.
Arguments TLSConfig : clear implicits.
