(* ===== verification/GoTime.v ===== *)
(** * Durations

    [time.ParseDuration] and [Duration.UnmarshalYAML] of
    [internal/config/config.go].  Floating point arithmetic, which only the
    fractional part of a number goes through, is a parameter. *)
From S2P Require Import Prelude GoString GoStd Config.

#[local] Open Scope Z_scope.

Inductive duration_error := DurationInvalid | MissingUnit | UnknownDurationUnit (u : string) | DurationNotScalar.

(** [unitMap]; the micro sign and the Greek letter mu are both accepted. *)
Definition unitMap : gmap string Z :=
  {["ns" := 1; "us" := 1000; String "194" (String "181" "s") := 1000; String "206" (String "188" "s") := 1000;
    "ms" := 1000000; "s" := 1000000000; "m" := 60000000000; "h" := 3600000000000]}.

Definition two63 : Z := 9223372036854775808.
Definition wrap_uint64 (x : Z) : Z := x mod 18446744073709551616.

(** [leadingInt]; [None] on an overflow. *)
Fixpoint leadingInt (x : Z) (s : string) : option (Z * string) :=
  match s with
  | String c s' =>
      if is_digit (bz c) then
        if two63 / 10 <? x then None
        else
          let x' := x * 10 + (bz c - 48) in
          if two63 <? x' then None else leadingInt x' s'
      else Some (x, s)
  | EmptyString => Some (x, EmptyString)
  end.

(** [leadingFraction]: the value, its scale and what follows. *)
Fixpoint leadingFraction (x scale : Z) (overflow : bool) (s : string) : Z * Z * string :=
  match s with
  | String c s' =>
      if is_digit (bz c) then
        if overflow then leadingFraction x scale overflow s'
        else if max_int64 / 10 <? x then leadingFraction x scale true s'
        else
          let y := x * 10 + (bz c - 48) in
          if two63 <? y then leadingFraction x scale true s'
          else leadingFraction y (scale * 10) overflow s'
      else (x, scale, s)
  | EmptyString => (x, scale, EmptyString)
  end.

(** The unit: up to the next digit or point. *)
Fixpoint split_unit (s : string) : string * string :=
  match s with
  | String c s' =>
      if Ascii.eqb c "." || is_digit (bz c) then (EmptyString, s)
      else let '(u, rest) := split_unit s' in (String c u, rest)
  | EmptyString => (EmptyString, EmptyString)
  end.

Section Duration.
(** [uint64(float64(f) * (float64(unit) / scale))]. *)
Context (float_part : Z -> Z -> Z -> Z).

(** One number with its unit: nanoseconds as a [uint64], and what follows. *)
Definition duration_segment (s : string) : res duration_error (Z * string) :=
  match s with
  | EmptyString => Err DurationInvalid
  | String c _ =>
      if negb (Ascii.eqb c "." || is_digit (bz c)) then Err DurationInvalid
      else
        match leadingInt 0 s with
        | None => Err DurationInvalid
        | Some (v, s1) =>
            let pre := negb (String.length s1 =? String.length s)%nat in
            let '(f, scale, s2, post) :=
              match s1 with
              | String "." s2 =>
                  let '(f, scale, s3) := leadingFraction 0 1 false s2 in
                  (f, scale, s3, negb (String.length s3 =? String.length s2)%nat)
              | _ => (0, 1, s1, false)
              end in
            if negb pre && negb post then Err DurationInvalid
            else
              let '(u, s3) := split_unit s2 in
              if String.eqb u "" then Err MissingUnit
              else
                match unitMap !! u with
                | None => Err (UnknownDurationUnit u)
                | Some unit =>
                    if two63 / unit <? v then Err DurationInvalid
                    else
                      let v := v * unit in
                      if 0 <? f then
                        let v := wrap_uint64 (v + float_part f unit scale) in
                        if two63 <? v then Err DurationInvalid else Ok (v, s3)
                      else Ok (v, s3)
                end
        end
  end.

(** The loop over the segments, [d] the sum so far. *)
Fixpoint durationLoop (fuel : nat) (d : Z) (s : string) : res duration_error Z :=
  match fuel with
  | O => Err DurationInvalid
  | S fuel' =>
      if String.eqb s "" then Ok d
      else
        let? vs := duration_segment s in
        let d := wrap_uint64 (d + vs.1) in
        if two63 <? d then Err DurationInvalid else durationLoop fuel' d vs.2
  end.

(** Each segment takes at least a byte. *)
Definition ParseDuration (s : string) : res duration_error Z :=
  let '(neg, s) :=
    match s with
    | String "-" s' => (true, s')
    | String "+" s' => (false, s')
    | _ => (false, s)
    end in
  if String.eqb s "0" then Ok 0
  else if String.eqb s "" then Err DurationInvalid
  else
    let? d := durationLoop (S (String.length s)) 0 s in
    if neg then Ok (wrap64 (- d))
    else if max_int64 <? d then Err DurationInvalid else Ok d.

(** [(d *Duration) UnmarshalYAML]: the new value of [d.Duration]. *)
Definition Duration_UnmarshalYAML (d : Z) (value : yaml_node) : res duration_error Z :=
  if negb (node_is_scalar value) then Err DurationNotScalar
  else if String.eqb (node_value value) "" then Ok d
  else ParseDuration (node_value value).

(** ** Lemmas *)

Lemma leadingInt_length x s v rest : leadingInt x s = Some (v, rest) -> (String.length rest <= String.length s)%nat.
Proof.
  revert x. induction s as [|c s IH]; intros x; cbn [leadingInt]; [by intros [= _ <-]|].
  destruct (is_digit _); [|by intros [= _ <-]]. destruct (_ <? _); [done|]. destruct (_ <? _); [done|].
  intros H%IH. cbn. lia.
Qed.

Lemma leadingFraction_length x scale o s : (String.length (leadingFraction x scale o s).2 <= String.length s)%nat.
Proof.
  revert x scale o. induction s as [|c s IH]; intros x scale o; cbn [leadingFraction]; [done|].
  destruct (is_digit _); [|done].
  assert (H : forall x scale o, (String.length (leadingFraction x scale o s).2 <= String.length (String c s))%nat).
  { intros x' scale' o'. etrans; [apply IH|cbn; lia]. }
  destruct o; [apply H|]. destruct (_ <? _); [apply H|]. destruct (_ <? _); apply H.
Qed.

Lemma split_unit_length s u rest :
  split_unit s = (u, rest) -> String.length s = (String.length u + String.length rest)%nat.
Proof.
  revert u. induction s as [|c s IH]; intros u; cbn [split_unit]; [by intros [= <- <-]|].
  destruct (_ || _); [by intros [= <- <-]|]. destruct (split_unit s) as [u' r']. intros [= <- ->].
  cbn. by rewrite (IH u' eq_refl).
Qed.

(** The fuel is enough: a segment takes a byte at least. *)
Lemma segment_shorter s v rest :
  duration_segment s = Ok (v, rest) -> (String.length rest < String.length s)%nat.
Proof.
  unfold duration_segment. destruct s as [|c s0]; [done|]. set (s := String c s0). destruct (negb _); [done|].
  destruct (leadingInt 0 s) as [[x s1]|] eqn:Hi; [|done]. apply leadingInt_length in Hi.
  set (frac := match s1 with String "." s2 => _ | _ => _ end).
  assert (Hf : (String.length frac.1.2 <= String.length s1)%nat).
  { unfold frac. destruct s1 as [|d s2]; [done|]. destruct (decide (d = "."%char)) as [->|Hd].
    - pose proof (leadingFraction_length 0 1 false s2). destruct (leadingFraction 0 1 false s2) as [[f sc] s3]. cbn in *. lia.
    - destruct d as [[] [] [] [] [] [] [] []]; done. }
  destruct frac as [[[f sc] s2] post]. cbn [fst snd] in Hf. destruct (_ && _); [done|].
  destruct (split_unit s2) as [u s3] eqn:Hu. apply split_unit_length in Hu.
  destruct (String.eqb_spec u ""); [done|]. assert (String.length u <> 0%nat) by (by destruct u).
  destruct (unitMap !! u) as [unit|]; [|done]. destruct (_ <? _); [done|].
  destruct (0 <? f); [destruct (_ <? _); [done|]|]; intros [= _ <-]; lia.
Qed.

Lemma durationLoop_fuel n m d s :
  (String.length s < n)%nat -> (String.length s < m)%nat -> durationLoop n d s = durationLoop m d s.
Proof.
  revert m d s. induction n as [|n IH]; intros m d s Hn Hm; [lia|]. destruct m as [|m]; [lia|].
  cbn [durationLoop]. destruct (String.eqb s ""); [done|].
  destruct (duration_segment s) as [[v rest]|] eqn:Hs; [|done]. cbn. apply segment_shorter in Hs.
  destruct (_ <? _); [done|]. apply IH; lia.
Qed.

Definition all_digits (s : string) : Prop := str_forallb (fun c => is_digit (bz c)) s = true.

(** The number that digits denote, after [x]. *)
Fixpoint digits_value (x : Z) (s : string) : Z :=
  match s with
  | EmptyString => x
  | String c s' => digits_value (x * 10 + (bz c - 48)) s'
  end.

Lemma digits_value_ge x s : all_digits s -> 0 <= x -> x <= digits_value x s.
Proof.
  unfold all_digits. revert x. induction s as [|c s IH]; intros x; cbn; [lia|].
  intros [Hc Hs]%andb_true_iff Hx. apply within_true in Hc. specialize (IH (x * 10 + (bz c - 48)) Hs). lia.
Qed.

Lemma leadingInt_digits x ds u :
  all_digits ds -> (forall y, leadingInt y u = Some (y, u)) ->
  0 <= x <= two63 ->
  leadingInt x (ds +:+ u) = if digits_value x ds <=? two63 then Some (digits_value x ds, u) else None.
Proof.
  unfold all_digits. intros Hd Hu. revert x. induction ds as [|c ds IH]; intros x Hx.
  { cbn. rewrite Hu. by rewrite (proj2 (Z.leb_le _ _)) by lia. }
  cbn in Hd. apply andb_true_iff in Hd as [Hc Hd]. cbn [leadingInt String.append digits_value]. rewrite Hc.
  apply within_true in Hc. pose proof (digits_value_ge (x * 10 + (bz c - 48)) ds Hd ltac:(lia)) as Hge.
  unfold two63 in *. change (9223372036854775808 / 10) with 922337203685477580.
  destruct (Z.ltb_spec 922337203685477580 x).
  - by rewrite (proj2 (Z.leb_gt _ _)) by lia.
  - destruct (Z.ltb_spec 9223372036854775808 (x * 10 + (bz c - 48))).
    + by rewrite (proj2 (Z.leb_gt _ _)) by lia.
    + apply IH; [done|lia].
Qed.

(** A unit is a word without digits or points. *)
Definition is_unit (u : string) (unit : Z) : Prop :=
  0 < unit /\ u <> "" /\ (forall y, leadingInt y u = Some (y, u)) /\
  (exists c u', u = String c u' /\ c <> "."%char) /\ split_unit u = (u, "").

Lemma unitMap_unit u unit : unitMap !! u = Some unit -> is_unit u unit.
Proof.
  intros H%elem_of_map_to_list. vm_compute in H. repeat (apply elem_of_cons in H as [[= -> ->]|H];
    [split; [done|split; [done|split; [done|split; [by do 2 eexists|done]]]]|]). by apply elem_of_nil in H.
Qed.

Lemma segment_single ds u unit :
  all_digits ds -> ds <> "" -> unitMap !! u = Some unit ->
  duration_segment (ds +:+ u) =
    if digits_value 0 ds * unit <=? two63 then Ok (digits_value 0 ds * unit, "") else Err DurationInvalid.
Proof.
  intros Hd Hne Hu. destruct (unitMap_unit u unit Hu) as (Hpos & Hnu & Hl & (c & u' & Hc & Hcp) & Hsp).
  destruct ds as [|d ds]; [done|]. unfold duration_segment.
  assert (Hd1 : is_digit (bz d) = true) by (by apply andb_true_iff in Hd as [? _]).
  cbn [String.append]. rewrite Hd1, orb_true_r. cbn [negb]. change (String d (ds +:+ u)) with (String d ds +:+ u).
  rewrite (leadingInt_digits 0 (String d ds) u Hd Hl) by (unfold two63; lia).
  set (v := digits_value 0 (String d ds)).
  assert (Hv : 0 <= v) by (apply (digits_value_ge 0 (String d ds) Hd); lia).
  assert (Hdiv : (two63 / unit <? v) = negb (v * unit <=? two63)).
  { destruct (Z.leb_spec (v * unit) two63); cbn [negb].
    - apply Z.ltb_ge. apply Z.div_le_lower_bound; lia.
    - apply Z.ltb_lt. apply Z.div_lt_upper_bound; lia. }
  destruct (Z.leb_spec v two63) as [Hle|Hgt].
  - assert (Hlen : (String.length u =? String.length (String d ds +:+ u))%nat = false).
    { apply Nat.eqb_neq. rewrite length_app_str. cbn. lia. }
    rewrite Hlen. cbn [negb andb].
    assert (Hm : match u with String "." s2 => let '(f, scale, s3) := leadingFraction 0 1 false s2 in
        (f, scale, s3, negb (String.length s3 =? String.length s2)%nat) | _ => (0, 1, u, false) end = (0, 1, u, false)).
    { rewrite Hc. destruct c as [[] [] [] [] [] [] [] []]; done. }
    rewrite Hm, Hsp, (proj2 (String.eqb_neq _ _) Hnu), Hu, Hdiv. cbn [Z.ltb Z.compare].
    by destruct (v * unit <=? two63).
  - by rewrite (proj2 (Z.leb_gt _ _)) by nia.
Qed.

(** C29: a timeout is exact or refused.  A number with a unit is that many
    nanoseconds if this is an [int64], and an error otherwise: unlike a size, a
    duration never wraps around. *)
Theorem duration_exact ds u unit d :
  all_digits ds -> ds <> "" -> unitMap !! u = Some unit ->
  let n := digits_value 0 ds * unit in
  Duration_UnmarshalYAML d {| node_is_scalar := true; node_value := ds +:+ u |} =
    (if n <=? max_int64 then Ok n else Err DurationInvalid) /\
  Duration_UnmarshalYAML d {| node_is_scalar := true; node_value := "-" +:+ ds +:+ u |} =
    (if n <=? two63 then Ok (- n) else Err DurationInvalid).
Proof.
  intros Hd Hne Hu n. pose proof (segment_single ds u unit Hd Hne Hu) as Hseg. fold n in Hseg.
  destruct (unitMap_unit u unit Hu) as (Hpos & Hnu & _ & (c & u' & Hc & _) & _).
  assert (Hn : 0 <= n).
  { unfold n. apply Z.mul_nonneg_nonneg; [|lia]. apply (digits_value_ge 0 ds Hd). lia. }
  assert (H0 : String.eqb (ds +:+ u) "0" = false /\ String.eqb (ds +:+ u) "" = false).
  { destruct ds as [|c0 [|c1 ds]]; [done|rewrite Hc; by destruct c0 as [[] [] [] [] [] [] [] []]|].
    split; [|done]. by destruct c0 as [[] [] [] [] [] [] [] []]. }
  destruct H0 as [H0 He].
  assert (Hrun : durationLoop (S (String.length (ds +:+ u))) 0 (ds +:+ u) =
    if n <=? two63 then Ok n else Err DurationInvalid).
  { cbn [durationLoop]. rewrite He, Hseg. destruct (Z.leb_spec n two63); [|done]. cbn beta iota zeta. cbn [fst snd]. rewrite Z.add_0_l.
    assert (Hw : wrap_uint64 n = n) by (apply Z.mod_small; unfold two63 in *; lia). rewrite Hw.
    rewrite (proj2 (Z.ltb_ge _ _)) by lia. destruct (String.length (ds +:+ u)) eqn:El; [by destruct (ds +:+ u)|done]. }
  unfold Duration_UnmarshalYAML. cbn [node_is_scalar node_value negb]. split.
  - rewrite He. unfold ParseDuration.
    assert (Hsign : match ds +:+ u with String "-" s' => (true, s') | String "+" s' => (false, s') | _ => (false, ds +:+ u) end
      = (false, ds +:+ u)).
    { destruct ds as [|c0 ds]; [done|]. apply andb_true_iff in Hd as [Hd0 _]. cbn [String.append].
      destruct c0 as [[] [] [] [] [] [] [] []]; done. }
    rewrite Hsign, H0, He, Hrun. destruct (Z.leb_spec n two63); cbn; unfold two63, max_int64 in *.
    + destruct (Z.ltb_spec 9223372036854775807 n); [by rewrite (proj2 (Z.leb_gt _ _)) by lia|].
      by rewrite (proj2 (Z.leb_le _ _)) by lia.
    + by rewrite (proj2 (Z.leb_gt _ _)) by lia.
  - unfold ParseDuration. cbn [String.append String.eqb]. rewrite H0, He, Hrun.
    destruct (Z.leb_spec n two63); [|done]. cbn. f_equal. apply wrap64_small. unfold int64_range, min_int64, max_int64, two63 in *. lia.
Qed.
End Duration.

(** ** Witness *)

Definition no_fraction (f unit scale : Z) : Z := 0.

Lemma duration_exact_witness :
  Duration_UnmarshalYAML no_fraction 0 {| node_is_scalar := true; node_value := "30s" |} = Ok 30000000000 /\
  Duration_UnmarshalYAML no_fraction 0 {| node_is_scalar := true; node_value := "2562048h" |} = Err DurationInvalid.
Proof.
  split.
  - exact (proj1 (duration_exact no_fraction "30" "s" 1000000000 0 eq_refl ltac:(discriminate) eq_refl)).
  - exact (proj1 (duration_exact no_fraction "2562048" "h" 3600000000000 0 eq_refl ltac:(discriminate) eq_refl)).
Defined.

Example ParseDuration_compound : ParseDuration no_fraction "1h30m" = Ok 5400000000000.
Proof. vm_compute. reflexivity. Qed.
Example ParseDuration_no_unit : ParseDuration no_fraction "30" = Err MissingUnit.
Proof. vm_compute. reflexivity. Qed.
