(* ===== verification/Link.v ===== *)
(** * The data-tunnel runtime

    [internal/datatunnel/link.go] and [session.go]: one link multiplexes the
    sessions of one connector over one WebSocket, with per-session credit.

    A [*Session] is shared between the link's map, the read loop and the relay
    goroutines, and outlives its removal from the map: sessions live in a store
    and the map holds references.  A buffered channel is the list of its
    elements; the channel of credit tokens is their number; a closed [done]
    channel is [true].  The connection is the list of the messages written to
    it and not yet read by the peer.  Operations that hold a mutex are one
    step; the scheduler's choice in a [select] with several ready cases is an
    argument. *)
From S2P Require Import Prelude GoString GoStd Msgpack TunnelEnvelope.

#[local] Open Scope Z_scope.

Definition sendWindow : nat := 32.
Definition recvSlack : nat := 8.
Definition ackThreshold : Z := 16.
(** [ackThreshold = sendWindow / 2], and the capacity of [recv]. *)
Definition recvCap : nat := sendWindow + recvSlack.

Example ackThreshold_half : ackThreshold = Z.of_nat sendWindow / 2.
Proof. reflexivity. Qed.

Record Session := mkSession {
  Session_id : string;
  Session_recv : list Frame;
  Session_done : bool;
  Session_credit : nat;
  Session_consumed : Z;
  Session_claimed : bool
}.

Definition newSession (id : string) : Session := mkSession id [] false sendWindow 0 false.

Definition set_recv (q : list Frame) (s : Session) : Session :=
  mkSession (Session_id s) q (Session_done s) (Session_credit s) (Session_consumed s) (Session_claimed s).
Definition set_done (s : Session) : Session :=
  mkSession (Session_id s) (Session_recv s) true (Session_credit s) (Session_consumed s) (Session_claimed s).
Definition set_credit (n : nat) (s : Session) : Session :=
  mkSession (Session_id s) (Session_recv s) (Session_done s) n (Session_consumed s) (Session_claimed s).
Definition set_consumed (n : Z) (s : Session) : Session :=
  mkSession (Session_id s) (Session_recv s) (Session_done s) (Session_credit s) n (Session_claimed s).
Definition set_claimed (s : Session) : Session :=
  mkSession (Session_id s) (Session_recv s) (Session_done s) (Session_credit s) (Session_consumed s) true.

(** The loop of [addSendCredit(n)]: one token per turn, until the channel is
    full. *)
Fixpoint creditLoop (n credit : nat) : nat :=
  match n with
  | O => credit
  | S n' => if (credit <? sendWindow)%nat then creditLoop n' (S credit) else credit
  end.
Definition addSendCredit (n : Z) (s : Session) : Session :=
  set_credit (creditLoop (Z.to_nat n) (Session_credit s)) s.

(** [markDone]: closing happens once, so setting the flag is idempotent. *)
Definition markDone (s : Session) : Session := set_done s.

Inductive link_error :=
| EncodeFailed (e : envelope_error tunnel_error)
| ConnClosed
| SessionExists (id : string)
| ErrSessionClosed.

(** A reference to a session object. *)
Abbreviation ref := nat.

Record Link := mkLink {
  Link_sessions : gmap string ref;
  Link_store : gmap ref Session;
  Link_next : ref;
  Link_open : bool;
  Link_out : list string
}.

Definition NewLink : Link := mkLink ∅ ∅ 0%nat true [].

Definition set_sessions (m : gmap string ref) (l : Link) : Link :=
  mkLink m (Link_store l) (Link_next l) (Link_open l) (Link_out l).
Definition set_store (m : gmap ref Session) (l : Link) : Link :=
  mkLink (Link_sessions l) m (Link_next l) (Link_open l) (Link_out l).
Definition set_out (o : list string) (l : Link) : Link :=
  mkLink (Link_sessions l) (Link_store l) (Link_next l) (Link_open l) o.
Definition close_conn (l : Link) : Link :=
  mkLink (Link_sessions l) (Link_store l) (Link_next l) false (Link_out l).

(** A method call on a session object. *)
Definition on_session (r : ref) (f : Session -> Session) (l : Link) : Link :=
  set_store (alter f r (Link_store l)) l.

Section Link.
Context {MF : Msgpack Frame}.

(** ** [link.go] *)

Definition WriteFrame (frame : Frame) (l : Link) : Link * res link_error unit :=
  match EncodeFrame frame with
  | Err e => (l, Err (EncodeFailed e))
  | Ok data =>
      if Link_open l then (set_out (Link_out l ++ [data]) l, Ok tt) else (l, Err ConnClosed)
  end.

Definition addSession (sessionID : string) (l : Link) : Link * res link_error ref :=
  match Link_sessions l !! sessionID with
  | Some _ => (l, Err (SessionExists sessionID))
  | None =>
      let r := Link_next l in
      (mkLink (<[sessionID := r]> (Link_sessions l)) (<[r := newSession sessionID]> (Link_store l))
         (S r) (Link_open l) (Link_out l), Ok r)
  end.

Definition removeSession (sessionID : string) (l : Link) : Link :=
  let session := Link_sessions l !! sessionID in
  let l' := set_sessions (delete sessionID (Link_sessions l)) l in
  match session with
  | Some r => on_session r markDone l'
  | None => l'
  end.

(** [Session(sessionID)]: [None] is nil. *)
Definition lookupSession (sessionID : string) (l : Link) : option ref := Link_sessions l !! sessionID.

(** The delivery half of [dispatch]: the session was looked up under the
    mutex, and may have been removed since.  [drop] is the choice of the
    [select] when the queue has room and the session is already done. *)
Definition deliver (drop : bool) (r : ref) (frame : Frame) (l : Link) : Link :=
  if String.eqb (Frame_Type frame) FrameWindow then
    on_session r (addSendCredit (Frame_Window frame)) l
  else
    match Link_store l !! r with
    | None => l
    | Some s =>
        let room := (length (Session_recv s) <? recvCap)%nat in
        if room && negb (Session_done s && drop) then
          on_session r (set_recv (Session_recv s ++ [frame])) l
        else if Session_done s then l
        else
          let '(l', _) :=
            WriteFrame (errorFrame (Frame_SessionID frame) "flow control violation") l in
          removeSession (Frame_SessionID frame) l'
    end.

(** [dispatch(frame)]. *)
Definition dispatch (drop : bool) (frame : Frame) (l : Link) : Link :=
  match Link_sessions l !! Frame_SessionID frame with
  | None => l
  | Some r => deliver drop r frame l
  end.

(** [Open(frame)]. *)
Definition Open (frame : Frame) (l : Link) : Link * res link_error ref :=
  match addSession (Frame_SessionID frame) l with
  | (l1, Err e) => (l1, Err e)
  | (l1, Ok r) =>
      match WriteFrame frame l1 with
      | (l2, Ok _) => (l2, Ok r)
      | (l2, Err e) => (removeSession (Frame_SessionID frame) l2, Err e)
      end
  end.

(** [Accept(sessionID)]. *)
Definition Accept (sessionID : string) (l : Link) : Link * res link_error ref :=
  addSession sessionID l.

(** [Close()]: the connection is closed, the map emptied, and every session it
    held marked done. *)
Definition Close (l : Link) : Link :=
  let sessions := Link_sessions l in
  foldr (fun r => on_session r markDone) (set_sessions ∅ (close_conn l)) (map_to_list sessions).*2.

(** One turn of [Run] on a message that was read; [onOpen] is the callback of
    [NewLink], [None] when nil. *)
Definition Run_message (onOpen : option (Frame -> Link -> Link)) (drop : bool)
    (isBinary : bool) (data : string) (l : Link) : Link :=
  if negb isBinary then l
  else
    match DecodeFrame data with
    | Err _ => l
    | Ok frame =>
        if String.eqb (Frame_Type frame) FrameOpen then
          match onOpen with Some f => f frame l | None => l end
        else dispatch drop frame l
    end.

(** ** [session.go] *)

Inductive send_result :=
| Blocked                                (** no credit: the goroutine waits *)
| Returned (r : res link_error unit).

(** [SendData(dataKind, payload)].  [prefer_done] is the choice of the
    [select] when a credit is available and the session is done. *)
Definition SendData (prefer_done : bool) (r : ref) (dataKind payload : string) (l : Link) :
    Link * send_result :=
  match Link_store l !! r with
  | None => (l, Blocked)
  | Some s =>
      if (0 <? Session_credit s)%nat && negb (Session_done s && prefer_done) then
        let l1 := on_session r (set_credit (Session_credit s - 1)) l in
        let '(l2, e) := WriteFrame (dataFrame (Session_id s) dataKind payload) l1 in
        (l2, Returned e)
      else if Session_done s then (l, Returned (Err ErrSessionClosed))
      else (l, Blocked)
  end.

Definition SendEOF (r : ref) (l : Link) : Link * res link_error unit :=
  match Link_store l !! r with
  | None => (l, Err ErrSessionClosed)
  | Some s => WriteFrame (eofFrame (Session_id s)) l
  end.

Definition AckData (r : ref) (l : Link) : Link :=
  match Link_store l !! r with
  | None => l
  | Some s =>
      let consumed := Session_consumed s + 1 in
      let l1 := on_session r (set_consumed consumed) l in
      if ackThreshold <=? consumed then
        let '(l2, _) := WriteFrame (windowFrame (Session_id s) consumed) l1 in
        on_session r (set_consumed 0) l2
      else l1
  end.

(** The common body of [Close], [CloseWithError] and [CloseWithCode]: the
    error of the write is ignored and the session removed. *)
Definition closeWith (frame : string -> Frame) (r : ref) (l : Link) : Link :=
  match Link_store l !! r with
  | None => l
  | Some s =>
      let '(l1, _) := WriteFrame (frame (Session_id s)) l in
      removeSession (Session_id s) l1
  end.

Definition Session_Close (r : ref) (l : Link) : Link := closeWith (fun id => closeFrame id 0 "") r l.
Definition CloseWithError (message : string) (r : ref) (l : Link) : Link :=
  closeWith (fun id => errorFrame id message) r l.
Definition CloseWithCode (code : Z) (text : string) (r : ref) (l : Link) : Link :=
  closeWith (fun id => closeFrame id code text) r l.

(** [TryClaim()]: an atomic swap. *)
Definition TryClaim (r : ref) (l : Link) : Link * bool :=
  match Link_store l !! r with
  | None => (l, false)
  | Some s => (on_session r set_claimed l, negb (Session_claimed s))
  end.

Definition Claimed (r : ref) (l : Link) : bool :=
  match Link_store l !! r with Some s => Session_claimed s | None => false end.

(** [<-session.Recv()]: the next frame in arrival order, [None] when the
    channel is empty and the receiver waits. *)
Definition Recv (r : ref) (l : Link) : option (Frame * Link) :=
  match Link_store l !! r with
  | Some s =>
      match Session_recv s with
      | f :: q => Some (f, on_session r (set_recv q) l)
      | [] => None
      end
  | None => None
  end.
End Link.

(** ** Well-formed links *)

Record session_wf (s : Session) : Prop := {
  wf_recv : (length (Session_recv s) <= recvCap)%nat;
  wf_credit : (Session_credit s <= sendWindow)%nat;
  wf_consumed : 0 <= Session_consumed s < ackThreshold
}.

(** The map holds exactly the sessions that are not done, each under its own
    id, and references are never reused. *)
Record link_wf (l : Link) : Prop := {
  wf_registered : forall id r, Link_sessions l !! id = Some r ->
    exists s, Link_store l !! r = Some s /\ Session_id s = id /\ Session_done s = false;
  wf_stored : forall r s, Link_store l !! r = Some s ->
    session_wf s /\ (r < Link_next l)%nat /\
    (Session_done s = false -> Link_sessions l !! Session_id s = Some r)
}.

(** The two links agree on every session other than [id]'s: the objects, the
    registrations, and the connection's state. *)
Record same_but (id : string) (l l' : Link) : Prop := {
  same_sessions : forall id', id' <> id -> Link_sessions l' !! id' = Link_sessions l !! id';
  same_store : forall r s, Link_store l !! r = Some s -> Session_id s <> id ->
    Link_store l' !! r = Some s;
  same_open : Link_open l' = Link_open l
}.

#[export] Instance same_but_refl id : Reflexive (same_but id).
Proof. intros l. by split. Qed.

#[export] Instance same_but_trans id : Transitive (same_but id).
Proof.
  intros l1 l2 l3 [A1 B1 C1] [A2 B2 C2]. split.
  - intros id' H. by rewrite A2, A1.
  - intros r s H1 H2. auto.
  - congruence.
Qed.

Lemma creditLoop_spec n c :
  (c <= sendWindow)%nat -> creditLoop n c = Nat.min sendWindow (c + n).
Proof.
  revert c. induction n as [|n IH]; intros c Hc; cbn [creditLoop]; [lia|].
  destruct (Nat.ltb_spec c sendWindow); [rewrite IH by lia; lia|lia].
Qed.

(** ** The messages of one session on the connection *)

Section Wire.
Context {MF : Msgpack Frame}.

(** The frames of session [id] written to the connection and not yet read. *)
Definition frame_of (id : string) (data : string) : option Frame :=
  match DecodeFrame data with
  | Ok f => if String.eqb (Frame_SessionID f) id then Some f else None
  | Err _ => None
  end.
Definition wire (id : string) (l : Link) : list Frame := omap (frame_of id) (Link_out l).

(** What an operation of session [id] may do to a well-formed link: it stays
    well-formed, and every other session keeps its object, its registration
    and its frames on the wire. *)
Definition touches (id : string) (l l' : Link) : Prop :=
  link_wf l -> link_wf l' /\ same_but id l l' /\
  forall id', id' <> id -> wire id' l' = wire id' l.

#[export] Instance touches_refl id : Reflexive (touches id).
Proof. intros l Hl. done. Qed.

#[export] Instance touches_trans id : Transitive (touches id).
Proof.
  intros l1 l2 l3 H1 H2 Hl. destruct (H1 Hl) as (Hl2 & Hs1 & Hw1).
  destruct (H2 Hl2) as (Hl3 & Hs2 & Hw2). split_and!; [done|by etrans|].
  intros id' Hne. by rewrite Hw2, Hw1.
Qed.
End Wire.

Section Wellformed.
Context {MF : Msgpack Frame}.

(** ** Frames written *)

Lemma WriteFrame_cases frame l l' e :
  WriteFrame frame l = (l', e) ->
  (exists data, EncodeFrame frame = Ok data /\ Link_open l = true /\ e = Ok tt /\
     l' = set_out (Link_out l ++ [data]) l) \/ (l' = l /\ is_ok e = false).
Proof.
  unfold WriteFrame. destruct (EncodeFrame frame) as [data|]; [|intros [= <- <-]; by right].
  destruct (Link_open l) eqn:E; intros [= <- <-]; [left; eauto|by right].
Qed.

Lemma link_wf_out o l : link_wf l -> link_wf (set_out o l).
Proof. intros [H1 H2]. by split. Qed.

Lemma WriteFrame_wf frame l : link_wf l -> link_wf (WriteFrame frame l).1.
Proof.
  intros Hl. destruct (WriteFrame frame l) as [l' e] eqn:E.
  apply WriteFrame_cases in E as [(data & _ & _ & _ & ->)|[-> _]]; [by apply link_wf_out|done].
Qed.

Lemma WriteFrame_same id frame l : same_but id l (WriteFrame frame l).1.
Proof.
  destruct (WriteFrame frame l) as [l' e] eqn:E.
  apply WriteFrame_cases in E as [(data & _ & _ & _ & ->)|[-> _]]; by split.
Qed.

(** ** Updating one object *)

Lemma on_session_same r f l s :
  Link_store l !! r = Some s -> same_but (Session_id s) l (on_session r f l).
Proof.
  intros Hs. split; [done| |done]. intros r' s' Hs' Hne. cbn.
  rewrite lookup_alter_ne; [done|]. intros ->. congruence.
Qed.

(** ** Adding and removing sessions *)

Lemma newSession_wf id : session_wf (newSession id).
Proof. split; cbn; unfold recvCap, sendWindow, recvSlack, ackThreshold; lia. Qed.

Lemma addSession_wf id l : link_wf l -> link_wf (addSession id l).1.
Proof.
  intros Hl. unfold addSession. destruct (Link_sessions l !! id) as [r|] eqn:E; [done|].
  destruct Hl as [H1 H2]. split; cbn.
  - intros id' r'. rewrite lookup_insert. case_decide as Hid.
    + intros [= <-]. subst id'. exists (newSession id). by rewrite lookup_insert_eq.
    + intros Hr. destruct (H1 id' r' Hr) as (s & Hs & <- & Hd). exists s.
      rewrite lookup_insert_ne; [done|]. intros <-. destruct (H2 _ _ Hs) as (_ & ? & _). lia.
  - intros r' s. rewrite lookup_insert. case_decide as Hr.
    + intros [= <-]. subst r'. split; [apply newSession_wf|]. split; [lia|].
      intros _. cbn. by rewrite lookup_insert_eq.
    + intros Hs. destruct (H2 r' s Hs) as (? & ? & Hreg). split; [done|]. split; [lia|].
      intros Hd. specialize (Hreg Hd). rewrite lookup_insert_ne; [done|congruence].
Qed.

Lemma addSession_same id l : link_wf l -> same_but id l (addSession id l).1.
Proof.
  intros Hl. unfold addSession. destruct (Link_sessions l !! id) as [r|] eqn:E; [done|].
  split; cbn; [| |done].
  - intros id' Hne. by rewrite lookup_insert_ne.
  - intros r s Hs Hne. rewrite lookup_insert_ne; [done|].
    intros <-. destruct (wf_stored _ Hl _ _ Hs) as (_ & ? & _). lia.
Qed.

Lemma markDone_wf s : session_wf s -> session_wf (markDone s).
Proof. intros [H1 H2 H3]. by split. Qed.

Lemma removeSession_wf id l : link_wf l -> link_wf (removeSession id l).
Proof.
  intros [H1 H2]. unfold removeSession.
  destruct (Link_sessions l !! id) as [r|] eqn:E; split; cbn.
  - intros id' r'. rewrite lookup_delete. case_decide as Hid; [done|]. intros Hr.
    destruct (H1 id' r' Hr) as (s & Hs & <- & Hd). exists s. rewrite lookup_alter_ne; [done|].
    intros <-. destruct (H1 id r E) as (s' & Hs' & Hid' & _). congruence.
  - intros r' s. rewrite lookup_alter. case_decide as Hr.
    + subst r'. destruct (Link_store l !! r) as [s0|] eqn:Hs; [|done]. intros [= <-].
      destruct (H2 r s0 Hs) as (? & ? & _). split; [by apply markDone_wf|]. done.
    + intros Hs. destruct (H2 r' s Hs) as (? & ? & Hreg). split_and!; [done..|].
      intros Hd. specialize (Hreg Hd). rewrite lookup_delete_ne; [done|congruence].
  - intros id' r'. rewrite lookup_delete. case_decide; [done|]. apply H1.
  - intros r s Hs. destruct (H2 r s Hs) as (? & ? & Hreg). split_and!; [done..|].
    intros Hd. specialize (Hreg Hd). rewrite lookup_delete_ne; [done|congruence].
Qed.

Lemma removeSession_same id l : link_wf l -> same_but id l (removeSession id l).
Proof.
  intros Hl. unfold removeSession.
  destruct (Link_sessions l !! id) as [r|] eqn:E; split; cbn; try done.
  - intros id' Hne. by rewrite lookup_delete_ne.
  - intros r' s Hs Hne. rewrite lookup_alter_ne; [done|]. intros <-.
    destruct (wf_registered _ Hl id r E) as (s' & Hs' & <- & _). congruence.
  - intros id' Hne. by rewrite lookup_delete_ne.
Qed.

Lemma removeSession_gone id l : Link_sessions (removeSession id l) !! id = None.
Proof. unfold removeSession. case_match; cbn; apply lookup_delete_eq. Qed.

(** ** Frames that always encode *)

Lemma errorFrame_wf id m :
  ident id -> m <> "" -> avoids crlf m -> frame_wf (errorFrame id m).
Proof. intros Hi Hm Hc. split_and!; [done|done|]. do 5 right. done. Qed.

Lemma dataFrame_wf id kind payload :
  ident id -> kind = DataBinary \/ kind = DataText -> frame_wf (dataFrame id kind payload).
Proof. intros Hi Hk. split_and!; [done|done|]. right. left. split; [done|by right]. Qed.

Lemma windowFrame_wf id n : ident id -> 0 < n -> frame_wf (windowFrame id n).
Proof. intros Hi Hn. split_and!; [done|done|]. do 3 right. by left. Qed.

Lemma WriteFrame_ok `{!MsgpackLaws Frame} frame l :
  frame_wf frame -> Link_open l = true -> (WriteFrame frame l).2 = Ok tt.
Proof.
  intros Hf Ho. unfold WriteFrame, EncodeFrame.
  destruct (encode_validated_total Frame_Validate frame) as [bs ->]; [by apply Frame_Validate_iff|].
  by rewrite Ho.
Qed.

(** ** Operations touch one session *)

Lemma WriteFrame_wire `{!MsgpackLaws Frame} id frame l :
  wire id (WriteFrame frame l).1 =
  wire id l ++ (if is_ok (WriteFrame frame l).2 && String.eqb (Frame_SessionID frame) id
                then [frame] else []).
Proof.
  destruct (WriteFrame frame l) as [l' e] eqn:E. cbn [fst snd].
  apply WriteFrame_cases in E as [(data & He & _ & -> & ->)|[-> ->]].
  - unfold wire. cbn. rewrite omap_app. f_equal. cbn. unfold frame_of, DecodeFrame.
    rewrite (decode_encode_validated Frame_Validate frame data He).
    by destruct (String.eqb (Frame_SessionID frame) id).
  - by rewrite app_nil_r.
Qed.

Lemma WriteFrame_touches `{!MsgpackLaws Frame} frame l :
  touches (Frame_SessionID frame) l (WriteFrame frame l).1.
Proof.
  intros Hl. split_and!; [by apply WriteFrame_wf|apply WriteFrame_same|].
  intros id' Hne. rewrite WriteFrame_wire, (proj2 (String.eqb_neq _ _)) by done.
  by rewrite andb_false_r, app_nil_r.
Qed.

(** [WriteFrame] and [removeSession] leave the objects of the other kind
    alone, so what an operation looked up before a write is still there. *)
Lemma WriteFrame_store frame l :
  Link_store (WriteFrame frame l).1 = Link_store l /\
  Link_sessions (WriteFrame frame l).1 = Link_sessions l.
Proof.
  destruct (WriteFrame frame l) as [l' e] eqn:E.
  by apply WriteFrame_cases in E as [(data & _ & _ & _ & ->)|[-> _]].
Qed.

(** An update of an object that keeps its id and its flag, and its bounds
    when they held. *)
Definition keeps (f : Session -> Session) (s : Session) : Prop :=
  (session_wf s -> session_wf (f s)) /\
  Session_id (f s) = Session_id s /\ Session_done (f s) = Session_done s.

Lemma on_session_touches r s f l :
  Link_store l !! r = Some s -> keeps f s -> touches (Session_id s) l (on_session r f l).
Proof.
  intros Hs (Hf & Hi & Hd) Hl. split_and!; [|by apply on_session_same|done].
  destruct Hl as [H1 H2]. split; cbn.
  - intros id r' Hr. destruct (H1 id r' Hr) as (s' & Hs' & <- & Hd'). rewrite lookup_alter.
    destruct (decide (r = r')) as [<-|]; [|by eauto].
    assert (s' = s) as -> by congruence. rewrite Hs. exists (f s). cbn. by rewrite Hi, Hd.
  - intros r' s'. rewrite lookup_alter. destruct (decide (r = r')) as [<-|]; [|by apply H2].
    rewrite Hs. intros [= <-]. destruct (H2 r s Hs) as (? & ? & ?). rewrite Hi, Hd. auto.
Qed.

Lemma addSession_touches id l : touches id l (addSession id l).1.
Proof.
  intros Hl. split_and!; [by apply addSession_wf|by apply addSession_same|].
  intros id' _. unfold addSession. by destruct (Link_sessions l !! id).
Qed.

Lemma removeSession_wire id id' l : wire id (removeSession id' l) = wire id l.
Proof. unfold removeSession. by destruct (Link_sessions l !! id'). Qed.

Lemma removeSession_touches id l : touches id l (removeSession id l).
Proof.
  intros Hl. split_and!; [by apply removeSession_wf|by apply removeSession_same|].
  intros id' _. unfold removeSession. by destruct (Link_sessions l !! id).
Qed.

Lemma keeps_id (f : Session -> Session) s :
  (session_wf s -> session_wf (f s)) ->
  Session_id (f s) = Session_id s -> Session_done (f s) = Session_done s -> keeps f s.
Proof. done. Qed.

Lemma keeps_credit n s : (n <= sendWindow)%nat -> keeps (set_credit n) s.
Proof. intros Hn. split; [intros [H1 H2 H3]; by split|done]. Qed.

Lemma keeps_addSendCredit n s : keeps (addSendCredit n) s.
Proof.
  split; [intros [H1 H2 H3]; split; try done|done].
  cbn. rewrite creditLoop_spec by done. lia.
Qed.

Lemma keeps_recv q s : (length q <= recvCap)%nat -> keeps (set_recv q) s.
Proof. intros Hn. split; [intros [H1 H2 H3]; by split|done]. Qed.

Lemma keeps_consumed n s : 0 <= n < ackThreshold -> keeps (set_consumed n) s.
Proof. intros Hn. split; [intros [H1 H2 H3]; by split|done]. Qed.

Lemma deliver_touches `{!MsgpackLaws Frame} drop r s frame l :
  Link_store l !! r = Some s -> Session_id s = Frame_SessionID frame ->
  touches (Frame_SessionID frame) l (deliver drop r frame l).
Proof.
  intros Hs Hid. unfold deliver. destruct (String.eqb _ FrameWindow).
  { rewrite <- Hid. apply on_session_touches; [done|apply keeps_addSendCredit]. }
  rewrite Hs. destruct (_ && _) eqn:Hroom.
  - rewrite <- Hid. apply on_session_touches; [done|]. apply keeps_recv.
    bsimpl. apply Nat.ltb_lt in H. rewrite length_app. cbn [length]. lia.
  - destruct (Session_done s); [done|].
    destruct (WriteFrame _ l) as [l1 e] eqn:E. etrans; [|apply removeSession_touches].
    replace l1 with (WriteFrame (errorFrame (Frame_SessionID frame) "flow control violation") l).1
      by by rewrite E.
    exact (WriteFrame_touches (errorFrame _ "flow control violation") l).
Qed.

Lemma closeWith_touches `{!MsgpackLaws Frame} frame r s l :
  Link_store l !! r = Some s -> Frame_SessionID (frame (Session_id s)) = Session_id s ->
  touches (Session_id s) l (closeWith frame r l).
Proof.
  intros Hs Hid. unfold closeWith. rewrite Hs.
  destruct (WriteFrame _ l) as [l1 e] eqn:E. etrans; [|apply removeSession_touches].
  replace l1 with (WriteFrame (frame (Session_id s)) l).1 by by rewrite E.
  pose proof (WriteFrame_touches (frame (Session_id s)) l) as H. by rewrite Hid in H.
Qed.

(** Writing and updating an object commute, and the last update wins: the
    counter is only ever seen below the threshold. *)
Lemma WriteFrame_on_session frame r f l :
  WriteFrame frame (on_session r f l) =
  (on_session r f (WriteFrame frame l).1, (WriteFrame frame l).2).
Proof.
  unfold WriteFrame. destruct (EncodeFrame frame); [|done].
  cbn. by destruct (Link_open l).
Qed.

Lemma on_session_compose r f g l :
  on_session r f (on_session r g l) = on_session r (f ∘ g) l.
Proof. unfold on_session, set_store. cbn. f_equal. apply alter_alter_eq. Qed.

Lemma AckData_eq r s l :
  Link_store l !! r = Some s ->
  AckData r l =
  if ackThreshold <=? Session_consumed s + 1
  then on_session r (set_consumed 0)
         (WriteFrame (windowFrame (Session_id s) (Session_consumed s + 1)) l).1
  else on_session r (set_consumed (Session_consumed s + 1)) l.
Proof.
  intros Hs. unfold AckData. rewrite Hs. destruct (_ <=? _); [|done].
  rewrite WriteFrame_on_session, on_session_compose. done.
Qed.

Lemma AckData_touches `{!MsgpackLaws Frame} r s l :
  Link_store l !! r = Some s -> touches (Session_id s) l (AckData r l).
Proof.
  intros Hs. rewrite (AckData_eq r s l Hs). destruct (Z.leb_spec ackThreshold (Session_consumed s + 1)).
  - etrans; [exact (WriteFrame_touches (windowFrame (Session_id s) (Session_consumed s + 1)) l)|].
    apply on_session_touches; [by rewrite (proj1 (WriteFrame_store _ _))|].
    apply keeps_consumed. unfold ackThreshold. lia.
  - apply on_session_touches; [done|]. split; [|done].
    intros [H1 H2 H3]. split; [done..|]. cbn. lia.
Qed.
End Wellformed.

(** ** The operations of a session *)

Section Operations.
Context {MF : Msgpack Frame} {ML : MsgpackLaws Frame}.
#[local] Set Default Proof Using "Type*".

(** Every call of [link.go] and [session.go] that acts for one session, on a
    link where the references it uses are live objects. *)
Inductive session_op : string -> Link -> Link -> Prop :=
| op_dispatch drop frame l : session_op (Frame_SessionID frame) l (dispatch drop frame l)
| op_deliver drop r s frame l :
    Link_store l !! r = Some s -> Session_id s = Frame_SessionID frame ->
    session_op (Frame_SessionID frame) l (deliver drop r frame l)
| op_open frame l : session_op (Frame_SessionID frame) l (Open frame l).1
| op_accept id l : session_op id l (Accept id l).1
| op_send b r s kind payload l :
    Link_store l !! r = Some s ->
    session_op (Session_id s) l (SendData b r kind payload l).1
| op_eof r s l : Link_store l !! r = Some s -> session_op (Session_id s) l (SendEOF r l).1
| op_ack r s l : Link_store l !! r = Some s -> session_op (Session_id s) l (AckData r l)
| op_close r s l : Link_store l !! r = Some s -> session_op (Session_id s) l (Session_Close r l)
| op_close_error r s m l :
    Link_store l !! r = Some s -> session_op (Session_id s) l (CloseWithError m r l)
| op_close_code r s c t l :
    Link_store l !! r = Some s -> session_op (Session_id s) l (CloseWithCode c t r l)
| op_claim r s l : Link_store l !! r = Some s -> session_op (Session_id s) l (TryClaim r l).1
| op_recv r s f l l' :
    Link_store l !! r = Some s -> Recv r l = Some (f, l') -> session_op (Session_id s) l l'.

Lemma SendData_touches b r s kind payload l :
  Link_store l !! r = Some s -> touches (Session_id s) l (SendData b r kind payload l).1.
Proof.
  intros Hs. unfold SendData. rewrite Hs.
  destruct (_ && _) eqn:E; [|by destruct (Session_done s)].
  rewrite WriteFrame_on_session. cbn [fst].
  etrans; [exact (WriteFrame_touches (dataFrame (Session_id s) kind payload) l)|].
  apply on_session_touches; [by rewrite (proj1 (WriteFrame_store _ _))|].
  split; [|done]. intros [H1 H2 H3]. split; [done| |done]. cbn. lia.
Qed.

Lemma dispatch_touches drop frame l :
  touches (Frame_SessionID frame) l (dispatch drop frame l).
Proof.
  unfold dispatch. destruct (_ !! _) as [r|] eqn:Hr; [|done].
  intros Hl. destruct (wf_registered _ Hl _ _ Hr) as (s & Hs & Hid & _).
  by apply (deliver_touches drop r s frame l).
Qed.

Lemma Open_touches frame l : touches (Frame_SessionID frame) l (Open frame l).1.
Proof.
  unfold Open. pose proof (addSession_touches (Frame_SessionID frame) l) as Ha.
  destruct (addSession _ l) as [l1 [r|e]]; [|done].
  pose proof (WriteFrame_touches frame l1) as Hw.
  destruct (WriteFrame frame l1) as [l2 [[]|e]]; cbn [fst] in *.
  - by etrans.
  - etrans; [exact Ha|]. etrans; [exact Hw|]. apply removeSession_touches.
Qed.

Lemma session_op_touches id l l' : session_op id l l' -> touches id l l'.
Proof.
  destruct 1.
  - apply dispatch_touches.
  - by apply (deliver_touches drop r s frame l).
  - apply Open_touches.
  - apply addSession_touches.
  - by apply SendData_touches.
  - unfold SendEOF. rewrite H. exact (WriteFrame_touches (eofFrame (Session_id s)) l).
  - by apply AckData_touches.
  - by apply closeWith_touches.
  - by apply closeWith_touches.
  - by apply closeWith_touches.
  - unfold TryClaim. rewrite H. cbn. apply on_session_touches; [done|].
    split; [intros [H1 H2 H3]; by split|done].
  - unfold Recv in H0. rewrite H in H0. destruct (Session_recv s) as [|f' q] eqn:E; [done|].
    injection H0 as <- <-. apply on_session_touches; [done|].
    split; [intros [H1 H2 H3]; split; try done|done]. rewrite E in H1. cbn in *. lia.
Qed.

(** ** Objects outlive their registration *)

(** Objects are never dropped, keep their id, and are done or claimed for
    good. *)
Definition persists (l l' : Link) : Prop :=
  forall r s, Link_store l !! r = Some s -> exists s', Link_store l' !! r = Some s' /\
    Session_id s' = Session_id s /\
    (Session_done s = true -> Session_done s' = true) /\
    (Session_claimed s = true -> Session_claimed s' = true).

#[export] Instance persists_refl : Reflexive persists.
Proof. intros l r s Hs. by exists s. Qed.

#[export] Instance persists_trans : Transitive persists.
Proof.
  intros l1 l2 l3 H1 H2 r s Hs. destruct (H1 r s Hs) as (s1 & Hs1 & Hi1 & Hd1 & Hc1).
  destruct (H2 r s1 Hs1) as (s2 & Hs2 & Hi2 & Hd2 & Hc2). exists s2.
  split_and!; [done|congruence|auto|auto].
Qed.

Lemma on_session_persists r f l :
  (forall s, Session_id (f s) = Session_id s /\
     (Session_done s = true -> Session_done (f s) = true) /\
     (Session_claimed s = true -> Session_claimed (f s) = true)) ->
  persists l (on_session r f l).
Proof.
  intros Hf r' s Hs. cbn. rewrite lookup_alter. destruct (decide (r = r')) as [<-|]; [|by exists s].
  rewrite Hs. exists (f s). destruct (Hf s) as (? & ? & ?). done.
Qed.

Lemma WriteFrame_persists frame l : persists l (WriteFrame frame l).1.
Proof. intros r s Hs. exists s. by rewrite (proj1 (WriteFrame_store _ _)). Qed.

Lemma addSession_persists id l : link_wf l -> persists l (addSession id l).1.
Proof.
  intros Hl r s Hs. exists s. unfold addSession. destruct (Link_sessions l !! id); [done|].
  cbn. rewrite lookup_insert_ne; [done|].
  intros <-. destruct (wf_stored _ Hl _ _ Hs) as (_ & ? & _). lia.
Qed.

Lemma removeSession_persists id l : persists l (removeSession id l).
Proof.
  unfold removeSession. destruct (Link_sessions l !! id); [|intros r s Hs; by exists s].
  apply (on_session_persists _ markDone (set_sessions _ l)). done.
Qed.

Lemma write_remove_persists frame id l :
  persists l (removeSession id (WriteFrame frame l).1).
Proof. etrans; [apply WriteFrame_persists|apply removeSession_persists]. Qed.

Lemma deliver_persists drop r frame l : persists l (deliver drop r frame l).
Proof.
  unfold deliver. destruct (String.eqb _ _); [by apply on_session_persists|].
  destruct (Link_store l !! r) as [s|]; [|done].
  destruct (_ && _); [by apply on_session_persists|]. destruct (Session_done s); [done|].
  pose proof (write_remove_persists
    (errorFrame (Frame_SessionID frame) "flow control violation") (Frame_SessionID frame) l) as H.
  by destruct (WriteFrame _ l).
Qed.

Lemma closeWith_persists frame r l : persists l (closeWith frame r l).
Proof.
  unfold closeWith. destruct (Link_store l !! r) as [s|]; [|done].
  pose proof (write_remove_persists (frame (Session_id s)) (Session_id s) l) as H.
  by destruct (WriteFrame _ l).
Qed.

Lemma session_op_persists id l l' : link_wf l -> session_op id l l' -> persists l l'.
Proof.
  intros Hl. destruct 1.
  - unfold dispatch. destruct (_ !! _); [apply deliver_persists|done].
  - apply deliver_persists.
  - unfold Open. pose proof (addSession_persists (Frame_SessionID frame) l Hl) as Ha.
    destruct (addSession _ l) as [l1 [r|e]]; [|done].
    pose proof (WriteFrame_persists frame l1) as Hw.
    pose proof (write_remove_persists frame (Frame_SessionID frame) l1) as Hr.
    destruct (WriteFrame frame l1) as [l2 [[]|e]]; by etrans.
  - by apply addSession_persists.
  - unfold SendData. rewrite H. destruct (_ && _); [|by destruct (Session_done s)].
    rewrite WriteFrame_on_session. etrans; [apply WriteFrame_persists|by apply on_session_persists].
  - unfold SendEOF. rewrite H. apply WriteFrame_persists.
  - rewrite (AckData_eq r s l H). destruct (_ <=? _); [|by apply on_session_persists].
    etrans; [apply WriteFrame_persists|by apply on_session_persists].
  - apply closeWith_persists.
  - apply closeWith_persists.
  - apply closeWith_persists.
  - unfold TryClaim. rewrite H. by apply on_session_persists.
  - unfold Recv in H0. rewrite H in H0. destruct (Session_recv s); [done|].
    injection H0 as <- <-. by apply on_session_persists.
Qed.

End Operations.

(** ** Closing the link *)

Lemma foldr_markDone rs l :
  let l' := foldr (fun r => on_session r markDone) l rs in
  Link_sessions l' = Link_sessions l /\ Link_open l' = Link_open l /\ Link_out l' = Link_out l /\
  Link_next l' = Link_next l /\
  forall r, Link_store l' !! r =
    if bool_decide (r ∈ rs) then markDone <$> Link_store l !! r else Link_store l !! r.
Proof.
  induction rs as [|r0 rs IH]; cbn [foldr]; [by split_and!|].
  destruct IH as (IH1 & IH2 & IH3 & IH4 & IH5). split_and!; [done..|]. intros r. cbn.
  rewrite lookup_alter. destruct (decide (r0 = r)) as [->|Hne].
  - rewrite IH5, (bool_decide_eq_true_2 (r ∈ r :: rs)) by left.
    case_bool_decide; [|done]. destruct (Link_store l !! r); done.
  - rewrite IH5. do 2 case_bool_decide; try done; set_solver.
Qed.

Lemma Close_store l r :
  Link_store (Close l) !! r =
  if bool_decide (r ∈ (map_to_list (Link_sessions l)).*2)
  then markDone <$> Link_store l !! r else Link_store l !! r.
Proof.
  unfold Close. destruct (foldr_markDone (map_to_list (Link_sessions l)).*2
    (set_sessions ∅ (close_conn l))) as (_ & _ & _ & _ & H). apply H.
Qed.

Lemma registered_ref l id r :
  Link_sessions l !! id = Some r -> r ∈ (map_to_list (Link_sessions l)).*2.
Proof.
  intros H. apply list_elem_of_fmap. exists (id, r). split; [done|]. by apply elem_of_map_to_list.
Qed.

Lemma Close_fields l :
  Link_sessions (Close l) = ∅ /\ Link_open (Close l) = false /\ Link_out (Close l) = Link_out l /\
  Link_next (Close l) = Link_next l.
Proof. unfold Close. by destruct (foldr_markDone (map_to_list (Link_sessions l)).*2
  (set_sessions ∅ (close_conn l))) as (? & ? & ? & ? & ?). Qed.

Lemma Close_done l r s :
  link_wf l -> Link_store (Close l) !! r = Some s -> Session_done s = true.
Proof.
  intros Hl. rewrite Close_store. case_bool_decide as Hin.
  - destruct (Link_store l !! r); [|done]. by intros [= <-].
  - intros Hs. destruct (Session_done s) eqn:Hd; [done|]. destruct Hin.
    eapply registered_ref. by apply (wf_stored _ Hl _ _ Hs).
Qed.

Lemma Close_wf l : link_wf l -> link_wf (Close l).
Proof.
  intros Hl. destruct (Close_fields l) as (H1 & H2 & H3 & H4). split.
  - by rewrite H1.
  - intros r s Hs. pose proof (Close_done l r s Hl Hs) as Hd. rewrite H4, Hd.
    rewrite Close_store in Hs. split_and!; [| |done].
    + case_bool_decide; [|by apply (wf_stored _ Hl r)].
      destruct (Link_store l !! r) as [s0|] eqn:E; [|done]. injection Hs as <-.
      apply markDone_wf. by apply (wf_stored _ Hl r).
    + case_bool_decide; [|by apply (wf_stored _ Hl r s)].
      destruct (Link_store l !! r) as [s0|] eqn:E; [|done]. by apply (wf_stored _ Hl r s0).
Qed.

Lemma Close_persists l : persists l (Close l).
Proof.
  intros r s Hs. rewrite Close_store, Hs. case_bool_decide; [exists (markDone s)|exists s]; done.
Qed.

(** ** Properties *)

Section Properties.
Context {MF : Msgpack Frame} {ML : MsgpackLaws Frame}.
#[local] Set Default Proof Using "Type*".

(** A link between two observations: a session operates, the whole link is
    closed, or the peer reads messages from the connection. *)
Inductive link_step : Link -> Link -> Prop :=
| step_session id l l' : session_op id l l' -> link_step l l'
| step_close l : link_step l (Close l)
| step_read l rest : link_step l (set_out rest l).

Lemma link_step_wf l l' : link_wf l -> link_step l l' -> link_wf l'.
Proof.
  intros Hl. destruct 1 as [id l l' H| |].
  - by apply (session_op_touches id l l' H).
  - by apply Close_wf.
  - by apply link_wf_out.
Qed.

Lemma link_step_persists l l' : link_wf l -> link_step l l' -> persists l l'.
Proof.
  intros Hl. destruct 1 as [id l l' H| |].
  - by eapply session_op_persists.
  - apply Close_persists.
  - intros r s Hs. by exists s.
Qed.

Lemma link_steps_persists l l' : link_wf l -> rtc link_step l l' -> persists l l'.
Proof.
  intros Hl Hr. induction Hr as [|l1 l2 l3 H12 _ IH]; [done|].
  etrans; [by apply link_step_persists|]. apply IH. by eapply link_step_wf.
Qed.

(** After [removeSession] the object is done, whether or not it still was the
    registered one. *)
Lemma remove_done r s l :
  link_wf l -> Link_store l !! r = Some s ->
  Link_store (removeSession (Session_id s) l) !! r = Some (set_done s).
Proof.
  intros Hl Hs. unfold removeSession. destruct (Link_sessions l !! Session_id s) as [r'|] eqn:E.
  - cbn. rewrite lookup_alter. destruct (decide (r' = r)) as [->|Hne]; [by rewrite Hs|].
    destruct (Session_done s) eqn:Hd; [by rewrite Hs; destruct s; cbn in *; subst|].
    destruct (wf_stored _ Hl r s Hs) as (_ & _ & Hreg). specialize (Hreg Hd). congruence.
  - cbn. rewrite Hs. destruct (Session_done s) eqn:Hd; [by destruct s; cbn in *; subst|].
    destruct (wf_stored _ Hl r s Hs) as (_ & _ & Hreg). specialize (Hreg Hd). congruence.
Qed.

(** C19: the link's invariant.  Whatever sessions are opened, accepted, used and
    closed, in any order and from any goroutine, in every reachable state: the
    map registers exactly the sessions that are not done, each under its own
    id, and every session ever created has at most 40 queued frames, at most
    32 credits and fewer than 16 unacknowledged deliveries. *)
Theorem link_invariant l : reachable link_step (eq NewLink) l -> link_wf l.
Proof.
  apply reachable_inv; [|intros; by eapply link_step_wf].
  intros ? <-. by split.
Qed.

(** C21: sessions are isolated.  An operation of one session leaves every other
    session's registration, queue, credit, counter and flags as they are, does
    not close the connection, and adds or removes no frame of another
    session on the wire. *)
Theorem sessions_isolated id l l' :
  link_wf l -> session_op id l l' ->
  same_but id l l' /\ forall id', id' <> id -> wire id' l' = wire id' l.
Proof. intros Hl H. by destruct (session_op_touches id l l' H Hl) as (_ & ? & ?). Qed.

(** [dispatch], branch by branch.  A frame of an unknown session is
    dropped; a window frame returns credit up to the window and is not
    queued; any other frame is appended to the session's queue when there is
    room; and when the peer overran its window the session, and only it, is
    marked done and removed, and the peer is told. *)
Theorem dispatch_behaviour drop frame l :
  link_wf l ->
  (Link_sessions l !! Frame_SessionID frame = None -> dispatch drop frame l = l) /\
  forall r s, Link_sessions l !! Frame_SessionID frame = Some r -> Link_store l !! r = Some s ->
    (Frame_Type frame = FrameWindow -> 0 <= Frame_Window frame ->
       dispatch drop frame l =
       on_session r (set_credit (Nat.min sendWindow
         (Session_credit s + Z.to_nat (Frame_Window frame)))) l) /\
    (Frame_Type frame <> FrameWindow -> (length (Session_recv s) < recvCap)%nat ->
       dispatch drop frame l = on_session r (set_recv (Session_recv s ++ [frame])) l) /\
    (Frame_Type frame <> FrameWindow -> length (Session_recv s) = recvCap ->
       let l' := dispatch drop frame l in
       Link_sessions l' !! Frame_SessionID frame = None /\
       Link_store l' !! r = Some (set_done s) /\
       (Link_open l = true -> ident (Frame_SessionID frame) ->
        wire (Frame_SessionID frame) l' =
        wire (Frame_SessionID frame) l ++
          [errorFrame (Frame_SessionID frame) "flow control violation"])).
Proof.
  intros Hl. unfold dispatch. split; [by intros ->|]. intros r s Hr Hs.
  destruct (wf_registered _ Hl _ _ Hr) as (s' & Hs' & Hid & Hd).
  assert (s' = s) as -> by congruence. rewrite Hr. unfold deliver. rewrite Hs, Hd.
  split_and!.
  - intros -> Hw. cbn. unfold on_session, set_store. f_equal. apply alter_ext.
    intros s1 Hs1. assert (s1 = s) as -> by congruence. unfold addSendCredit.
    f_equal. apply creditLoop_spec, (wf_stored _ Hl _ _ Hs).
  - intros Hty Hroom. rewrite (proj2 (String.eqb_neq _ _) Hty), (proj2 (Nat.ltb_lt _ _) Hroom). done.
  - intros Hty Hfull. rewrite (proj2 (String.eqb_neq _ _) Hty), (proj2 (Nat.ltb_ge _ _)) by lia.
    cbn [andb negb]. set (f := errorFrame _ _).
    pose proof (WriteFrame_store f l) as [Hst Hse]. pose proof (WriteFrame_wire (Frame_SessionID frame) f l) as Hwi.
    destruct (WriteFrame f l) as [l1 e] eqn:E. cbn [fst snd] in *.
    split_and!; [apply removeSession_gone| |].
    + unfold removeSession. rewrite Hse, Hr. cbn. by rewrite lookup_alter_eq, Hst, Hs.
    + intros Ho Hident. rewrite removeSession_wire, Hwi. f_equal. cbn [Frame_SessionID f errorFrame].
      assert (Hf : frame_wf f) by (apply errorFrame_wf; [done|done|by apply ContainsAny_avoids]).
      pose proof (WriteFrame_ok f l Hf Ho) as Hok. rewrite E in Hok. cbn in Hok.
      by rewrite Hok, String.eqb_refl.
Qed.

(** [Link.Close] ends everything.  No session is registered any more, every
    session ever created is done for good, no later write succeeds, and a
    sender that was waiting for credit gets [ErrSessionClosed]. *)
Theorem Close_ends_sessions l l' :
  link_wf l -> rtc link_step (Close l) l' ->
  Link_sessions (Close l) = ∅ /\
  forall r s, Link_store l !! r = Some s ->
    exists s', Link_store l' !! r = Some s' /\ Session_done s' = true /\
      forall kind payload, (SendData true r kind payload l').2 = Returned (Err ErrSessionClosed).
Proof.
  intros Hl Hr. split; [apply Close_fields|]. intros r s Hs.
  destruct (Close_persists l r s Hs) as (s1 & Hs1 & _).
  pose proof (Close_done l r s1 Hl Hs1) as Hd.
  destruct (link_steps_persists _ _ (Close_wf l Hl) Hr r s1 Hs1) as (s' & Hs' & _ & Hd' & _).
  exists s'. split_and!; [done|auto|]. intros kind payload. unfold SendData.
  rewrite Hs', Hd' by done. by rewrite andb_false_r.
Qed.

(** [TryClaim] succeeds exactly once.  On an unclaimed session it returns
    true; after it has returned true, whatever happens on the link, every
    later call returns false and [Claimed] reports it. *)
Theorem TryClaim_once r s l l' :
  link_wf l -> Link_store l !! r = Some s ->
  (TryClaim r l).2 = negb (Session_claimed s) /\
  (rtc link_step (TryClaim r l).1 l' -> (TryClaim r l').2 = false /\ Claimed r l' = true).
Proof.
  intros Hl Hs. assert (Htry : (TryClaim r l).2 = negb (Session_claimed s)).
  { unfold TryClaim. by rewrite Hs. }
  split; [done|]. intros Hr.
  pose proof (session_op_touches _ _ _ (op_claim r s l Hs) Hl) as (Hwf & _).
  assert (Hs1 : Link_store (TryClaim r l).1 !! r = Some (set_claimed s)).
  { unfold TryClaim. rewrite Hs. cbn. by rewrite lookup_alter_eq, Hs. }
  destruct (link_steps_persists _ _ Hwf Hr r _ Hs1) as (s' & Hs' & _ & _ & Hc).
  unfold TryClaim, Claimed. rewrite Hs'. by rewrite Hc.
Qed.

Lemma AckData_step r s l :
  Link_store l !! r = Some s -> Link_open l = true -> ident (Session_id s) ->
  0 <= Session_consumed s < ackThreshold ->
  let c := Session_consumed s + 1 in
  Link_open (AckData r l) = true /\
  Link_store (AckData r l) !! r = Some (set_consumed (c mod ackThreshold) s) /\
  wire (Session_id s) (AckData r l) = wire (Session_id s) l ++
    replicate (Z.to_nat (c / ackThreshold)) (windowFrame (Session_id s) ackThreshold).
Proof.
  unfold ackThreshold. intros Hs Ho Hid Hc. cbn zeta. rewrite (AckData_eq r s l Hs).
  unfold ackThreshold. destruct (Z.leb_spec 16 (Session_consumed s + 1)).
  - assert (Session_consumed s = 15) as Hc15 by lia. rewrite !Hc15. cbn -[wire WriteFrame].
    rewrite lookup_alter_eq, (proj1 (WriteFrame_store _ _)), Hs. split_and!; [|done|].
    + destruct (WriteFrame _ l) as [l1 e] eqn:E.
      by apply WriteFrame_cases in E as [(data & _ & _ & _ & ->)|[-> _]].
    + change (wire ?id (on_session ?r ?f ?l)) with (wire id l). rewrite WriteFrame_wire, WriteFrame_ok
        by (done || by apply windowFrame_wf). cbn [is_ok andb Frame_SessionID windowFrame].
      by rewrite String.eqb_refl.
  - cbn -[Z.modulo Z.div]. rewrite lookup_alter_eq, Hs, Z.mod_small, Z.div_small by lia.
    cbn. by rewrite app_nil_r.
Qed.

(** Acknowledgements are batched and none is lost.  After [n] calls of
    [AckData] on an open connection the session has sent one window frame of
    16 for every 16 deliveries, counting those already pending, and still
    counts the rest. *)
Theorem AckData_batches n r s l :
  Link_store l !! r = Some s -> Link_open l = true -> ident (Session_id s) ->
  0 <= Session_consumed s < ackThreshold ->
  let total := Session_consumed s + Z.of_nat n in
  let l' := Nat.iter n (AckData r) l in
  Link_store l' !! r = Some (set_consumed (total mod ackThreshold) s) /\
  wire (Session_id s) l' = wire (Session_id s) l ++
    replicate (Z.to_nat (total / ackThreshold)) (windowFrame (Session_id s) ackThreshold).
Proof.
  intros Hs Ho Hid Hc. cbn zeta.
  cut (Link_open (Nat.iter n (AckData r) l) = true /\
    Link_store (Nat.iter n (AckData r) l) !! r =
      Some (set_consumed ((Session_consumed s + Z.of_nat n) mod ackThreshold) s) /\
    wire (Session_id s) (Nat.iter n (AckData r) l) = wire (Session_id s) l ++
      replicate (Z.to_nat ((Session_consumed s + Z.of_nat n) / ackThreshold))
        (windowFrame (Session_id s) ackThreshold)); [naive_solver|].
  induction n as [|n (IHo & IHs & IHw)].
  - cbn [Nat.iter nat_rect]. rewrite Z.add_0_r, Z.mod_small, Z.div_small by done.
    cbn. rewrite app_nil_r, Hs. split_and!; [done| |done]. by destruct s.
  - rewrite Nat.iter_succ. set (m := Nat.iter n (AckData r) l) in *.
    set (t := Session_consumed s + Z.of_nat n) in *.
    replace (Session_consumed s + Z.of_nat (S n)) with (t + 1) by lia.
    destruct (AckData_step r _ m IHs IHo Hid) as (H1 & H2 & H3);
      [apply Z.mod_pos_bound; unfold ackThreshold; lia|].
    cbn -[wire Z.modulo Z.div ackThreshold] in H2, H3.
    split_and!; [done| |].
    + rewrite H2. unfold set_consumed. cbn -[Z.modulo]. do 2 f_equal.
      by rewrite Zplus_mod_idemp_l.
    + rewrite H3, IHw, <- app_assoc, <- replicate_add. do 3 f_equal.
      rewrite <- Z2Nat.inj_add by (apply Z.div_pos; unfold ackThreshold; try lia;
        pose proof (Z.mod_pos_bound t 16); lia).
      f_equal. unfold ackThreshold. pose proof (Z.div_mod t 16). 
      pose proof (Z.mod_pos_bound t 16). 
      rewrite (Z.div_mod t 16) at 3 by lia.
      replace (16 * (t / 16) + t mod 16 + 1) with (t mod 16 + 1 + (t / 16) * 16) by lia.
      rewrite Z.div_add by lia. lia.
Qed.
End Properties.

(** ** Witnesses *)

#[local] Existing Instance frame_msgpack.
#[local] Existing Instance countable_msgpack_laws.

(** Two accepted sessions. *)
Definition demo_link : Link := (Accept "s2" (Accept "s1" NewLink).1).1.

Lemma NewLink_wf : link_wf NewLink.
Proof. by split. Qed.

Lemma demo_link_reachable : reachable link_step (eq NewLink) demo_link.
Proof.
  exists NewLink. split; [done|]. unfold demo_link.
  eapply rtc_l; [apply (step_session "s1"), op_accept|].
  eapply rtc_l; [apply (step_session "s2"), op_accept|]. apply rtc_refl.
Qed.

Lemma demo_link_wf : link_wf demo_link.
Proof.
  unfold demo_link. apply (session_op_touches "s2" _ _ (op_accept _ _)).
  apply (session_op_touches "s1" _ _ (op_accept _ _)), NewLink_wf.
Qed.

Lemma link_invariant_witness :
  reachable link_step (eq NewLink) demo_link /\ link_wf demo_link /\
  Link_sessions demo_link !! "s1" = Some 0%nat.
Proof.
  split; [exact demo_link_reachable|]. split; [|vm_compute; reflexivity].
  apply (link_invariant demo_link). exact demo_link_reachable.
Defined.

Lemma sessions_isolated_witness :
  let l' := (SendData false 0%nat DataText "hi" demo_link).1 in
  same_but "s1" demo_link l' /\ wire "s2" l' = wire "s2" demo_link /\
  Session_credit <$> Link_store l' !! 0%nat = Some 31%nat.
Proof.
  assert (Hop : session_op "s1" demo_link (SendData false 0%nat DataText "hi" demo_link).1).
  { apply (op_send false 0%nat (newSession "s1")). vm_compute. reflexivity. }
  destruct (sessions_isolated "s1" _ _ demo_link_wf Hop) as [H1 H2].
  split; [exact H1|]. split; [apply H2; discriminate|vm_compute; reflexivity].
Defined.

Lemma dispatch_behaviour_witness :
  let l' := dispatch false (eofFrame "s1") demo_link in
  dispatch false (eofFrame "s9") demo_link = demo_link /\
  Session_recv <$> Link_store l' !! 0%nat = Some [eofFrame "s1"].
Proof.
  split.
  - apply (dispatch_behaviour false (eofFrame "s9") demo_link demo_link_wf). reflexivity.
  - vm_compute. reflexivity.
Defined.

Lemma Close_ends_sessions_witness :
  exists s', Link_store (Close demo_link) !! 0%nat = Some s' /\ Session_done s' = true.
Proof.
  destruct (Close_ends_sessions demo_link (Close demo_link) demo_link_wf) as [_ H]; [apply rtc_refl|].
  destruct (H 0%nat (newSession "s1")) as (s' & Hs' & Hd & _); [vm_compute; reflexivity|].
  exists s'. split; [exact Hs'|exact Hd].
Defined.

Lemma TryClaim_once_witness :
  (TryClaim 0%nat demo_link).2 = true /\
  (TryClaim 0%nat (TryClaim 0%nat demo_link).1).2 = false.
Proof.
  destruct (TryClaim_once 0%nat (newSession "s1") demo_link (TryClaim 0%nat demo_link).1
    demo_link_wf) as [H1 H2]; [vm_compute; reflexivity|].
  split; [exact H1|]. apply H2. apply rtc_refl.
Defined.

Lemma AckData_batches_witness :
  let l' := Nat.iter 40 (AckData 0%nat) demo_link in
  Session_consumed <$> Link_store l' !! 0%nat = Some 8 /\
  wire "s1" l' = [windowFrame "s1" 16; windowFrame "s1" 16].
Proof.
  destruct (AckData_batches 40 0%nat (newSession "s1") demo_link) as [H1 H2].
  - vm_compute. reflexivity.
  - reflexivity.
  - apply (bool_decide_unpack _). vm_compute. exact I.
  - cbn. unfold ackThreshold. lia.
  - split; [exact (f_equal (fmap Session_consumed) H1)|exact H2].
Defined.
