(* ===== verification/FlowSpec.v ===== *)
(** * Credit-based flow control, abstractly

    What a session promises, without links, maps or codecs: two ends that send
    frames to each other through a FIFO wire, a credit window on data frames
    and batched acknowledgements.  [FlowControl] shows that a session of two
    real links ([internal/datatunnel]) is such a system.

    An end records, besides its state, what it sent and took so far, so that
    the invariant can say that the stream is neither reordered, duplicated nor
    torn. *)
From S2P Require Import Prelude GoString TunnelEnvelope Link.

#[local] Open Scope Z_scope.

(** ** Counting frames *)

Definition is_data (f : Frame) : bool := String.eqb (Frame_Type f) FrameData.
Definition is_window (f : Frame) : bool := String.eqb (Frame_Type f) FrameWindow.
Definition is_open (f : Frame) : bool := String.eqb (Frame_Type f) FrameOpen.
(** The frames that end a direction or the session. *)
Definition is_ctl (f : Frame) : bool := negb (is_data f || is_window f || is_open f).

Fixpoint count (p : Frame -> bool) (l : list Frame) : Z :=
  match l with [] => 0 | f :: l' => (if p f then 1 else 0) + count p l' end.

Fixpoint grants (l : list Frame) : Z :=
  match l with [] => 0 | f :: l' => (if is_window f then Frame_Window f else 0) + grants l' end.

(** The stream of a direction: everything but the credit. *)
Fixpoint stream (l : list Frame) : list Frame :=
  match l with [] => [] | f :: l' => if is_window f then stream l' else f :: stream l' end.

Lemma count_app p l k : count p (l ++ k) = count p l + count p k.
Proof. induction l; cbn; lia. Qed.
Lemma count_nonneg p l : 0 <= count p l.
Proof. induction l as [|f l]; cbn; [|destruct (p f)]; lia. Qed.
Lemma grants_app l k : grants (l ++ k) = grants l + grants k.
Proof. induction l; cbn; lia. Qed.
Lemma stream_app l k : stream (l ++ k) = stream l ++ stream k.
Proof. induction l as [|f l IH]; cbn; [done|]. destruct (is_window f); cbn; by rewrite IH. Qed.

(** Window frames are not data. *)
Lemma count_stream l : count is_data (stream l) = count is_data l.
Proof.
  induction l as [|f l IH]; cbn; [done|]. destruct (is_window f) eqn:E; cbn; rewrite IH; [|done].
  unfold is_window, is_data in *. apply String.eqb_eq in E. by rewrite E.
Qed.

(** The four classes partition the frames. *)
Definition class (f : Frame) (d w o c : bool) : Prop :=
  is_data f = d /\ is_window f = w /\ is_open f = o /\ is_ctl f = c.

Lemma data_class f : is_data f = true -> class f true false false false.
Proof. unfold class, is_ctl, is_data, is_window, is_open. by intros ->%String.eqb_eq. Qed.
Lemma window_class f : is_window f = true -> class f false true false false.
Proof. unfold class, is_ctl, is_data, is_window, is_open. by intros ->%String.eqb_eq. Qed.
Lemma open_class f : is_open f = true -> class f false false true false.
Proof. unfold class, is_ctl, is_data, is_window, is_open. by intros ->%String.eqb_eq. Qed.
Lemma ctl_class f : is_ctl f = true -> class f false false false true.
Proof.
  unfold class, is_ctl. by destruct (is_data f), (is_window f), (is_open f).
Qed.

(** ** The system *)

Record End := mkEnd {
  e_on : bool;            (** the session object exists *)
  e_live : bool;          (** and is not done *)
  e_up : bool;            (** the connection is open *)
  e_credit : Z;
  e_queue : list Frame;
  e_consumed : Z;
  e_acked : Z;            (** data frames acknowledged so far *)
  e_got : list Frame;     (** frames taken from the queue so far *)
  e_sent : list Frame;    (** stream frames sent so far *)
  e_wire : list Frame     (** frames sent and not yet delivered *)
}.

Definition window : Z := Z.of_nat sendWindow.
Definition slack : Z := Z.of_nat recvSlack.

Inductive act : End -> End -> Prop :=
| a_data on live up c q k a g s w f :
    is_data f = true -> 0 < c ->
    act (mkEnd on live up c q k a g s w) (mkEnd on live up (c - 1) q k a g (s ++ [f]) (w ++ [f]))
| a_data_lost on live c q k a g s w :
    0 < c ->
    act (mkEnd on live false c q k a g s w) (mkEnd on live false (c - 1) q k a g s w)
| a_ctl on live live' up c q k a g s w f :
    is_ctl f = true -> count is_ctl s < slack -> (live' = true -> live = true) ->
    act (mkEnd on live up c q k a g s w) (mkEnd on live' up c q k a g (s ++ [f]) (w ++ [f]))
| a_ctl_lost on live live' up c q k a g s w :
    (live' = true -> live = true) ->
    act (mkEnd on live up c q k a g s w) (mkEnd on live' up c q k a g s w)
| a_recv on live up c q k a g s w f :
    act (mkEnd on live up c (f :: q) k a g s w) (mkEnd on live up c q k a (g ++ [f]) s w)
| a_ack_count on live up c q k a g s w :
    a < count is_data g -> k + 1 < ackThreshold ->
    act (mkEnd on live up c q k a g s w) (mkEnd on live up c q (k + 1) (a + 1) g s w)
| a_ack_grant on live up c q k a g s w f :
    a < count is_data g -> is_window f = true -> Frame_Window f = k + 1 ->
    act (mkEnd on live up c q k a g s w) (mkEnd on live up c q 0 (a + 1) g s (w ++ [f]))
| a_ack_lost on live c q k a g s w :
    a < count is_data g ->
    act (mkEnd on live false c q k a g s w) (mkEnd on live false c q 0 (a + 1) g s w)
| a_down on live up c q k a g s w :
    act (mkEnd on live up c q k a g s w) (mkEnd on false false c q k a g s w).

(** The receiver's reaction to the next frame of the wire. *)
Inductive react (f : Frame) : End -> End -> Prop :=
| r_accept up :
    is_open f = true ->
    react f (mkEnd false false up window [] 0 0 [] [] [])
            (mkEnd true true up window [] 0 0 [f] [] [])
| r_window on up c q k a g s w :
    is_window f = true ->
    react f (mkEnd on true up c q k a g s w)
            (mkEnd on true up (Z.min window (c + Frame_Window f)) q k a g s w)
| r_queue up c q k a g s w :
    is_window f = false ->
    react f (mkEnd true true up c q k a g s w) (mkEnd true true up c (q ++ [f]) k a g s w)
| r_drop up c q k a g s w :
    react f (mkEnd true false up c q k a g s w) (mkEnd true false up c q k a g s w).

Definition set_wire (w : list Frame) (e : End) : End :=
  mkEnd (e_on e) (e_live e) (e_up e) (e_credit e) (e_queue e) (e_consumed e) (e_acked e)
    (e_got e) (e_sent e) w.

Inductive flow_step : End * End -> End * End -> Prop :=
| f_left x x' y : e_on x = true -> act x x' -> flow_step (x, y) (x', y)
| f_right x y y' : e_on y = true -> act y y' -> flow_step (x, y) (x, y')
| f_to_right x y y' f w :
    e_wire x = f :: w -> react f y y' -> flow_step (x, y) (set_wire w x, y')
| f_to_left x y x' f w :
    e_wire y = f :: w -> react f x x' -> flow_step (x, y) (x', set_wire w y).

(** The initiator has registered the session and sent its open frame; the
    other end does not know it yet. *)
Definition flow_init (o : Frame) (p : End * End) : Prop :=
  is_open o = true /\ exists u v,
  p = (mkEnd true true u window [] 0 0 [] [o] [o], mkEnd false false v window [] 0 0 [] [] []).

(** ** The invariant *)

Definition no_open (l : list Frame) : Prop := Forall (fun f => is_open f = false) l.

(** Only data and control frames are queued. *)
Definition queue_ok (q : list Frame) : Prop :=
  Forall (fun f => is_open f = false /\ is_window f = false) q.

(** What holds of the direction from [s] to [r]. *)
Record direction (s r : End) : Prop := {
  d_stream : exists lost, e_sent s = e_got r ++ e_queue r ++ lost ++ stream (e_wire s) /\
    (e_live r = true -> lost = []) /\
    (e_on r = false -> e_got r = [] /\ e_queue r = [] /\ lost = []);
  d_credit : e_credit s + count is_data (e_sent s) + e_consumed r + grants (e_wire r)
    <= window + e_acked r;
  d_exact : e_live s = true -> e_up s = true -> e_up r = true ->
    e_credit s + count is_data (e_sent s) + e_consumed r + grants (e_wire r) = window + e_acked r;
  d_acked : 0 <= e_acked r <= count is_data (e_got r);
  d_bounds : 0 <= e_credit s <= window /\ 0 <= e_consumed r < ackThreshold;
  d_grants : Forall (fun f => is_window f = true -> 0 < Frame_Window f) (e_wire r);
  d_ctl : count is_ctl (e_sent s) <= slack;
  d_opens : queue_ok (e_queue r) /\
    if e_on r then no_open (e_wire s)
    else e_on s = true -> exists o w, e_wire s = o :: w /\ is_open o = true /\ no_open w;
  d_idle : e_on s = false ->
    e_live s = false /\ e_sent s = [] /\ e_wire s = [] /\ e_credit s = window
}.

Definition flow_inv (p : End * End) : Prop := direction p.1 p.2 /\ direction p.2 p.1.

#[local] Ltac flow_norm :=
  cbn [e_on e_live e_up e_credit e_queue e_consumed e_acked e_got e_sent e_wire set_wire] in *;
  idtac.

(** What one more frame contributes, by class. *)
Lemma snoc_class l f d w o c :
  class f d w o c ->
  count is_data (l ++ [f]) = count is_data l + Z.b2z d /\
  count is_ctl (l ++ [f]) = count is_ctl l + Z.b2z c /\
  grants (l ++ [f]) = grants l + (if w then Frame_Window f else 0) /\
  stream (l ++ [f]) = stream l ++ (if w then [] else [f]).
Proof.
  intros (Hd & Hw & Ho & Hc). rewrite !count_app, grants_app, stream_app. cbn.
  rewrite Hd, Hw, Hc. unfold Z.b2z. destruct d, w, c; split_and!; try done; lia.
Qed.

Lemma cons_class l f d w o c :
  class f d w o c ->
  count is_data (f :: l) = Z.b2z d + count is_data l /\
  count is_ctl (f :: l) = Z.b2z c + count is_ctl l /\
  grants (f :: l) = (if w then Frame_Window f else 0) + grants l /\
  stream (f :: l) = (if w then [] else [f]) ++ stream l.
Proof.
  intros (Hd & Hw & Ho & Hc). cbn. rewrite Hd, Hw, Hc. unfold Z.b2z. by destruct d, w, c.
Qed.

#[local] Ltac snoc C :=
  repeat match goal with
  | |- context [?l ++ [?f]] =>
      let H1 := fresh in let H2 := fresh in let H3 := fresh in let H4 := fresh in
      progress (destruct (snoc_class l f _ _ _ _ C) as (H1 & H2 & H3 & H4);
      rewrite ?H1, ?H2, ?H3, ?H4; clear H1 H2 H3 H4)
  end; cbn [Z.b2z].

Lemma no_open_snoc l f : is_open f = false -> no_open l -> no_open (l ++ [f]).
Proof. intros Hf Hl. apply Forall_app. split; [done|]. by repeat constructor. Qed.

Lemma opens_snoc (on : bool) w f :
  is_open f = false ->
  (if on then no_open w else true = true -> exists o w', w = o :: w' /\ is_open o = true /\ no_open w') ->
  if on then no_open (w ++ [f])
  else true = true -> exists o w', w ++ [f] = o :: w' /\ is_open o = true /\ no_open w'.
Proof.
  intros Hf. destruct on; [by apply no_open_snoc|].
  intros H _. destruct (H eq_refl) as (o & w' & -> & Ho & Hw). exists o, (w' ++ [f]).
  split_and!; [done|done|by apply no_open_snoc].
Qed.

Lemma stream_snoc (s g q lost w : list Frame) f :
  s = g ++ q ++ lost ++ w -> s ++ [f] = g ++ q ++ lost ++ (w ++ [f]).
Proof. intros ->. by rewrite <- !app_assoc. Qed.

#[local] Ltac direction_fields Hex :=
  split; flow_norm; try done; try lia;
  try (intros ?Hl ?Hu ?Hr; specialize (Hex ltac:(auto) ltac:(auto) ltac:(auto)); lia).

(** The sender acts. *)
Lemma direction_sender s s' r :
  e_on s = true -> direction s r -> act s s' -> direction s' r.
Proof.
  intros Hon [(lost & Hst & Hlost & Hoff) Hcr Hex Hac [Hb Hb'] Hgr Hct [Hoq Hop] Hid] Ha.
  assert (Hst' : exists lost', e_sent s = e_got r ++ e_queue r ++ lost' ++ stream (e_wire s) /\
    (e_live r = true -> lost' = []) /\
    (e_on r = false -> e_got r = [] /\ e_queue r = [] /\ lost' = [])) by by exists lost.
  destruct Ha; cbn in Hon; subst on; flow_norm.
  - pose proof (data_class f H) as C. destruct (proj2 (proj2 C)) as [Ho _].
    split; flow_norm; snoc C; try done; try lia.
    + exists lost. split_and!; [by apply stream_snoc|done|done].
    + intros Hl Hu Hr. specialize (Hex Hl Hu Hr). lia.
    + split; [done|by apply opens_snoc].
  - direction_fields Hex.
  - pose proof (ctl_class f H) as C. destruct (proj2 (proj2 C)) as [Ho _].
    split; flow_norm; snoc C; try done; try lia.
    + exists lost. split_and!; [by apply stream_snoc|done|done].
    + intros Hl Hu Hr. specialize (Hex (H1 Hl) Hu Hr). lia.
    + split; [done|by apply opens_snoc].
  - direction_fields Hex.
  - direction_fields Hex.
  - direction_fields Hex.
  - pose proof (window_class f H0) as C. destruct (proj2 (proj2 C)) as [Ho _].
    split; flow_norm; snoc C; rewrite ?app_nil_r; try done.
    split; [done|by apply opens_snoc].
  - direction_fields Hex.
  - direction_fields Hex.
Qed.

(** The receiver acts. *)
Lemma direction_receiver s r r' :
  e_on r = true -> direction s r -> act r r' -> direction s r'.
Proof.
  intros Hon [(lost & Hst & Hlost & Hoff) Hcr Hex Hac [Hb Hb'] Hgr Hct [Hoq Hop] Hid] Ha.
  destruct Ha; cbn in Hon; subst on; flow_norm.
  - pose proof (data_class f H) as C. split; flow_norm; snoc C; try done; try lia.
    + by exists lost.
    + intros Hl Hu Hr. specialize (Hex Hl Hu Hr). lia.
    + apply Forall_app. split; [done|]. constructor; [|done]. destruct C as (_ & -> & _). done.
  - direction_fields Hex. by exists lost.
  - pose proof (ctl_class f H) as C. split; flow_norm; snoc C; try done; try lia.
    + exists lost. split_and!; [done| |done]. auto.
    + intros Hl Hu Hr. specialize (Hex Hl Hu Hr). lia.
    + apply Forall_app. split; [done|]. constructor; [|done]. destruct C as (_ & -> & _). done.
  - direction_fields Hex. exists lost. split_and!; [done|auto|done].
  - apply list.Forall_cons in Hoq as [Hf Hoq]. direction_fields Hex.
    + exists lost. split_and!; [|done|done]. rewrite Hst. by rewrite <- !app_assoc.
    + rewrite count_app. pose proof (count_nonneg is_data [f]). lia.
  - direction_fields Hex. by exists lost.
  - pose proof (window_class f H0) as C. split; flow_norm; snoc C; try done; try lia.
    + by exists lost.
    + intros Hl Hu Hr. specialize (Hex Hl Hu Hr). lia.
    + apply Forall_app. split; [done|]. constructor; [lia|done].
  - direction_fields Hex. by exists lost.
  - direction_fields Hex. by exists lost.
Qed.

Lemma grants_nonneg l :
  Forall (fun f => is_window f = true -> 0 < Frame_Window f) l -> 0 <= grants l.
Proof.
  induction 1 as [|f l Hf _ IH]; cbn; [lia|]. destruct (is_window f); [specialize (Hf eq_refl)|]; lia.
Qed.

(** Data frames taken were sent, so the acknowledged ones were. *)
Lemma direction_acked s r : direction s r -> e_acked r <= count is_data (e_sent s).
Proof.
  intros [(lost & Hst & _) _ _ Hac _ _ _ _ _]. rewrite Hst, count_app.
  pose proof (count_nonneg is_data (e_queue r ++ lost ++ stream (e_wire s))). lia.
Qed.

(** A frame is delivered: the sender's wire loses its head and the receiver
    reacts; both directions are kept. *)
Lemma direction_deliver s r r' f w :
  e_on s = true -> e_wire s = f :: w -> direction s r -> direction r s -> react f r r' ->
  direction (set_wire w s) r' /\ direction r' (set_wire w s).
Proof.
  intros Hon Hw Hd1 Hd2 Hre. pose proof (direction_acked r s Hd2) as Hack. revert Hre.
  destruct Hd1 as [(lost & Hst & Hlost & Hoff) Hcr Hex Hac [Hb Hb'] Hgr Hct [Hoq Hop] Hid].
  destruct Hd2 as [(lost2 & Hst2 & Hlost2 & Hoff2) Hcr2 Hex2 Hac2 [Hb2 Hb2'] Hgr2 Hct2 [Hoq2 Hop2] Hid2]. intros Hre.
  destruct s as [on1 live1 up1 c1 q1 k1 a1 g1 s1 w1]. cbn in Hon, Hw. subst on1 w1.
  destruct Hre; flow_norm.
  - (* accept *)
    destruct (Hop eq_refl) as (o & w' & [= <- <-] & _ & Hw').
    pose proof (cons_class w f _ _ _ _ (open_class f H)) as (E1 & E2 & E3 & E4).
    rewrite E4 in Hst. rewrite E3 in Hcr2, Hex2. cbn [app Z.b2z count grants] in *.
    destruct (Hoff eq_refl) as (_ & _ & ->). clear E1 E2 E3 E4.
    destruct lost2 as [|]; [|by destruct g1, q1].
    destruct g1; [|done]. destruct q1; [|done]. cbn in *.
    apply list.Forall_cons in Hgr2 as [_ Hgr2]. pose proof (grants_nonneg w Hgr2).
    split; split; flow_norm; try done; try lia; try (by exists []).
    + pose proof (count_nonneg is_data [f]). lia.
    + intros _ _ _. cbn. lia.
  - (* credit *)
    pose proof (cons_class w f _ _ _ _ (window_class f H)) as (E1 & E2 & E3 & E4).
    rewrite E4 in Hst. rewrite E3 in Hcr2, Hex2. cbn [app] in Hst. clear E1 E2 E3 E4.
    apply list.Forall_cons in Hgr2 as [Hpos Hgr2]. specialize (Hpos H).
    pose proof (grants_nonneg w Hgr2).
    assert (Hcap : c + Frame_Window f <= window) by lia.
    assert (Hon : on = true) by (destruct on; [done|]; by destruct (Hid2 eq_refl)).
    rewrite Z.min_r by lia. subst on. apply list.Forall_cons in Hop as [_ Hop].
    split; split; flow_norm; try done; try lia; try (by exists lost); try (by exists lost2).
    intros Hl Hu Hr. specialize (Hex2 Hl Hu Hr). lia.
  - (* queue *)
    apply list.Forall_cons in Hop as [Hof Hop].
    assert (Hcons : stream (f :: w) = f :: stream w /\ grants (f :: w) = grants w).
    { cbn. by rewrite H. }
    destruct Hcons as [E1 E2]. rewrite E1 in Hst. rewrite E2 in Hcr2, Hex2.
    apply list.Forall_cons in Hgr2 as [_ Hgr2]. rewrite (Hlost eq_refl) in Hst.
    split; split; flow_norm; try done; try lia; try (by exists lost2).
    + exists []. split_and!; [|done|done]. rewrite Hst. by rewrite <- !app_assoc.
    + split; [|done]. apply Forall_app. split; [done|]. by repeat constructor.
  - (* dropped *)
    apply list.Forall_cons in Hop as [Hof Hop]. apply list.Forall_cons in Hgr2 as [Hpos Hgr2].
    assert (Hgrants : grants w <= grants (f :: w)).
    { cbn. destruct (is_window f); [specialize (Hpos eq_refl)|]; lia. }
    pose proof (grants_nonneg w Hgr2).
    split; split; flow_norm; try done; try lia; try (by exists lost2).
    exists (if is_window f then lost else lost ++ [f]). split_and!; [|done|done].
    rewrite Hst. cbn [stream]. destruct (is_window f); [done|]. by rewrite <- !app_assoc.
Qed.

Lemma flow_init_inv o p : flow_init o p -> flow_inv p.
Proof.
  intros (Ho & u & v & ->). pose proof (open_class o Ho) as (Ed & Ew & _ & Ec).
  split; split; cbn; rewrite ?Ed, ?Ec, ?Ew; try done; try lia.
  - by exists [].
  - split; [constructor|]. intros _. exists o, []. by repeat constructor.
  - by exists [].
  - repeat constructor. congruence.
  - split; constructor.
Qed.

Lemma wire_on s r f w : direction s r -> e_wire s = f :: w -> e_on s = true.
Proof. intros Hd Hw. destruct (e_on s) eqn:E; [done|]. apply (d_idle _ _ Hd) in E as (_ & _ & E & _). congruence. Qed.

Lemma flow_inv_step p p' : flow_inv p -> flow_step p p' -> flow_inv p'.
Proof.
  intros [H1 H2] Hs. destruct Hs as [x x' y Hon Ha|x y y' Hon Ha|x y y' f w Hw Hr|x y x' f w Hw Hr];
    cbn [fst snd] in *.
  - split; cbn; [by eapply direction_sender|by eapply direction_receiver].
  - split; cbn; [by eapply direction_receiver|by eapply direction_sender].
  - by eapply direction_deliver; [eapply wire_on| | | |].
  - destruct (direction_deliver y x x' f w); try done. by eapply wire_on.
Qed.

(** ** What the invariant gives *)

Lemma count_split l :
  queue_ok l ->
  Z.of_nat (length l) = count is_data l + count is_ctl l.
Proof.
  induction 1 as [|f l [Ho Hw] _ IH]; [done|]. cbn [length count]. unfold is_ctl at 1.
  rewrite Ho, Hw. destruct (is_data f); cbn; lia.
Qed.

Lemma stream_no_window l : Forall (fun f => is_window f = false) (stream l).
Proof. induction l as [|f l IH]; cbn; [done|]. destruct (is_window f) eqn:E; by try constructor. Qed.

(** At most a window of data frames, and the slack of control frames, are
    queued or on the wire. *)
Lemma direction_outstanding s r :
  direction s r ->
  count is_data (e_queue r) + count is_data (stream (e_wire s)) <= window /\
  count is_ctl (e_queue r) + count is_ctl (stream (e_wire s)) <= slack.
Proof.
  intros [(lost & Hst & _) Hcr _ Hac [Hb Hb'] Hgr Hct _ _]. rewrite Hst, !count_app in *.
  pose proof (grants_nonneg _ Hgr).
  pose proof (count_nonneg is_data lost). pose proof (count_nonneg is_ctl lost).
  pose proof (count_nonneg is_ctl (e_got r)). lia.
Qed.

(** A queue is never full when a frame arrives for it. *)
Lemma direction_room s r f w :
  direction s r -> e_on r = true -> e_wire s = f :: w -> is_window f = false ->
  Z.of_nat (length (e_queue r)) < window + slack.
Proof.
  intros Hd Hon Hw Hf. destruct (direction_outstanding s r Hd) as [Hda Hcl].
  destruct (d_opens _ _ Hd) as [Hq Hop]. rewrite (count_split _ Hq). rewrite Hon, Hw in Hop.
  apply list.Forall_cons in Hop as [Hof _]. rewrite Hw in Hda, Hcl. cbn [stream] in Hda, Hcl.
  rewrite Hf in Hda, Hcl. cbn [count] in Hda, Hcl. unfold is_ctl in Hcl at 2.
  rewrite Hf, Hof in Hcl. pose proof (count_nonneg is_data (stream w)).
  pose proof (count_nonneg is_ctl (stream w)). destruct (is_data f); cbn in *; lia.
Qed.

(** No deadlock: unless something is underway that will bring credit back, a
    sender on a working session has credit for more than half a window. *)
Lemma direction_progress s r :
  direction s r -> e_live s = true -> e_live r = true -> e_up s = true -> e_up r = true ->
  window - ackThreshold < e_credit s \/
  0 < count is_data (e_wire s) \/ 0 < count is_data (e_queue r) \/
  e_acked r < count is_data (e_got r) \/ 0 < grants (e_wire r).
Proof.
  intros [(lost & Hst & Hlost & _) _ Hex Hac [Hb Hb'] Hgr _ _ _] Hls Hlr Hus Hur.
  specialize (Hex Hls Hus Hur). rewrite Hst, (Hlost Hlr), !count_app, count_stream in Hex. cbn in Hex.
  pose proof (grants_nonneg _ Hgr). pose proof (count_nonneg is_data (e_wire s)).
  pose proof (count_nonneg is_data (e_queue r)). lia.
Qed.
