(* ===== verification/FlowControl.v ===== *)
(** * A session between two links

    One session of the data tunnel, end to end: the real operations of
    [internal/datatunnel] ([Link], [TunnelEnvelope]) on two links joined by
    their connections, with arbitrary activity of the other sessions around
    it.  The system is shown to be an instance of [FlowSpec], and the promises
    of the flow control follow. *)
From S2P Require Import Prelude GoString GoStd Msgpack TunnelEnvelope Link FlowSpec.

#[local] Open Scope Z_scope.
#[local] Set Default Proof Using "Type*".

(** One end: its link, the session object once there is one, and what it has
    sent, taken from the queue and acknowledged so far. *)
Record Side := mkSide {
  s_link : Link;
  s_ref : option ref;
  s_sent : list Frame;
  s_got : list Frame;
  s_acked : Z
}.

(** The frame literals of [Session.Close], [CloseWithError], [CloseWithCode]. *)
Inductive closing : (string -> Frame) -> Prop :=
| closing_code code text : closing (fun id => closeFrame id code text)
| closing_error message : closing (fun id => errorFrame id message).

Section System.
Context {MF : Msgpack Frame} {ML : MsgpackLaws Frame}.
Context (id : string) (id_ident : ident id).

(** What happens on a link for the sake of other sessions. *)
Definition others (l l' : Link) : Prop :=
  link_wf l ->
  link_wf l' /\ Link_sessions l' !! id = Link_sessions l !! id /\
  (forall r s, Link_store l !! r = Some s -> Session_id s = id -> Link_store l' !! r = Some s) /\
  Link_open l' = Link_open l /\ wire id l' = wire id l.

Lemma touches_others id' l l' : id' <> id -> touches id' l l' -> others l l'.
Proof using Type.
  intros Hne Ht Hl. destruct (Ht Hl) as (Hl' & [Hs1 Hs2 Ho] & Hw).
  split_and!; [done|by apply Hs1| |done|by apply Hw].
  intros r s Hr Hi. apply Hs2; [done|congruence].
Qed.

Lemma others_refl l : others l l.
Proof. by intros Hl. Qed.

Definition sent_if {E A} (e : res E A) (f : Frame) (sent : list Frame) : list Frame :=
  if is_ok e then sent ++ [f] else sent.

(** One end acts.  Its user acknowledges data it has taken, and sends at most
    [recvSlack] frames that are not data. *)
Inductive side_step : Side -> Side -> Prop :=
| sd_data l l' r b kind payload sent got acked res :
    kind = DataBinary \/ kind = DataText ->
    SendData b r kind payload l = (l', res) ->
    side_step (mkSide l (Some r) sent got acked)
      (mkSide l' (Some r)
         (match res with Returned e => sent_if e (dataFrame id kind payload) sent | Blocked => sent end)
         got acked)
| sd_eof l r sent got acked :
    count is_ctl sent < slack ->
    side_step (mkSide l (Some r) sent got acked)
      (mkSide (SendEOF r l).1 (Some r) (sent_if (SendEOF r l).2 (eofFrame id) sent) got acked)
| sd_close l r frame sent got acked :
    closing frame -> count is_ctl sent < slack ->
    side_step (mkSide l (Some r) sent got acked)
      (mkSide (closeWith frame r l) (Some r)
         (sent_if (WriteFrame (frame id) l).2 (frame id) sent) got acked)
| sd_recv l l' r f sent got acked :
    Recv r l = Some (f, l') ->
    side_step (mkSide l (Some r) sent got acked) (mkSide l' (Some r) sent (got ++ [f]) acked)
| sd_ack l r sent got acked :
    acked < count is_data got ->
    side_step (mkSide l (Some r) sent got acked)
      (mkSide (AckData r l) (Some r) sent got (acked + 1))
| sd_other l l' ro sent got acked :
    others l l' -> side_step (mkSide l ro sent got acked) (mkSide l' ro sent got acked)
| sd_claim l r sent got acked :
    side_step (mkSide l (Some r) sent got acked) (mkSide (TryClaim r l).1 (Some r) sent got acked)
| sd_down l r sent got acked :
    side_step (mkSide l (Some r) sent got acked) (mkSide (Close l) (Some r) sent got acked).

(** ** Abstraction *)

Definition abs (x : Side) : End :=
  match s_ref x ≫= fun r => Link_store (s_link x) !! r with
  | Some s => mkEnd true (negb (Session_done s)) (Link_open (s_link x))
      (Z.of_nat (Session_credit s)) (Session_recv s) (Session_consumed s)
      (s_acked x) (s_got x) (s_sent x) (wire id (s_link x))
  | None => mkEnd false false (Link_open (s_link x)) window [] 0
      (s_acked x) (s_got x) (s_sent x) (wire id (s_link x))
  end.

(** The session's object is this id's, and once it is done no other is
    registered under the id. *)
Record side_ok (x : Side) : Prop := {
  ok_wf : link_wf (s_link x);
  ok_ref : match s_ref x with
    | None => Link_sessions (s_link x) !! id = None
    | Some r => exists s, Link_store (s_link x) !! r = Some s /\ Session_id s = id /\
        (Session_done s = true -> Link_sessions (s_link x) !! id = None)
    end
}.

Lemma abs_at l r s sent got acked :
  Link_store l !! r = Some s ->
  abs (mkSide l (Some r) sent got acked) =
  mkEnd true (negb (Session_done s)) (Link_open l) (Z.of_nat (Session_credit s))
    (Session_recv s) (Session_consumed s) acked got sent (wire id l).
Proof. intros Hs. unfold abs. cbn. by rewrite Hs. Qed.

(** The common shape of the operations: a frame is written and the object
    updated. *)
Lemma write_update f r s frame l :
  Link_store l !! r = Some s -> Frame_SessionID frame = id ->
  let l' := on_session r f (WriteFrame frame l).1 in
  Link_store l' !! r = Some (f s) /\ Link_open l' = Link_open l /\
  Link_sessions l' = Link_sessions l /\
  wire id l' = wire id l ++ (if is_ok (WriteFrame frame l).2 then [frame] else []).
Proof.
  intros Hs Hid. cbn zeta. split_and!.
  - cbn. rewrite lookup_alter_eq, (proj1 (WriteFrame_store _ _)). by rewrite Hs.
  - cbn. destruct (WriteFrame frame l) as [l1 e] eqn:E.
    by apply WriteFrame_cases in E as [(data & _ & _ & _ & ->)|[-> _]].
  - cbn. apply WriteFrame_store.
  - change (wire id (WriteFrame frame l).1 = wire id l ++ (if is_ok (WriteFrame frame l).2 then [frame] else [])).
    rewrite WriteFrame_wire, Hid, String.eqb_refl. by rewrite andb_true_r.
Qed.

Lemma WriteFrame_fails frame l :
  frame_wf frame -> is_ok (WriteFrame frame l).2 = false -> Link_open l = false.
Proof.
  intros Hf. destruct (Link_open l) eqn:Ho; [|done]. by rewrite (WriteFrame_ok frame l Hf Ho).
Qed.

(** A step of one end, seen abstractly: nothing, or an action of an end that
    has its session. *)
Definition simulates (x x' : Side) : Prop :=
  side_ok x' /\ (abs x' = abs x \/ e_on (abs x) = true /\ act (abs x) (abs x')).

Lemma side_ok_update l l' r s s' sent got acked sent' got' acked' :
  side_ok (mkSide l (Some r) sent got acked) -> Link_store l !! r = Some s ->
  link_wf l' -> Link_store l' !! r = Some s' ->
  Session_id s' = Session_id s -> Session_done s' = Session_done s ->
  Link_sessions l' = Link_sessions l ->
  side_ok (mkSide l' (Some r) sent' got' acked').
Proof.
  intros [_ (s0 & Hs0 & Hi & Hd)] Hs Hwf Hs' Hid Hdone Hse. cbn in *.
  assert (s0 = s) as -> by congruence. split; [done|]. exists s'. cbn.
  rewrite Hse, Hid, Hdone. done.
Qed.

Lemma data_sim l l' r b kind payload sent got acked res :
  kind = DataBinary \/ kind = DataText ->
  SendData b r kind payload l = (l', res) ->
  side_ok (mkSide l (Some r) sent got acked) ->
  simulates (mkSide l (Some r) sent got acked)
    (mkSide l' (Some r)
       (match res with Returned e => sent_if e (dataFrame id kind payload) sent | Blocked => sent end)
       got acked).
Proof.
  intros Hk Hsend Hok. destruct (ok_ref _ Hok) as (s & Hs & Hi & Hd). cbn in Hs.
  pose proof (SendData_touches b r s kind payload l Hs (ok_wf _ Hok)) as (Hwf & _).
  rewrite Hsend in Hwf. cbn in Hwf. revert Hsend. unfold SendData. rewrite Hs.
  destruct (_ && _) eqn:Hcr; [|destruct (Session_done s); intros [= <- <-]; (split; [done|by left])].
  rewrite WriteFrame_on_session, Hi. intros [= <- <-].
  destruct (write_update (set_credit (Session_credit s - 1)) r s (dataFrame id kind payload) l Hs eq_refl)
    as (Hs' & Ho & Hse & Hw).
  split; [by eapply side_ok_update|]. right.
  rewrite (abs_at _ _ _ _ _ _ Hs), (abs_at _ _ _ _ _ _ Hs'). split; [done|].
  rewrite Ho, Hw. cbn. bsimpl. apply Nat.ltb_lt in H.
  replace (Z.of_nat (Session_credit s - 1)) with (Z.of_nat (Session_credit s) - 1) by lia.
  unfold sent_if. destruct (is_ok _) eqn:Hwok.
  - apply a_data; [done|lia].
  - rewrite app_nil_r. apply WriteFrame_fails in Hwok; [|by apply dataFrame_wf].
    rewrite Hwok. apply a_data_lost. lia.
Qed.

Lemma eof_sim l r sent got acked :
  count is_ctl sent < slack ->
  side_ok (mkSide l (Some r) sent got acked) ->
  simulates (mkSide l (Some r) sent got acked)
    (mkSide (SendEOF r l).1 (Some r) (sent_if (SendEOF r l).2 (eofFrame id) sent) got acked).
Proof.
  intros Hc Hok. destruct (ok_ref _ Hok) as (s & Hs & Hi & Hd). cbn in Hs.
  pose proof (session_op_touches _ _ _ (op_eof r s l Hs) (ok_wf _ Hok)) as (Hwf & _).
  revert Hwf. unfold SendEOF. rewrite Hs, Hi. intros Hwf.
  destruct (write_update (fun s => s) r s (eofFrame id) l Hs eq_refl) as (_ & Ho & Hse & Hw).
  change (wire id (on_session r (fun s => s) ?l)) with (wire id l) in Hw. cbn in Ho, Hse.
  assert (Hs' : Link_store (WriteFrame (eofFrame id) l).1 !! r = Some s)
    by by rewrite (proj1 (WriteFrame_store _ _)).
  split; [by eapply side_ok_update|]. right.
  rewrite (abs_at _ _ _ _ _ _ Hs), (abs_at _ _ _ _ _ _ Hs'). split; [done|].
  rewrite Ho, Hw. unfold sent_if. destruct (is_ok _).
  - by apply a_ctl.
  - rewrite app_nil_r. by apply a_ctl_lost.
Qed.

Lemma closing_frame frame i :
  closing frame -> Frame_SessionID (frame i) = i /\ is_ctl (frame i) = true.
Proof. by destruct 1. Qed.

Lemma removeSession_open i l : Link_open (removeSession i l) = Link_open l.
Proof. unfold removeSession. by destruct (_ !! i). Qed.

Lemma close_sim l r frame sent got acked :
  closing frame -> count is_ctl sent < slack ->
  side_ok (mkSide l (Some r) sent got acked) ->
  simulates (mkSide l (Some r) sent got acked)
    (mkSide (closeWith frame r l) (Some r)
       (sent_if (WriteFrame (frame id) l).2 (frame id) sent) got acked).
Proof.
  intros Hcl Hc Hok. destruct (ok_ref _ Hok) as (s & Hs & Hi & Hd). cbn in Hs.
  destruct (closing_frame frame id Hcl) as [Hfi Hctl].
  pose proof (WriteFrame_wf (frame id) l (ok_wf _ Hok)) as Hwf1.
  destruct (write_update (fun s => s) r s (frame id) l Hs Hfi) as (_ & Ho & Hse & Hw).
  change (wire id (on_session r (fun s => s) ?l)) with (wire id l) in Hw. cbn in Ho, Hse.
  assert (Hs1 : Link_store (WriteFrame (frame id) l).1 !! r = Some s)
    by by rewrite (proj1 (WriteFrame_store _ _)).
  assert (closeWith frame r l = removeSession id (WriteFrame (frame id) l).1) as ->.
  { unfold closeWith. rewrite Hs, Hi. by destruct (WriteFrame _ l). }
  pose proof (remove_done r s _ Hwf1 Hs1) as Hs'. rewrite Hi in Hs'. split.
  { split; [by apply removeSession_wf|]. exists (set_done s). split_and!; [done|done|].
    intros _. apply removeSession_gone. }
  right. rewrite (abs_at _ _ _ _ _ _ Hs), (abs_at _ _ _ _ _ _ Hs'). split; [done|].
  rewrite removeSession_open, removeSession_wire, Ho, Hw. unfold sent_if. destruct (is_ok _).
  - by apply a_ctl.
  - rewrite app_nil_r. by apply a_ctl_lost.
Qed.

Lemma recv_sim l l' r f sent got acked :
  Recv r l = Some (f, l') ->
  side_ok (mkSide l (Some r) sent got acked) ->
  simulates (mkSide l (Some r) sent got acked) (mkSide l' (Some r) sent (got ++ [f]) acked).
Proof.
  intros Hrecv Hok. destruct (ok_ref _ Hok) as (s & Hs & Hi & Hd). cbn in Hs.
  pose proof (session_op_touches _ _ _ (op_recv r s f l l' Hs Hrecv) (ok_wf _ Hok)) as (Hwf & _).
  unfold Recv in Hrecv. rewrite Hs in Hrecv.
  destruct (Session_recv s) as [|f' q] eqn:Hq; [done|]. injection Hrecv as -> <-.
  assert (Hs' : Link_store (on_session r (set_recv q) l) !! r = Some (set_recv q s))
    by (cbn; by rewrite lookup_alter_eq, Hs).
  split; [by eapply side_ok_update|]. right.
  rewrite (abs_at _ _ _ _ _ _ Hs), (abs_at _ _ _ _ _ _ Hs'). split; [done|].
  rewrite Hq. apply a_recv.
Qed.

Lemma ack_sim l r sent got acked :
  acked < count is_data got ->
  side_ok (mkSide l (Some r) sent got acked) ->
  simulates (mkSide l (Some r) sent got acked) (mkSide (AckData r l) (Some r) sent got (acked + 1)).
Proof.
  intros Ha Hok. destruct (ok_ref _ Hok) as (s & Hs & Hi & Hd). cbn in Hs.
  pose proof (AckData_touches r s l Hs (ok_wf _ Hok)) as (Hwf & _).
  pose proof (wf_consumed _ (proj1 (wf_stored _ (ok_wf _ Hok) r s Hs))) as Hc.
  rewrite (AckData_eq r s l Hs) in *.
  destruct (Z.leb_spec ackThreshold (Session_consumed s + 1)) as [Hge|Hlt].
  - destruct (write_update (set_consumed 0) r s (windowFrame (Session_id s) (Session_consumed s + 1)) l Hs Hi)
      as (Hs' & Ho & Hse & Hw).
    split; [by eapply side_ok_update|]. right.
    rewrite (abs_at _ _ _ _ _ _ Hs), (abs_at _ _ _ _ _ _ Hs'). split; [done|].
    rewrite Ho, Hw. destruct (is_ok _) eqn:Hwok.
    + by apply a_ack_grant.
    + rewrite app_nil_r. apply WriteFrame_fails in Hwok; [|apply windowFrame_wf; [by rewrite Hi|lia]].
      rewrite Hwok. by apply a_ack_lost.
  - assert (Hs' : Link_store (on_session r (set_consumed (Session_consumed s + 1)) l) !! r =
      Some (set_consumed (Session_consumed s + 1) s)) by (cbn; by rewrite lookup_alter_eq, Hs).
    split; [by eapply side_ok_update|]. right.
    rewrite (abs_at _ _ _ _ _ _ Hs), (abs_at _ _ _ _ _ _ Hs'). split; [done|].
    apply a_ack_count; [done|lia].
Qed.

(** Other sessions' activity is invisible. *)
Lemma other_side l l' ro sent got acked :
  others l l' -> side_ok (mkSide l ro sent got acked) ->
  side_ok (mkSide l' ro sent got acked) /\
  abs (mkSide l' ro sent got acked) = abs (mkSide l ro sent got acked).
Proof.
  intros Ho [Hwf Href]. cbn in *. destruct (Ho Hwf) as (Hwf' & Hse & Hst & Hop & Hwi).
  destruct ro as [r|].
  - destruct Href as (s & Hs & Hi & Hd). pose proof (Hst r s Hs Hi) as Hs'. split.
    + split; [done|]. exists s. cbn. by rewrite Hse.
    + rewrite (abs_at _ _ _ _ _ _ Hs), (abs_at _ _ _ _ _ _ Hs'). by rewrite Hop, Hwi.
  - split; [split; [done|by cbn; rewrite Hse]|]. unfold abs. cbn. by rewrite Hop, Hwi.
Qed.

Lemma claim_sim l r sent got acked :
  side_ok (mkSide l (Some r) sent got acked) ->
  simulates (mkSide l (Some r) sent got acked) (mkSide (TryClaim r l).1 (Some r) sent got acked).
Proof.
  intros Hok. destruct (ok_ref _ Hok) as (s & Hs & Hi & Hd). cbn in Hs.
  pose proof (session_op_touches _ _ _ (op_claim r s l Hs) (ok_wf _ Hok)) as (Hwf & _).
  unfold TryClaim in *. rewrite Hs in *. cbn [fst] in *.
  assert (Hs' : Link_store (on_session r set_claimed l) !! r = Some (set_claimed s)) by (cbn; by rewrite lookup_alter_eq, Hs).
  split; [by eapply side_ok_update|]. left. by rewrite (abs_at _ _ _ _ _ _ Hs), (abs_at _ _ _ _ _ _ Hs').
Qed.

Lemma down_sim l r sent got acked :
  side_ok (mkSide l (Some r) sent got acked) ->
  simulates (mkSide l (Some r) sent got acked) (mkSide (Close l) (Some r) sent got acked).
Proof.
  intros Hok. destruct (ok_ref _ Hok) as (s & Hs & Hi & Hd). cbn in Hs.
  destruct (Close_fields l) as (Hse & Ho & Hout & _).
  assert (Hs' : Link_store (Close l) !! r = Some (set_done s)).
  { rewrite Close_store, Hs. case_bool_decide as Hin; [done|].
    destruct (Session_done s) eqn:Hdone; [by destruct s; cbn in *; subst|].
    destruct Hin. eapply registered_ref. by apply (wf_stored _ (ok_wf _ Hok) _ _ Hs). }
  split.
  - split; [apply Close_wf, Hok|]. exists (set_done s). cbn. by rewrite Hse.
  - right. rewrite (abs_at _ _ _ _ _ _ Hs), (abs_at _ _ _ _ _ _ Hs'). split; [done|].
    unfold wire. rewrite Ho, Hout. apply a_down.
Qed.

Lemma side_sim x x' : side_step x x' -> side_ok x -> simulates x x'.
Proof.
  destruct 1; intros Hok.
  - by eapply data_sim.
  - by apply eof_sim.
  - by apply close_sim.
  - by eapply recv_sim.
  - by apply ack_sim.
  - destruct (other_side l l' ro sent got acked H Hok) as [H1 H2].
    split; [done|by left].
  - by apply claim_sim.
  - by apply down_sim.
Qed.

(** ** The two links *)

(** What the callback of the accepting link promises of one session: its open
    frame [o] registers it, and what it does for other sessions is invisible
    to this one. *)
Class Acceptor (o : Frame) (onOpen : Frame -> Link -> Link) : Prop := {
  acc_id : Frame_SessionID o = id;
  acc_type : Frame_Type o = FrameOpen;
  acc_mine : forall l, Link_sessions l !! id = None -> onOpen o l = (Accept id l).1;
  acc_others : forall f l, Frame_SessionID f <> id -> others l (onOpen f l)
}.

Context (o : Frame) (onOpen : Frame -> Link -> Link) {ACC : Acceptor o onOpen}.

(** The read loop of the other end takes one message. *)
Definition receive (drop : bool) (data : string) (y : Side) : Side :=
  let l' := Run_message (Some onOpen) drop true data (s_link y) in
  match frame_of id data, s_ref y with
  | Some f, None => mkSide l' (Link_sessions l' !! id) (s_sent y) (s_got y ++ [f]) (s_acked y)
  | _, _ => mkSide l' (s_ref y) (s_sent y) (s_got y) (s_acked y)
  end.

Definition take (rest : list string) (x : Side) : Side :=
  mkSide (set_out rest (s_link x)) (s_ref x) (s_sent x) (s_got x) (s_acked x).

Inductive sys_step : Side * Side -> Side * Side -> Prop :=
| sys_left x x' y : side_step x x' -> sys_step (x, y) (x', y)
| sys_right x y y' : side_step y y' -> sys_step (x, y) (x, y')
| sys_to_right x y drop data rest :
    Link_out (s_link x) = data :: rest ->
    sys_step (x, y) (take rest x, receive drop data y)
| sys_to_left x y drop data rest :
    Link_out (s_link y) = data :: rest ->
    sys_step (x, y) (receive drop data x, take rest y).

(** The initiator has just called [Open]; the other link has not seen the
    session. *)
Definition sys_init (p : Side * Side) : Prop :=
  exists l1 l2 r l1',
    link_wf l1 /\ link_wf l2 /\ wire id l1 = [] /\ wire id l2 = [] /\ Link_sessions l2 !! id = None /\
    Open o l1 = (l1', Ok r) /\
    p = (mkSide l1' (Some r) [o] [] 0, mkSide l2 None [] [] 0).

(** ** Deliveries *)

Lemma take_side data rest x :
  Link_out (s_link x) = data :: rest -> side_ok x ->
  side_ok (take rest x) /\
  match frame_of id data with
  | Some f => e_wire (abs x) = f :: e_wire (abs (take rest x))
  | None => e_wire (abs x) = e_wire (abs (take rest x))
  end /\ abs (take rest x) = set_wire (e_wire (abs (take rest x))) (abs x).
Proof using Type.
  intros Hout [Hwf Href]. split; [split; [by apply link_wf_out|done]|].
  assert (Hw : wire id (s_link x) = omap (frame_of id) (data :: rest)) by (unfold wire; by rewrite Hout).
  unfold abs, take in *. cbn [s_link s_ref s_sent s_got s_acked Link_store set_out] in *.
  destruct (s_ref x ≫= _); cbn [e_wire e_on e_live e_up e_credit e_queue e_consumed e_acked e_got e_sent set_wire];
    rewrite Hw; cbn; (destruct (frame_of id data); done).
Qed.

Lemma set_wire_self e : set_wire (e_wire e) e = e.
Proof. by destruct e. Qed.

(** A message that is not of this session. *)
Lemma receive_other drop data y :
  frame_of id data = None -> side_ok y ->
  side_ok (receive drop data y) /\ abs (receive drop data y) = abs y.
Proof.
  intros Hf Hok. unfold receive. rewrite Hf.
  destruct y as [l ro sent got acked]. cbn [s_link s_ref s_sent s_got s_acked].
  replace (match ro with Some _ | None => _ end) with
    (mkSide (Run_message (Some onOpen) drop true data l) ro sent got acked) by by destruct ro.
  apply other_side; [|done]. unfold Run_message, frame_of in *. cbn [negb].
  destruct (DecodeFrame data) as [f|]; [|by apply others_refl].
  destruct (String.eqb_spec (Frame_SessionID f) id) as [|Hne]; [done|].
  destruct (String.eqb _ _); [by apply acc_others|].
  eapply touches_others; [|apply dispatch_touches]. done.
Qed.

(** The open frame reaches the accepting link. *)
Lemma receive_open drop data f y :
  frame_of id data = Some f -> f = o -> s_ref y = None -> side_ok y ->
  s_got y = [] -> s_sent y = [] -> s_acked y = 0 -> wire id (s_link y) = [] ->
  side_ok (receive drop data y) /\
  react f (abs y) (abs (receive drop data y)).
Proof.
  intros Hf -> Href [Hwf Hreg] Hg Hs Ha Hw. unfold receive. rewrite Hf, Href.
  rewrite Href in Hreg. destruct y as [l ro sent got acked].
  cbn [s_link s_ref s_sent s_got s_acked] in *. subst.
  assert (Hl' : Run_message (Some onOpen) drop true data l = (Accept id l).1).
  { unfold Run_message, frame_of in *. cbn [negb]. destruct (DecodeFrame data) as [f'|]; [|done].
    destruct (String.eqb_spec (Frame_SessionID f') id) as [Hid|]; [|done]. injection Hf as ->.
    rewrite acc_type, String.eqb_refl. by apply acc_mine. }
  rewrite Hl'. pose proof (addSession_wf id l Hwf) as Hwf'.
  unfold Accept, addSession in Hwf' |- *. rewrite Hreg in Hwf' |- *. cbn [fst] in Hwf' |- *.
  set (l2 := mkLink _ _ _ _ _) in *.
  assert (Hse : Link_sessions l2 !! id = Some (Link_next l)) by apply lookup_insert_eq.
  assert (Hst : Link_store l2 !! Link_next l = Some (newSession id)) by apply lookup_insert_eq.
  rewrite Hse. split.
  - split; [done|]. by exists (newSession id).
  - rewrite (abs_at _ _ _ _ _ _ Hst). unfold abs. cbn. unfold wire in *. cbn. rewrite Hw.
    apply r_accept. unfold is_open. by rewrite acc_type.
Qed.

Lemma run_mine drop data f l :
  frame_of id data = Some f -> is_open f = false ->
  Run_message (Some onOpen) drop true data l = dispatch drop f l /\ Frame_SessionID f = id.
Proof.
  unfold frame_of, Run_message, is_open. cbn [negb]. destruct (DecodeFrame data) as [f'|]; [|done].
  destruct (String.eqb_spec (Frame_SessionID f') id) as [Hid|]; [|done]. intros [= ->] Ho.
  by rewrite Ho.
Qed.

Lemma dispatch_queues drop f l r s :
  link_wf l -> Link_store l !! r = Some s -> Session_id s = Frame_SessionID f ->
  Session_done s = false -> is_window f = false -> (length (Session_recv s) < recvCap)%nat ->
  dispatch drop f l = on_session r (set_recv (Session_recv s ++ [f])) l.
Proof.
  intros Hl Hs Hi Hd Hw Hlt. unfold dispatch.
  destruct (wf_stored _ Hl r s Hs) as (_ & _ & Hreg). specialize (Hreg Hd).
  rewrite Hi in Hreg. rewrite Hreg. unfold deliver. unfold is_window in Hw.
  by rewrite Hw, Hs, Hd, (proj2 (Nat.ltb_lt _ _) Hlt).
Qed.

(** A frame of the session reaches an end that has it. *)
Lemma receive_frame drop data f y r :
  frame_of id data = Some f -> is_open f = false -> s_ref y = Some r -> side_ok y ->
  (is_window f = true -> 0 < Frame_Window f) ->
  (is_window f = false -> Z.of_nat (length (e_queue (abs y))) < window + slack) ->
  side_ok (receive drop data y) /\ react f (abs y) (abs (receive drop data y)).
Proof.
  intros Hf Ho Href Hok Hpos Hroom. destruct y as [l ro sent got acked].
  cbn in Href. subst ro. destruct (ok_ref _ Hok) as (s & Hs & Hi & Hd).
  cbn in Hs, Hd. rewrite (abs_at _ _ _ _ _ _ Hs) in *. cbn [e_queue] in Hroom.
  destruct (run_mine drop data f l Hf Ho) as [Hrun Hid].
  assert (receive drop data (mkSide l (Some r) sent got acked) =
    mkSide (dispatch drop f l) (Some r) sent got acked) as ->
    by (unfold receive; rewrite Hf; cbn [s_link s_ref s_sent s_got s_acked]; by rewrite Hrun).
  pose proof (dispatch_touches drop f l (ok_wf _ Hok)) as (Hwf & _). revert Hwf.
  unfold dispatch. rewrite Hid. destruct (Session_done s) eqn:Hdone.
  { rewrite (Hd eq_refl). intros _. split; [done|]. rewrite (abs_at _ _ _ _ _ _ Hs), Hdone. apply r_drop. }
  destruct (wf_stored _ (ok_wf _ Hok) r s Hs) as (Hswf & _ & Hreg). cbn in Hreg.
  specialize (Hreg Hdone). rewrite Hi in Hreg. rewrite Hreg.
  destruct (is_window f) eqn:Hty.
  - unfold deliver. unfold is_window in Hty. rewrite Hty. intros Hwf.
    assert (Hs' : Link_store (on_session r (addSendCredit (Frame_Window f)) l) !! r =
      Some (addSendCredit (Frame_Window f) s)) by (cbn; by rewrite lookup_alter_eq, Hs).
    split; [by eapply side_ok_update|]. rewrite (abs_at _ _ _ _ _ _ Hs'). cbn.
    rewrite Hdone, creditLoop_spec by apply Hswf. specialize (Hpos eq_refl).
    replace (Z.of_nat (Nat.min sendWindow (Session_credit s + Z.to_nat (Frame_Window f)))) with
      (Z.min window (Z.of_nat (Session_credit s) + Frame_Window f)) by (unfold window; lia).
    by apply r_window.
  - specialize (Hroom eq_refl).
    pose proof (dispatch_queues drop f l r s (ok_wf _ Hok) Hs) as Hq.
    unfold dispatch in Hq. rewrite Hid, Hreg in Hq.
    rewrite Hq by (done || (unfold window, slack, recvCap in *; lia)). intros Hwf.
    assert (Hs' : Link_store (on_session r (set_recv (Session_recv s ++ [f])) l) !! r =
      Some (set_recv (Session_recv s ++ [f]) s)) by (cbn; by rewrite lookup_alter_eq, Hs).
    split; [by eapply side_ok_update|]. rewrite (abs_at _ _ _ _ _ _ Hs'). cbn.
    rewrite Hdone. by apply r_queue.
Qed.

(** ** The refinement *)

Lemma abs_wire x : e_wire (abs x) = wire id (s_link x).
Proof using Type. unfold abs. by destruct (s_ref x ≫= _). Qed.
Lemma abs_got x : e_got (abs x) = s_got x.
Proof using Type. unfold abs. by destruct (s_ref x ≫= _). Qed.
Lemma abs_sent x : e_sent (abs x) = s_sent x.
Proof using Type. unfold abs. by destruct (s_ref x ≫= _). Qed.

(** Concrete states whose abstraction satisfies the abstract invariant. *)
Record sys_inv (p : Side * Side) : Prop := {
  sys_ok1 : side_ok p.1;
  sys_ok2 : side_ok p.2;
  sys_flow : flow_inv (abs p.1, abs p.2);
  sys_opened : exists rest, s_sent p.1 = o :: rest;
  sys_initiator : is_Some (s_ref p.1)
}.

(** An end keeps its session and what it has sent. *)
Definition keeps (x x' : Side) : Prop :=
  (is_Some (s_ref x) -> is_Some (s_ref x')) /\ exists more, s_sent x' = s_sent x ++ more.

Lemma keeps_same x x' : s_ref x' = s_ref x -> s_sent x' = s_sent x -> keeps x x'.
Proof using Type. intros Hr Hs. split; [by rewrite Hr|]. exists []. by rewrite app_nil_r. Qed.

Lemma side_step_keeps x x' : side_step x x' -> keeps x x'.
Proof using Type.
  assert (Hif : forall E A (e : res E A) f sent, exists more, sent_if e f sent = sent ++ more).
  { intros E A e f sent. unfold sent_if. destruct (is_ok e); [by eexists|exists []; by rewrite app_nil_r]. }
  destruct 1; try (by apply keeps_same); (split; [done|]); cbn [s_sent]; try apply Hif.
  destruct res; first [apply Hif|exists []; by rewrite app_nil_r].
Qed.

Lemma receive_keeps drop data y : is_Some (s_ref y) -> keeps y (receive drop data y).
Proof using Type.
  intros [r Hr]. unfold receive. rewrite Hr. destruct (frame_of id data); by apply keeps_same.
Qed.

Lemma keeps_opened x x' :
  keeps x x' -> (exists rest, s_sent x = o :: rest) -> is_Some (s_ref x) ->
  (exists rest, s_sent x' = o :: rest) /\ is_Some (s_ref x').
Proof using Type.
  intros [Hr [more Hm]] [rest Hs] Href. split; [|by apply Hr]. exists (rest ++ more). by rewrite Hm, Hs.
Qed.

Lemma deliver_sim drop data rest x y :
  Link_out (s_link x) = data :: rest -> side_ok x -> side_ok y ->
  direction (abs x) (abs y) -> direction (abs y) (abs x) ->
  (s_ref y = None -> exists rest, s_sent x = o :: rest) ->
  side_ok (take rest x) /\ side_ok (receive drop data y) /\
  ((abs (take rest x), abs (receive drop data y)) = (abs x, abs y) \/
   exists f w, e_wire (abs x) = f :: w /\ abs (take rest x) = set_wire w (abs x) /\
     react f (abs y) (abs (receive drop data y))).
Proof.
  intros Hout Hx Hy Hd1 Hd2 Hopened. destruct (take_side data rest x Hout Hx) as (Hx' & Hw & Ht).
  split; [done|]. destruct (frame_of id data) as [f|] eqn:Hf.
  - pose proof Hd1 as [_ _ _ _ _ _ _ [_ Hop] _]. pose proof (wire_on _ _ _ _ Hd1 Hw) as Hon.
    rewrite Hw in Hop. destruct (s_ref y) as [r|] eqn:Href.
    + assert (Hony : e_on (abs y) = true).
      { pose proof (ok_ref _ Hy) as Hr. rewrite Href in Hr. destruct Hr as (s & Hs & _).
        unfold abs. rewrite Href. cbn. by rewrite Hs. }
      rewrite Hony in Hop. apply list.Forall_cons in Hop as [Ho _].
      destruct (receive_frame drop data f y r Hf Ho Href Hy) as [H1 H2].
      * pose proof (d_grants _ _ Hd2) as Hg. rewrite Hw in Hg. by apply list.Forall_cons in Hg as [Hg _].
      * intros Hnw. by eapply direction_room.
      * split; [done|]. right. by eexists _, _.
    + assert (Hoff : e_on (abs y) = false) by (unfold abs; by rewrite Href).
      rewrite Hoff in Hop. destruct (Hop Hon) as (o' & w' & [= <- <-] & Ho & _).
      destruct (d_idle _ _ Hd2 Hoff) as (_ & Hs0 & Hw0 & _).
      destruct (d_stream _ _ Hd1) as (lost & Hst & _ & Hoff'). pose proof (Hoff' Hoff) as (Hg0 & Hq0 & Hlost0).
      destruct (Hopened eq_refl) as [sent Hsent].
      assert (Hfo : f = o).
      { rewrite abs_sent, Hg0, Hq0, Hlost0, Hw, Hsent in Hst. cbn in Hst. unfold stream in Hst. cbn in Hst.
        destruct (is_window f) eqn:Ew; [|by injection Hst].
        unfold is_open, is_window in *. apply String.eqb_eq in Ho, Ew. by rewrite Ho in Ew. }
      pose proof (d_acked _ _ Hd1) as Ha0. rewrite Hg0 in Ha0. cbn in Ha0.
      unfold abs in Hs0, Hw0, Hg0, Ha0. rewrite Href in Hs0, Hw0, Hg0, Ha0. cbn in Hs0, Hw0, Hg0, Ha0.
      destruct (receive_open drop data f y Hf Hfo Href Hy) as [H1 H2]; try done; [lia|].
      split; [done|]. right. by eexists _, _.
  - destruct (receive_other drop data y Hf Hy) as [H1 H2]. split; [done|]. left.
    by rewrite H2, Ht, <- Hw, set_wire_self.
Qed.

(** The simulation: every step of the two links is a step of the abstract
    system or none. *)
Lemma sys_simulation p p' :
  sys_inv p -> sys_step p p' ->
  sys_inv p' /\
  ((abs p'.1, abs p'.2) = (abs p.1, abs p.2) \/ flow_step (abs p.1, abs p.2) (abs p'.1, abs p'.2)).
Proof.
  intros [H1 H2 Hf Hopened Href1] Hs.
  cut (keeps p.1 p'.1 /\ side_ok p'.1 /\ side_ok p'.2 /\ ((abs p'.1, abs p'.2) = (abs p.1, abs p.2) \/
    flow_step (abs p.1, abs p.2) (abs p'.1, abs p'.2))).
  { intros (Hk & H1' & H2' & Hor). split; [|done]. destruct (keeps_opened _ _ Hk Hopened Href1).
    split; try done. destruct Hor as [->|Hst]; [done|by eapply flow_inv_step]. }
  destruct Hf as [Hd1 Hd2].
  destruct Hs as [x x' y Hst|x y y' Hst|x y drop data rest Hout|x y drop data rest Hout]; cbn in *.
  - split; [by apply side_step_keeps|].
    destruct (side_sim x x' Hst H1) as [Hok [->|[Hon Ha]]]; split_and!; try done; [by left|].
    right. by apply f_left.
  - split; [by apply keeps_same|].
    destruct (side_sim y y' Hst H2) as [Hok [->|[Hon Ha]]]; split_and!; try done; [by left|].
    right. by apply f_right.
  - split; [by apply keeps_same|].
    destruct (deliver_sim drop data rest x y Hout H1 H2 Hd1 Hd2 (fun _ => Hopened)) as (Hx & Hy & [Heq|(f & w & Hw & -> & Hr)]);
      split_and!; try done; [by left|]. right. by eapply f_to_right.
  - split; [by apply receive_keeps|].
    destruct (deliver_sim drop data rest y x Hout H2 H1 Hd2 Hd1) as (Hx & Hy & [Heq|(f & w & Hw & -> & Hr)]);
      [intros Hn; rewrite Hn in Href1; by destruct Href1|..];
      split_and!; try done; [left; congruence|]. right. by eapply f_to_left.
Qed.

Lemma Open_ok l l' r :
  link_wf l -> Open o l = (l', Ok r) ->
  link_wf l' /\ Link_store l' !! r = Some (newSession id) /\
  (exists up, Link_open l' = up) /\ wire id l' = wire id l ++ [o].
Proof.
  intros Hl Ho. pose proof acc_id as Hid. pose proof (Open_touches o l Hl) as (Hwf & _). rewrite Ho in Hwf. cbn in Hwf.
  split; [done|]. unfold Open, addSession in Ho. rewrite Hid in Ho.
  destruct (Link_sessions l !! id); [done|]. set (l1 := mkLink _ _ _ _ _) in Ho.
  pose proof (WriteFrame_store o l1) as [Hst _]. pose proof (WriteFrame_wire id o l1) as Hw.
  destruct (WriteFrame o l1) as [l2 [[]|e]]; [|done]. injection Ho as <- <-. cbn in *.
  rewrite Hid, String.eqb_refl in Hw. rewrite Hst. split_and!; [apply lookup_insert_eq|by eexists|done].
Qed.

Lemma sys_init_abs p :
  sys_init p -> side_ok p.1 /\ side_ok p.2 /\ flow_init o (abs p.1, abs p.2) /\
    s_sent p.1 = [o] /\ is_Some (s_ref p.1).
Proof.
  intros (l1 & l2 & r & l1' & Hl1 & Hl2 & Hw1 & Hw2 & Hnone & Hopen & ->).
  destruct (Open_ok l1 l1' r Hl1 Hopen) as (Hwf & Hst & _ & Hw). rewrite Hw1 in Hw. cbn in Hw.
  split_and!.
  - split; [done|]. by exists (newSession id).
  - by split.
  - split; [unfold is_open; by rewrite acc_type|]. exists (Link_open l1'), (Link_open l2).
    cbn [fst snd]. rewrite (abs_at _ _ _ _ _ _ Hst). unfold abs. cbn [s_ref s_link s_sent s_got s_acked mbind option_bind].
    by rewrite Hw, Hw2.
  - done.
  - by exists r.
Qed.

Lemma sys_reachable_inv p : reachable sys_step sys_init p -> sys_inv p.
Proof.
  apply reachable_inv.
  - intros q Hq. destruct (sys_init_abs q Hq) as (H1 & H2 & Hf & Hs & Hr).
    split; [done..|by eapply flow_init_inv|by exists []|done].
  - intros q q' Hq Hs. by apply (sys_simulation q q').
Qed.

(** ** Properties *)

(** The session object of an end. *)
Definition session_at (x : Side) (s : Session) : Prop :=
  exists r, s_ref x = Some r /\ Link_store (s_link x) !! r = Some s.

Lemma abs_session x s :
  session_at x s ->
  abs x = mkEnd true (negb (Session_done s)) (Link_open (s_link x)) (Z.of_nat (Session_credit s))
    (Session_recv s) (Session_consumed s) (s_acked x) (s_got x) (s_sent x) (wire id (s_link x)).
Proof. intros (r & Hr & Hs). unfold abs. rewrite Hr. cbn. by rewrite Hs. Qed.

(** C4: the data tunnel implements credit-based flow control.  Whatever the two
    ends of a session do, and whatever the other sessions of their links do in
    between, what is seen of the session is an execution of [FlowSpec]. *)
Theorem flow_refinement p :
  reachable sys_step sys_init p ->
  reachable flow_step (flow_init o) (abs p.1, abs p.2).
Proof.
  intros (p0 & H0 & Hr). destruct (sys_init_abs p0 H0) as (_ & _ & Hf0 & _).
  assert (Hi0 : sys_inv p0) by (apply sys_reachable_inv; by exists p0).
  exists (abs p0.1, abs p0.2). split; [done|]. clear H0 Hf0.
  induction Hr as [|p0 p1 p2 H01 _ IH]; [apply rtc_refl|].
  destruct (sys_simulation p0 p1 Hi0 H01) as [Hi1 [Heq|Hst]].
  - rewrite <- Heq. by apply IH.
  - eapply rtc_l; [exact Hst|by apply IH].
Qed.

(** C5: the window is respected and never violated.  At most 32 data frames of a
    direction are queued at the receiver or on the wire; and a frame that
    reaches a session that is not done is always queued, so the "flow control
    violation" branch of [dispatch] does not fire between two ends of this
    program. *)
Theorem window_respected x y s :
  reachable sys_step sys_init (x, y) -> session_at y s ->
  count is_data (Session_recv s) + count is_data (wire id (s_link x)) <= Z.of_nat sendWindow /\
  forall drop data rest f,
    Link_out (s_link x) = data :: rest -> frame_of id data = Some f ->
    Session_done s = false -> Frame_Type f <> FrameWindow ->
    session_at (receive drop data y) (set_recv (Session_recv s ++ [f]) s).
Proof.
  intros Hr Hs. destruct (sys_reachable_inv _ Hr) as [H1 H2 [Hd1 Hd2] Hopened _]. cbn [fst snd] in *.
  pose proof (abs_session y s Hs) as Ha. destruct Hs as (r & Href & Hs). split.
  - pose proof (direction_outstanding _ _ Hd1) as [Ho _].
    assert (e_wire (abs x) = wire id (s_link x)) as Hw by (unfold abs; by destruct (s_ref x ≫= _)).
    rewrite Ha, Hw, count_stream in Ho. exact Ho.
  - intros drop data rest f Hout Hf Hd Hty.
    destruct (deliver_sim drop data rest x y Hout H1 H2 Hd1 Hd2 (fun _ => Hopened)) as (_ & Hok & _).
    destruct (take_side data rest x Hout H1) as (_ & Hw & _). rewrite Hf in Hw.
    pose proof (d_opens _ _ Hd1) as [_ Hop]. rewrite Ha, Hw in Hop. cbn [e_on] in Hop.
    apply list.Forall_cons in Hop as [Hof _].
    assert (Hnw : is_window f = false) by (by apply String.eqb_neq).
    assert (Hroom : Z.of_nat (length (e_queue (abs y))) < window + slack).
    { eapply direction_room; [exact Hd1|by rewrite Ha|exact Hw|done]. }
    exists r. destruct y as [l ro sent got acked]. cbn in Href, Hs. subst ro.
    rewrite Ha in Hroom. cbn [e_queue] in Hroom. unfold receive. rewrite Hf.
    split; [done|]. cbn [s_link s_ref] in *.
    destruct (run_mine drop data f l Hf Hof) as [-> Hid].
    pose proof (ok_ref _ H2) as (s' & Hs' & Hi & _). cbn in Hs'.
    assert (s' = s) as -> by congruence.
    rewrite (dispatch_queues drop f l r s); [cbn; by rewrite lookup_alter_eq, Hs|apply H2|done|congruence|done..|].
    unfold window, slack, recvCap in *. lia.
Qed.

(** C11: the stream of a direction is delivered in order, without loss,
    duplication or reordering.  The frames sent are, in this order, those the
    receiver has taken, those in its queue and those on the wire; frames are
    lost only once the receiver's session is done, and then only a suffix of
    what was delivered before. *)
Theorem stream_fifo x y s :
  reachable sys_step sys_init (x, y) -> session_at y s ->
  exists lost, s_sent x = s_got y ++ Session_recv s ++ lost ++ stream (wire id (s_link x)) /\
    (Session_done s = false -> lost = []).
Proof.
  intros Hr Hs. destruct (sys_reachable_inv _ Hr) as [_ _ [Hd1 _] _ _]. cbn [fst snd] in *.
  destruct (d_stream _ _ Hd1) as (lost & Hst & Hl & _). exists lost.
  rewrite abs_sent, abs_got, abs_wire, (abs_session y s Hs) in Hst.
  rewrite (abs_session y s Hs) in Hl. cbn in *. split; [done|]. intros Hd. apply Hl. by rewrite Hd.
Qed.

(** C6: flow control cannot deadlock.  On a session both ends of which are
    working, a sender has more than 16 credits unless a data frame is on the
    wire or queued, the receiver has not yet acknowledged data it took, or a
    window update is on its way: there is always something left that returns
    credit. *)
Theorem never_stalls x y s t :
  reachable sys_step sys_init (x, y) -> session_at x s -> session_at y t ->
  Session_done s = false -> Session_done t = false ->
  Link_open (s_link x) = true -> Link_open (s_link y) = true ->
  ackThreshold < Z.of_nat (Session_credit s) \/
  0 < count is_data (wire id (s_link x)) \/ 0 < count is_data (Session_recv t) \/
  s_acked y < count is_data (s_got y) \/ 0 < grants (wire id (s_link y)).
Proof.
  intros Hr Hs Ht Hds Hdt Hos Hot. destruct (sys_reachable_inv _ Hr) as [_ _ [Hd1 _] _ _].
  cbn [fst snd] in *. pose proof (direction_progress _ _ Hd1) as Hp.
  rewrite (abs_session x s Hs), (abs_session y t Ht) in Hp. cbn -[window ackThreshold count grants] in Hp.
  rewrite Hds, Hdt in Hp. destruct Hp as [Hp|Hp]; try done; [|by right]. left.
  unfold window, sendWindow, ackThreshold in *. lia.
Qed.
End System.

(** ** Witnesses *)

#[local] Existing Instance frame_msgpack.
#[local] Existing Instance countable_msgpack_laws.

(** The callback of an acceptor that takes every session. *)
Definition accept_all (f : Frame) (l : Link) : Link := (Accept (Frame_SessionID f) l).1.


Lemma s1_ident : ident "s1".
Proof. apply (bool_decide_unpack _). vm_compute. exact I. Qed.

(** A session opened, one message sent and delivered. *)
Definition demo_open : Frame := openFrame "s1" "demo" KindTCP "".

#[export] Instance accept_all_acceptor : Acceptor "s1" demo_open accept_all.
Proof.
  split; [reflexivity|reflexivity|done|].
  intros f l Hne. eapply touches_others; [exact Hne|apply addSession_touches].
Qed.

Definition demo0 : Side * Side :=
  (mkSide (Open demo_open NewLink).1 (Some 0%nat) [demo_open] [] 0, mkSide NewLink None [] [] 0).
Definition demo_msg (k : nat) (x : Side) : string := default "" (Link_out (s_link x) !! k).
Definition demo1 : Side * Side :=
  (take [] demo0.1, receive "s1" accept_all false (demo_msg 0 demo0.1) demo0.2).
Definition demo_x2 : Side :=
  mkSide (SendData false 0%nat DataText "hi" (s_link demo1.1)).1 (Some 0%nat)
    [demo_open; dataFrame "s1" DataText "hi"] [] 0.
Definition demo3 : Side * Side :=
  (take [] demo_x2, receive "s1" accept_all false (demo_msg 0 demo_x2) demo1.2).

Lemma demo3_reachable :
  reachable (sys_step "s1" accept_all) (sys_init "s1" demo_open) demo3.
Proof.
  exists demo0. split.
  { exists NewLink, NewLink, 0%nat, (Open demo_open NewLink).1.
    split_and!; try exact NewLink_wf; reflexivity. }
  eapply rtc_l. { apply (sys_to_right _ _ demo0.1 demo0.2 false (demo_msg 0 demo0.1) []). vm_compute. reflexivity. }
  eapply (rtc_l _ _ (demo_x2, demo1.2)).
  { apply sys_left.
    apply (sd_data "s1" (s_link demo1.1) _ 0%nat false DataText "hi" [demo_open] [] 0 (Returned (Ok tt))).
    - by right.
    - vm_compute. reflexivity. }
  eapply rtc_l. { apply (sys_to_right _ _ demo_x2 demo1.2 false (demo_msg 0 demo_x2) []). vm_compute. reflexivity. }
  apply rtc_refl.
Qed.

Definition demo3_session : Session :=
  set_recv [dataFrame "s1" DataText "hi"] (newSession "s1").

Lemma demo3_session_at : session_at demo3.2 demo3_session.
Proof. exists 0%nat. split; vm_compute; reflexivity. Qed.

Lemma flow_refinement_witness :
  reachable flow_step (flow_init demo_open) (abs "s1" demo3.1, abs "s1" demo3.2) /\
  e_queue (abs "s1" demo3.2) = [dataFrame "s1" DataText "hi"].
Proof.
  split; [|vm_compute; reflexivity].
  apply (flow_refinement "s1" s1_ident demo_open accept_all demo3).
  exact demo3_reachable.
Defined.

Lemma window_respected_witness :
  count is_data (Session_recv demo3_session) + count is_data (wire "s1" (s_link demo3.1)) <= 32.
Proof.
  apply (window_respected "s1" s1_ident demo_open accept_all
    demo3.1 demo3.2 demo3_session); [exact demo3_reachable|exact demo3_session_at].
Defined.

Lemma stream_fifo_witness :
  exists lost, s_sent demo3.1 = s_got demo3.2 ++ Session_recv demo3_session ++ lost ++
      stream (wire "s1" (s_link demo3.1)) /\ lost = [] /\
    s_got demo3.2 = [demo_open].
Proof.
  destruct (stream_fifo "s1" s1_ident demo_open accept_all
    demo3.1 demo3.2 demo3_session) as (lost & H & Hl); [exact demo3_reachable|exact demo3_session_at|].
  exists lost. split; [exact H|]. split; [apply Hl; reflexivity|vm_compute; reflexivity].
Defined.

Lemma never_stalls_witness :
  let s := set_credit 31 (newSession "s1") in
  session_at demo3.1 s /\
  (ackThreshold < Z.of_nat (Session_credit s) \/
   0 < count is_data (wire "s1" (s_link demo3.1)) \/ 0 < count is_data (Session_recv demo3_session) \/
   s_acked demo3.2 < count is_data (s_got demo3.2) \/ 0 < grants (wire "s1" (s_link demo3.2))).
Proof.
  intros s. assert (Hs : session_at demo3.1 s) by (exists 0%nat; split; vm_compute; reflexivity).
  split; [exact Hs|].
  apply (never_stalls "s1" s1_ident demo_open accept_all
    demo3.1 demo3.2 s demo3_session demo3_reachable Hs demo3_session_at); vm_compute; reflexivity.
Defined.
