(* ===== verification/SessionUser.v ===== *)
(** * Users of a session

    What a relay does with its session, independently of what it relays: the
    calls it makes ([internal/datatunnel/session.go]) as steps of an end of
    [FlowControl], the interface [SessionUser] between a relay and the tunnel,
    and what follows for two users of that interface at the two ends of one
    session. *)
From S2P Require Import Prelude GoString GoStd Msgpack TunnelEnvelope Link FlowSpec FlowControl.

#[local] Open Scope Z_scope.

Section Calls.
Context {MF : Msgpack Frame} (id : string).

(** The calls a relay makes on its session. *)
Definition side_SendData (prefer_done : bool) (kind payload : string) (x : Side) : Side * send_result :=
  match s_ref x with
  | None => (x, Blocked)
  | Some r =>
      let '(l', res) := SendData prefer_done r kind payload (s_link x) in
      (mkSide l' (Some r)
         (match res with
          | Returned e => sent_if e (dataFrame id kind payload) (s_sent x)
          | Blocked => s_sent x
          end) (s_got x) (s_acked x), res)
  end.

Definition side_SendEOF (x : Side) : Side * bool :=
  match s_ref x with
  | None => (x, false)
  | Some r =>
      let '(l', e) := SendEOF r (s_link x) in
      (mkSide l' (Some r) (sent_if e (eofFrame id) (s_sent x)) (s_got x) (s_acked x), is_ok e)
  end.

Definition side_close (frame : string -> Frame) (x : Side) : Side :=
  match s_ref x with
  | None => x
  | Some r =>
      mkSide (closeWith frame r (s_link x)) (Some r)
        (sent_if (WriteFrame (frame id) (s_link x)).2 (frame id) (s_sent x)) (s_got x) (s_acked x)
  end.

Definition side_Recv (x : Side) : option (Frame * Side) :=
  match s_ref x with
  | None => None
  | Some r =>
      match Recv r (s_link x) with
      | Some (f, l') => Some (f, mkSide l' (Some r) (s_sent x) (s_got x ++ [f]) (s_acked x))
      | None => None
      end
  end.

Definition side_AckData (x : Side) : Side :=
  match s_ref x with
  | None => x
  | Some r => mkSide (AckData r (s_link x)) (Some r) (s_sent x) (s_got x) (s_acked x + 1)
  end.

Definition side_done (x : Side) : bool :=
  match s_ref x with
  | Some r => match Link_store (s_link x) !! r with Some s => Session_done s | None => false end
  | None => false
  end.
End Calls.

Section Specs.
Context {MF : Msgpack Frame} {ML : MsgpackLaws Frame} (id : string).

(** Every call is a step of an end of [FlowControl]. *)
Lemma side_SendData_spec b kind payload x x' res :
  kind = DataBinary \/ kind = DataText ->
  side_SendData id b kind payload x = (x', res) ->
  rtc (side_step id) x x' /\ s_ref x' = s_ref x /\ s_got x' = s_got x /\ s_acked x' = s_acked x /\
  s_sent x' = match res with
    | Returned (Ok _) => s_sent x ++ [dataFrame id kind payload]
    | _ => s_sent x
    end.
Proof.
  intros Hk. unfold side_SendData. destruct x as [l [r|] sent got acked]; cbn.
  - destruct (SendData b r kind payload l) as [l' res'] eqn:E. intros [= <- <-].
    split; [apply rtc_once; by eapply sd_data|]. split_and!; try done.
    unfold sent_if. by destruct res' as [|[[]|e]].
  - by intros [= <- <-].
Qed.

Lemma side_SendEOF_spec x x' ok :
  side_SendEOF id x = (x', ok) -> count is_ctl (s_sent x) < slack ->
  rtc (side_step id) x x' /\ s_ref x' = s_ref x /\ s_got x' = s_got x /\ s_acked x' = s_acked x /\
  (s_sent x' = s_sent x \/ s_sent x' = s_sent x ++ [eofFrame id]).
Proof.
  intros E Hc. unfold side_SendEOF in E. destruct x as [l [r|] sent got acked]; cbn in *.
  - pose proof (sd_eof id l r sent got acked Hc) as Hst. revert Hst.
    destruct (SendEOF r l) as [l' e] eqn:E2. injection E as <- <-. intros Hst.
    split; [by apply rtc_once|]. split_and!; try done. unfold sent_if. destruct (is_ok e); auto.
  - injection E as <- <-. split_and!; auto. apply rtc_refl.
Qed.

Lemma side_close_spec frame x :
  closing frame -> count is_ctl (s_sent x) < slack ->
  let x' := side_close id frame x in
  rtc (side_step id) x x' /\ s_ref x' = s_ref x /\ s_got x' = s_got x /\ s_acked x' = s_acked x /\
  (s_sent x' = s_sent x \/ s_sent x' = s_sent x ++ [frame id]).
Proof.
  intros Hf Hc. unfold side_close. destruct x as [l [r|] sent got acked]; cbn in *.
  - split; [apply rtc_once; by apply sd_close|]. split_and!; try done.
    unfold sent_if. destruct (is_ok _); auto.
  - split_and!; auto. apply rtc_refl.
Qed.

Lemma side_Recv_spec x x' f :
  side_Recv x = Some (f, x') ->
  rtc (side_step id) x x' /\ s_ref x' = s_ref x /\ s_got x' = s_got x ++ [f] /\
  s_acked x' = s_acked x /\ s_sent x' = s_sent x.
Proof.
  unfold side_Recv. destruct x as [l [r|] sent got acked]; cbn; [|done].
  destruct (Recv r l) as [[f' l']|] eqn:E; [|done]. intros [= <- <-].
  split; [apply rtc_once; by apply sd_recv|done].
Qed.

Lemma side_AckData_spec x :
  is_Some (s_ref x) -> s_acked x < count is_data (s_got x) ->
  let x' := side_AckData x in
  rtc (side_step id) x x' /\ s_ref x' = s_ref x /\ s_got x' = s_got x /\
  s_acked x' = s_acked x + 1 /\ s_sent x' = s_sent x.
Proof.
  intros [r Hr] Ha. unfold side_AckData. destruct x as [l ro sent got acked]; cbn in *. subst ro.
  split; [apply rtc_once; by apply sd_ack|done].
Qed.
End Specs.

(** ** The data of a stream *)

Definition datas (l : list Frame) : list Frame := List.filter is_data l.

Lemma datas_app l k : datas (l ++ k) = datas l ++ datas k.
Proof. apply List.filter_app. Qed.

Lemma count_datas l : count is_data l = Z.of_nat (length (datas l)).
Proof.
  induction l as [|f l IH]; [done|]. cbn [count datas List.filter]. unfold datas in IH.
  destruct (is_data f); cbn [length]; lia.
Qed.

(** The side changed, but not what its user knows: what it sent, what it
    acknowledged, and the data it took; a frame without data may have been
    recorded (the open frame, on arrival). *)
Definition same_stream (x x' : Side) : Prop :=
  s_sent x' = s_sent x /\ s_acked x' = s_acked x /\
  exists more, s_got x' = s_got x ++ more /\ datas more = [].

Lemma same_stream_same x x' :
  s_sent x' = s_sent x -> s_acked x' = s_acked x -> s_got x' = s_got x -> same_stream x x'.
Proof. intros H1 H2 H3. split_and!; [done|done|]. exists []. by rewrite app_nil_r. Qed.

Lemma same_stream_datas x x' : same_stream x x' -> datas (s_got x') = datas (s_got x).
Proof. intros (_ & _ & more & -> & Hm). by rewrite datas_app, Hm, app_nil_r. Qed.

(** ** The interface *)

(** A user [R] of a session reads values of [M] from its own connection and
    writes values of [M] to it; [value] is what the data of a stream means.
    It promises to use the session as [FlowControl] expects, to send only what
    it read and to write only what it took. *)
Class SessionUser (R M : Type) `{Msgpack Frame} (id : string) := {
  us_side : R -> Side;
  us_set_side : Side -> R -> R;
  us_step : R -> R -> Prop;
  us_fresh : R -> Prop;
  us_inv : R -> Prop;
  us_read : R -> M;
  us_written : R -> M;
  us_value : list Frame -> M;
  us_prefix : relation M;
  us_prefix_preorder :: PreOrder us_prefix;
  us_side_set : forall x r, us_side (us_set_side x r) = x;
  us_set_self : forall r, us_set_side (us_side r) r = r;
  us_set_io : forall x r, us_read (us_set_side x r) = us_read r /\ us_written (us_set_side x r) = us_written r;
  us_step_ok : forall r r', us_inv r -> us_step r r' ->
    us_inv r' /\ rtc (side_step id) (us_side r) (us_side r');
  us_set_inv : forall x r, same_stream (us_side r) x -> us_inv r -> us_inv (us_set_side x r);
  us_fresh_inv : forall r, us_fresh r -> datas (s_sent (us_side r)) = [] ->
    count is_ctl (s_sent (us_side r)) = 0 -> s_got (us_side r) = [] -> s_acked (us_side r) = 0 -> us_inv r;
  us_value_app : forall l k, us_prefix (us_value l) (us_value (l ++ k));
  us_inv_read : forall r, us_inv r -> us_prefix (us_value (s_sent (us_side r))) (us_read r);
  us_inv_written : forall r, us_inv r -> us_prefix (us_written r) (us_value (s_got (us_side r)))
}.
