(* ===== verification/Pipe.v ===== *)
(** * Two users at the ends of one session

    The public connection at the edge and the private connection at the
    connector, each with its relay, the two links of the tunnel between: for
    any two users of the interface of [SessionUser]. *)
From S2P Require Import Prelude GoString GoStd Msgpack TunnelEnvelope Link FlowSpec FlowControl SessionUser.

#[local] Open Scope Z_scope.
#[local] Set Default Proof Using "Type*".

Section Pipe.
Context {MF : Msgpack Frame} {ML : MsgpackLaws Frame}.
Context (id : string) (id_ident : ident id).
Context (o : Frame) (onOpen : Frame -> Link -> Link) {ACC : Acceptor id o onOpen}.
Context {R M : Type} {SU : SessionUser R M id}.

Definition relink (l : Link) (r : R) : R :=
  let x := us_side r in us_set_side (mkSide l (s_ref x) (s_sent x) (s_got x) (s_acked x)) r.

(** A user steps; or its link does: for another session, by closing, or by
    moving one message across; or the session is claimed. *)
Inductive pipe_step : R * R -> R * R -> Prop :=
| pipe_left x x' y : us_step x x' -> pipe_step (x, y) (x', y)
| pipe_right x y y' : us_step y y' -> pipe_step (x, y) (x, y')
| pipe_other_left x y l' : others id (s_link (us_side x)) l' -> pipe_step (x, y) (relink l' x, y)
| pipe_other_right x y l' : others id (s_link (us_side y)) l' -> pipe_step (x, y) (x, relink l' y)
| pipe_down_left x y :
    is_Some (s_ref (us_side x)) -> pipe_step (x, y) (relink (Close (s_link (us_side x))) x, y)
| pipe_down_right x y :
    is_Some (s_ref (us_side y)) -> pipe_step (x, y) (x, relink (Close (s_link (us_side y))) y)
| pipe_claim_left x y r :
    s_ref (us_side x) = Some r -> pipe_step (x, y) (relink (TryClaim r (s_link (us_side x))).1 x, y)
| pipe_claim_right x y r :
    s_ref (us_side y) = Some r -> pipe_step (x, y) (x, relink (TryClaim r (s_link (us_side y))).1 y)
| pipe_to_right x y drop data rest :
    Link_out (s_link (us_side x)) = data :: rest ->
    pipe_step (x, y) (us_set_side (take rest (us_side x)) x, us_set_side (receive id onOpen drop data (us_side y)) y)
| pipe_to_left x y drop data rest :
    Link_out (s_link (us_side y)) = data :: rest ->
    pipe_step (x, y) (us_set_side (receive id onOpen drop data (us_side x)) x, us_set_side (take rest (us_side y)) y).

Definition pipe_init (p : R * R) : Prop :=
  sys_init id o (us_side p.1, us_side p.2) /\ us_fresh p.1 /\ us_fresh p.2.

Record pipe_inv (p : R * R) : Prop := {
  pi_sys : reachable (sys_step id onOpen) (sys_init id o) (us_side p.1, us_side p.2);
  pi_left : us_inv p.1;
  pi_right : us_inv p.2
}.

Lemma side_steps_left x x' y :
  rtc (side_step id) x x' -> reachable (sys_step id onOpen) (sys_init id o) (x, y) ->
  reachable (sys_step id onOpen) (sys_init id o) (x', y).
Proof.
  induction 1 as [|x x1 x' H _ IH]; [done|]. intros Hr. apply IH.
  eapply reachable_step; [exact Hr|by apply sys_left].
Qed.

Lemma side_steps_right x y y' :
  rtc (side_step id) y y' -> reachable (sys_step id onOpen) (sys_init id o) (x, y) ->
  reachable (sys_step id onOpen) (sys_init id o) (x, y').
Proof.
  induction 1 as [|y y1 y' H _ IH]; [done|]. intros Hr. apply IH.
  eapply reachable_step; [exact Hr|by apply sys_right].
Qed.

(** What the sent and taken streams of two ends have to do with each other. *)
Definition delivered (x y : Side) : Prop := exists rest, s_sent x = s_got y ++ rest.

Lemma reachable_delivered x y :
  reachable (sys_step id onOpen) (sys_init id o) (x, y) -> delivered x y /\ delivered y x.
Proof.
  intros Hr. destruct (sys_reachable_inv id id_ident o onOpen _ Hr) as [_ _ [H1 H2] _ _].
  cbn [fst snd] in *. split.
  - destruct (d_stream _ _ H1) as (lost & Hst & _). rewrite abs_sent, abs_got in Hst. by eexists.
  - destruct (d_stream _ _ H2) as (lost & Hst & _). rewrite abs_sent, abs_got in Hst. by eexists.
Qed.

Lemma receive_stream drop data rest x y :
  side_ok id x -> direction (abs id x) (abs id y) ->
  Link_out (s_link x) = data :: rest -> same_stream y (receive id onOpen drop data y).
Proof.
  intros Hx Hd Hout. unfold receive. destruct (frame_of id data) as [f|] eqn:Hf;
    [|by apply same_stream_same].
  destruct (s_ref y) as [r|] eqn:Href; [by apply same_stream_same|].
  destruct (take_side id data rest x Hout Hx) as (_ & Hw & _).
  rewrite Hf in Hw.
  pose proof (d_opens _ _ Hd) as [_ Hop]. pose proof (wire_on _ _ _ _ Hd Hw) as Hon.
  assert (Hoff : e_on (abs id y) = false) by (unfold abs; by rewrite Href).
  rewrite Hoff, Hw in Hop. destruct (Hop Hon) as (o' & w & [= <- _] & Ho & _).
  destruct (open_class f Ho) as (Hnd & _).
  split_and!; [done|done|]. exists [f]. split; [done|]. cbn. by rewrite Hnd.
Qed.

Lemma environment_inv x y sx sy :
  pipe_inv (x, y) -> same_stream (us_side x) sx -> same_stream (us_side y) sy ->
  sys_step id onOpen (us_side x, us_side y) (sx, sy) ->
  pipe_inv (us_set_side sx x, us_set_side sy y).
Proof.
  intros [Hr Hx Hy] Hsx Hsy Hstep. cbn [fst snd] in *. split; cbn [fst snd]; rewrite ?us_side_set.
  - by eapply reachable_step.
  - by apply us_set_inv.
  - by apply us_set_inv.
Qed.

Lemma pipe_step_inv p p' : pipe_inv p -> pipe_step p p' -> pipe_inv p'.
Proof.
  intros Hinv Hs. pose proof Hinv as [Hr Hx Hy].
  destruct (sys_reachable_inv id id_ident o onOpen _ Hr) as [Hok1 Hok2 [Hd1 Hd2] _ _].
  destruct Hs as [x x' y Hs|x y y' Hs|x y l' Ho|x y l' Ho|x y [r Href]|x y [r Href]|x y r Href|x y r Href|
    x y drop data rest Hout|x y drop data rest Hout]; cbn [fst snd] in *.
  - destruct (us_step_ok x x' Hx Hs) as [Hx' Hst].
    split; cbn [fst snd]; [by eapply side_steps_left|done..].
  - destruct (us_step_ok y y' Hy Hs) as [Hy' Hst].
    split; cbn [fst snd]; [by eapply side_steps_right|done..].
  - rewrite <- (us_set_self y). apply environment_inv; [done|by apply same_stream_same|by apply same_stream_same|].
    apply sys_left. destruct (us_side x). by apply sd_other.
  - rewrite <- (us_set_self x). apply environment_inv; [done|by apply same_stream_same|by apply same_stream_same|].
    apply sys_right. destruct (us_side y). by apply sd_other.
  - rewrite <- (us_set_self y). apply environment_inv; [done|by apply same_stream_same|by apply same_stream_same|].
    apply sys_left. destruct (us_side x). cbn in Href. subst. apply sd_down.
  - rewrite <- (us_set_self x). apply environment_inv; [done|by apply same_stream_same|by apply same_stream_same|].
    apply sys_right. destruct (us_side y). cbn in Href. subst. apply sd_down.
  - rewrite <- (us_set_self y). apply environment_inv; [done|by apply same_stream_same|by apply same_stream_same|].
    apply sys_left. destruct (us_side x). cbn in Href. subst. apply sd_claim.
  - rewrite <- (us_set_self x). apply environment_inv; [done|by apply same_stream_same|by apply same_stream_same|].
    apply sys_right. destruct (us_side y). cbn in Href. subst. apply sd_claim.
  - apply environment_inv; [done|by apply same_stream_same| |by apply sys_to_right].
    by apply (receive_stream drop data rest (us_side x) (us_side y)).
  - apply environment_inv; [done| |by apply same_stream_same|by apply sys_to_left].
    by apply (receive_stream drop data rest (us_side y) (us_side x)).
Qed.

Lemma pipe_init_inv p : pipe_init p -> pipe_inv p.
Proof.
  destruct p as [x y]. intros (Hsys & Hx & Hy). cbn [fst snd] in *.
  assert (Hr : reachable (sys_step id onOpen) (sys_init id o) (us_side x, us_side y)).
  { exists (us_side x, us_side y). split; [done|apply rtc_refl]. }
  destruct Hsys as (l1 & l2 & r & l1' & _ & _ & _ & _ & _ & _ & [= Hsx Hsy]).
  assert (Ho : is_open o = true) by (unfold is_open; by rewrite (acc_type id (o := o) (onOpen := onOpen))).
  destruct (open_class o Ho) as (Ed & _ & _ & Ec).
  split; cbn [fst snd]; [done| |].
  - apply us_fresh_inv; rewrite ?Hsx; cbn; rewrite ?Ed, ?Ec; done.
  - by apply us_fresh_inv; rewrite ?Hsy.
Qed.

Lemma pipe_reachable_inv p : reachable pipe_step pipe_init p -> pipe_inv p.
Proof. apply reachable_inv; [apply pipe_init_inv|intros; by eapply pipe_step_inv]. Qed.

(** What was written is a prefix of what was read at the other side. *)
Lemma written_read x y :
  us_inv x -> us_inv y -> delivered (us_side x) (us_side y) ->
  us_prefix (us_written y) (us_read x).
Proof.
  intros Hx Hy [rest Hrest]. etrans; [by apply us_inv_written|].
  etrans; [|by apply us_inv_read]. rewrite Hrest. apply us_value_app.
Qed.

Lemma pipe_faithful x y :
  reachable pipe_step pipe_init (x, y) ->
  us_prefix (us_written y) (us_read x) /\ us_prefix (us_written x) (us_read y).
Proof.
  intros Hr. destruct (pipe_reachable_inv _ Hr) as [Hs Hx Hy]. cbn [fst snd] in *.
  destruct (reachable_delivered _ _ Hs). split; by apply written_read.
Qed.
End Pipe.
