(* ===== verification/Relay.v ===== *)
(** * The relay loops

    [internal/datatunnel/relay.go]: [RelayConn] and [RelayWebSocket] pipe a
    public or private connection into a session and back.  A relay is two
    goroutines, the reader and the main loop; each turn of either is one step,
    the scheduler, the network and the clock choosing which.  The operating
    system's connection is what was read from it and how that ended, what it
    accepted, whether its write side was shut and whether it was closed.  A
    timed run ([Timed]) adds the clock and the moment data last moved. *)
From S2P Require Import Prelude GoString GoStd Msgpack TunnelEnvelope Link FlowSpec FlowControl SessionUser.

#[local] Open Scope Z_scope.

(** ** [idleGuard] *)

(** Times in nanoseconds.  [timer] is when the timer fires, [None] when the
    guard is disabled, stopped, or the tick was consumed. *)
Record idleGuard := mkIdleGuard {
  idle_timeout : Z;
  idle_last : Z;
  idle_timer : option Z
}.

Definition newIdleGuard (timeout now : Z) : idleGuard :=
  mkIdleGuard timeout now (if 0 <? timeout then Some (now + timeout) else None).
Definition idle_touch (now : Z) (g : idleGuard) : idleGuard :=
  mkIdleGuard (idle_timeout g) now (idle_timer g).
Definition idle_expired (now : Z) (g : idleGuard) : bool * idleGuard :=
  let remaining := idle_timeout g - (now - idle_last g) in
  if remaining <=? 0 then (true, mkIdleGuard (idle_timeout g) (idle_last g) None)
  else (false, mkIdleGuard (idle_timeout g) (idle_last g) (Some (now + remaining))).
Definition idle_stop (g : idleGuard) : idleGuard :=
  mkIdleGuard (idle_timeout g) (idle_last g) None.

(** The channel [idle.c] has a tick. *)
Definition idle_fires (now : Z) (g : idleGuard) : bool :=
  match idle_timer g with Some t => t <=? now | None => false end.

(** ** [RelayConn] *)

Definition relayBufferSize : nat := 32 * 1024.

Inductive read_error :=
| EOF                       (** [io.EOF] *)
| ReadFailed                (** any other error of [conn.Read] *)
| SendFailed (e : link_error).

Record Conn := mkConn {
  conn_read : string;          (** the bytes [Read] returned so far *)
  conn_written : string;       (** the bytes [Write] accepted so far *)
  conn_canCloseWrite : bool;   (** the connection has a [CloseWrite] method *)
  conn_writeClosed : bool;
  conn_closed : bool;
  conn_ended : option read_error   (** the error of [Read] that ended the reading, if one did *)
}.

Definition conn_on_read (s : string) (err : option read_error) (c : Conn) : Conn :=
  mkConn (conn_read c +:+ s) (conn_written c) (conn_canCloseWrite c) (conn_writeClosed c) (conn_closed c)
    (match err with Some e => Some e | None => conn_ended c end).
Definition conn_on_write (s : string) (c : Conn) : Conn :=
  mkConn (conn_read c) (conn_written c +:+ s) (conn_canCloseWrite c) (conn_writeClosed c) (conn_closed c)
    (conn_ended c).
Definition closeWrite (c : Conn) : Conn :=
  if conn_canCloseWrite c
  then mkConn (conn_read c) (conn_written c) (conn_canCloseWrite c) true (conn_closed c) (conn_ended c) else c.
Definition conn_Close (c : Conn) : Conn :=
  mkConn (conn_read c) (conn_written c) (conn_canCloseWrite c) (conn_writeClosed c) true (conn_ended c).

Inductive reader_state :=
| Reading                                            (** in [conn.Read] *)
| Sending (payload : string) (err : option read_error)  (** in [session.SendData], then [err] *)
| Exited.

Record Relay := mkRelay {
  rl_side : Side;
  rl_conn : Conn;
  rl_idle : idleGuard;
  rl_reader : reader_state;
  rl_result : option read_error;      (** the buffer of [readResult] *)
  rl_localEOF : bool;
  rl_remoteEOF : bool;
  rl_returned : bool
}.

Definition set_side x r := mkRelay x (rl_conn r) (rl_idle r) (rl_reader r) (rl_result r)
  (rl_localEOF r) (rl_remoteEOF r) (rl_returned r).
Definition set_conn c r := mkRelay (rl_side r) c (rl_idle r) (rl_reader r) (rl_result r)
  (rl_localEOF r) (rl_remoteEOF r) (rl_returned r).
Definition set_idle g r := mkRelay (rl_side r) (rl_conn r) g (rl_reader r) (rl_result r)
  (rl_localEOF r) (rl_remoteEOF r) (rl_returned r).
Definition set_reader s e r := mkRelay (rl_side r) (rl_conn r) (rl_idle r) s e
  (rl_localEOF r) (rl_remoteEOF r) (rl_returned r).
Definition set_localEOF r := mkRelay (rl_side r) (rl_conn r) (rl_idle r) (rl_reader r) None
  true (rl_remoteEOF r) (rl_returned r).
Definition set_remoteEOF r := mkRelay (rl_side r) (rl_conn r) (rl_idle r) (rl_reader r) (rl_result r)
  (rl_localEOF r) true (rl_returned r).
Definition set_returned r := mkRelay (rl_side r) (rl_conn r) (rl_idle r) (rl_reader r) (rl_result r)
  (rl_localEOF r) (rl_remoteEOF r) true.

Section RelayConn.
Context {MF : Msgpack Frame} (id : string).

(** ** The reader goroutine of [RelayConn] *)

(** After the read's error was examined: hand it to the main loop or read
    again. *)
Definition reader_next (err : option read_error) (r : Relay) : Relay :=
  match err with
  | Some e => set_reader Exited (Some e) r
  | None => set_reader Reading (rl_result r) r
  end.

(** [conn.Read(buf)] returns [n] bytes and an error. *)
Definition reader_read (data : string) (err : option read_error) (r : Relay) : option Relay :=
  match rl_reader r with
  | Reading =>
      let r1 := set_conn (conn_on_read data err (rl_conn r)) r in
      Some (if String.eqb data "" then reader_next err r1
            else set_reader (Sending data err) (rl_result r1) r1)
  | _ => None
  end.

(** [session.SendData] returns, if it does. *)
Definition reader_send (prefer_done : bool) (now : Z) (r : Relay) : option Relay :=
  match rl_reader r with
  | Sending payload err =>
      match side_SendData id prefer_done DataBinary payload (rl_side r) with
      | (_, Blocked) => None
      | (x, Returned (Err e)) => Some (set_reader Exited (Some (SendFailed e)) (set_side x r))
      | (x, Returned (Ok _)) =>
          Some (reader_next err (set_idle (idle_touch now (rl_idle r)) (set_side x r)))
      end
  | _ => None
  end.

(** ** The main loop of [RelayConn] *)

(** The ready case of the [select]; [Recv] carries the outcome of
    [conn.Write]: [None] for success, [Some n] for an error after [n] bytes. *)
Inductive select_case :=
| CtxDone
| SessionDone
| ReadResult
| RecvFrame (write : option nat)
| IdleTick.

(** The deferred calls, last one first. *)
Definition RelayConn_return (r : Relay) : Relay :=
  let r1 := set_idle (idle_stop (rl_idle r)) r in
  let r2 := set_conn (conn_Close (rl_conn r1)) r1 in
  set_returned (set_side (side_close id (fun i => closeFrame i 0 "") (rl_side r2)) r2).

(** One turn of the loop; [None] when the case is not ready. *)
Definition RelayConn_turn (case : select_case) (now : Z) (r : Relay) : option Relay :=
  match case with
  | CtxDone => Some (RelayConn_return r)
  | SessionDone => if side_done (rl_side r) then Some (RelayConn_return r) else None
  | ReadResult =>
      match rl_result r with
      | None => None
      | Some EOF =>
          let '(x, ok) := side_SendEOF id (rl_side r) in
          let r1 := set_side x (set_localEOF r) in
          Some (if negb ok || rl_remoteEOF r then RelayConn_return r1 else r1)
      | Some _ => Some (RelayConn_return (set_reader (rl_reader r) None r))
      end
  | RecvFrame write =>
      match side_Recv (rl_side r) with
      | None => None
      | Some (frame, x) =>
          let r1 := set_side x r in
          if String.eqb (Frame_Type frame) FrameData then
            match write with
            | Some n => Some (RelayConn_return (set_conn (conn_on_write (str_take n (Frame_Payload frame)) (rl_conn r1)) r1))
            | None =>
                let r2 := set_conn (conn_on_write (Frame_Payload frame) (rl_conn r1)) r1 in
                let r3 := set_idle (idle_touch now (rl_idle r2)) r2 in
                Some (set_side (side_AckData (rl_side r3)) r3)
            end
          else if String.eqb (Frame_Type frame) FrameEOF then
            let r2 := set_conn (closeWrite (rl_conn r1)) (set_remoteEOF r1) in
            Some (if rl_localEOF r2 then RelayConn_return r2 else r2)
          else if String.eqb (Frame_Type frame) FrameClose || String.eqb (Frame_Type frame) FrameError
          then Some (RelayConn_return r1)
          else Some r1
      end
  | IdleTick =>
      if idle_fires now (rl_idle r) then
        let '(expired, g) := idle_expired now (rl_idle r) in
        Some (if expired then RelayConn_return (set_idle g r) else set_idle g r)
      else None
  end.

(** [RelayConn]'s entry. *)
Definition RelayConn_start (x : Side) (c : Conn) (timeout now : Z) : Relay :=
  mkRelay x c (newIdleGuard timeout now) Reading None false false false.

(** A step of the relay: the reader goes on (also after the main loop has
    returned, until its next call fails), or the main loop takes a turn. *)
Inductive relay_step : Relay -> Relay -> Prop :=
| rs_read data err r r' :
    is_Some (s_ref (rl_side r)) -> (String.length data <= relayBufferSize)%nat ->
    (forall e, err <> Some (SendFailed e)) ->
    reader_read data err r = Some r' -> relay_step r r'
| rs_send b now r r' : reader_send b now r = Some r' -> relay_step r r'
| rs_turn case now r r' :
    is_Some (s_ref (rl_side r)) -> rl_returned r = false ->
    RelayConn_turn case now r = Some r' -> relay_step r r'.
End RelayConn.

(** ** What a relay does to its stream *)

(** The bytes of the data frames of a stream, in order. *)
Fixpoint payloads (l : list Frame) : string :=
  match l with
  | [] => ""
  | f :: l' => (if is_data f then Frame_Payload f else "") +:+ payloads l'
  end.

Definition is_eof (f : Frame) : bool := String.eqb (Frame_Type f) FrameEOF.
Definition has_eof (l : list Frame) : Prop := Exists (fun f => is_eof f = true) l.

(** Nothing but control frames follows the end of the stream. *)
Definition ends_clean (l : list Frame) : Prop :=
  forall pre f post, l = pre ++ f :: post -> is_eof f = true -> count is_data post = 0.

Lemma str_app_assoc (a b c : string) : a +:+ b +:+ c = (a +:+ b) +:+ c.
Proof. induction a as [|x a IH]; [done|]. cbn. by rewrite IH. Qed.

Lemma str_app_nil (a : string) : a +:+ "" = a.
Proof. induction a as [|x a IH]; [done|]. cbn. by rewrite IH. Qed.

Lemma payloads_app l k : payloads (l ++ k) = payloads l +:+ payloads k.
Proof. induction l as [|f l IH]; [done|]. cbn. by rewrite IH, str_app_assoc. Qed.

Lemma payloads_no_data l : count is_data l = 0 -> payloads l = "".
Proof.
  induction l as [|f l IH]; [done|]. cbn. pose proof (count_nonneg is_data l).
  destruct (is_data f); [lia|]. intros H'. by rewrite IH.
Qed.

Lemma has_eof_app l k : has_eof (l ++ k) <-> has_eof l \/ has_eof k.
Proof. apply Exists_app. Qed.

Lemma ends_clean_snoc l f :
  ends_clean l -> (is_data f = true -> ~ has_eof l) -> ends_clean (l ++ [f]).
Proof.
  intros Hl Hf pre g post Heq Hg. destruct post as [|p post] using rev_ind; [done|]. clear IHpost.
  rewrite app_comm_cons, app_assoc in Heq. apply app_inj_tail in Heq as [-> <-].
  rewrite count_app, (Hl _ _ _ eq_refl Hg). cbn. destruct (is_data f); [|done].
  destruct Hf; [done|]. apply has_eof_app. right. by left.
Qed.

Definition prefix_of (a b : string) : Prop := exists c, b = a +:+ c.

Lemma prefix_of_refl a : prefix_of a a.
Proof. exists "". by rewrite str_app_nil. Qed.

Lemma prefix_of_app a b : prefix_of a (a +:+ b).
Proof. by exists b. Qed.

Lemma prefix_of_trans a b c : prefix_of a b -> prefix_of b c -> prefix_of a c.
Proof. intros [x ->] [y ->]. exists (x +:+ y). by rewrite str_app_assoc. Qed.

Lemma prefix_of_take n s : prefix_of (str_take n s) s.
Proof.
  revert n. induction s as [|c s IH]; intros [|n]; cbn; try (by eexists).
  destruct (IH n) as [t Ht]. exists t. cbn. by rewrite <- Ht.
Qed.

Lemma prefix_of_cong a b c : prefix_of b c -> prefix_of (a +:+ b) (a +:+ c).
Proof. intros [x ->]. exists x. by rewrite str_app_assoc. Qed.

Section Discipline.
Context {MF : Msgpack Frame} {ML : MsgpackLaws Frame} (id : string).

(** ** The invariant of [RelayConn] *)

Definition pending (s : reader_state) : string :=
  match s with Sending p _ => p | _ => "" end.

Record relay_inv (r : Relay) : Prop := {
  ri_read : exists lost,
    conn_read (rl_conn r) = payloads (s_sent (rl_side r)) +:+ pending (rl_reader r) +:+ lost /\
    (lost <> "" -> rl_reader r = Exited /\ rl_result r <> Some EOF /\ rl_localEOF r = false);
  ri_exited : is_Some (rl_result r) \/ rl_localEOF r = true -> rl_reader r = Exited;
  ri_once : rl_localEOF r = true -> rl_result r = None;
  ri_eof : has_eof (s_sent (rl_side r)) -> rl_localEOF r = true;
  ri_clean : ends_clean (s_sent (rl_side r));
  ri_written : prefix_of (conn_written (rl_conn r)) (payloads (s_got (rl_side r))) /\
    (rl_returned r = false -> conn_written (rl_conn r) = payloads (s_got (rl_side r)));
  ri_acked : rl_returned r = false -> s_acked (rl_side r) = count is_data (s_got (rl_side r));
  ri_ctl : count is_ctl (s_sent (rl_side r)) <= Z.b2z (rl_localEOF r) + Z.b2z (rl_returned r);
  ri_announced : rl_localEOF r = true -> rl_returned r = false -> has_eof (s_sent (rl_side r))
}.

(** An end of stream that is announced without an error is on its way. *)
Lemma side_SendEOF_sent x x' : side_SendEOF id x = (x', true) -> s_sent x' = s_sent x ++ [eofFrame id].
Proof.
  unfold side_SendEOF. destruct (s_ref x) as [q|]; [|done]. destruct (SendEOF q (s_link x)) as [l [|e]]; [|done].
  by intros [= <-].
Qed.

Lemma eofFrame_ctl : is_data (eofFrame id) = false /\ is_ctl (eofFrame id) = true.
Proof. done. Qed.

(** Sending the end of the stream. *)
Lemma sent_eof_clean sent :
  ends_clean sent -> ends_clean (sent ++ [eofFrame id]) /\
  payloads (sent ++ [eofFrame id]) = payloads sent /\
  count is_ctl (sent ++ [eofFrame id]) = count is_ctl sent + 1.
Proof.
  intros Hc. split_and!.
  - by apply ends_clean_snoc.
  - rewrite payloads_app. by apply str_app_nil.
  - by rewrite count_app.
Qed.

Lemma sent_close_clean sent code text :
  let f := closeFrame id code text in
  ends_clean sent -> ends_clean (sent ++ [f]) /\ payloads (sent ++ [f]) = payloads sent /\
  count is_ctl (sent ++ [f]) = count is_ctl sent + 1 /\ (has_eof (sent ++ [f]) -> has_eof sent).
Proof.
  cbn zeta. intros Hc. split_and!.
  - by apply ends_clean_snoc.
  - rewrite payloads_app. by apply str_app_nil.
  - by rewrite count_app.
  - intros [H|H]%has_eof_app; [done|]. apply List.Exists_cons in H as [H|H]; [done|by apply List.Exists_nil in H].
Qed.

(** Returning: the state before the deferred calls may have taken a frame that
    was not, or only partly, written. *)
Lemma return_inv r :
  rl_returned r = false ->
  (exists lost,
    conn_read (rl_conn r) = payloads (s_sent (rl_side r)) +:+ pending (rl_reader r) +:+ lost /\
    (lost <> "" -> rl_reader r = Exited /\ rl_result r <> Some EOF /\ rl_localEOF r = false)) ->
  (is_Some (rl_result r) \/ rl_localEOF r = true -> rl_reader r = Exited) ->
  (rl_localEOF r = true -> rl_result r = None) ->
  (has_eof (s_sent (rl_side r)) -> rl_localEOF r = true) ->
  ends_clean (s_sent (rl_side r)) ->
  prefix_of (conn_written (rl_conn r)) (payloads (s_got (rl_side r))) ->
  count is_ctl (s_sent (rl_side r)) <= Z.b2z (rl_localEOF r) ->
  relay_inv (RelayConn_return id r) /\ rtc (side_step id) (rl_side r) (rl_side (RelayConn_return id r)).
Proof.
  intros Hret (lost & Hread & Hlost) Hex Honce Heof Hcl Hwr Hctl.
  assert (Hsl : count is_ctl (s_sent (rl_side r)) < slack).
  { destruct (rl_localEOF r); cbn in Hctl; unfold slack, recvSlack; lia. }
  destruct (side_close_spec id (fun i => closeFrame i 0 "") (rl_side r) (closing_code 0 "") Hsl)
    as (Hst & Href & Hgot & Hack & Hsent).
  destruct (sent_close_clean (s_sent (rl_side r)) 0 "" Hcl) as (Hcl' & Hp & Hc' & He').
  unfold RelayConn_return. destruct r as [x c g rd res le re ret]. cbn -[side_close] in *.
  split; [|exact Hst].
  destruct Hsent as [Hs|Hs]; split; cbn -[side_close]; rewrite ?Hs, ?Hgot, ?Hp, ?Hc'; try done.
  - by exists lost.
  - lia.
  - by exists lost.
  - auto.
  - lia.
Qed.

(** While the reader runs it has handed over nothing and lost nothing. *)
Lemma reader_active r :
  relay_inv r -> rl_reader r <> Exited ->
  rl_result r = None /\ rl_localEOF r = false /\ ~ has_eof (s_sent (rl_side r)) /\
  conn_read (rl_conn r) = payloads (s_sent (rl_side r)) +:+ pending (rl_reader r).
Proof.
  intros [(lost & Hread & Hlost) Hex _ Heof _ _ _ _ _] Hne.
  assert (Hle : rl_localEOF r = false) by (destruct (rl_localEOF r); [tauto|done]).
  split_and!; [|done| |].
  - destruct (rl_result r); [|done]. destruct Hne. apply Hex. left. by eexists.
  - intros H. apply Heof in H. congruence.
  - destruct (decide (lost = "")) as [->|Hl]; [by rewrite Hread, str_app_nil|].
    by destruct (Hlost Hl).
Qed.

(** The reader hands over [err], or reads on, with nothing pending. *)
Lemma reader_next_inv err r :
  conn_read (rl_conn r) = payloads (s_sent (rl_side r)) -> rl_result r = None ->
  rl_localEOF r = false -> ~ has_eof (s_sent (rl_side r)) -> ends_clean (s_sent (rl_side r)) ->
  (prefix_of (conn_written (rl_conn r)) (payloads (s_got (rl_side r))) /\
    (rl_returned r = false -> conn_written (rl_conn r) = payloads (s_got (rl_side r)))) ->
  (rl_returned r = false -> s_acked (rl_side r) = count is_data (s_got (rl_side r))) ->
  count is_ctl (s_sent (rl_side r)) <= Z.b2z (rl_localEOF r) + Z.b2z (rl_returned r) ->
  relay_inv (reader_next err r).
Proof.
  intros Hread Hres Hle Heof Hcl Hwr Hack Hctl. unfold reader_next.
  rewrite Hle in Hctl. destruct err; split; cbn; rewrite ?Hres, ?Hle; try done.
  - exists "". by rewrite Hread, str_app_nil.
  - exists "". by rewrite Hread, str_app_nil.
  - intros [[? ?]|?]; done.
Qed.

Lemma read_inv data err r r' :
  relay_inv r -> reader_read data err r = Some r' ->
  relay_inv r' /\ rl_side r' = rl_side r.
Proof.
  intros Hinv. unfold reader_read. destruct (rl_reader r) eqn:Hrd; [|done..].
  intros [= <-]. destruct (reader_active r Hinv) as (Hres & Hle & Heof & Hread); [congruence|].
  rewrite Hrd in Hread. cbn [pending] in Hread. rewrite str_app_nil in Hread.
  destruct Hinv as [_ Hex _ _ Hcl Hwr Hack Hctl _].
  destruct (String.eqb_spec data "") as [->|Hne].
  - split; [apply reader_next_inv; cbn; try done; by rewrite str_app_nil|].
    unfold reader_next. by destruct err.
  - split; [|done]. split; cbn; rewrite ?Hres, ?Hle in *; try done.
    + exists "". rewrite Hread, str_app_nil. done.
    + intros [[? ?]|?]; done.
Qed.

Lemma send_inv b now r r' :
  relay_inv r -> reader_send id b now r = Some r' ->
  relay_inv r' /\ rtc (side_step id) (rl_side r) (rl_side r').
Proof.
  intros Hinv. unfold reader_send. destruct (rl_reader r) as [|payload err|] eqn:Hrd; [done| |done].
  destruct (side_SendData id b DataBinary payload (rl_side r)) as [x res] eqn:E.
  destruct (side_SendData_spec id b DataBinary payload _ _ _ (or_introl eq_refl) E)
    as (Hst & _ & Hgot & Hacked & Hsent).
  destruct (reader_active r Hinv) as (Hres & Hle & Heof & Hread); [congruence|].
  rewrite Hrd in Hread. cbn [pending] in Hread.
  destruct Hinv as [_ Hex _ _ Hcl Hwr Hack Hctl _].
  destruct res as [|[[]|e]]; [done| |]; intros [= <-].
  - split; [|by unfold reader_next; destruct err].
    apply reader_next_inv; cbn; rewrite ?Hsent, ?Hgot, ?Hacked; try done.
    + rewrite payloads_app, Hread. cbn. by rewrite str_app_nil.
    + intros [H|H]%has_eof_app; [done|]. apply List.Exists_cons in H as [H|H]; [done|by apply List.Exists_nil in H].
    + by apply ends_clean_snoc.
    + rewrite count_app. cbn. lia.
  - rewrite Hle in Hctl. split; [|done]. split; cbn; rewrite ?Hsent, ?Hgot, ?Hacked, ?Hle; try done.
    + exists payload. by rewrite Hread.
Qed.

(** What a turn establishes. *)
Definition turn_ok (r r' : Relay) : Prop :=
  relay_inv r' /\ rtc (side_step id) (rl_side r) (rl_side r').

Lemma turn_ok_side r r1 r' :
  rtc (side_step id) (rl_side r) (rl_side r1) -> turn_ok r1 r' -> turn_ok r r'.
Proof. intros H1 [H2 H3]. split; [done|by etrans]. Qed.

(** Returning from a state that satisfies the invariant. *)
Lemma return_ok r :
  rl_returned r = false -> relay_inv r -> turn_ok r (RelayConn_return id r).
Proof.
  intros Hret [Hread Hex Honce Heof Hcl [Hwr _] _ Hctl _].
  apply return_inv; try done. rewrite Hret in Hctl. cbn in Hctl. lia.
Qed.

(** Consuming a result that ends the relay. *)
Lemma result_ok e r :
  rl_returned r = false -> relay_inv r -> rl_result r = Some e ->
  turn_ok r (RelayConn_return id (set_reader (rl_reader r) None r)).
Proof.
  intros Hret [Hread Hex Honce Heof Hcl [Hwr _] _ Hctl _] Hres.
  apply (return_inv (set_reader (rl_reader r) None r)); cbn; try done.
  - destruct Hread as (lost & Hr & Hl). exists lost. split; [done|].
    intros Hne. destruct (Hl Hne) as (? & _ & ?). done.
  - intros [[? ?]|H]; [done|]. apply Hex. by right.
  - rewrite Hret in Hctl. cbn in Hctl. lia.
Qed.

(** The local end of the stream. *)
Lemma local_eof_ok r r' :
  rl_returned r = false -> relay_inv r -> rl_result r = Some EOF ->
  (let '(x, ok) := side_SendEOF id (rl_side r) in
   let r1 := set_side x (set_localEOF r) in
   if negb ok || rl_remoteEOF r then RelayConn_return id r1 else r1) = r' ->
  turn_ok r r'.
Proof.
  intros Hret [(lost & Hread & Hlost) Hex Honce Heof Hcl [Hwr Hwr'] Hack Hctl _] Hres.
  assert (Hrd : rl_reader r = Exited) by (apply Hex; left; by eexists).
  assert (lost = "") as -> by (destruct (decide (lost = "")) as [|Hne]; [done|];
    destruct (Hlost Hne) as (_ & H & _); by destruct H).
  assert (Hle : rl_localEOF r = false) by (destruct (rl_localEOF r); [|done]; rewrite Honce in Hres; done).
  rewrite Hle, Hret in Hctl. cbn in Hctl. rewrite Hrd in Hread. cbn in Hread. rewrite str_app_nil in Hread.
  destruct (side_SendEOF id (rl_side r)) as [x ok] eqn:E.
  destruct (side_SendEOF_spec id _ _ _ E) as (Hst & _ & Hgot & Hacked & Hsent).
  { unfold slack, recvSlack. lia. }
  assert (Hs : ends_clean (s_sent x) /\ payloads (s_sent x) = payloads (s_sent (rl_side r)) /\
    count is_ctl (s_sent x) <= 1).
  { destruct Hsent as [->| ->]; [split_and!; [done|done|lia]|].
    destruct (sent_eof_clean _ Hcl) as (? & ? & ->). split_and!; [done|done|lia]. }
  destruct Hs as (Hcl' & Hp & Hc'). intros <-. specialize (Hack Hret). specialize (Hwr' Hret).
  apply (turn_ok_side r (set_side x (set_localEOF r))); [done|].
  destruct ok; cbn [negb orb].
  - assert (Hi : relay_inv (set_side x (set_localEOF r))).
    { split; cbn; rewrite ?Hp, ?Hgot, ?Hacked, ?Hret, ?Hrd; try done.
      - exists "". rewrite Hread, str_app_nil. done.
      - intros _ _. rewrite (side_SendEOF_sent _ _ E). apply has_eof_app. right. by left. }
    destruct (rl_remoteEOF r); [by apply return_ok|]. split; [done|apply rtc_refl].
  - apply return_inv; cbn; rewrite ?Hp, ?Hgot, ?Hacked, ?Hret, ?Hrd; try done.
    exists "". rewrite Hread, str_app_nil. done.
Qed.

(** A frame from the peer. *)
Lemma frame_ok frame x r r1 :
  rl_returned r = false -> relay_inv r -> side_Recv (rl_side r) = Some (frame, x) ->
  is_data frame = false -> r1 = set_side x r ->
  rtc (side_step id) (rl_side r) (rl_side r1) /\ relay_inv r1 /\ rl_returned r1 = false.
Proof.
  intros Hret [Hread Hex Honce Heof Hcl [Hwr Hwr'] Hack Hctl Hann] E Hnd ->.
  destruct (side_Recv_spec id _ _ _ E) as (Hst & _ & Hgot & Hacked & Hsent).
  assert (Hp : payloads (s_got x) = payloads (s_got (rl_side r))).
  { rewrite Hgot, payloads_app. cbn. rewrite Hnd. apply str_app_nil. }
  split; [done|]. split; [|done]. split; cbn; rewrite ?Hsent, ?Hacked, ?Hp; try done.
  intros _. rewrite Hgot, count_app. cbn. rewrite Hnd. specialize (Hack Hret). lia.
Qed.

Lemma data_ok write now frame x r r' :
  rl_returned r = false -> relay_inv r -> side_Recv (rl_side r) = Some (frame, x) ->
  is_data frame = true -> is_Some (s_ref (rl_side r)) ->
  (let r1 := set_side x r in
   match write with
   | Some n => RelayConn_return id
       (set_conn (conn_on_write (str_take n (Frame_Payload frame)) (rl_conn r1)) r1)
   | None =>
       let r2 := set_conn (conn_on_write (Frame_Payload frame) (rl_conn r1)) r1 in
       let r3 := set_idle (idle_touch now (rl_idle r2)) r2 in
       set_side (side_AckData (rl_side r3)) r3
   end) = r' ->
  turn_ok r r'.
Proof.
  intros Hret [Hread Hex Honce Heof Hcl [Hwr Hwr'] Hack Hctl Hann] E Hd Href. cbn zeta.
  destruct (side_Recv_spec id _ _ _ E) as (Hst & Hr & Hgot & Hacked & Hsent).
  specialize (Hwr' Hret). specialize (Hack Hret).
  assert (Hp : payloads (s_got x) = payloads (s_got (rl_side r)) +:+ Frame_Payload frame).
  { rewrite Hgot, payloads_app. cbn. rewrite Hd. by rewrite str_app_nil. }
  assert (Hc : count is_data (s_got x) = count is_data (s_got (rl_side r)) + 1).
  { rewrite Hgot, count_app. cbn. rewrite Hd. lia. }
  destruct write as [n|]; intros <-.
  - apply (turn_ok_side r (set_conn (conn_on_write (str_take n (Frame_Payload frame)) (rl_conn r)) (set_side x r))); [done|].
    apply return_inv; cbn; rewrite ?Hsent; try done.
    + rewrite Hp, Hwr'. apply prefix_of_cong, prefix_of_take.
    + rewrite Hret in Hctl. cbn in Hctl. lia.
  - destruct (side_AckData_spec id x) as (Hst' & _ & Hgot' & Hacked' & Hsent');
      [by rewrite Hr|rewrite Hacked, Hack, Hc; lia|].
    split; [|cbn; by etrans]. split; cbn -[side_AckData]; rewrite ?Hsent', ?Hsent, ?Hgot', ?Hacked', ?Hp; try done.
    + rewrite Hwr'. split; [apply prefix_of_refl|done].
    + intros _. rewrite Hacked, Hack, Hc. done.
Qed.

Lemma RelayConn_turn_ok case now r r' :
  relay_inv r -> is_Some (s_ref (rl_side r)) -> rl_returned r = false ->
  RelayConn_turn id case now r = Some r' -> turn_ok r r'.
Proof.
  intros Hinv Href Hret. destruct case as [| | |write|]; cbn [RelayConn_turn].
  - intros [= <-]. by apply return_ok.
  - destruct (side_done _); [|done]. intros [= <-]. by apply return_ok.
  - destruct (rl_result r) as [[| |e]|] eqn:Hres; [|intros [= <-]; by eapply result_ok..|done].
    destruct (side_SendEOF id (rl_side r)) as [x ok] eqn:E. intros [= <-].
    apply local_eof_ok; try done. by rewrite E.
  - destruct (side_Recv (rl_side r)) as [[frame x]|] eqn:E; [|done].
    destruct (String.eqb (Frame_Type frame) FrameData) eqn:Hd.
    { intros H. eapply (data_ok write now frame x r); try done.
      cbn zeta in *. destruct write; by injection H. }
    destruct (frame_ok frame x r _ Hret Hinv E Hd eq_refl) as (Hst & Hi & Hret').
    destruct (String.eqb (Frame_Type frame) FrameEOF).
    { intros [= <-]. apply (turn_ok_side r _ _ Hst).
      assert (Hi2 : relay_inv (set_conn (closeWrite (rl_conn r)) (set_remoteEOF (set_side x r)))).
      { destruct Hi as [H1 H2 H2' H3 H4 H5 H6 H7 H8]. unfold closeWrite.
        destruct (conn_canCloseWrite (rl_conn r)); by split. }
      destruct (rl_localEOF _); [|split; [done|apply rtc_refl]].
      by apply (return_ok (set_conn (closeWrite (rl_conn r)) (set_remoteEOF (set_side x r)))). }
    destruct (_ || _); intros [= <-]; apply (turn_ok_side r _ _ Hst);
      [by apply return_ok|split; [done|apply rtc_refl]].
  - destruct (idle_fires _ _); [|done]. destruct (idle_expired now (rl_idle r)) as [ex g].
    assert (Hi : relay_inv (set_idle g r)) by (destruct Hinv; by split).
    intros [= <-]. destruct ex; [by apply (return_ok (set_idle g r))|split; [done|apply rtc_refl]].
Qed.

Lemma relay_step_ok r r' : relay_inv r -> relay_step id r r' -> turn_ok r r'.
Proof.
  intros Hinv Hs. revert Hinv.
  destruct Hs as [data err r r' _ _ _ H|b now r r' H|case now r r' Href Hret H]; intros Hinv.
  - destruct (read_inv data err r r' Hinv H) as [Hi Heq]. split; [done|]. rewrite Heq. apply rtc_refl.
  - by eapply send_inv.
  - by eapply RelayConn_turn_ok.
Qed.

(** ** How a direction ends *)

(** The reader has handed over how the reading of the connection ended, and the
    end of stream is announced to the peer only when it was [io.EOF]; the
    connection's write side is shut exactly when the peer's end of stream was
    taken. *)
Record relay_ends (r : Relay) : Prop := {
  re_reading : rl_reader r = Reading -> conn_ended (rl_conn r) = None;
  re_sending payload err : rl_reader r = Sending payload err -> conn_ended (rl_conn r) = err;
  re_result : rl_result r = Some EOF -> conn_ended (rl_conn r) = Some EOF;
  re_local : rl_localEOF r = true -> conn_ended (rl_conn r) = Some EOF;
  re_remote : conn_writeClosed (rl_conn r) = rl_remoteEOF r && conn_canCloseWrite (rl_conn r)
}.

Lemma ends_return r : relay_ends r -> relay_ends (RelayConn_return id r).
Proof. intros [H1 H2 H3 H4 H5]. by split. Qed.

Lemma ends_next err r :
  relay_ends (set_reader (Sending "" err) (rl_result r) r) -> relay_ends (reader_next err r).
Proof.
  intros [_ H2 H3 H4 H5]. specialize (H2 _ _ eq_refl). cbn in *. unfold reader_next.
  destruct err as [e|]; split; cbn; try done. by intros [= ->].
Qed.

Lemma ends_read data err r r' : relay_ends r -> reader_read data err r = Some r' -> relay_ends r'.
Proof.
  intros [H1 _ H3 H4 H5]. unfold reader_read. destruct (rl_reader r); [|done..]. specialize (H1 eq_refl).
  assert (Hs : forall p, relay_ends (set_reader (Sending p err) (rl_result r)
    (set_conn (conn_on_read data err (rl_conn r)) r))).
  { intros p. split; cbn; rewrite ?H1; try done; [intros ? ? [= <- <-]; by destruct err|..];
      intros H; [specialize (H3 H)|specialize (H4 H)]; congruence. }
  intros [= <-]. destruct (String.eqb data ""); [|apply Hs]. apply ends_next, (Hs "").
Qed.

Lemma ends_send b now r r' : relay_ends r -> reader_send id b now r = Some r' -> relay_ends r'.
Proof.
  intros [_ H2 H3 H4 H5]. unfold reader_send. destruct (rl_reader r) as [|payload err|] eqn:Hr; [done| |done].
  specialize (H2 _ _ eq_refl). destruct (side_SendData _ _ _ _ _) as [x [|[[]|e]]]; [done| |]; intros [= <-].
  - apply ends_next. split; cbn; try done. by intros ? ? [= <- <-].
  - by split.
Qed.

Lemma ends_turn case now r r' : relay_ends r -> RelayConn_turn id case now r = Some r' -> relay_ends r'.
Proof.
  intros Hr. pose proof Hr as [H1 H2 H3 H4 H5]. destruct case as [| | |write|]; cbn [RelayConn_turn].
  - intros [= <-]. by apply ends_return.
  - destruct (side_done _); [|done]. intros [= <-]. by apply ends_return.
  - destruct (rl_result r) as [[| |e]|] eqn:Hres; [|intros [= <-]; by apply ends_return..|done].
    specialize (H3 eq_refl). destruct (side_SendEOF id (rl_side r)) as [x ok]. intros [= <-].
    assert (Hl : relay_ends (set_side x (set_localEOF r))) by by split.
    destruct (_ || _); [by apply ends_return|done].
  - destruct (side_Recv (rl_side r)) as [[frame x]|]; [|done].
    destruct (String.eqb _ FrameData).
    { destruct write; intros [= <-]; [apply ends_return|]; by split. }
    destruct (String.eqb _ FrameEOF).
    { intros [= <-]. assert (He : relay_ends (set_conn (closeWrite (rl_conn r)) (set_remoteEOF (set_side x r)))).
      { unfold closeWrite. destruct (conn_canCloseWrite (rl_conn r)) eqn:Hc; split; cbn; rewrite ?Hc; try done.
        by rewrite H5, andb_false_r. }
      destruct (rl_localEOF _); [by apply ends_return|done]. }
    destruct (_ || _); intros [= <-]; [apply ends_return|]; by split.
  - destruct (idle_fires _ _); [|done]. destruct (idle_expired _ _) as [[] g]; intros [= <-];
      [apply ends_return|]; by split.
Qed.

(** The main loop does not touch how the reading ended. *)
Lemma turn_ended case now r r' :
  RelayConn_turn id case now r = Some r' -> conn_ended (rl_conn r') = conn_ended (rl_conn r).
Proof.
  destruct case as [| | |write|]; cbn [RelayConn_turn].
  - by intros [= <-].
  - destruct (side_done _); [|done]. by intros [= <-].
  - destruct (rl_result r) as [[| |e]|]; [|by intros [= <-]..|done].
    destruct (side_SendEOF id (rl_side r)) as [x ok]. intros [= <-]. by destruct (_ || _).
  - destruct (side_Recv (rl_side r)) as [[frame x]|]; [|done].
    destruct (String.eqb _ FrameData); [by destruct write; intros [= <-]|].
    destruct (String.eqb _ FrameEOF).
    + intros [= <-]. unfold closeWrite. by destruct (conn_canCloseWrite _), (rl_localEOF _).
    + by destruct (_ || _); intros [= <-].
  - destruct (idle_fires _ _); [|done]. destruct (idle_expired _ _) as [[] g]; by intros [= <-].
Qed.

Lemma ends_step r r' : relay_ends r -> relay_step id r r' -> relay_ends r'.
Proof.
  intros Hr Hs. revert Hr. destruct Hs as [data err r r' _ _ _ H|b now r r' H|case now r r' _ _ H]; intros Hr.
  - by apply (ends_read data err r).
  - by apply (ends_send b now r).
  - by apply (ends_turn case now r).
Qed.

Lemma ends_side x r : relay_ends r -> relay_ends (set_side x r).
Proof. intros [H1 H2 H3 H4 H5]. by split. Qed.

(** ** Monotonicity *)

Lemma return_conn r :
  conn_written (rl_conn (RelayConn_return id r)) = conn_written (rl_conn r) /\
  conn_read (rl_conn (RelayConn_return id r)) = conn_read (rl_conn r) /\
  rl_reader (RelayConn_return id r) = rl_reader r /\
  rl_remoteEOF (RelayConn_return id r) = rl_remoteEOF r /\
  (count is_ctl (s_sent (rl_side r)) < slack ->
   s_got (rl_side (RelayConn_return id r)) = s_got (rl_side r)).
Proof.
  split_and!; try done. intros Hc. cbn -[side_close].
  by destruct (side_close_spec id (fun i => closeFrame i 0 "") (rl_side r) (closing_code 0 "") Hc)
    as (_ & _ & ? & _).
Qed.

(** What was written stays written, and after the reader has gone nothing more
    is read. *)
Definition grows (r r' : Relay) : Prop :=
  prefix_of (conn_written (rl_conn r)) (conn_written (rl_conn r')) /\
  (rl_reader r = Exited -> rl_reader r' = Exited /\ conn_read (rl_conn r') = conn_read (rl_conn r)).

Lemma grows_return r r1 : grows r r1 -> grows r (RelayConn_return id r1).
Proof. done. Qed.

Lemma grows_same r r' :
  conn_written (rl_conn r') = conn_written (rl_conn r) ->
  conn_read (rl_conn r') = conn_read (rl_conn r) -> rl_reader r' = rl_reader r -> grows r r'.
Proof. intros H1 H2 H3. split; [rewrite H1; apply prefix_of_refl|by rewrite H2, H3]. Qed.

Lemma grows_write r r1 s :
  rl_conn r1 = conn_on_write s (rl_conn r) -> rl_reader r1 = rl_reader r -> grows r r1.
Proof. intros H1 H2. split; rewrite H1; [by eexists|by rewrite H2]. Qed.

Lemma turn_grows case now r r' : RelayConn_turn id case now r = Some r' -> grows r r'.
Proof.
  destruct case as [| | |write|]; cbn [RelayConn_turn].
  - intros [= <-]. by apply grows_same.
  - destruct (side_done _); [|done]. intros [= <-]. by apply grows_same.
  - destruct (rl_result r) as [[| |e]|]; [|intros [= <-]; by apply grows_same..|done].
    destruct (side_SendEOF id (rl_side r)) as [x ok]. intros [= <-].
    destruct (_ || _); by apply grows_same.
  - destruct (side_Recv (rl_side r)) as [[frame x]|]; [|done].
    destruct (String.eqb _ FrameData).
    { destruct write; intros [= <-]; [apply grows_return|]; by eapply grows_write. }
    destruct (String.eqb _ FrameEOF).
    { intros [= <-]. unfold closeWrite. cbn. destruct (conn_canCloseWrite _), (rl_localEOF r); by apply grows_same. }
    destruct (_ || _); intros [= <-]; by apply grows_same.
  - destruct (idle_fires _ _); [|done]. destruct (idle_expired _ _) as [ex g]. intros [= <-].
    destruct ex; by apply grows_same.
Qed.

Lemma relay_step_grows r r' : relay_step id r r' -> grows r r'.
Proof.
  destruct 1 as [data err r r' _ _ _ H|b now r r' H|case now r r' _ _ H].
  - unfold reader_read in H. destruct (rl_reader r) eqn:E; [|done..]. injection H as <-.
    split; [|congruence]. destruct (String.eqb data ""), err; apply prefix_of_refl.
  - unfold reader_send in H. destruct (rl_reader r) as [|p err|] eqn:E; [done| |done].
    split; [|congruence]. destruct (side_SendData _ _ _ _ _) as [x [|[[]|e]]]; [done| |];
      injection H as <-; [destruct err|]; apply prefix_of_refl.
  - by eapply turn_grows.
Qed.

(** The peer's end of stream is taken from the queue, after everything before
    it was written. *)
Lemma relay_step_remote r r' :
  relay_inv r -> relay_step id r r' -> rl_remoteEOF r' = true ->
  rl_remoteEOF r = true \/
  has_eof (s_got (rl_side r')) /\ conn_written (rl_conn r') = payloads (s_got (rl_side r')).
Proof.
  intros Hinv Hs. revert Hinv.
  destruct Hs as [data err r r' _ _ _ H|b now r r' H|case now r r' Href Hret H]; intros Hinv.
  - unfold reader_read in H. destruct (rl_reader r); [|done..]. injection H as <-.
    destruct (String.eqb data ""), err; by left.
  - unfold reader_send in H. destruct (rl_reader r) as [|p err|]; [done| |done].
    destruct (side_SendData _ _ _ _ _) as [x [|[[]|e]]]; [done| |]; injection H as <-;
      [destruct err|]; by left.
  - destruct case as [| | |write|]; cbn [RelayConn_turn] in H.
    + injection H as <-. by left.
    + destruct (side_done _); [|done]. injection H as <-. by left.
    + destruct (rl_result r) as [[| |e]|]; [|injection H as <-; by left..|done].
      destruct (side_SendEOF id (rl_side r)) as [x ok]. injection H as <-.
      destruct (_ || _); by left.
    + destruct (side_Recv (rl_side r)) as [[frame x]|] eqn:E; [|done].
      destruct (String.eqb _ FrameData) eqn:Hd.
      { destruct write; injection H as <-; by left. }
      destruct (frame_ok frame x r _ Hret Hinv E Hd eq_refl) as (_ & Hi & _).
      destruct (side_Recv_spec id _ _ _ E) as (_ & _ & Hgot & _).
      destruct (String.eqb (Frame_Type frame) FrameEOF) eqn:He.
      { intros _. right. injection H as <-. destruct (ri_written _ Hi) as [_ Hw]. specialize (Hw Hret).
        assert (He' : has_eof (s_got x)) by (rewrite Hgot; apply has_eof_app; right; by left).
        assert (Hw' : conn_written (closeWrite (rl_conn r)) = payloads (s_got x))
          by (unfold closeWrite; by destruct (conn_canCloseWrite _)).
        set (r2 := set_conn _ (set_remoteEOF _)). change (rl_localEOF r2) with (rl_localEOF r).
        destruct (rl_localEOF r) eqn:Hle; [|exact (conj He' Hw')].
        destruct (return_conn r2) as (-> & _ & _ & _ & ->); [exact (conj He' Hw')|].
        pose proof (ri_ctl _ Hi) as Hc. cbn in Hc |- *. rewrite Hle, Hret in Hc.
        unfold slack, recvSlack. cbn in Hc. lia. }
      destruct (_ || _); injection H as <-; by left.
    + destruct (idle_fires _ _); [|done]. destruct (idle_expired _ _) as [ex g]. injection H as <-.
      destruct ex; by left.
Qed.
End Discipline.

(** ** [RelayConn] as a user of its session *)

Lemma payloads_datas l : payloads (datas l) = payloads l.
Proof.
  induction l as [|f l IH]; [done|]. cbn [datas List.filter payloads]. unfold datas in IH.
  destruct (is_data f) eqn:E; cbn [payloads]; by rewrite ?E, IH.
Qed.

#[export] Instance prefix_of_preorder : PreOrder prefix_of.
Proof. split; [intros a; apply prefix_of_refl|intros a b c; apply prefix_of_trans]. Qed.

Section User.
Context {MF : Msgpack Frame} {ML : MsgpackLaws Frame} (id : string).

(** A relay that has just been started on a fresh connection. *)
Definition relay_fresh (r : Relay) : Prop :=
  exists x c timeout now, r = RelayConn_start x c timeout now /\ conn_read c = "" /\ conn_written c = "" /\
    conn_writeClosed c = false /\ conn_ended c = None.

Lemma relay_fresh_ends r : relay_fresh r -> relay_ends r.
Proof. intros (x & c & timeout & now & -> & _ & _ & Hw & He). by split. Qed.

Lemma relay_inv_stream x r :
  same_stream (rl_side r) x -> relay_inv r -> relay_inv (set_side x r).
Proof.
  intros Hsame [H1 H2 H3 H4 H5 H6 H7 H8 H9]. pose proof (same_stream_datas _ _ Hsame) as Hd.
  destruct Hsame as (Hs & Ha & _).
  assert (Hp : payloads (s_got x) = payloads (s_got (rl_side r))) by (by rewrite <- payloads_datas, Hd, payloads_datas).
  assert (Hc : count is_data (s_got x) = count is_data (s_got (rl_side r))) by (by rewrite !count_datas, Hd).
  split; cbn; rewrite ?Hs, ?Ha, ?Hp, ?Hc; done.
Qed.

Lemma no_ctl_no_eof l : count is_ctl l = 0 -> ~ has_eof l.
Proof.
  induction l as [|f l IH]; [intros _ H; by apply List.Exists_nil in H|].
  intros Hc H. cbn in Hc. pose proof (count_nonneg is_ctl l).
  apply List.Exists_cons in H as [Hf|H].
  - assert (is_ctl f = true) as Hf'; [|rewrite Hf' in Hc; lia].
    unfold is_eof in Hf. unfold is_ctl, is_data, is_window, is_open. apply String.eqb_eq in Hf. by rewrite Hf.
  - apply IH; [|done]. destruct (is_ctl f); lia.
Qed.

Lemma relay_fresh_inv r :
  relay_fresh r -> datas (s_sent (rl_side r)) = [] -> count is_ctl (s_sent (rl_side r)) = 0 ->
  s_got (rl_side r) = [] -> s_acked (rl_side r) = 0 -> relay_inv r.
Proof.
  intros (x & c & timeout & now & -> & Hrd & Hwr & _ & _) Hd Hc Hg Ha. cbn in *.
  pose proof (no_ctl_no_eof _ Hc) as He.
  split; cbn; rewrite ?Hg, ?Hrd, ?Hwr; try done.
  - exists "". by rewrite <- payloads_datas, Hd.
  - by intros [[? ?]|?].
  - intros pre f post Hs Hf. destruct He. rewrite Hs. apply has_eof_app. right. by left.
  - by rewrite Hc.
Qed.

#[export] Program Instance RelayConn_user : SessionUser Relay string id := {|
  us_side := rl_side;
  us_set_side := set_side;
  us_step := relay_step id;
  us_fresh := relay_fresh;
  us_inv := relay_inv;
  us_read := fun r => conn_read (rl_conn r);
  us_written := fun r => conn_written (rl_conn r);
  us_value := payloads;
  us_prefix := prefix_of
|}.
Next Obligation. done. Qed.
Next Obligation. by intros []. Qed.
Next Obligation. done. Qed.
Next Obligation. intros r r'. apply relay_step_ok. Qed.
Next Obligation. intros x r. apply relay_inv_stream. Qed.
Next Obligation. intros r. apply relay_fresh_inv. Qed.
Next Obligation. intros l k. rewrite payloads_app. apply prefix_of_app. Qed.
Next Obligation. intros r Hi. destruct (ri_read _ Hi) as (lost & -> & _). apply prefix_of_app. Qed.
Next Obligation. intros r Hi. apply (ri_written _ Hi). Qed.
End User.

(** ** Properties *)

(** What a [Relay] looks like once [RelayConn] has returned. *)
Record cleaned_up (id : string) (r : Relay) : Prop := {
  cu_returned : rl_returned r = true;
  cu_conn : conn_closed (rl_conn r) = true;
  cu_timer : idle_timer (rl_idle r) = None;
  cu_done : side_done (rl_side r) = true;
  cu_gone : Link_sessions (s_link (rl_side r)) !! id = None
}.

(** A frame that ends the session. *)
Definition final_frame (frame : Frame) : bool :=
  String.eqb (Frame_Type frame) FrameClose || String.eqb (Frame_Type frame) FrameError.

Section Properties.
Context {MF : Msgpack Frame} {ML : MsgpackLaws Frame} (id : string).
#[local] Set Default Proof Using "Type*".

Lemma side_close_done frame x :
  side_ok id x -> is_Some (s_ref x) -> closing frame ->
  side_done (side_close id frame x) = true /\
  Link_sessions (s_link (side_close id frame x)) !! id = None.
Proof.
  intros [Hwf Href] [r Hr] Hf. destruct x as [l ro sent got acked]. cbn in *. subst ro.
  destruct Href as (s & Hs & Hi & _). unfold side_close, side_done. cbn [s_ref s_link].
  destruct (closing_frame frame id Hf) as [Hfi _].
  assert (closeWith frame r l = removeSession id (WriteFrame (frame id) l).1) as ->.
  { unfold closeWith. rewrite Hs, Hi. by destruct (WriteFrame _ l). }
  assert (Hs1 : Link_store (WriteFrame (frame id) l).1 !! r = Some s)
    by by rewrite (proj1 (WriteFrame_store _ _)).
  split; [|apply removeSession_gone].
  pose proof (remove_done r s _ (WriteFrame_wf _ _ Hwf) Hs1) as Hrm. rewrite Hi in Hrm. by rewrite Hrm.
Qed.

Lemma return_cleaned r :
  side_ok id (rl_side r) -> is_Some (s_ref (rl_side r)) -> cleaned_up id (RelayConn_return id r).
Proof.
  intros Hok Href. destruct (side_close_done (fun i => closeFrame i 0 "") (rl_side r) Hok Href (closing_code 0 ""))
    as [H1 H2]. by split.
Qed.

(** The turns of the main loop and when it returns.  Cancellation, a closed
    session, a read or send error, a failed write, a close or error frame and
    an expired idle timer each end the relay; an end of stream ends it only
    when the opposite direction has ended too, or cannot be announced; and
    nothing else ends it. *)
Theorem RelayConn_return_reasons case now r r' :
  rl_returned r = false -> RelayConn_turn id case now r = Some r' ->
  (rl_returned r' = true <->
   match case with
   | CtxDone | SessionDone => True
   | ReadResult => rl_result r <> Some EOF \/ rl_remoteEOF r = true \/ (side_SendEOF id (rl_side r)).2 = false
   | RecvFrame write => exists frame x, side_Recv (rl_side r) = Some (frame, x) /\
       (final_frame frame = true \/ (is_data frame = true /\ write <> None) \/
        (is_eof frame = true /\ rl_localEOF r = true))
   | IdleTick => idle_timeout (rl_idle r) <= now - idle_last (rl_idle r)
   end).
Proof.
  intros Hret. destruct case as [| | |write|]; cbn [RelayConn_turn].
  - intros [= <-]. done.
  - destruct (side_done _); [|done]. intros [= <-]. done.
  - destruct (rl_result r) as [[| |e]|]; [|intros [= <-]; cbn; intuition congruence..|done].
    destruct (side_SendEOF id (rl_side r)) as [x ok]. intros [= <-].
    destruct ok, (rl_remoteEOF r); cbn; rewrite ?Hret; intuition congruence.
  - destruct (side_Recv (rl_side r)) as [[frame x]|] eqn:E; [|done].
    enough (Hcase : forall P : Prop, (final_frame frame = true \/ (is_data frame = true /\ write <> None) \/
        (is_eof frame = true /\ rl_localEOF r = true) <-> P) -> (exists frame' x',
        Some (frame, x) = Some (frame', x') /\ (final_frame frame' = true \/
        (is_data frame' = true /\ write <> None) \/ (is_eof frame' = true /\ rl_localEOF r = true))) <-> P).
    + intros H. symmetry. apply Hcase. revert H. unfold final_frame, is_data, is_eof.
      destruct (String.eqb_spec (Frame_Type frame) FrameData) as [->|];
        [destruct write; intros [= <-]; cbn; rewrite ?Hret; intuition congruence|].
      destruct (String.eqb_spec (Frame_Type frame) FrameEOF) as [->|];
        [intros [= <-]; cbn; destruct (rl_localEOF r); cbn; rewrite ?Hret; intuition congruence|].
      destruct (_ || _); intros [= <-]; cbn; rewrite ?Hret; intuition congruence.
    + intros P HP. rewrite <- HP. split; [|by eauto]. intros (f' & x' & [= <- <-] & H). done.
  - destruct (idle_fires _ _); [|done]. unfold idle_expired.
    destruct (Z.leb_spec (idle_timeout (rl_idle r) - (now - idle_last (rl_idle r))) 0);
      intros [= <-]; cbn; rewrite ?Hret; split; (done || lia).
Qed.

(** A turn that returns does so through the deferred calls. *)
Lemma turn_returns case now r r' :
  rl_returned r = false -> relay_inv r -> RelayConn_turn id case now r = Some r' ->
  rl_returned r' = true ->
  exists r1, r' = RelayConn_return id r1 /\ rtc (side_step id) (rl_side r) (rl_side r1) /\
    s_ref (rl_side r1) = s_ref (rl_side r).
Proof.
  intros Hret Hinv Hturn Hr'.
  destruct case as [| | |write|]; cbn [RelayConn_turn] in Hturn.
  - injection Hturn as <-. by exists r.
  - destruct (side_done _); [|done]. injection Hturn as <-. by exists r.
  - destruct (rl_result r) as [[| |e]|] eqn:Hres;
      [|injection Hturn as <-; by exists (set_reader (rl_reader r) None r)..|done].
    destruct (side_SendEOF id (rl_side r)) as [x ok] eqn:E. injection Hturn as <-.
    exists (set_side x (set_localEOF r)). destruct (_ || _); [|cbn in Hr'; congruence].
    destruct (side_SendEOF_spec id _ _ _ E) as (? & ? & _); [|done].
    pose proof (ri_ctl _ Hinv) as Hc. rewrite Hret in Hc. unfold slack, recvSlack.
    destruct (rl_localEOF r); cbn in Hc; lia.
  - destruct (side_Recv (rl_side r)) as [[frame x]|] eqn:E; [|done].
    destruct (side_Recv_spec id _ _ _ E) as (Hst & Hsr & _).
    destruct (String.eqb _ FrameData).
    { destruct write; injection Hturn as <-; [by eexists|cbn in Hr'; congruence]. }
    destruct (String.eqb _ FrameEOF).
    { injection Hturn as <-. cbn in Hr'. destruct (rl_localEOF r); [by eexists|cbn in Hr'; congruence]. }
    destruct (_ || _); injection Hturn as <-; [by eexists|cbn in Hr'; congruence].
  - destruct (idle_fires _ _); [|done]. destruct (idle_expired _ _) as [ex g].
    injection Hturn as <-. destruct ex; [by eexists|cbn in Hr'; congruence].
Qed.

(** C22: no relay leaks.  Whichever case makes it return, [RelayConn] leaves the
    connection closed, the idle timer stopped, and the session done and removed
    from its link; and a reader still blocked in [SendData] is released with
    [ErrSessionClosed]. *)
Theorem RelayConn_cleans_up case now r r' :
  ident id ->
  rl_returned r = false -> relay_inv r -> side_ok id (rl_side r) -> is_Some (s_ref (rl_side r)) ->
  RelayConn_turn id case now r = Some r' -> rl_returned r' = true ->
  cleaned_up id r' /\
  forall payload err, rl_reader r' = Sending payload err ->
    exists r'', reader_send id true now r' = Some r'' /\ rl_reader r'' = Exited.
Proof.
  intros Hid Hret Hinv Hok Href Hturn Hr'.
  destruct (turn_returns case now r r' Hret Hinv Hturn Hr') as (r1 & -> & Hst & Hsr).
  assert (Hok1 : side_ok id (rl_side r1)).
  { clear -Hst Hok ML Hid. induction Hst as [|a b c Hab _ IH]; [done|]. apply IH. by apply (side_sim id Hid a). }
  assert (Hcu : cleaned_up id (RelayConn_return id r1)) by (apply return_cleaned; [done|by rewrite Hsr]).
  split; [done|]. intros payload err Hrd. unfold reader_send. rewrite Hrd.
  pose proof (cu_done _ _ Hcu) as Hd. unfold side_done in Hd.
  unfold side_SendData. destruct (s_ref (rl_side (RelayConn_return id r1))) as [q|]; [|done].
  unfold SendData. destruct (Link_store _ !! q) as [s|]; [|done]. rewrite Hd, andb_false_r.
  eexists. by split.
Qed.

End Properties.

(** ** The relay and the clock

    The steps of a relay with the time they happen at, and beside it the moment
    data last moved: when a data frame was last sent to the peer, or a received
    one was last written to the connection, or the start. *)
Record Timed := mkTimed {
  tm_now : Z;
  tm_moved : Z;
  tm_relay : Relay
}.

(** The data frames that have crossed the relay, either way. *)
Definition traffic (r : Relay) : Z := count is_data (s_sent (rl_side r)) + s_acked (rl_side r).

Section Timed.
Context {MF : Msgpack Frame} (id : string).

Definition timed_after (t : Timed) (r : Relay) : Timed :=
  mkTimed (tm_now t) (if traffic (tm_relay t) <? traffic r then tm_now t else tm_moved t) r.

(** The clock advances, the link changes under the session, or the relay makes
    a step now. *)
Inductive timed_step : Timed -> Timed -> Prop :=
| ts_wait d t : 0 <= d -> timed_step t (mkTimed (tm_now t + d) (tm_moved t) (tm_relay t))
| ts_net x t :
    s_sent x = s_sent (rl_side (tm_relay t)) -> s_acked x = s_acked (rl_side (tm_relay t)) ->
    timed_step t (mkTimed (tm_now t) (tm_moved t) (set_side x (tm_relay t)))
| ts_read data err t r : reader_read data err (tm_relay t) = Some r -> timed_step t (timed_after t r)
| ts_send b t r : reader_send id b (tm_now t) (tm_relay t) = Some r -> timed_step t (timed_after t r)
| ts_turn case t r :
    rl_returned (tm_relay t) = false ->
    RelayConn_turn id case (tm_now t) (tm_relay t) = Some r -> timed_step t (timed_after t r).

(** [RelayConn] called on [c] with [idleTimeout = timeout]. *)
Definition timed_start (timeout : Z) (t : Timed) : Prop :=
  exists x c now, t = mkTimed now now (RelayConn_start x c timeout now).

(** What the guard knows: when data last moved, and a timer that is armed no
    later than the timeout after it. *)
Record timed_inv (timeout : Z) (t : Timed) : Prop := {
  ti_timeout : idle_timeout (rl_idle (tm_relay t)) = timeout;
  ti_last : idle_last (rl_idle (tm_relay t)) = tm_moved t;
  ti_past : tm_moved t <= tm_now t;
  ti_armed : rl_returned (tm_relay t) = false -> 0 < timeout ->
    exists e, idle_timer (rl_idle (tm_relay t)) = Some e /\ e <= tm_moved t + timeout;
  ti_disabled : timeout <= 0 -> idle_timer (rl_idle (tm_relay t)) = None
}.

Lemma sent_if_data {E A} (e : res E A) f l :
  is_data f = false -> count is_data (sent_if e f l) = count is_data l.
Proof. intros Hf. destruct e; [|done]. cbn. rewrite count_app. cbn. rewrite Hf. lia. Qed.

Lemma side_close_traffic frame x :
  is_data (frame id) = false ->
  count is_data (s_sent (side_close id frame x)) = count is_data (s_sent x) /\
  s_acked (side_close id frame x) = s_acked x.
Proof. intros Hf. unfold side_close. destruct (s_ref x); [|done]. split; [|done]. by apply sent_if_data. Qed.

Lemma side_SendEOF_traffic x :
  count is_data (s_sent (side_SendEOF id x).1) = count is_data (s_sent x) /\
  s_acked (side_SendEOF id x).1 = s_acked x.
Proof.
  unfold side_SendEOF. destruct (s_ref x) as [q|]; [|done]. destruct (SendEOF q (s_link x)) as [l e].
  split; [|done]. by apply sent_if_data.
Qed.

Lemma side_Recv_traffic x frame x' :
  side_Recv x = Some (frame, x') ->
  s_sent x' = s_sent x /\ s_acked x' = s_acked x /\ is_Some (s_ref x').
Proof.
  unfold side_Recv. destruct (s_ref x) as [q|]; [|done]. destruct (Recv q (s_link x)) as [[f l]|]; [|done].
  by intros [= <- <-].
Qed.

Lemma side_SendData_traffic b kind payload x x' :
  side_SendData id b kind payload x = (x', Returned (Ok tt)) ->
  count is_data (s_sent x') = count is_data (s_sent x) + 1 /\ s_acked x' = s_acked x.
Proof.
  unfold side_SendData. destruct (s_ref x) as [q|]; [|done]. destruct (SendData b q kind payload (s_link x)) as [l e].
  intros [= <- ->]. split; [|done]. cbn. rewrite count_app. cbn. lia.
Qed.

(** A step that moves no data leaves the guard's memory alone and may stop or
    re-arm its timer; one that does touches it. *)
Definition untouched (r r' : Relay) : Prop :=
  traffic r' = traffic r /\ rl_returned r' = rl_returned r /\ rl_idle r' = rl_idle r \/
  traffic r' = traffic r /\ rl_returned r' = true /\ idle_timeout (rl_idle r') = idle_timeout (rl_idle r) /\
    idle_last (rl_idle r') = idle_last (rl_idle r) /\ idle_timer (rl_idle r') = None.
Definition touched (now : Z) (r r' : Relay) : Prop :=
  traffic r < traffic r' /\ rl_returned r' = rl_returned r /\ rl_idle r' = idle_touch now (rl_idle r).

Lemma untouched_return r r1 :
  traffic r1 = traffic r -> idle_timeout (rl_idle r1) = idle_timeout (rl_idle r) ->
  idle_last (rl_idle r1) = idle_last (rl_idle r) -> untouched r (RelayConn_return id r1).
Proof.
  intros Ht Hto Hl. right. split_and!; try done. rewrite <- Ht. unfold traffic. cbn -[side_close].
  by destruct (side_close_traffic (fun i => closeFrame i 0 "") (rl_side r1) eq_refl) as [-> ->].
Qed.

Lemma read_untouched data err r r' : reader_read data err r = Some r' -> untouched r r'.
Proof.
  unfold reader_read. destruct (rl_reader r); [|done..]. intros [= <-]. left.
  by destruct (String.eqb data ""), err.
Qed.

Lemma send_touches b now r r' :
  reader_send id b now r = Some r' -> untouched r r' \/ touched now r r'.
Proof.
  unfold reader_send. destruct (rl_reader r) as [|payload err|]; [done| |done].
  destruct (side_SendData id b DataBinary payload (rl_side r)) as [x [|[[]|e]]] eqn:E; [done| |]; intros [= <-].
  - destruct (side_SendData_traffic _ _ _ _ _ E) as [H1 H2]. right.
    destruct err; (split; [unfold traffic; cbn; lia|done]).
  - left. left. split; [|done]. unfold traffic. cbn. unfold side_SendData in E.
    destruct (s_ref (rl_side r)); [|done]. destruct (SendData _ _ _ _ _) as [l [|e']]; [done|].
    by injection E as <- ->.
Qed.

Lemma turn_touches case now r r' :
  case <> IdleTick -> RelayConn_turn id case now r = Some r' -> untouched r r' \/ touched now r r'.
Proof.
  intros Hcase. destruct case as [| | |write|]; cbn [RelayConn_turn]; [| | | |done].
  - intros [= <-]. left. by apply untouched_return.
  - destruct (side_done _); [|done]. intros [= <-]. left. by apply untouched_return.
  - destruct (rl_result r) as [[| |e]|]; [|intros [= <-]; left; by apply untouched_return..|done].
    destruct (side_SendEOF id (rl_side r)) as [x ok] eqn:E. intros [= <-]. left.
    pose proof (side_SendEOF_traffic (rl_side r)) as [H1 H2]. rewrite E in H1, H2. cbn [fst] in H1, H2.
    assert (Ht : traffic (set_side x (set_localEOF r)) = traffic r) by (unfold traffic; cbn; lia).
    destruct (_ || _); [by apply untouched_return|by left].
  - destruct (side_Recv (rl_side r)) as [[frame x]|] eqn:E; [|done].
    destruct (side_Recv_traffic _ _ _ E) as (Hs & Ha & [q Hq]).
    assert (Ht : traffic (set_side x r) = traffic r) by (unfold traffic; cbn; by rewrite Hs, Ha).
    destruct (String.eqb _ FrameData).
    { destruct write; intros [= <-]; [left; by apply untouched_return|]. right.
      split; [|done]. unfold traffic in *. cbn. unfold side_AckData. rewrite Hq. cbn. rewrite Hs, Ha. lia. }
    destruct (String.eqb _ FrameEOF).
    { intros [= <-]. left. destruct (rl_localEOF _); [by apply untouched_return|by left]. }
    destruct (_ || _); intros [= <-]; left; [by apply untouched_return|by left].
Qed.

Lemma timed_untouched timeout t r :
  timed_inv timeout t -> untouched (tm_relay t) r -> timed_inv timeout (timed_after t r).
Proof.
  intros [H1 H2 H3 H4 H5] Hu. unfold timed_after.
  assert (traffic r = traffic (tm_relay t)) as -> by (destruct Hu as [Hu|Hu]; apply Hu).
  rewrite Z.ltb_irrefl. destruct Hu as [(_ & Hr & Hi)|(_ & Hr & Hto & Hl & Htm)].
  - split; cbn; by rewrite ?Hi, ?Hr.
  - split; cbn; rewrite ?Hto, ?Hl, ?Htm, ?Hr; done.
Qed.

Lemma timed_touched timeout t r :
  timed_inv timeout t -> touched (tm_now t) (tm_relay t) r -> timed_inv timeout (timed_after t r).
Proof.
  intros [H1 H2 H3 H4 H5] (Ht & Hr & Hi). unfold timed_after.
  apply Z.ltb_lt in Ht as ->. split; cbn; rewrite ?Hi, ?Hr; cbn; try done.
  intros Hret Hpos. destruct (H4 Hret Hpos) as (e & -> & He). exists e. split; [done|lia].
Qed.

(** A tick of the guard: the relay returns, or the timer is armed for the
    moment the timeout will have passed since data last moved. *)
Lemma timed_tick timeout t r :
  timed_inv timeout t -> rl_returned (tm_relay t) = false ->
  RelayConn_turn id IdleTick (tm_now t) (tm_relay t) = Some r ->
  timed_inv timeout (timed_after t r) /\
  (rl_returned r = true <-> timeout <= tm_now t - tm_moved t) /\
  (rl_returned r = false -> idle_timer (rl_idle r) = Some (tm_moved t + timeout)).
Proof.
  intros Hinv Hret. pose proof Hinv as [H1 H2 H3 H4 H5]. cbn [RelayConn_turn].
  destruct (idle_fires _ _) eqn:Hf; [|done]. unfold idle_expired. rewrite H1, H2.
  assert (Hpos : 0 < timeout).
  { destruct (Z.le_gt_cases timeout 0) as [Hle|]; [|done]. unfold idle_fires in Hf. by rewrite (H5 Hle) in Hf. }
  destruct (Z.leb_spec (timeout - (tm_now t - tm_moved t)) 0) as [Hle|Hlt]; intros [= <-].
  - split; [apply timed_untouched; [done|]; by apply untouched_return|]. cbn. split; [|done]. split; [lia|done].
  - split; [|cbn; split; [rewrite Hret; split; (done || lia)|intros _; f_equal; lia]].
    unfold timed_after. change (traffic (set_idle _ _)) with (traffic (tm_relay t)). rewrite Z.ltb_irrefl.
    split; cbn; try done; [|lia]. intros _ _. eexists. split; [done|lia].
Qed.

Lemma timed_step_inv timeout t t' : timed_inv timeout t -> timed_step t t' -> timed_inv timeout t'.
Proof.
  intros Hinv Hs. revert Hinv.
  destruct Hs as [d t Hd|x t _ _|data err t r H|b t r H|case t r Hret H]; intros Hinv.
  - destruct Hinv as [H1 H2 H3 H4 H5]. split; cbn; try done. lia.
  - destruct Hinv as [H1 H2 H3 H4 H5]. by split.
  - apply timed_untouched; [done|]. by apply (read_untouched data err).
  - destruct (send_touches _ _ _ _ H); [by apply timed_untouched|by apply timed_touched].
  - assert (Hc : case = IdleTick \/ case <> IdleTick) by (destruct case; (by left) || by right).
    destruct Hc as [->|Hc]; [by apply timed_tick|].
    destruct (turn_touches _ _ _ _ Hc H); [by apply timed_untouched|by apply timed_touched].
Qed.

Lemma timed_start_inv timeout t : timed_start timeout t -> timed_inv timeout t.
Proof.
  intros (x & c & now & ->). split; cbn; try done.
  - intros _ Hpos. apply Z.ltb_lt in Hpos as ->. eexists. split; [done|lia].
  - intros Hle. apply Z.ltb_ge in Hle as ->. done.
Qed.

(** C38: The idle guard is exact.  In every run of a relay, over any clock that
    does not go back: a tick of the idle timer ends the relay exactly when no
    data moved in either direction for the whole timeout, and otherwise arms
    the timer again for exactly the moment that would be so; a relay that was
    idle for the timeout does get its tick; and without a timeout none ever
    comes. *)
Theorem idle_guard_exact timeout t :
  reachable timed_step (timed_start timeout) t -> rl_returned (tm_relay t) = false ->
  (forall r, RelayConn_turn id IdleTick (tm_now t) (tm_relay t) = Some r ->
     (rl_returned r = true <-> timeout <= tm_now t - tm_moved t) /\
     (rl_returned r = false -> idle_timer (rl_idle r) = Some (tm_moved t + timeout))) /\
  (0 < timeout <= tm_now t - tm_moved t ->
     exists r, RelayConn_turn id IdleTick (tm_now t) (tm_relay t) = Some r /\ rl_returned r = true) /\
  (timeout <= 0 -> RelayConn_turn id IdleTick (tm_now t) (tm_relay t) = None).
Proof.
  intros Hr Hret. assert (Hinv : timed_inv timeout t).
  { revert Hr. apply reachable_inv; [apply timed_start_inv|apply timed_step_inv]. }
  split_and!.
  - intros r H. by apply timed_tick.
  - intros [Hpos Hle]. destruct (ti_armed _ _ Hinv Hret Hpos) as (e & Htm & He).
    destruct (RelayConn_turn id IdleTick (tm_now t) (tm_relay t)) as [r|] eqn:E.
    + exists r. split; [done|]. by apply (timed_tick timeout t r Hinv Hret E).
    + cbn [RelayConn_turn] in E. unfold idle_fires in E. rewrite Htm in E.
      assert ((e <=? tm_now t) = true) as Hf by (apply Z.leb_le; lia). rewrite Hf in E.
      by destruct (idle_expired _ _).
  - intros Hle. cbn [RelayConn_turn]. unfold idle_fires. by rewrite (ti_disabled _ _ Hinv Hle).
Qed.
End Timed.

(** ** Witnesses *)

#[local] Existing Instance frame_msgpack.
#[local] Existing Instance countable_msgpack_laws.

(** The accepting end of [FlowControl]'s example, with a message in its queue
    and a reader that waits for credit. *)
Definition demo_relay : Relay :=
  mkRelay demo3.2 (mkConn "ab" "" true false false None) (newIdleGuard 0 0) (Sending "ab" None) None
    false false false.

Lemma demo_relay_inv : relay_inv demo_relay.
Proof.
  split; try (vm_compute; done).
  - exists "". split; [vm_compute; reflexivity|done].
  - by intros [[? ?]|?].
  - by intros H%List.Exists_nil.
  - intros [|? ?] ? ? H; vm_compute in H; discriminate.
  - split; [exists ""|]; vm_compute; reflexivity.
Qed.

Lemma demo_relay_side : side_ok "s1" (rl_side demo_relay).
Proof.
  apply (sys_reachable_inv "s1" s1_ident demo_open accept_all demo3 demo3_reachable).
Qed.

Lemma RelayConn_return_reasons_witness :
  exists r', RelayConn_turn "s1" (RecvFrame (Some 1%nat)) 0 demo_relay = Some r' /\ rl_returned r' = true.
Proof.
  destruct (RelayConn_turn "s1" (RecvFrame (Some 1%nat)) 0 demo_relay) as [r'|] eqn:E;
    [|vm_compute in E; discriminate].
  exists r'. split; [reflexivity|].
  apply (RelayConn_return_reasons "s1" (RecvFrame (Some 1%nat)) 0 demo_relay r' eq_refl E).
  exists (dataFrame "s1" DataText "hi"). eexists. split; [vm_compute; reflexivity|].
  right. left. split; [reflexivity|discriminate].
Defined.

Lemma RelayConn_cleans_up_witness :
  exists r', RelayConn_turn "s1" CtxDone 0 demo_relay = Some r' /\ cleaned_up "s1" r' /\
    exists r'', reader_send "s1" true 0 r' = Some r'' /\ rl_reader r'' = Exited.
Proof.
  exists (RelayConn_return "s1" demo_relay). split; [reflexivity|].
  assert (Href : is_Some (s_ref (rl_side demo_relay))) by (exists 0%nat; vm_compute; reflexivity).
  destruct (RelayConn_cleans_up "s1" CtxDone 0 demo_relay _ s1_ident eq_refl demo_relay_inv
    demo_relay_side Href eq_refl eq_refl) as [H1 H2].
  split; [exact H1|]. exact (H2 "ab" None eq_refl).
Defined.

(** A relay with a timeout of 10 that writes a message at time 4: the tick at 10
    re-arms the timer for 14, and the one at 14 ends the relay. *)
Definition quiet0 : Timed := mkTimed 0 0 (RelayConn_start demo3.2 (mkConn "" "" true false false None) 10 0).
Definition quiet_write (t : Timed) : Timed :=
  timed_after t (default (tm_relay t) (RelayConn_turn "s1" (RecvFrame None) (tm_now t) (tm_relay t))).
Definition quiet_tick (t : Timed) : Timed :=
  timed_after t (default (tm_relay t) (RelayConn_turn "s1" IdleTick (tm_now t) (tm_relay t))).
Definition quiet_wait (d : Z) (t : Timed) : Timed := mkTimed (tm_now t + d) (tm_moved t) (tm_relay t).
Definition quiet14 : Timed := quiet_wait 4 (quiet_tick (quiet_wait 6 (quiet_write (quiet_wait 4 quiet0)))).

Lemma quiet14_reachable : reachable (timed_step "s1") (timed_start 10) quiet14.
Proof.
  exists quiet0. split; [by eexists _, _, _|].
  eapply rtc_l; [apply (ts_wait "s1" 4); lia|].
  eapply rtc_l; [eapply (ts_turn "s1" (RecvFrame None)); vm_compute; reflexivity|].
  eapply rtc_l; [apply (ts_wait "s1" 6); lia|].
  eapply rtc_l; [eapply (ts_turn "s1" IdleTick); vm_compute; reflexivity|].
  eapply rtc_l; [apply (ts_wait "s1" 4); lia|].
  match goal with |- rtc _ ?a _ => assert (a = quiet14) as -> by (vm_compute; reflexivity) end. apply rtc_refl.
Qed.

Lemma idle_guard_exact_witness :
  tm_moved quiet14 = 4 /\ idle_timer (rl_idle (tm_relay quiet14)) = Some 14 /\
  exists r, RelayConn_turn "s1" IdleTick 14 (tm_relay quiet14) = Some r /\ rl_returned r = true.
Proof.
  split; [vm_compute; reflexivity|]. split; [vm_compute; reflexivity|].
  assert (Hret : rl_returned (tm_relay quiet14) = false) by (vm_compute; reflexivity).
  destruct (idle_guard_exact "s1" 10 quiet14 quiet14_reachable Hret) as (_ & H & _).
  apply H. vm_compute. split; congruence.
Defined.
