(* ===== verification/RelayPipe.v ===== *)
(** * A connection relayed end to end

    [RelayConn] ([internal/datatunnel/relay.go]) at both ends of a session: what
    one side's connection reads, the other side's connection is given, and a
    half-close ([half_closed]) arrives after the last byte, only when the
    connection ended with [io.EOF], and shuts the other's write side. *)
From S2P Require Import Prelude GoString GoStd Msgpack TunnelEnvelope Link FlowSpec FlowControl SessionUser Pipe Relay.

#[local] Open Scope Z_scope.
#[local] Set Default Proof Using "Type*".

Section RelayPipe.
Context {MF : Msgpack Frame} {ML : MsgpackLaws Frame}.
Context (id : string) (id_ident : ident id).
Context (o : Frame) (onOpen : Frame -> Link -> Link) {ACC : Acceptor id o onOpen}.

#[local] Abbreviation step := (pipe_step (R := Relay) id onOpen).
#[local] Abbreviation init := (pipe_init (R := Relay) id o).

(** An end of stream that was delivered was preceded by everything read. *)
Lemma delivered_eof x y :
  relay_inv x -> relay_ends x -> delivered (rl_side x) (rl_side y) -> has_eof (s_got (rl_side y)) ->
  rl_reader x = Exited /\ conn_ended (rl_conn x) = Some EOF /\
  payloads (s_got (rl_side y)) = conn_read (rl_conn x).
Proof.
  intros [(lost & Hread & Hlost) Hex _ Heof Hcl _ _ _ _] Hends [rest Hrest] He.
  assert (Hle : rl_localEOF x = true) by (apply Heof; rewrite Hrest; apply has_eof_app; by left).
  assert (Hrd : rl_reader x = Exited) by (apply Hex; by right).
  split; [done|]. split; [by apply re_local|]. assert (lost = "") as -> by (destruct (decide (lost = "")) as [|Hne]; [done|];
    destruct (Hlost Hne) as (_ & _ & H); congruence).
  rewrite Hread, Hrd, Hrest, payloads_app. cbn. rewrite !str_app_nil.
  apply List.Exists_exists in He as (f & Hin & Hf).
  apply list_elem_of_In, list_elem_of_split in Hin as (pre & post & Hsplit).
  rewrite Hsplit in Hrest. rewrite <- app_assoc, <- app_comm_cons in Hrest.
  pose proof (Hcl _ _ _ Hrest Hf) as H0. rewrite count_app in H0.
  pose proof (count_nonneg is_data post). pose proof (count_nonneg is_data rest).
  rewrite (payloads_no_data rest) by lia. by rewrite str_app_nil.
Qed.

Lemma prefix_of_antisym a b : prefix_of a b -> prefix_of b a -> a = b.
Proof.
  intros [c ->] [d Hd]. assert (c = "") as ->; [|by rewrite str_app_nil].
  apply (f_equal String.length) in Hd. rewrite !length_app_str in Hd.
  destruct c; [done|]. cbn in Hd. lia.
Qed.

(** Once a relay has taken its peer's end of stream, everything is there, the
    peer's connection had ended, and its own write side is shut; and the write
    side is shut for no other reason. *)
Record pipe_direction (x y : Relay) : Prop := {
  pd_eof : rl_remoteEOF y = true ->
    rl_reader x = Exited /\ conn_ended (rl_conn x) = Some EOF /\
    conn_written (rl_conn y) = conn_read (rl_conn x);
  pd_ends : relay_ends x
}.

Lemma direction_step x y y' :
  relay_inv x -> relay_inv y -> relay_inv y' -> delivered (rl_side x) (rl_side y') ->
  relay_step id y y' -> pipe_direction x y -> pipe_direction x y'.
Proof.
  intros Hx Hy Hy' Hd Hs [He Hends]. split; [|done]. intros Hr.
  destruct (relay_step_remote id y y' Hy Hs Hr) as [Hold|[Heof Hw]].
  - destruct (He Hold) as (Hrd & Hend & Heq). split_and!; [done..|].
    destruct (relay_step_grows id y y' Hs) as [Hg _]. apply prefix_of_antisym.
    + by apply (written_read (SU := RelayConn_user id) id id_ident o onOpen x y').
    + by rewrite <- Heq.
  - destruct (delivered_eof x y' Hx Hends Hd Heof) as (Hrd & Hend & Heq). split_and!; [done..|congruence].
Qed.

(** A reader that has gone does not change how its connection ended. *)
Lemma exited_ended x x' :
  relay_step id x x' -> rl_reader x = Exited -> conn_ended (rl_conn x') = conn_ended (rl_conn x).
Proof.
  intros Hs. destruct Hs as [data err r r' _ _ _ H|b now r r' H|case now r r' _ _ H]; intros Hr.
  - unfold reader_read in H. by rewrite Hr in H.
  - unfold reader_send in H. by rewrite Hr in H.
  - by apply (turn_ended id case now).
Qed.

Lemma direction_source x x' y :
  relay_step id x x' -> pipe_direction x y -> pipe_direction x' y.
Proof.
  intros Hs [He Hends]. split; [|by apply (ends_step id x)].
  intros Hr. destruct (He Hr) as (Hrd & Hend & Heq).
  destruct (relay_step_grows id x x' Hs) as [_ Hg]. destruct (Hg Hrd) as [? ->].
  by rewrite (exited_ended x x' Hs Hrd).
Qed.

(** What the network does to an end does not concern the direction. *)
Lemma direction_side sx sy x y :
  pipe_direction x y -> pipe_direction (set_side sx x) (set_side sy y).
Proof. intros [He Hends]. split; [exact He|by apply ends_side]. Qed.

Lemma set_side_id x : set_side (rl_side x) x = x.
Proof. by destruct x. Qed.

Lemma direction_left sx x y : pipe_direction x y -> pipe_direction (set_side sx x) y.
Proof. intros H. rewrite <- (set_side_id y). by apply direction_side. Qed.

Lemma direction_right sy x y : pipe_direction x y -> pipe_direction x (set_side sy y).
Proof. intros H. rewrite <- (set_side_id x). by apply direction_side. Qed.

Definition both_directions (p : Relay * Relay) : Prop :=
  pipe_inv id o onOpen p /\ pipe_direction p.1 p.2 /\ pipe_direction p.2 p.1.

Lemma relay_pipe_step p p' : both_directions p -> step p p' -> both_directions p'.
Proof.
  intros (Hinv & H1 & H2) Hs.
  pose proof (pipe_step_inv id id_ident o onOpen p p' Hinv Hs) as Hinv'.
  split; [done|]. pose proof (pi_sys _ _ _ _ Hinv') as Hr'.
  destruct (reachable_delivered id id_ident o onOpen _ _ Hr') as [Hthere Hback].
  pose proof (pi_left _ _ _ _ Hinv) as Hx. pose proof (pi_right _ _ _ _ Hinv) as Hy.
  pose proof (pi_left _ _ _ _ Hinv') as Hx'. pose proof (pi_right _ _ _ _ Hinv') as Hy'.
  destruct Hs as [x x' y Hs|x y y' Hs|x y l' Ho|x y l' Ho|x y Href|x y Href|x y r Href|x y r Href|
    x y drop data rest Hout|x y drop data rest Hout]; cbn [fst snd us_set_side RelayConn_user] in *;
    try (split; first [by apply direction_side|by apply direction_left|by apply direction_right]).
  - split; [by apply (direction_source x x')|by apply (direction_step y x x')].
  - split; [by apply (direction_step x y y')|by apply (direction_source y y')].
Qed.

Lemma relay_pipe_init p : init p -> both_directions p.
Proof.
  intros Hp. split; [by apply (pipe_init_inv id id_ident o onOpen)|].
  destruct Hp as (_ & Hx & Hy). pose proof (relay_fresh_ends _ Hx). pose proof (relay_fresh_ends _ Hy).
  destruct Hx as (? & ? & ? & ? & Hx & _), Hy as (? & ? & ? & ? & Hy & _).
  split; split; try done; [by rewrite Hy|by rewrite Hx].
Qed.

(** ** Properties *)

(** Bytes are relayed faithfully.  Whatever the scheduling, the chunking of
    reads, the failures of either connection and the other sessions of the
    links: what has been written to the connection at one end is a prefix of
    what was read from the connection at the other end, in both directions. *)
Theorem relay_faithful x y :
  reachable step init (x, y) ->
  prefix_of (conn_written (rl_conn y)) (conn_read (rl_conn x)) /\
  prefix_of (conn_written (rl_conn x)) (conn_read (rl_conn y)).
Proof. exact (pipe_faithful id id_ident o onOpen x y). Qed.

(** Half-close is end-to-end and never truncates.  When a relay has taken its
    peer's end of stream, the peer had read [io.EOF] from its own connection, not
    another error, every byte it ever read has been written, and the write side
    of this connection is shut if it can be; it is shut only then.  A relay whose
    own connection has ended announces it to the peer, or returns. *)
Record half_closed (x y : Relay) : Prop := {
  hc_complete : rl_remoteEOF y = true ->
    conn_ended (rl_conn x) = Some EOF /\ conn_written (rl_conn y) = conn_read (rl_conn x);
  hc_shut : conn_writeClosed (rl_conn y) = rl_remoteEOF y && conn_canCloseWrite (rl_conn y);
  hc_announced : rl_localEOF x = true ->
    conn_ended (rl_conn x) = Some EOF /\ (rl_returned x = false -> has_eof (s_sent (rl_side x)))
}.

Theorem relay_half_close x y :
  reachable step init (x, y) -> half_closed x y /\ half_closed y x.
Proof.
  intros Hr. cut (both_directions (x, y)).
  { intros (Hi & [H1 E1] & [H2 E2]). pose proof (pi_left _ _ _ _ Hi) as Ix. pose proof (pi_right _ _ _ _ Hi) as Iy.
    split; split; try (by apply re_remote).
    - intros H. by destruct (H1 H) as (_ & ? & ?).
    - intros H. split; [by apply re_local|by apply ri_announced].
    - intros H. by destruct (H2 H) as (_ & ? & ?).
    - intros H. split; [by apply re_local|by apply ri_announced]. }
  revert Hr. apply reachable_inv; [apply relay_pipe_init|apply relay_pipe_step].
Qed.
End RelayPipe.
