(* ===== verification/WsRelay.v ===== *)
(** * Relaying WebSocket messages

    [RelayWebSocket] of [internal/datatunnel/relay.go]: like [RelayConn] a
    reader and a main loop, but messages keep their boundaries and their type,
    and a close handshake carries its code and text across the tunnel. *)
From S2P Require Import Prelude GoString GoStd Msgpack TunnelEnvelope Link FlowSpec FlowControl SessionUser Pipe Relay.

#[local] Open Scope Z_scope.

Inductive ws_message_type := TextMessage | BinaryMessage | OtherMessage.

(** A WebSocket: the text and binary messages read and written so far, each
    with its kind, and the close message sent. *)
Record Ws := mkWs {
  ws_read : list (string * string);
  ws_written : list (string * string);
  ws_closeMessage : option (Z * string);
  ws_closed : bool
}.

Definition ws_on_read (kind payload : string) (w : Ws) : Ws :=
  mkWs (ws_read w ++ [(kind, payload)]) (ws_written w) (ws_closeMessage w) (ws_closed w).
Definition ws_WriteMessage (kind payload : string) (w : Ws) : Ws :=
  mkWs (ws_read w) (ws_written w ++ [(kind, payload)]) (ws_closeMessage w) (ws_closed w).
Definition ws_WriteControl (code : Z) (text : string) (w : Ws) : Ws :=
  mkWs (ws_read w) (ws_written w) (Some (code, text)) (ws_closed w).
Definition ws_Close (w : Ws) : Ws :=
  mkWs (ws_read w) (ws_written w) (ws_closeMessage w) true.

(** The errors of [ws.ReadMessage] and [session.SendData]. *)
Inductive ws_error :=
| CloseError (code : Z) (text : string)    (** [*websocket.CloseError] *)
| WsReadFailed
| WsSendFailed (e : link_error).

Inductive ws_reader_state :=
| WsReading
| WsSending (kind payload : string)
| WsExited.

Record WsRelay := mkWsRelay {
  wr_side : Side;
  wr_ws : Ws;
  wr_idle : idleGuard;
  wr_reader : ws_reader_state;
  wr_result : option ws_error;
  wr_returned : bool
}.

Definition wset_side x r := mkWsRelay x (wr_ws r) (wr_idle r) (wr_reader r) (wr_result r) (wr_returned r).
Definition wset_ws w r := mkWsRelay (wr_side r) w (wr_idle r) (wr_reader r) (wr_result r) (wr_returned r).
Definition wset_idle g r := mkWsRelay (wr_side r) (wr_ws r) g (wr_reader r) (wr_result r) (wr_returned r).
Definition wset_reader s e r := mkWsRelay (wr_side r) (wr_ws r) (wr_idle r) s e (wr_returned r).
Definition wset_returned r := mkWsRelay (wr_side r) (wr_ws r) (wr_idle r) (wr_reader r) (wr_result r) true.

(** [dataKind] of a message read, and the message type written for a frame. *)
Definition kind_of_type (t : ws_message_type) : option string :=
  match t with
  | TextMessage => Some DataText
  | BinaryMessage => Some DataBinary
  | OtherMessage => None
  end.
Definition written_kind (frame : Frame) : string :=
  if String.eqb (Frame_DataKind frame) DataText then DataText else DataBinary.

Section WsRelay.
Context {MF : Msgpack Frame} (id : string).

(** [ws.ReadMessage()] returns a message or an error. *)
Definition ws_reader_read (result : ws_error + ws_message_type * string) (r : WsRelay) : option WsRelay :=
  match wr_reader r with
  | WsReading =>
      match result with
      | inl e => Some (wset_reader WsExited (Some e) r)
      | inr (t, payload) =>
          match kind_of_type t with
          | None => Some r
          | Some kind =>
              Some (wset_reader (WsSending kind payload) (wr_result r)
                      (wset_ws (ws_on_read kind payload (wr_ws r)) r))
          end
      end
  | _ => None
  end.

Definition ws_reader_send (prefer_done : bool) (now : Z) (r : WsRelay) : option WsRelay :=
  match wr_reader r with
  | WsSending kind payload =>
      match side_SendData id prefer_done kind payload (wr_side r) with
      | (_, Blocked) => None
      | (x, Returned (Err e)) => Some (wset_reader WsExited (Some (WsSendFailed e)) (wset_side x r))
      | (x, Returned (Ok _)) =>
          Some (wset_reader WsReading (wr_result r) (wset_idle (idle_touch now (wr_idle r)) (wset_side x r)))
      end
  | _ => None
  end.

(** The deferred calls. *)
Definition RelayWebSocket_return (r : WsRelay) : WsRelay :=
  let r1 := wset_idle (idle_stop (wr_idle r)) r in
  let r2 := wset_ws (ws_Close (wr_ws r1)) r1 in
  wset_returned (wset_side (side_close id (fun i => closeFrame i 0 "") (wr_side r2)) r2).

(** The ready case of the [select]; for a frame, whether a write to the
    WebSocket succeeds. *)
Inductive ws_case :=
| WsCtxDone
| WsSessionDone
| WsReadResult
| WsRecvFrame (write_ok : bool)
| WsIdleTick.

Definition RelayWebSocket_turn (case : ws_case) (now : Z) (r : WsRelay) : option WsRelay :=
  match case with
  | WsCtxDone => Some (RelayWebSocket_return r)
  | WsSessionDone => if side_done (wr_side r) then Some (RelayWebSocket_return r) else None
  | WsReadResult =>
      match wr_result r with
      | None => None
      | Some (CloseError code text) =>
          let r1 := wset_reader (wr_reader r) None r in
          Some (RelayWebSocket_return
                  (wset_side (side_close id (fun i => closeFrame i code text) (wr_side r1)) r1))
      | Some _ => Some (RelayWebSocket_return (wset_reader (wr_reader r) None r))
      end
  | WsRecvFrame write_ok =>
      match side_Recv (wr_side r) with
      | None => None
      | Some (frame, x) =>
          let r1 := wset_side x r in
          if String.eqb (Frame_Type frame) FrameData then
            if write_ok then
              let r2 := wset_ws (ws_WriteMessage (written_kind frame) (Frame_Payload frame) (wr_ws r1)) r1 in
              let r3 := wset_idle (idle_touch now (wr_idle r2)) r2 in
              Some (wset_side (side_AckData (wr_side r3)) r3)
            else Some (RelayWebSocket_return r1)
          else if String.eqb (Frame_Type frame) FrameClose then
            let r2 :=
              if Frame_CloseCode frame =? 0 then r1
              else wset_ws (ws_WriteControl (Frame_CloseCode frame) (Frame_Payload frame) (wr_ws r1)) r1 in
            Some (RelayWebSocket_return r2)
          else if String.eqb (Frame_Type frame) FrameEOF || String.eqb (Frame_Type frame) FrameError
          then Some (RelayWebSocket_return r1)
          else Some r1
      end
  | WsIdleTick =>
      if idle_fires now (wr_idle r) then
        let '(expired, g) := idle_expired now (wr_idle r) in
        Some (if expired then RelayWebSocket_return (wset_idle g r) else wset_idle g r)
      else None
  end.

Definition RelayWebSocket_start (x : Side) (w : Ws) (timeout now : Z) : WsRelay :=
  mkWsRelay x w (newIdleGuard timeout now) WsReading None false.

Inductive ws_step : WsRelay -> WsRelay -> Prop :=
| ws_read_step result r r' :
    is_Some (s_ref (wr_side r)) -> (forall e, result <> inl (WsSendFailed e)) ->
    ws_reader_read result r = Some r' -> ws_step r r'
| ws_send_step b now r r' : ws_reader_send b now r = Some r' -> ws_step r r'
| ws_turn_step case now r r' :
    is_Some (s_ref (wr_side r)) -> wr_returned r = false ->
    RelayWebSocket_turn case now r = Some r' -> ws_step r r'.
End WsRelay.

(** ** The invariant *)

(** The messages of a stream, as written at its end. *)
Definition messages (l : list Frame) : list (string * string) :=
  map (fun f => (written_kind f, Frame_Payload f)) (datas l).

Lemma messages_app l k : messages (l ++ k) = messages l ++ messages k.
Proof. unfold messages. by rewrite datas_app, map_app. Qed.

Definition ws_pending (s : ws_reader_state) : list (string * string) :=
  match s with WsSending k p => [(k, p)] | _ => [] end.

Record ws_inv (r : WsRelay) : Prop := {
  wi_read : exists lost, ws_read (wr_ws r) = messages (s_sent (wr_side r)) ++ ws_pending (wr_reader r) ++ lost /\
    (wr_reader r <> WsExited -> lost = []);
  wi_kind : match wr_reader r with WsSending k _ => k = DataBinary \/ k = DataText | _ => True end;
  wi_written : ws_written (wr_ws r) `prefix_of` messages (s_got (wr_side r)) /\
    (wr_returned r = false -> ws_written (wr_ws r) = messages (s_got (wr_side r)));
  wi_acked : wr_returned r = false -> s_acked (wr_side r) = count is_data (s_got (wr_side r));
  wi_ctl : count is_ctl (s_sent (wr_side r)) <= (if wr_returned r then 2 else 0)
}.

Section Discipline.
Context {MF : Msgpack Frame} {ML : MsgpackLaws Frame} (id : string).

Definition ws_ok (r r' : WsRelay) : Prop :=
  ws_inv r' /\ rtc (side_step id) (wr_side r) (wr_side r').

Lemma ws_ok_side r r1 r' :
  rtc (side_step id) (wr_side r) (wr_side r1) -> ws_ok r1 r' -> ws_ok r r'.
Proof. intros H1 [H2 H3]. split; [done|by etrans]. Qed.

Lemma messages_no_data l : count is_data l = 0 -> messages l = [].
Proof. rewrite count_datas. unfold messages. destruct (datas l); cbn; [done|lia]. Qed.

Lemma messages_snoc_ctl l f : is_data f = false -> messages (l ++ [f]) = messages l.
Proof.
  intros Hf. rewrite messages_app. unfold messages at 2. cbn. rewrite Hf. apply app_nil_r.
Qed.

(** Sending a close frame leaves the messages alone. *)
Lemma ws_close_spec code text x :
  count is_ctl (s_sent x) < slack ->
  let x' := side_close id (fun i => closeFrame i code text) x in
  rtc (side_step id) x x' /\ s_ref x' = s_ref x /\ s_got x' = s_got x /\ s_acked x' = s_acked x /\
  messages (s_sent x') = messages (s_sent x) /\ count is_ctl (s_sent x') <= count is_ctl (s_sent x) + 1.
Proof.
  intros Hc x'. destruct (side_close_spec id _ x (closing_code code text) Hc)
    as (Hst & Href & Hgot & Hack & Hsent). split_and!; try done.
  - destruct Hsent as [Hs|Hs]; unfold x'; rewrite Hs; [done|by apply messages_snoc_ctl].
  - destruct Hsent as [Hs|Hs]; unfold x'; rewrite Hs; [lia|]. rewrite count_app. cbn. lia.
Qed.

(** Returning, possibly with a frame taken and not written, and with at most
    one close already sent. *)
Lemma ws_return_ok r :
  (exists lost, ws_read (wr_ws r) = messages (s_sent (wr_side r)) ++ ws_pending (wr_reader r) ++ lost /\
    (wr_reader r <> WsExited -> lost = [])) ->
  match wr_reader r with WsSending k _ => k = DataBinary \/ k = DataText | _ => True end ->
  ws_written (wr_ws r) `prefix_of` messages (s_got (wr_side r)) ->
  count is_ctl (s_sent (wr_side r)) <= 1 ->
  ws_ok r (RelayWebSocket_return id r).
Proof.
  intros (lost & Hread & Hlost) Hk Hw Hc.
  destruct (ws_close_spec 0 "" (wr_side r)) as (Hst & Href & Hgot & Hack & Hm & Hc');
    [unfold slack, recvSlack; lia|].
  split; [|done]. unfold RelayWebSocket_return.
  split; cbn -[side_close]; rewrite ?Hgot, ?Hm; try done; [by exists lost|lia].
Qed.

Lemma ws_read_inv result r r' :
  ws_inv r -> ws_reader_read result r = Some r' -> ws_inv r' /\ wr_side r' = wr_side r.
Proof.
  intros Hinv. pose proof Hinv as [(lost & Hread & Hlost) Hk Hw Hack Hctl].
  unfold ws_reader_read. destruct (wr_reader r) eqn:Hrd; [|done..].
  rewrite (Hlost ltac:(done)) in Hread. cbn in Hread. rewrite app_nil_r in Hread.
  destruct result as [e|[t payload]]; [|destruct (kind_of_type t) as [kind|] eqn:Ht]; intros [= <-].
  - split; [|done]. split; cbn; try done. exists []. by rewrite app_nil_r.
  - split; [|done]. split; cbn; try done.
    + exists []. by rewrite Hread.
    + destruct t; cbn in Ht; [injection Ht as <-; by right|injection Ht as <-; by left|done].
  - done.
Qed.

Lemma ws_send_inv b now r r' :
  ws_inv r -> ws_reader_send id b now r = Some r' -> ws_ok r r'.
Proof.
  intros [(lost & Hread & Hlost) Hk Hw Hack Hctl].
  unfold ws_reader_send. destruct (wr_reader r) as [|kind payload|] eqn:Hrd; [done| |done].
  rewrite (Hlost ltac:(done)) in Hread. cbn in Hread.
  destruct (side_SendData id b kind payload (wr_side r)) as [x res] eqn:E.
  destruct (side_SendData_spec id b kind payload _ _ _ Hk E) as (Hst & _ & Hgot & Hacked & Hsent).
  destruct res as [|[[]|e]]; [done| |]; intros [= <-]; (split; [|done]).
  - split; cbn; rewrite ?Hsent, ?Hgot, ?Hacked; try done.
    + exists []. rewrite messages_app, Hread, !app_nil_r.
      unfold messages at 3. cbn. unfold written_kind. cbn.
      destruct Hk as [-> | ->]; done.
    + rewrite count_app. cbn. by rewrite Z.add_0_r.
  - split; cbn; rewrite ?Hsent, ?Hgot, ?Hacked; try done. by exists [(kind, payload)].
Qed.

Lemma ws_data_ok write_ok now frame x r r' :
  wr_returned r = false -> ws_inv r -> side_Recv (wr_side r) = Some (frame, x) ->
  is_data frame = true -> is_Some (s_ref (wr_side r)) ->
  (if write_ok : bool then
     let r1 := wset_side x r in
     let r2 := wset_ws (ws_WriteMessage (written_kind frame) (Frame_Payload frame) (wr_ws r1)) r1 in
     let r3 := wset_idle (idle_touch now (wr_idle r2)) r2 in
     wset_side (side_AckData (wr_side r3)) r3
   else RelayWebSocket_return id (wset_side x r)) = r' ->
  ws_ok r r'.
Proof.
  intros Hret [Hread Hk [Hw Hw'] Hack Hctl] E Hd Href. cbn zeta.
  destruct (side_Recv_spec id _ _ _ E) as (Hst & Hr & Hgot & Hacked & Hsent).
  specialize (Hw' Hret). specialize (Hack Hret). rewrite Hret in Hctl.
  assert (Hp : messages (s_got x) = messages (s_got (wr_side r)) ++ [(written_kind frame, Frame_Payload frame)]).
  { rewrite Hgot, messages_app. unfold messages at 2. cbn. by rewrite Hd. }
  assert (Hc : count is_data (s_got x) = count is_data (s_got (wr_side r)) + 1).
  { rewrite Hgot, count_app. cbn. rewrite Hd. lia. }
  destruct write_ok; intros <-.
  - destruct (side_AckData_spec id x) as (Hst' & _ & Hgot' & Hacked' & Hsent');
      [by rewrite Hr|rewrite Hacked, Hack, Hc; lia|].
    split; [|cbn; by etrans].
    split; cbn -[side_AckData]; rewrite ?Hsent', ?Hsent, ?Hgot', ?Hacked', ?Hp, ?Hret; try done.
    + by rewrite Hw'.
    + intros _. rewrite Hacked, Hack, Hc. done.
  - apply (ws_ok_side r (wset_side x r)); [done|]. apply ws_return_ok; cbn; rewrite ?Hsent; try done; [|lia].
    rewrite Hp, Hw'. by apply prefix_app_r.
Qed.

Lemma ws_frame_ok frame x r :
  wr_returned r = false -> ws_inv r -> side_Recv (wr_side r) = Some (frame, x) ->
  is_data frame = false ->
  rtc (side_step id) (wr_side r) x /\ ws_inv (wset_side x r).
Proof.
  intros Hret [Hread Hk [Hw Hw'] Hack Hctl] E Hd.
  destruct (side_Recv_spec id _ _ _ E) as (Hst & Hr & Hgot & Hacked & Hsent). split; [done|].
  split; cbn; rewrite ?Hsent, ?Hacked, ?Hgot, ?messages_snoc_ctl by done; try done.
  intros _. rewrite count_app. cbn. rewrite Hd. specialize (Hack Hret). lia.
Qed.

Lemma ws_inv_return r : wr_returned r = false -> ws_inv r -> ws_ok r (RelayWebSocket_return id r).
Proof.
  intros Hret [Hread Hk [Hw _] _ Hctl]. apply ws_return_ok; try done. rewrite Hret in Hctl. lia.
Qed.

(** Return from a state whose WebSocket or reader changed, but not what it
    read, wrote or is about to send. *)
Lemma ws_inv_return' r r1 :
  wr_returned r = false -> ws_inv r -> wr_side r1 = wr_side r -> wr_reader r1 = wr_reader r ->
  ws_read (wr_ws r1) = ws_read (wr_ws r) -> ws_written (wr_ws r1) = ws_written (wr_ws r) ->
  ws_ok r (RelayWebSocket_return id r1).
Proof.
  intros Hret [Hread Hk [Hw _] _ Hctl] H1 H2 H3 H4. rewrite Hret in Hctl.
  apply (ws_ok_side r r1); [by rewrite H1|].
  apply ws_return_ok; rewrite ?H1, ?H2, ?H3, ?H4; try done. lia.
Qed.

Lemma RelayWebSocket_turn_ok case now r r' :
  ws_inv r -> is_Some (s_ref (wr_side r)) -> wr_returned r = false ->
  RelayWebSocket_turn id case now r = Some r' -> ws_ok r r'.
Proof.
  intros Hinv Href Hret. destruct case as [| | |write_ok|]; cbn [RelayWebSocket_turn].
  - intros [= <-]. by apply ws_inv_return.
  - destruct (side_done _); [|done]. intros [= <-]. by apply ws_inv_return.
  - destruct (wr_result r) as [[code text| |e]|] eqn:Hres; [|intros [= <-]; by apply ws_inv_return'..|done].
    intros [= <-]. pose proof Hinv as [(lost & Hread & Hlost) Hk [Hw _] _ Hctl]. rewrite Hret in Hctl.
    destruct (ws_close_spec code text (wr_side r)) as (Hst & _ & Hgot & _ & Hm & Hc');
      [unfold slack, recvSlack; lia|].
    eapply (ws_ok_side r (wset_side _ (wset_reader (wr_reader r) None r))); [exact Hst|].
    apply ws_return_ok; cbn -[side_close]; rewrite ?Hm, ?Hgot; try done; [by exists lost|lia].
  - destruct (side_Recv (wr_side r)) as [[frame x]|] eqn:E; [|done].
    destruct (String.eqb (Frame_Type frame) FrameData) eqn:Hd.
    { intros H. eapply (ws_data_ok write_ok now frame x r); try done.
      cbn zeta in *. destruct write_ok; by injection H. }
    destruct (ws_frame_ok frame x r Hret Hinv E Hd) as (Hst & Hi).
    destruct (String.eqb (Frame_Type frame) FrameClose).
    { intros [= <-]. apply (ws_ok_side r (wset_side x r)); [done|].
      destruct (Frame_CloseCode frame =? 0); by apply ws_inv_return'. }
    destruct (_ || _); intros [= <-]; (apply (ws_ok_side r (wset_side x r)); [done|]);
      [by apply ws_inv_return|split; [done|apply rtc_refl]].
  - destruct (idle_fires _ _); [|done]. destruct (idle_expired now (wr_idle r)) as [ex g].
    intros [= <-]. destruct ex; [by apply ws_inv_return'|].
    split; [by destruct Hinv|apply rtc_refl].
Qed.

Lemma ws_step_ok r r' : ws_inv r -> ws_step id r r' -> ws_ok r r'.
Proof.
  intros Hinv Hs. revert Hinv.
  destruct Hs as [result r r' _ _ H|b now r r' H|case now r r' Href Hret H]; intros Hinv.
  - destruct (ws_read_inv result r r' Hinv H) as [Hi Heq]. split; [done|]. rewrite Heq. apply rtc_refl.
  - by eapply ws_send_inv.
  - by eapply RelayWebSocket_turn_ok.
Qed.

(** ** [RelayWebSocket] as a user of its session *)

Definition ws_fresh (r : WsRelay) : Prop :=
  exists x w timeout now, r = RelayWebSocket_start x w timeout now /\ ws_read w = [] /\ ws_written w = [].

Lemma ws_inv_stream x r : same_stream (wr_side r) x -> ws_inv r -> ws_inv (wset_side x r).
Proof.
  intros Hsame [H1 H2 H3 H4 H5]. pose proof (same_stream_datas _ _ Hsame) as Hd.
  destruct Hsame as (Hs & Ha & _).
  assert (Hp : messages (s_got x) = messages (s_got (wr_side r))) by (unfold messages; by rewrite Hd).
  assert (Hc : count is_data (s_got x) = count is_data (s_got (wr_side r))) by (by rewrite !count_datas, Hd).
  split; cbn; rewrite ?Hs, ?Ha, ?Hp, ?Hc; done.
Qed.

Lemma ws_fresh_inv r :
  ws_fresh r -> datas (s_sent (wr_side r)) = [] -> count is_ctl (s_sent (wr_side r)) = 0 ->
  s_got (wr_side r) = [] -> s_acked (wr_side r) = 0 -> ws_inv r.
Proof.
  intros (x & w & timeout & now & -> & Hrd & Hwr) Hd Hc Hg Ha. cbn in *.
  split; cbn; rewrite ?Hg, ?Hrd, ?Hwr; try done.
  - exists []. unfold messages. by rewrite Hd.
  - by rewrite Hc.
Qed.

#[export] Program Instance RelayWebSocket_user : SessionUser WsRelay (list (string * string)) id := {|
  us_side := wr_side;
  us_set_side := wset_side;
  us_step := ws_step id;
  us_fresh := ws_fresh;
  us_inv := ws_inv;
  us_read := fun r => ws_read (wr_ws r);
  us_written := fun r => ws_written (wr_ws r);
  us_value := messages;
  us_prefix := prefix
|}.
Next Obligation. done. Qed.
Next Obligation. by intros []. Qed.
Next Obligation. done. Qed.
Next Obligation. intros r r'. apply ws_step_ok. Qed.
Next Obligation. intros x r. apply ws_inv_stream. Qed.
Next Obligation. intros r. apply ws_fresh_inv. Qed.
Next Obligation. intros l k. rewrite messages_app. by apply prefix_app_r. Qed.
Next Obligation. intros r Hi. destruct (wi_read _ Hi) as (lost & -> & _). by apply prefix_app_r. Qed.
Next Obligation. intros r Hi. apply (wi_written _ Hi). Qed.
End Discipline.

(** ** Properties *)

Section Properties.
Context {MF : Msgpack Frame} {ML : MsgpackLaws Frame}.
Context (id : string) (id_ident : ident id).
#[local] Set Default Proof Using "Type*".

(** Closing writes the close frame when the connection is open. *)
Lemma side_close_wire code text x :
  side_ok id x -> is_Some (s_ref x) -> Link_open (s_link x) = true ->
  code = 0 \/ 1000 <= code <= 4999 ->
  let x' := side_close id (fun i => closeFrame i code text) x in
  side_ok id x' /\ is_Some (s_ref x') /\ Link_open (s_link x') = true /\
  wire id (s_link x') = wire id (s_link x) ++ [closeFrame id code text].
Proof.
  intros Hok [q Hq] Ho Hcode x'. pose proof Hok as [Hwf Href]. destruct x as [l ro sent got acked].
  cbn in Hwf, Href, Ho, Hq. subst ro. destruct Href as (s & Hs & Hi & Hd).
  set (f := closeFrame id code text).
  assert (Hf : frame_wf f).
  { split; [done|]. split; [done|]. do 4 right. left. done. }
  assert (Heq : closeWith (fun i => closeFrame i code text) q l = removeSession id (WriteFrame f l).1).
  { unfold closeWith. rewrite Hs, Hi. by destruct (WriteFrame _ l). }
  destruct (write_update id id_ident (fun s => s) q s f l Hs eq_refl) as (_ & Ho' & _ & Hw).
  cbn in Ho'. change (wire id (on_session q (fun s => s) ?l)) with (wire id l) in Hw.
  rewrite (WriteFrame_ok f l Hf Ho) in Hw. cbn in Hw.
  unfold x', side_close. cbn [s_ref s_link]. rewrite Heq. split_and!.
  - split; cbn [s_link s_ref]; [by apply removeSession_wf, WriteFrame_wf|].
    exists (set_done s). split_and!; [|done|intros _; apply removeSession_gone].
    assert (Hs1 : Link_store (WriteFrame f l).1 !! q = Some s) by by rewrite (proj1 (WriteFrame_store _ _)).
    pose proof (remove_done q s _ (WriteFrame_wf f l Hwf) Hs1) as Hrm. by rewrite Hi in Hrm.
  - by eexists.
  - cbn [s_link]. by rewrite removeSession_open, Ho'.
  - cbn [s_link]. by rewrite removeSession_wire, Hw.
Qed.

(** WebSocket messages are relayed faithfully: with their boundaries, their
    order and their text or binary type, the messages written at one end are a
    prefix of those read at the other, in both directions. *)
Theorem ws_relay_faithful o onOpen {ACC : Acceptor id o onOpen} x y :
  reachable (pipe_step (R := WsRelay) id onOpen) (pipe_init (R := WsRelay) id o) (x, y) ->
  ws_written (wr_ws y) `prefix_of` ws_read (wr_ws x) /\
  ws_written (wr_ws x) `prefix_of` ws_read (wr_ws y).
Proof. exact (pipe_faithful id id_ident o onOpen x y). Qed.

(** A close handshake crosses the tunnel with its code and text.  When the
    local peer closes with a valid code, the frames sent are a close frame with
    this code and text and the plain close of the deferred [session.Close];
    and a close frame with a code makes the other end send its WebSocket a
    close message with exactly that code and text before it goes away. *)
Theorem close_code_crosses now r :
  side_ok id (wr_side r) -> is_Some (s_ref (wr_side r)) -> Link_open (s_link (wr_side r)) = true ->
  (forall code text, wr_result r = Some (CloseError code text) -> 1000 <= code <= 4999 ->
   exists r', RelayWebSocket_turn id WsReadResult now r = Some r' /\ wr_returned r' = true /\
     wire id (s_link (wr_side r')) = wire id (s_link (wr_side r)) ++
       [closeFrame id code text; closeFrame id 0 ""]) /\
  (forall ok frame x, side_Recv (wr_side r) = Some (frame, x) -> Frame_Type frame = FrameClose ->
   exists r', RelayWebSocket_turn id (WsRecvFrame ok) now r = Some r' /\ wr_returned r' = true /\
     ws_closed (wr_ws r') = true /\
     ws_closeMessage (wr_ws r') =
       if Frame_CloseCode frame =? 0 then ws_closeMessage (wr_ws r)
       else Some (Frame_CloseCode frame, Frame_Payload frame)).
Proof.
  intros Hok Href Ho. split.
  - intros code text Hres Hcode. cbn [RelayWebSocket_turn]. rewrite Hres.
    destruct (side_close_wire code text _ Hok Href Ho) as (Hok1 & Href1 & Ho1 & Hw1); [by right|].
    destruct (side_close_wire 0 "" _ Hok1 Href1 Ho1) as (_ & _ & _ & Hw2); [by left|].
    eexists. split; [done|]. split; [done|]. unfold RelayWebSocket_return.
    cbn [wr_side wset_returned wset_side wset_ws wset_idle wset_reader].
    rewrite Hw2, Hw1. by rewrite <- app_assoc.
  - intros ok frame x E Hty. cbn [RelayWebSocket_turn]. rewrite E, Hty. cbn [String.eqb].
    eexists. split; [reflexivity|]. destruct (Frame_CloseCode frame =? 0); done.
Qed.
End Properties.

(** ** Witnesses *)

#[local] Existing Instance frame_msgpack.
#[local] Existing Instance countable_msgpack_laws.

(** The accepting end of [FlowControl]'s example. *)
Definition demo_ws_relay : WsRelay :=
  mkWsRelay demo3.2 (mkWs [] [] None false) (newIdleGuard 0 0) WsExited (Some (CloseError 1001 "bye")) false.

Lemma close_code_crosses_witness :
  exists r', RelayWebSocket_turn "s1" WsReadResult 0 demo_ws_relay = Some r' /\ wr_returned r' = true /\
    wire "s1" (s_link (wr_side r')) = [closeFrame "s1" 1001 "bye"; closeFrame "s1" 0 ""].
Proof.
  assert (Hok : side_ok "s1" (wr_side demo_ws_relay)) by
    exact (sys_ok2 _ _ _ (sys_reachable_inv "s1" s1_ident demo_open accept_all demo3 demo3_reachable)).
  assert (Href : is_Some (s_ref (wr_side demo_ws_relay))) by (exists 0%nat; vm_compute; reflexivity).
  destruct (close_code_crosses "s1" s1_ident 0 demo_ws_relay Hok Href) as [H _]; [vm_compute; reflexivity|].
  destruct (H 1001 "bye" eq_refl) as (r' & H1 & H2 & H3); [lia|].
  exists r'. split; [exact H1|]. split; [exact H2|]. rewrite H3. vm_compute. reflexivity.
Defined.
