(* ===== verification/EdgeRoutes.v ===== *)
(** * The edge's routing table

    [internal/edge/edge.go]: which route serves a public request and what path
    it is forwarded with, how much of its body is read, and the limits and
    defaults of a route. *)
From Stdlib Require Import Sorted.
From stdpp Require Import sorting.
From S2P Require Import Prelude GoString GoStd Config.

#[local] Open Scope Z_scope.

Definition defaultRequestLimit : Z := 1048576.
(** 30 seconds, in nanoseconds. *)
Definition defaultTimeout : Z := 30000000000.

(** ** The request, as [net/http] delivers it *)

(** A request body: its bytes, and whether reading ends with an error instead
    of the end of the stream. *)
Record Body := mkBody { body_data : string; body_fails : bool }.

(** [*http.Request]: [URL.Path] is already percent-decoded. *)
Record HTTPRequest := mkHTTPRequest {
  req_Method : string;
  req_Path : string;
  req_RawQuery : string;
  req_Host : string;
  req_TLS : bool;
  req_Header : Header;
  req_Body : Body
}.

Record route := mkroute {
  route_cfg : Route;
  route_prefix : string;
  route_exact : string
}.

(** ** The table *)

(** [sort.SliceStable]: stable sorting by a strict order, as insertion from
    the right: an element stays in front of those it is not above. *)
Section Stable.
Context {A : Type} (less : A -> A -> bool).

Fixpoint stable_insert (x : A) (l : list A) : list A :=
  match l with
  | [] => [x]
  | y :: l' => if less y x then y :: stable_insert x l' else x :: l
  end.

Definition SliceStable (l : list A) : list A := foldr stable_insert [] l.
End Stable.

(** The key [sortRoutes] sorts by. *)
Definition specificity (r : route) : Z := len (route_prefix r) + len (route_exact r).

Definition sortRoutes (routes : list route) : list route :=
  SliceStable (fun r r' => specificity r' <? specificity r) routes.

(** The loop of [httpRoutes] and [wsRoutes]: the routes of one mode. *)
Fixpoint routes_of_mode (mode : string) (routes : list Route) : list route :=
  match routes with
  | [] => []
  | r :: routes' =>
      if negb (String.eqb (Route_Mode r) mode) then routes_of_mode mode routes'
      else mkroute r (Route_PublicPrefix r) (Route_PublicPath r) :: routes_of_mode mode routes'
  end.
Definition httpRoutes (routes : list Route) : list route := sortRoutes (routes_of_mode ModeHTTP routes).
Definition wsRoutes (routes : list Route) : list route := sortRoutes (routes_of_mode ModeWebSocket routes).

(** The routes with a listener of their own. *)
Fixpoint tcpRoutes (routes : list Route) : list Route :=
  match routes with
  | [] => []
  | r :: routes' =>
      if String.eqb (Route_Mode r) ModeTCP || String.eqb (Route_Mode r) ModeGRPC
      then r :: tcpRoutes routes' else tcpRoutes routes'
  end.

(** ** Matching *)

Definition pathHasPrefix (path prefix : string) : bool :=
  if String.eqb path prefix then true
  else if negb (HasPrefix path prefix) then false
  else HasSuffix prefix "/" || HasPrefix (TrimPrefix path prefix) "/".

Definition withQuery (path rawQuery : string) : string :=
  if String.eqb rawQuery "" then path else path +:+ "?" +:+ rawQuery.

Section Match.
Context {UT : UnicodeTables}.

Definition normalizeHost (host : string) : string :=
  let host := TrimSpace (ToLower host) in
  match SplitHostPort host with
  | Ok (h, _) => h
  | Err _ => host
  end.

Definition hostMatches (routeHost requestHost : string) : bool :=
  if String.eqb routeHost "" then true
  else EqualFold (normalizeHost routeHost) (normalizeHost requestHost).

Fixpoint matchRoute (routes : list route) (req : HTTPRequest) : option (route * string) :=
  match routes with
  | [] => None
  | r :: routes' =>
      if negb (hostMatches (Route_PublicHost (route_cfg r)) (req_Host req)) then matchRoute routes' req
      else if negb (String.eqb (route_exact r) "") && String.eqb (req_Path req) (route_exact r)
      then Some (r, withQuery "/" (req_RawQuery req))
      else if negb (String.eqb (route_prefix r) "") && pathHasPrefix (req_Path req) (route_prefix r)
      then
        let suffix := TrimPrefix (req_Path req) (route_prefix r) in
        let suffix := if String.eqb suffix "" then "/" else suffix in
        Some (r, withQuery suffix (req_RawQuery req))
      else matchRoute routes' req
  end.
End Match.

(** ** Requests *)

(** [hex.EncodeToString]. *)
Definition hex_digit (z : Z) : ascii := if z <? 10 then zb (48 + z) else zb (87 + z).
Fixpoint hex_EncodeToString (b : string) : string :=
  match b with
  | EmptyString => EmptyString
  | String c b' => String (hex_digit (bz c / 16)) (String (hex_digit (bz c mod 16)) (hex_EncodeToString b'))
  end.

(** [requestID]: [None] for [random] when [rand.Read] fails, else the sixteen
    bytes it drew. *)
Definition requestID (random : option string) : option string := hex_EncodeToString <$> random.

Definition requestScheme (req : HTTPRequest) : string :=
  if req_TLS req then "https"
  else
    let scheme := Header_Get (req_Header req) "X-Forwarded-Proto" in
    if String.eqb scheme "https" || String.eqb scheme "http" then scheme else "http".

Definition routeRequestLimit (r : Route) : Z :=
  let limit := MaxInlineRequest r in
  if limit <=? 0 then defaultRequestLimit else limit.

Definition routeTimeout (r : Route) : Z :=
  if 0 <? Route_Timeout r then Route_Timeout r else defaultTimeout.

(** [io.ReadAll(io.LimitReader(body, n))]: a non-positive limit is the end of
    the stream, and the limit is reached without looking at what follows. *)
Definition ReadAll_Limit (body : Body) (n : Z) : res unit string :=
  if n <=? 0 then Ok ""
  else if len (body_data body) <? n then
    if body_fails body then Err tt else Ok (body_data body)
  else Ok (str_take (Z.to_nat n) (body_data body)).

(** [readBounded]: the body, or the status and message of the [http.Error]. *)
Definition readBounded (body : Body) (limit : Z) : res (Z * string) string :=
  match ReadAll_Limit body (wrap64 (limit + 1)) with
  | Err _ => Err (400, "failed to read request body")
  | Ok data => if limit <? len data then Err (413, "request body too large") else Ok data
  end.

(** ** Lemmas *)

Section StableLemmas.
Context {A : Type} (less : A -> A -> bool).
Context (less_trans : forall x y z, less x y = false -> less y z = false -> less x z = false).
Context (less_asym : forall x y, less x y = true -> less y x = false).

Lemma stable_insert_perm x l : stable_insert less x l ≡ₚ x :: l.
Proof.
  induction l as [|y l IH]; cbn; [done|]. destruct (less y x); [|done].
  rewrite IH. apply Permutation_swap.
Qed.

Lemma SliceStable_perm l : SliceStable less l ≡ₚ l.
Proof. induction l as [|x l IH]; cbn; [done|]. by rewrite stable_insert_perm, IH. Qed.

(** No element is above an earlier one. *)
Definition descending (l : list A) : Prop := StronglySorted (fun x y => less y x = false) l.

Lemma stable_insert_sorted x l : descending l -> descending (stable_insert less x l).
Proof using less_trans less_asym.
  induction 1 as [|y l Hl IH Hy]; cbn; [by repeat constructor|].
  destruct (less y x) eqn:E.
  - constructor; [done|]. rewrite stable_insert_perm. constructor; [by apply less_asym|done].
  - constructor; [by constructor|]. constructor; [done|].
    eapply list.Forall_impl; [exact Hy|]. intros z Hz. by apply (less_trans z y x).
Qed.

Lemma SliceStable_sorted l : descending (SliceStable less l).
Proof using less_trans less_asym. induction l as [|x l IH]; cbn; [constructor|]. by apply stable_insert_sorted. Qed.

(** Stability: elements that are not apart keep their order. *)
Lemma stable_insert_filter (P : A -> bool) x l :
  (forall y, P x = true -> P y = true -> less y x = false) ->
  List.filter P (stable_insert less x l) = List.filter P (x :: l).
Proof.
  intros HP. induction l as [|y l IH]; cbn; [done|]. destruct (less y x) eqn:E; [|done].
  cbn. rewrite IH. cbn. destruct (P x) eqn:Hx, (P y) eqn:Hy; try done.
  rewrite HP in E; done.
Qed.

Lemma SliceStable_filter (P : A -> bool) l :
  (forall x y, P x = true -> P y = true -> less y x = false) ->
  List.filter P (SliceStable less l) = List.filter P l.
Proof.
  intros HP. induction l as [|x l IH]; [done|].
  change (SliceStable less (x :: l)) with (stable_insert less x (SliceStable less l)).
  rewrite stable_insert_filter by auto. cbn. by rewrite IH.
Qed.
End StableLemmas.

(** [readBounded] on every limit below the largest [int64]. *)
Lemma readBounded_eq body limit :
  0 <= limit < max_int64 ->
  readBounded body limit =
    if limit <? len (body_data body) then Err (413, "request body too large")
    else if body_fails body then Err (400, "failed to read request body")
    else Ok (body_data body).
Proof.
  intros Hl. unfold readBounded, ReadAll_Limit.
  rewrite wrap64_small by (unfold int64_range, min_int64, max_int64 in *; lia).
  rewrite (proj2 (Z.leb_gt (limit + 1) 0)) by lia.
  destruct (Z.ltb_spec (len (body_data body)) (limit + 1)).
  - destruct (Z.ltb_spec limit (len (body_data body))); [lia|].
    destruct (body_fails body); [done|]. by rewrite (proj2 (Z.ltb_ge _ _)) by lia.
  - rewrite (proj2 (Z.ltb_lt limit (len (body_data body)))) by lia.
    assert (Ht : len (str_take (Z.to_nat (limit + 1)) (body_data body)) = limit + 1).
    { unfold len in *. rewrite length_str_take. lia. }
    by rewrite Ht, (proj2 (Z.ltb_lt _ _)) by lia.
Qed.

Lemma routeRequestLimit_pos r : 0 < routeRequestLimit r.
Proof. unfold routeRequestLimit. destruct (Z.leb_spec (MaxInlineRequest r) 0); [done|lia]. Qed.

(** ** The table is sorted, most specific first *)

Definition less_specific (r r' : route) : bool := specificity r' <? specificity r.

Lemma sortRoutes_perm rs : sortRoutes rs ≡ₚ rs.
Proof. apply SliceStable_perm. Qed.

Lemma sortRoutes_sorted rs :
  StronglySorted (fun r r' => specificity r' <= specificity r) (sortRoutes rs).
Proof.
  pose proof (SliceStable_sorted (fun r r' => specificity r' <? specificity r)) as H.
  unfold descending in H. specialize (H ltac:(intros; apply Z.ltb_ge; bsimpl; lia)
    ltac:(intros; apply Z.ltb_ge; bsimpl; lia) rs).
  fold (sortRoutes rs) in H. induction H as [|r l _ IH Hr]; constructor; [done|].
  eapply list.Forall_impl; [exact Hr|]. intros r' H'. by apply Z.ltb_ge in H'.
Qed.

Lemma sortRoutes_stable (P : route -> bool) n rs :
  (forall r, P r = true -> specificity r = n) ->
  List.filter P (sortRoutes rs) = List.filter P rs.
Proof.
  intros HP. apply SliceStable_filter. intros x y Hx Hy. apply Z.ltb_ge.
  rewrite (HP x Hx), (HP y Hy). lia.
Qed.

Lemma routes_of_mode_spec mode rs r :
  r ∈ routes_of_mode mode rs <->
  route_cfg r ∈ rs /\ Route_Mode (route_cfg r) = mode /\
  route_prefix r = Route_PublicPrefix (route_cfg r) /\ route_exact r = Route_PublicPath (route_cfg r).
Proof.
  induction rs as [|c rs IH]; cbn [routes_of_mode].
  - split; [by intros ?%elem_of_nil|]. by intros [?%elem_of_nil _].
  - rewrite elem_of_cons. destruct (String.eqb_spec (Route_Mode c) mode) as [Hm|Hm]; cbn [negb].
    + rewrite elem_of_cons, IH. split; [intros [->|(? & ? & ? & ?)]; cbn; tauto|].
      intros ([He|He] & ? & ? & ?); [|tauto]. left. destruct r; cbn in *; congruence.
    + rewrite IH. split; [tauto|]. intros ([He|He] & ? & ?); [congruence|tauto].
Qed.

(** ** Matching *)

Lemma pathHasPrefix_spec path prefix :
  pathHasPrefix path prefix = true <->
  exists rest, path = prefix +:+ rest /\
    (rest = "" \/ HasSuffix prefix "/" = true \/ HasPrefix rest "/" = true).
Proof.
  unfold pathHasPrefix. destruct (String.eqb_spec path prefix) as [->|Hne].
  - split; [|done]. intros _. exists "". split; [by rewrite app_str_nil_r|by left].
  - destruct (HasPrefix path prefix) eqn:Hp; cbn [negb].
    + apply HasPrefix_spec in Hp as [rest ->]. rewrite TrimPrefix_app, orb_true_iff. split.
      * intros H. exists rest. split; [done|by right].
      * intros (rest' & Heq & Hor). apply app_str_inj in Heq as <-.
        destruct Hor as [->|Hor]; [|done]. by rewrite app_str_nil_r in Hne.
    + split; [done|]. intros (rest & -> & _). by rewrite HasPrefix_app in Hp.
Qed.

Section MatchLemmas.
Context {UT : UnicodeTables}.

(** What it takes for a route to serve a request. *)
Definition serves (r : route) (req : HTTPRequest) : Prop :=
  hostMatches (Route_PublicHost (route_cfg r)) (req_Host req) = true /\
  ((route_exact r <> "" /\ req_Path req = route_exact r) \/
   (route_prefix r <> "" /\ pathHasPrefix (req_Path req) (route_prefix r) = true)).

(** The path a matched route forwards, before the query. *)
Definition suffix_of (r : route) (req : HTTPRequest) : string :=
  if negb (String.eqb (route_exact r) "") && String.eqb (req_Path req) (route_exact r) then "/"
  else
    let suffix := TrimPrefix (req_Path req) (route_prefix r) in
    if String.eqb suffix "" then "/" else suffix.

(** The loop finds the first route of the table that serves the request. *)
Lemma matchRoute_first rs req :
  match matchRoute rs req with
  | Some (r, p) => p = withQuery (suffix_of r req) (req_RawQuery req) /\ serves r req /\
      exists before after, rs = before ++ r :: after /\ Forall (fun r' => ~ serves r' req) before
  | None => Forall (fun r' => ~ serves r' req) rs
  end.
Proof.
  induction rs as [|r rs IH]; cbn [matchRoute]; [constructor|].
  assert (Hskip : ~ serves r req -> match matchRoute rs req with
    | Some (r0, p) => p = withQuery (suffix_of r0 req) (req_RawQuery req) /\ serves r0 req /\
        exists before after, r :: rs = before ++ r0 :: after /\ Forall (fun r' => ~ serves r' req) before
    | None => Forall (fun r' => ~ serves r' req) (r :: rs)
    end).
  { intros Hn. destruct (matchRoute rs req) as [[r0 p]|]; [|by constructor].
    destruct IH as (? & ? & before & after & -> & Hb). split_and!; [done..|].
    exists (r :: before), after. split; [done|by constructor]. }
  destruct (hostMatches _ _) eqn:Hh; cbn [negb]; [|apply Hskip; by intros [? _]; congruence].
  destruct (negb (String.eqb (route_exact r) "") && _) eqn:He.
  { split; [unfold suffix_of; by rewrite He|]. bsimpl. split; [split; [done|by left]|].
    exists [], rs. split; [done|constructor]. }
  destruct (negb (String.eqb (route_prefix r) "") && _) eqn:Hp.
  { split; [unfold suffix_of; by rewrite He|]. bsimpl. split; [split; [done|by right]|].
    exists [], rs. split; [done|constructor]. }
  apply Hskip. intros [_ [[H1 H2]|[H1 H2]]].
  - rewrite H2, String.eqb_refl, andb_true_r in He. bsimpl. congruence.
  - rewrite H2, andb_true_r in Hp. bsimpl. congruence.
Qed.
End MatchLemmas.

(** ** Properties *)

Section Properties.
Context {UT : UnicodeTables}.

(** A route with only a prefix or only an exact path, and which it has. *)
Definition single (r : route) : Prop := route_prefix r = "" \/ route_exact r = "".
Definition pattern (r : route) : string :=
  if String.eqb (route_exact r) "" then route_prefix r else route_exact r.

Lemma single_specificity r : single r -> specificity r = len (pattern r).
Proof.
  unfold specificity, pattern, len. intros [-> | ->]; cbn [String.eqb]; [|cbn; lia].
  destruct (String.eqb_spec (route_exact r) "") as [->|]; cbn; lia.
Qed.

(** No route of the table that serves the request sorts above the first. *)
Lemma first_sorted rs req r before after r' :
  sortRoutes rs = before ++ r :: after -> Forall (fun r0 => ~ serves r0 req) before ->
  r' ∈ rs -> serves r' req -> specificity r' <= specificity r.
Proof.
  intros Heq Hb Hr' Hs'. rewrite <- (sortRoutes_perm rs), Heq, elem_of_app in Hr'.
  destruct Hr' as [Hr'|[->|Hr']%elem_of_cons]; [|done|].
  - rewrite list.Forall_forall in Hb. by destruct (Hb r').
  - pose proof (sortRoutes_sorted rs) as Hsort. rewrite Heq in Hsort.
    apply StronglySorted_app_1_r in Hsort. apply StronglySorted_inv in Hsort as [_ Hsort].
    rewrite list.Forall_forall in Hsort. by apply Hsort.
Qed.

(** C25: the longest pattern wins.  A request is served by a route of the right
    mode, host and path if there is one.  Among the routes that set a prefix or
    an exact path (not both), as the documentation has them, the one that serves
    has the longest of those that match; and when all routes are such, it is the
    first of them in the configuration with that length.  It is forwarded with
    what follows its prefix. *)
Theorem routing_most_specific mode routes req :
  let rs := routes_of_mode mode routes in
  match matchRoute (sortRoutes rs) req with
  | Some (r, path) =>
      route_cfg r ∈ routes /\ Route_Mode (route_cfg r) = mode /\ serves r req /\
      path = withQuery (suffix_of r req) (req_RawQuery req) /\
      (single r -> forall r', r' ∈ rs -> single r' -> serves r' req -> len (pattern r') <= len (pattern r)) /\
      (Forall single rs -> exists before after,
         List.filter (fun r' => len (pattern r') =? len (pattern r)) rs = before ++ r :: after /\
         Forall (fun r' => ~ serves r' req) before)
  | None => forall r', r' ∈ rs -> ~ serves r' req
  end.
Proof.
  intros rs. pose proof (matchRoute_first (sortRoutes rs) req) as Hm.
  destruct (matchRoute (sortRoutes rs) req) as [[r p]|].
  - destruct Hm as (-> & Hs & before & after & Heq & Hb).
    assert (Hin : r ∈ rs).
    { rewrite <- (sortRoutes_perm rs), Heq. rewrite elem_of_app. right. by left. }
    pose proof Hin as (? & ? & _)%routes_of_mode_spec. split_and!; try done.
    + intros Hr r' Hr' Hsr' Hs'. rewrite <- !single_specificity by done. by apply (first_sorted rs req r before after).
    + intros Hall. rewrite list.Forall_forall in Hall.
      assert (Hkey : forall r', r' ∈ rs -> len (pattern r') = specificity r') by (intros r' Hr'; symmetry; auto using single_specificity).
      rewrite (filter_ext_in _ (fun r' => specificity r' =? specificity r)).
      2:{ intros r' Hr'%list_elem_of_In. by rewrite !Hkey. }
      rewrite <- (sortRoutes_stable _ (specificity r)), Heq by (intros ? ?; by apply Z.eqb_eq).
      rewrite filter_app. cbn. rewrite Z.eqb_refl. eexists _, _. split; [done|].
      apply list.Forall_forall. intros r' Hr'. apply list_elem_of_In, filter_In in Hr' as [Hr' _].
      rewrite list.Forall_forall in Hb. apply Hb. by apply list_elem_of_In.
  - intros r' Hr'. rewrite list.Forall_forall in Hm. apply Hm.
    by rewrite (sortRoutes_perm rs).
Qed.

(** What is forwarded.  For a route whose prefix does not end in a slash the
    forwarded path always starts with one, and together with the prefix it
    gives the request's path back, [/] standing for nothing; a prefix only
    ever matches whole path segments. *)
Theorem forwarded_path_rooted r req :
  serves r req -> HasSuffix (route_prefix r) "/" = false ->
  HasPrefix (suffix_of r req) "/" = true /\
  (req_Path req = route_exact r \/ req_Path req = route_prefix r \/
   req_Path req = route_prefix r +:+ suffix_of r req).
Proof.
  intros [_ Hs] Hns. unfold suffix_of.
  destruct (negb (String.eqb (route_exact r) "") && _) eqn:He.
  { bsimpl. split; [done|by left]. }
  destruct Hs as [[Hne Heq]|[Hne Hp]].
  { rewrite Heq, String.eqb_refl, andb_true_r in He. bsimpl. congruence. }
  apply pathHasPrefix_spec in Hp as (rest & Hpath & Hrest). rewrite Hpath, TrimPrefix_app.
  destruct (String.eqb_spec rest "") as [->|Hr].
  - split; [done|]. right. left. apply app_str_nil_r.
  - split; [|by right; right]. destruct Hrest as [?|[?|?]]; [congruence..|done].
Qed.

(** Bodies are bounded.  For every limit below the largest [int64] the body
    is returned exactly when it can be read and is not longer than the limit;
    otherwise the request is answered 413 or 400, never truncated. *)
Theorem readBounded_exact body limit :
  0 <= limit < max_int64 ->
  readBounded body limit =
    if limit <? len (body_data body) then Err (413, "request body too large")
    else if body_fails body then Err (400, "failed to read request body")
    else Ok (body_data body).
Proof. apply readBounded_eq. Qed.

(** The largest limit reads nothing.  With a limit of [2^63 - 1] the
    argument of [io.LimitReader] wraps around and every request is forwarded
    with an empty body. *)
Theorem readBounded_overflow body : readBounded body max_int64 = Ok "".
Proof. reflexivity. Qed.
End Properties.

(** ** Request ids *)

Lemma hex_digit_ident z : 0 <= z < 16 -> is_ident_byte (hex_digit z) = true.
Proof.
  intros H. assert (Hcase : z = 0 \/ z = 1 \/ z = 2 \/ z = 3 \/ z = 4 \/ z = 5 \/ z = 6 \/ z = 7 \/
    z = 8 \/ z = 9 \/ z = 10 \/ z = 11 \/ z = 12 \/ z = 13 \/ z = 14 \/ z = 15) by lia.
  repeat destruct Hcase as [->|Hcase]; try reflexivity. by subst.
Qed.

Lemma hex_digit_inj x y : 0 <= x < 16 -> 0 <= y < 16 -> hex_digit x = hex_digit y -> x = y.
Proof.
  intros Hx Hy H%(f_equal bz). unfold hex_digit in H.
  destruct (Z.ltb_spec x 10), (Z.ltb_spec y 10); rewrite !bz_zb in H by lia; lia.
Qed.

Lemma nibbles c : 0 <= bz c / 16 < 16 /\ 0 <= bz c mod 16 < 16.
Proof.
  pose proof (bz_range c). split; [split; [apply Z.div_pos|apply Z.div_lt_upper_bound]; lia|by apply Z.mod_pos_bound].
Qed.

(** Different draws give different ids. *)
Lemma hex_inj b b' : hex_EncodeToString b = hex_EncodeToString b' -> b = b'.
Proof.
  revert b'. induction b as [|c b IH]; intros [|c' b']; try done. cbn [hex_EncodeToString].
  intros [= H1 H2 H3]. f_equal; [|by apply IH]. destruct (nibbles c), (nibbles c').
  apply hex_digit_inj in H1, H2; try done. apply bz_inj. rewrite (Z.div_mod (bz c) 16), (Z.div_mod (bz c') 16) by lia. lia.
Qed.

(** An id that was drawn is a valid subject token, so every envelope, frame and
    cancel subject that carries it is well formed. *)
Lemma requestID_token b id : String.length b = 16%nat -> requestID (Some b) = Some id -> subject_token id.
Proof.
  intros Hl [= <-]. assert (H : String.length (hex_EncodeToString b) = (2 * String.length b)%nat).
  { clear. induction b as [|c b IH]; [done|]. cbn [hex_EncodeToString String.length]. lia. }
  split; [split|].
  - by destruct b.
  - clear. induction b as [|c b IH]; [done|]. destruct (nibbles c).
    cbn [hex_EncodeToString str_forallb]. by rewrite !hex_digit_ident, IH.
  - unfold len. lia.
Qed.

(** ** Witnesses *)

Section Witnesses.
#[local] Existing Instance ascii_tables.

Definition demo_route (name prefix exact : string) : Route :=
  mkRoute name ModeHTTP "" prefix exact "" "http://127.0.0.1:9000" 0 0 0 0 0 0 [] false.
Definition demo_request (path : string) : HTTPRequest :=
  mkHTTPRequest "GET" path "x=1" "edge:8080" false ∅ (mkBody "" false).

(** A route with both a prefix and an exact path is sorted by the sum of their
    lengths, so it takes requests from a route with a longer prefix. *)
Lemma both_fields_beat_longer_prefix :
  let admin := demo_route "admin" "/api/admin" "" in
  let both := demo_route "both" "/api" "/status" in
  let req := demo_request "/api/admin/users" in
  matchRoute (httpRoutes [admin; both]) req = Some (mkroute both "/api" "/status", "/admin/users?x=1") /\
  serves (mkroute admin "/api/admin" "") req.
Proof.
  split; [vm_compute; reflexivity|]. split; [reflexivity|]. right. split; [discriminate|reflexivity].
Qed.

Lemma forwarded_path_rooted_witness :
  let r := mkroute (demo_route "api" "/api" "") "/api" "" in
  serves r (demo_request "/api/anything") /\
  HasPrefix (suffix_of r (demo_request "/api/anything")) "/" = true /\
  matchRoute [r] (demo_request "/api/anything") = Some (r, "/anything?x=1").
Proof.
  intros r. assert (Hs : serves r (demo_request "/api/anything")).
  { split; [reflexivity|]. right. split; [discriminate|reflexivity]. }
  split; [exact Hs|]. split; [|reflexivity].
  apply (forwarded_path_rooted r (demo_request "/api/anything") Hs eq_refl).
Defined.

Lemma readBounded_exact_witness :
  readBounded (mkBody "hello" false) 4 = Err (413, "request body too large") /\
  readBounded (mkBody "hello" false) 5 = Ok "hello".
Proof.
  split; [rewrite (readBounded_exact (mkBody "hello" false) 4)|rewrite (readBounded_exact (mkBody "hello" false) 5)];
    try reflexivity; unfold max_int64; lia.
Defined.
End Witnesses.
