(* ===== verification/EdgeUnary.v ===== *)
(** * Serving an HTTP request at the edge

    [internal/edge/edge.go]: [ServeHTTP], [serveUnary], [serveStreamedResponse]
    and [writeResponse].  A handler is a function of what its environment gives
    it: the random request id, the deadline, the answer of NATS, the frames of
    the stream.  It returns what the client sees and what was sent to NATS. *)
From S2P Require Import Prelude GoString GoStd Msgpack HttpEnvelope Headers Config EdgeRoutes.
From S2P Require Import TunnelEnvelope.

#[local] Open Scope Z_scope.

(** ** The client's side *)

(** What the client receives; [aborted]: the handler panicked with
    [http.ErrAbortHandler] and the connection is cut. *)
Record HTTPResponse := mkHTTPResponse {
  resp_status : Z;
  resp_header : Header;
  resp_body : string;
  resp_aborted : bool
}.

(** [http.Error(w, msg, status)] on a fresh response. *)
Definition http_Error (msg : string) (status : Z) : HTTPResponse :=
  mkHTTPResponse status
    (<["Content-Type" := ["text/plain; charset=utf-8"]]> {["X-Content-Type-Options" := ["nosniff"]]})
    (msg +:+ String LF EmptyString) false.

(** [http.StatusText] on the statuses used. *)
Definition http_StatusText (status : Z) : string :=
  if status =? 502 then "Bad Gateway"
  else if status =? 503 then "Service Unavailable"
  else if status =? 504 then "Gateway Timeout"
  else "".

(** ** NATS, as [natscore.Client] presents it *)

Inductive nats_error :=
| ErrNoResponders
| ErrTimeout
| ErrDeadlineExceeded      (** [context.DeadlineExceeded] *)
| ErrNatsOther.

(** The result of [Request], and whether the request's context is done when it
    returns with an error. *)
Record nats_result := mkNatsResult {
  nats_reply : res nats_error string;
  nats_ctx_done : bool
}.

(** What a handler sends. *)
Inductive nats_message :=
| NatsRequest (subject payload : string)
| NatsPublish (subject payload : string).

Section Unary.
Context {UT : UnicodeTables} {MQ : Msgpack Request} {MR : Msgpack Response}.

(** The loop of [writeResponse] and [serveStreamedResponse] over the filtered
    headers, in the order they are visited: for canonical names the result does
    not depend on it ([client_headers_any_order]). *)
Fixpoint addHeaders (entries : list (string * list string)) (dst : Header) : Header :=
  match entries with
  | [] => dst
  | (name, values) :: entries' => addHeaders entries' (copyValues dst name values)
  end.

Definition writeResponse (resp : Response) : HTTPResponse :=
  mkHTTPResponse (Response_Status resp)
    (addHeaders (map_to_list (FilterResponse (map_to_list (Response_Headers resp)))) ∅)
    (Response_Body resp) false.

(** The outcome of the unary handler: an answer, or a stream to relay. *)
Inductive unary_outcome :=
| Answer (resp : HTTPResponse)
| StreamedAnswer (resp : Response).

(** The envelope built for a request. *)
Definition unary_envelope (rid : string) (deadlineMS : Z) (matched : route) (suffix : string)
    (order : list (string * list string)) (body : string) (req : HTTPRequest) : Request :=
  mkRequest HttpEnvelope.Version rid (Route_Name (route_cfg matched)) deadlineMS (req_Method req)
    (requestScheme req) (req_Host req) suffix
    (FilterRequest order (Route_ForwardedHeaders (route_cfg matched))) body.

(** The status of a failed NATS request. *)
Definition nats_status (e : nats_error) (ctx_done : bool) : Z :=
  match e with
  | ErrNoResponders => 503
  | ErrTimeout | ErrDeadlineExceeded => 504
  | ErrNatsOther => if ctx_done then 504 else 502
  end.

(** [serveUnary].  [requestID]: what [requestID()] returns, [None] for an
    error; [deadlineMS]: the deadline of the context with the route's timeout;
    [order]: the iteration of the request's headers; [nats]: the answer of
    [h.nats.Request] to a subject and payload. *)
Definition serveUnary (requestID : option string) (deadlineMS : Z)
    (order : list (string * list string)) (nats : string -> string -> nats_result)
    (req : HTTPRequest) (matched : route) (suffix : string) : unary_outcome * list nats_message :=
  match readBounded (req_Body req) (routeRequestLimit (route_cfg matched)) with
  | Err (status, msg) => (Answer (http_Error msg status), [])
  | Ok body =>
      match requestID with
      | None => (Answer (http_Error "failed to create request id" 500), [])
      | Some rid =>
          match EncodeRequest (unary_envelope rid deadlineMS matched suffix order body req) with
          | Err _ => (Answer (http_Error "invalid request envelope" 502), [])
          | Ok payload =>
              let subject := UnarySubject (route_cfg matched) in
              let result := nats subject payload in
              let sent := NatsRequest subject payload in
              match nats_reply result with
              | Err e =>
                  let published :=
                    if nats_ctx_done result then [NatsPublish (CancelSubject rid) ""] else [] in
                  let status := nats_status e (nats_ctx_done result) in
                  (Answer (http_Error (http_StatusText status) status), sent :: published)
              | Ok reply =>
                  match DecodeResponse reply with
                  | Err _ => (Answer (http_Error "connector error" 502), [sent])
                  | Ok resp =>
                      if negb (String.eqb (Response_RequestID resp) rid) ||
                         match Response_Error resp with Some _ => true | None => false end
                      then (Answer (http_Error "connector error" 502), [sent])
                      else if negb (String.eqb (Response_StreamSessionID resp) "")
                      then (StreamedAnswer resp, [sent])
                      else (Answer (writeResponse resp), [sent])
                  end
              end
          end
      end
  end.

(** ** [ServeHTTP] *)

Inductive dispatch_outcome :=
| Healthz
| WebSocketRoute (r : route) (suffix : string)
| NotFound
| UnaryRoute (r : route) (suffix : string).

Definition ServeHTTP (httpTable wsTable : list route) (req : HTTPRequest) : dispatch_outcome :=
  if String.eqb (req_Path req) "/_airpc/healthz" then Healthz
  else
    match matchRoute wsTable req with
    | Some (matched, suffix) => WebSocketRoute matched suffix
    | None =>
        match matchRoute httpTable req with
        | None => NotFound
        | Some (matched, suffix) => UnaryRoute matched suffix
        end
    end.

(** ** [serveStreamedResponse], once the session is claimed *)

(** One case of the loop's [select]; for data, whether [w.Write] succeeds. *)
Inductive stream_event :=
| ClientGone
| TunnelGone
| StreamFrame (frame : Frame) (write_ok : bool).

Inductive stream_state :=
| Streaming (resp : HTTPResponse) (acks : Z)
| Finished (resp : HTTPResponse) (acks : Z).

Definition set_body (b : string) (r : HTTPResponse) : HTTPResponse :=
  mkHTTPResponse (resp_status r) (resp_header r) b (resp_aborted r).
Definition abort (r : HTTPResponse) : HTTPResponse :=
  mkHTTPResponse (resp_status r) (resp_header r) (resp_body r) true.

Definition stream_turn (ev : stream_event) (s : stream_state) : stream_state :=
  match s with
  | Finished _ _ => s
  | Streaming r acks =>
      match ev with
      | ClientGone => Finished r acks
      | TunnelGone => Finished (abort r) acks
      | StreamFrame frame write_ok =>
          if String.eqb (Frame_Type frame) FrameData then
            if write_ok then Streaming (set_body (resp_body r +:+ Frame_Payload frame) r) (acks + 1)
            else Finished r acks
          else if String.eqb (Frame_Type frame) FrameEOF then Finished r acks
          else if String.eqb (Frame_Type frame) FrameClose || String.eqb (Frame_Type frame) FrameError
          then Finished (abort r) acks
          else s
      end
  end.

(** The headers are written before the loop. *)
Definition stream_start (resp : Response) : stream_state :=
  Streaming (mkHTTPResponse (Response_Status resp)
    (addHeaders (map_to_list (FilterResponse (map_to_list (Response_Headers resp)))) ∅) "" false) 0.

Definition serveStreamedResponse (resp : Response) (events : list stream_event) : stream_state :=
  foldl (fun s ev => stream_turn ev s) (stream_start resp) events.
End Unary.

(** ** Lemmas *)

Section Lemmas.
Context {UT : UnicodeTables} {MQ : Msgpack Request} {MR : Msgpack Response}.

(** On canonical names the loop over the filtered headers copies them. *)
Lemma addHeaders_copy entries dst :
  (forall e, e ∈ entries -> CanonicalHeaderKey e.1 = e.1) -> addHeaders entries dst = copyLoop (fun _ => true) entries dst.
Proof using Type.
  revert dst. induction entries as [|[name values] entries IH]; intros dst H; [done|]. cbn [addHeaders copyLoop].
  assert (Hn : CanonicalHeaderKey name = name) by (apply (H (name, values)); left). rewrite Hn. apply IH.
  intros e He. apply H. by right.
Qed.

(** The headers the client is sent, in whatever order the two loops visit the
    entries. *)
Lemma client_headers_any_order h order order' k vs :
  canonical_header h -> iteration h order -> iteration (FilterResponse order) order' ->
  addHeaders order' ∅ !! k = Some vs <->
  h !! k = Some vs /\ vs <> [] /\ k <> "" /\ isHopByHop k = false.
Proof using Type.
  intros Hc Hit Hit'. rewrite addHeaders_copy.
  - rewrite (copyLoop_iteration _ _ _ _ _ (FilterResponse_canonical order) Hit').
    rewrite (FilterResponse_lookup h) by done. tauto.
  - intros [name values] He. unfold iteration in Hit'. rewrite Hit' in He. apply elem_of_map_to_list in He.
    by apply (FilterResponse_canonical order) in He.
Qed.

(** The headers of an envelope as the client gets them. *)
Lemma client_headers h k vs :
  canonical_header h ->
  addHeaders (map_to_list (FilterResponse (map_to_list h))) ∅ !! k = Some vs <->
  h !! k = Some vs /\ vs <> [] /\ k <> "" /\ isHopByHop k = false.
Proof using Type. intros Hc. apply (client_headers_any_order h (map_to_list h)); [done|apply Permutation_refl..]. Qed.

(** The requests among the messages of a handler. *)
Definition requests (l : list nats_message) : list (string * string) :=
  omap (fun m => match m with NatsRequest s p => Some (s, p) | _ => None end) l.
Definition publishes (l : list nats_message) : list (string * string) :=
  omap (fun m => match m with NatsPublish s p => Some (s, p) | _ => None end) l.

Definition no_error (resp : Response) : bool :=
  match Response_Error resp with Some _ => false | None => true end.

(** The handler once the body was read, the id drawn and the envelope encoded. *)
Lemma serveUnary_sent rid deadlineMS order nats req matched suffix body payload :
  readBounded (req_Body req) (routeRequestLimit (route_cfg matched)) = Ok body ->
  EncodeRequest (unary_envelope rid deadlineMS matched suffix order body req) = Ok payload ->
  let subject := UnarySubject (route_cfg matched) in
  serveUnary (Some rid) deadlineMS order nats req matched suffix =
  match nats_reply (nats subject payload) with
  | Err e =>
      (Answer (http_Error (http_StatusText (nats_status e (nats_ctx_done (nats subject payload))))
         (nats_status e (nats_ctx_done (nats subject payload)))),
       NatsRequest subject payload ::
         if nats_ctx_done (nats subject payload) then [NatsPublish (CancelSubject rid) ""] else [])
  | Ok reply =>
      (match DecodeResponse reply with
       | Err _ => Answer (http_Error "connector error" 502)
       | Ok resp =>
           if negb (String.eqb (Response_RequestID resp) rid) || negb (no_error resp)
           then Answer (http_Error "connector error" 502)
           else if negb (String.eqb (Response_StreamSessionID resp) "") then StreamedAnswer resp
           else Answer (writeResponse resp)
       end, [NatsRequest subject payload])
  end.
Proof using Type.
  intros Hb He. unfold serveUnary. rewrite Hb, He. cbn zeta.
  destruct (nats_reply _) as [reply|e]; [|done].
  destruct (DecodeResponse reply) as [resp|]; [|done]. unfold no_error.
  destruct (String.eqb (Response_RequestID resp) rid), (Response_Error resp); cbn [negb orb]; try done.
  by destruct (String.eqb (Response_StreamSessionID resp) "").
Qed.

(** Otherwise nothing is sent. *)
Lemma serveUnary_unsent requestID deadlineMS order nats req matched suffix :
  (forall rid body payload, requestID = Some rid ->
     readBounded (req_Body req) (routeRequestLimit (route_cfg matched)) = Ok body ->
     EncodeRequest (unary_envelope rid deadlineMS matched suffix order body req) <> Ok payload) ->
  exists status msg, serveUnary requestID deadlineMS order nats req matched suffix =
    (Answer (http_Error msg status), []) /\ status ∈ [400; 413; 500; 502].
Proof using Type.
  intros H. unfold serveUnary.
  destruct (readBounded _ _) as [body|[status msg]] eqn:Hb.
  - destruct requestID as [rid|]; [|exists 500; eexists; split; [done|set_solver]].
    destruct (EncodeRequest _) as [payload|] eqn:He; [by destruct (H rid body payload)|].
    exists 502. eexists. split; [done|set_solver].
  - exists status, msg. split; [done|]. unfold readBounded in Hb.
    destruct (ReadAll_Limit _ _); [destruct (_ <? _)|]; try done; injection Hb as <- <-; set_solver.
Qed.
End Lemmas.

(** ** Properties *)

Section Properties.
Context {UT : UnicodeTables} {MQ : Msgpack Request} {MR : Msgpack Response} {LQ : MsgpackLaws Request}.
#[local] Set Default Proof Using "Type*".

(** The envelope of a request: what it says, field by field. *)
Record forwards (rid : string) (deadlineMS : Z) (req : HTTPRequest) (matched : route) (suffix : string)
    (env : Request) : Prop := {
  fw_version : Request_Version env = 1;
  fw_id : Request_RequestID env = rid;
  fw_route : Request_Route env = Route_Name (route_cfg matched);
  fw_deadline : Request_DeadlineUnixMS env = deadlineMS;
  fw_method : Request_Method env = req_Method req;
  fw_authority : Request_Authority env = req_Host req;
  fw_path : Request_Path env = suffix;
  fw_scheme : Request_Scheme env =
    if req_TLS req || String.eqb (Header_Get (req_Header req) "X-Forwarded-Proto") "https" then "https" else "http";
  fw_body : Request_Body env = body_data (req_Body req);
  fw_headers k vs : Request_Headers env !! k = Some vs <->
    req_Header req !! k = Some vs /\ vs <> [] /\ allows (Route_ForwardedHeaders (route_cfg matched)) k
}.

Lemma forwards_envelope rid deadlineMS order req matched suffix :
  canonical_header (req_Header req) -> iteration (req_Header req) order ->
  forwards rid deadlineMS req matched suffix
    (unary_envelope rid deadlineMS matched suffix order (body_data (req_Body req)) req).
Proof using Type.
  intros Hc Hit. split; cbn; try done.
  - unfold requestScheme. destruct (req_TLS req); [done|]. cbn [orb].
    set (scheme := Header_Get _ _). destruct (String.eqb_spec scheme "https"); [done|].
    by destruct (String.eqb_spec scheme "http").
  - intros k vs. by apply FilterRequest_lookup.
Qed.

(** The description leaves nothing open. *)
Lemma forwards_unique rid deadlineMS req matched suffix env env' :
  forwards rid deadlineMS req matched suffix env -> forwards rid deadlineMS req matched suffix env' -> env = env'.
Proof using Type.
  intros [H1 H2 H3 H4 H5 H6 H7 H8 H9 H10] [H1' H2' H3' H4' H5' H6' H7' H8' H9' H10'].
  destruct env as [v i r d m s a p h b], env' as [v' i' r' d' m' s' a' p' h' b']. cbn in *.
  assert (h = h') as ->; [|congruence].
  apply map_eq. intros k. apply option_eq. intros vs. by rewrite H10, H10'.
Qed.

(** The body of the request is read in full and within the limit. *)
Definition body_read (req : HTTPRequest) (limit : Z) : Prop :=
  len (body_data (req_Body req)) <= limit /\ body_fails (req_Body req) = false.

Lemma readBounded_read req limit body :
  0 <= limit < max_int64 ->
  readBounded (req_Body req) limit = Ok body <-> body_read req limit /\ body = body_data (req_Body req).
Proof using Type.
  intros Hl. unfold body_read. rewrite readBounded_eq by done.
  destruct (Z.ltb_spec limit (len (body_data (req_Body req)))); [split; [done|intros [[? ?] ?]; lia]|].
  destruct (body_fails (req_Body req)); [split; [done|by intros [[? ?] ?]]|].
  split; [intros [= <-]; done|by intros [_ ->]].
Qed.

(** A valid envelope is encoded and an invalid one is not. *)
Lemma encodes_wf env :
  int64_range (Request_DeadlineUnixMS env) ->
  request_wf env <-> exists payload, EncodeRequest env = Ok payload.
Proof.
  intros Hd. pose proof (Request_Validate_iff env Hd) as Hv. split.
  - intros H%Hv. by apply encode_validated_total.
  - intros [payload H]. apply Hv. by apply (encode_validated_valid _ _ payload).
Qed.

(** What a request comes to before anything is sent: nothing, or an envelope. *)
Lemma serveUnary_cases requestID deadlineMS order req matched suffix :
  let limit := routeRequestLimit (route_cfg matched) in
  canonical_header (req_Header req) -> iteration (req_Header req) order ->
  int64_range deadlineMS -> limit < max_int64 ->
  (limit < len (body_data (req_Body req)) /\
   forall nats, serveUnary requestID deadlineMS order nats req matched suffix =
     (Answer (http_Error "request body too large" 413), [])) \/
  (len (body_data (req_Body req)) <= limit /\ body_fails (req_Body req) = true /\
   forall nats, serveUnary requestID deadlineMS order nats req matched suffix =
     (Answer (http_Error "failed to read request body" 400), [])) \/
  (body_read req limit /\ requestID = None /\
   forall nats, serveUnary requestID deadlineMS order nats req matched suffix =
     (Answer (http_Error "failed to create request id" 500), [])) \/
  (exists rid, body_read req limit /\ requestID = Some rid /\
   (forall env, forwards rid deadlineMS req matched suffix env -> ~ request_wf env) /\
   forall nats, serveUnary requestID deadlineMS order nats req matched suffix =
     (Answer (http_Error "invalid request envelope" 502), [])) \/
  (exists rid env payload, body_read req limit /\ requestID = Some rid /\
   forwards rid deadlineMS req matched suffix env /\ request_wf env /\
   DecodeRequest payload = Ok env /\
   readBounded (req_Body req) limit = Ok (body_data (req_Body req)) /\
   env = unary_envelope rid deadlineMS matched suffix order (body_data (req_Body req)) req /\
   EncodeRequest env = Ok payload).
Proof.
  intros limit Hc Hit Hd Hl.
  assert (H0 : 0 <= limit < max_int64) by (pose proof (routeRequestLimit_pos (route_cfg matched)); unfold limit in *; lia).
  pose proof (readBounded_eq (req_Body req) limit H0) as Hb.
  destruct (Z.ltb_spec limit (len (body_data (req_Body req)))) as [Hlen|Hlen].
  { left. split; [done|]. intros nats. unfold serveUnary. fold limit. by rewrite Hb. }
  destruct (body_fails (req_Body req)) eqn:Hf.
  { right; left. split_and!; [done..|]. intros nats. unfold serveUnary. fold limit. by rewrite Hb. }
  assert (Hr : body_read req limit) by by split.
  destruct requestID as [rid|].
  2:{ right; right; left. split_and!; [done..|]. intros nats. unfold serveUnary. fold limit. by rewrite Hb. }
  pose proof (forwards_envelope rid deadlineMS order req matched suffix Hc Hit) as Hfw.
  set (env := unary_envelope rid deadlineMS matched suffix order (body_data (req_Body req)) req) in *.
  right; right; right. destruct (EncodeRequest env) as [payload|] eqn:He.
  - right. exists rid, env, payload. split_and!; try done; [apply encodes_wf; [done|by eexists]|].
    by apply decode_encode_validated in He.
  - left. exists rid. split_and!; [done..| |].
    + intros env' Hfw' Hwf. rewrite (forwards_unique _ _ _ _ _ _ _ Hfw' Hfw) in Hwf.
      apply encodes_wf in Hwf as [payload Hp]; [congruence|done].
    + intros nats. unfold serveUnary. fold limit. rewrite Hb. fold env. by rewrite He.
Qed.

(** C23: what crosses to the connectors.  For a request with canonical header
    names, [serveUnary] makes at most one NATS request, on the route's own
    subject, and the connector decodes from it exactly the request as received:
    the method, the scheme, the authority, the forwarded path, the complete body,
    and precisely the headers with a value that the allowlist names.  Nothing is
    sent only when the body is over the limit or fails, no id could be drawn, or
    that envelope is not well formed.  A cancel is published if and only if the
    request failed with the context done, for this request and no other. *)
Theorem serveUnary_requests requestID deadlineMS order nats req matched suffix :
  let limit := routeRequestLimit (route_cfg matched) in
  canonical_header (req_Header req) -> iteration (req_Header req) order ->
  int64_range deadlineMS -> limit < max_int64 ->
  let sent := (serveUnary requestID deadlineMS order nats req matched suffix).2 in
  (sent = [] /\
   (~ body_read req limit \/ requestID = None \/
    exists rid, requestID = Some rid /\
      forall env, forwards rid deadlineMS req matched suffix env -> ~ request_wf env)) \/
  (exists rid env payload,
     body_read req limit /\ requestID = Some rid /\
     forwards rid deadlineMS req matched suffix env /\
     requests sent = [(UnarySubject (route_cfg matched), payload)] /\
     DecodeRequest payload = Ok env /\
     publishes sent =
       let result := nats (UnarySubject (route_cfg matched)) payload in
       if negb (is_ok (nats_reply result)) && nats_ctx_done result then [(CancelSubject rid, "")] else []).
Proof.
  intros limit Hc Hit Hd Hl sent. unfold sent.
  destruct (serveUnary_cases requestID deadlineMS order req matched suffix Hc Hit Hd Hl)
    as [(Hn & ->)|[(Hn & Hf & ->)|[(_ & Hn & ->)|[(rid & _ & Hn & Hwf & ->)|
       (rid & env & payload & Hr & Hid & Hfw & _ & Hdec & Hb & Henv & He)]]]].
  - left. split; [done|]. left. intros [? _]. unfold limit in *. lia.
  - left. split; [done|]. left. intros [_ ?]. congruence.
  - left. split; [done|]. by right; left.
  - left. split; [done|]. right; right. by exists rid.
  - right. exists rid, env, payload. subst env. rewrite Hid, (serveUnary_sent _ _ _ _ _ _ _ _ _ Hb He). cbn zeta.
    split_and!; [done..| |done|].
    + destruct (nats_reply _); [done|]. cbn [snd]. by destruct (nats_ctx_done _).
    + destruct (nats_reply _); [done|]. cbn [snd is_ok negb andb]. by destruct (nats_ctx_done _).
Qed.

(** What the client of an inline answer receives. *)
Definition answered_inline (resp : Response) (r : HTTPResponse) : Prop :=
  resp_status r = Response_Status resp /\ resp_body r = Response_Body resp /\ resp_aborted r = false /\
  (canonical_header (Response_Headers resp) -> forall k vs,
     resp_header r !! k = Some vs <->
     Response_Headers resp !! k = Some vs /\ vs <> [] /\ k <> "" /\ isHopByHop k = false).

(** The documented outcomes of a unary request, by cause. *)
Inductive unary_answered (requestID : option string) (deadlineMS : Z) (nats : string -> string -> nats_result)
    (req : HTTPRequest) (matched : route) (suffix : string) : unary_outcome -> Prop :=
| ua_too_large :
    routeRequestLimit (route_cfg matched) < len (body_data (req_Body req)) ->
    unary_answered requestID deadlineMS nats req matched suffix (Answer (http_Error "request body too large" 413))
| ua_unread :
    len (body_data (req_Body req)) <= routeRequestLimit (route_cfg matched) -> body_fails (req_Body req) = true ->
    unary_answered requestID deadlineMS nats req matched suffix (Answer (http_Error "failed to read request body" 400))
| ua_no_id :
    body_read req (routeRequestLimit (route_cfg matched)) -> requestID = None ->
    unary_answered requestID deadlineMS nats req matched suffix (Answer (http_Error "failed to create request id" 500))
| ua_invalid rid :
    body_read req (routeRequestLimit (route_cfg matched)) -> requestID = Some rid ->
    (forall env, forwards rid deadlineMS req matched suffix env -> ~ request_wf env) ->
    unary_answered requestID deadlineMS nats req matched suffix (Answer (http_Error "invalid request envelope" 502))
| ua_failed rid env payload e status text :
    body_read req (routeRequestLimit (route_cfg matched)) -> requestID = Some rid ->
    forwards rid deadlineMS req matched suffix env -> request_wf env -> EncodeRequest env = Ok payload ->
    nats_reply (nats (UnarySubject (route_cfg matched)) payload) = Err e ->
    (status, text) = match e, nats_ctx_done (nats (UnarySubject (route_cfg matched)) payload) with
      | ErrNoResponders, _ => (503, "Service Unavailable")
      | ErrTimeout, _ | ErrDeadlineExceeded, _ | ErrNatsOther, true => (504, "Gateway Timeout")
      | ErrNatsOther, false => (502, "Bad Gateway")
      end ->
    unary_answered requestID deadlineMS nats req matched suffix (Answer (http_Error text status))
| ua_refused rid env payload reply :
    body_read req (routeRequestLimit (route_cfg matched)) -> requestID = Some rid ->
    forwards rid deadlineMS req matched suffix env -> request_wf env -> EncodeRequest env = Ok payload ->
    nats_reply (nats (UnarySubject (route_cfg matched)) payload) = Ok reply ->
    (forall resp, DecodeResponse reply = Ok resp -> Response_RequestID resp <> rid \/ Response_Error resp <> None) ->
    unary_answered requestID deadlineMS nats req matched suffix (Answer (http_Error "connector error" 502))
| ua_streamed rid env payload reply resp :
    body_read req (routeRequestLimit (route_cfg matched)) -> requestID = Some rid ->
    forwards rid deadlineMS req matched suffix env -> request_wf env -> EncodeRequest env = Ok payload ->
    nats_reply (nats (UnarySubject (route_cfg matched)) payload) = Ok reply ->
    DecodeResponse reply = Ok resp -> Response_RequestID resp = rid -> Response_Error resp = None ->
    Response_StreamSessionID resp <> "" ->
    unary_answered requestID deadlineMS nats req matched suffix (StreamedAnswer resp)
| ua_inline rid env payload reply resp r :
    body_read req (routeRequestLimit (route_cfg matched)) -> requestID = Some rid ->
    forwards rid deadlineMS req matched suffix env -> request_wf env -> EncodeRequest env = Ok payload ->
    nats_reply (nats (UnarySubject (route_cfg matched)) payload) = Ok reply ->
    DecodeResponse reply = Ok resp -> Response_RequestID resp = rid -> Response_Error resp = None ->
    Response_StreamSessionID resp = "" -> answered_inline resp r ->
    unary_answered requestID deadlineMS nats req matched suffix (Answer r).

Lemma writeResponse_inline resp : answered_inline resp (writeResponse resp).
Proof using Type. do 3 (split; [done|]). intros Hc k vs. by apply client_headers. Qed.

(** C24: every request gets the answer its outcome calls for.  413 for a body over
    the limit, 400 for one that cannot be read, 500 without an id, 502 for an
    envelope that is not well formed; when NATS fails, 503 if no connector serves
    the route, 504 if the time is up, else 502; 502 for a reply that does not
    decode, carries another id or an error; and otherwise, only then, the
    connector's own answer: its stream, or its status, body and filtered
    headers.  The cases exclude each other and leave none out. *)
Theorem serveUnary_answers requestID deadlineMS order nats req matched suffix :
  canonical_header (req_Header req) -> iteration (req_Header req) order ->
  int64_range deadlineMS -> routeRequestLimit (route_cfg matched) < max_int64 ->
  unary_answered requestID deadlineMS nats req matched suffix
    (serveUnary requestID deadlineMS order nats req matched suffix).1.
Proof.
  intros Hc Hit Hd Hl.
  destruct (serveUnary_cases requestID deadlineMS order req matched suffix Hc Hit Hd Hl)
    as [(Hn & ->)|[(Hn & Hf & ->)|[(Hr & Hn & ->)|[(rid & Hr & Hn & Hwf & ->)|
       (rid & env & payload & Hr & Hid & Hfw & Hwf & Hdec & Hb & Henv & He)]]]].
  - by apply ua_too_large.
  - by apply ua_unread.
  - by apply ua_no_id.
  - by apply (ua_invalid _ _ _ _ _ _ rid).
  - subst env. rewrite Hid, (serveUnary_sent _ _ _ _ _ _ _ _ _ Hb He). cbn zeta.
    destruct (nats_reply _) as [reply|e] eqn:Hrep; cbn [fst].
    + destruct (DecodeResponse reply) as [resp|] eqn:Hresp.
      2:{ eapply ua_refused; try done. intros resp Hr'. congruence. }
      destruct (String.eqb_spec (Response_RequestID resp) rid) as [Hrid|Hrid]; cbn [negb orb].
      2:{ eapply ua_refused; try done. intros resp' ?. left. congruence. }
      unfold no_error. destruct (Response_Error resp) eqn:Herr; cbn [negb].
      { eapply ua_refused; try done. intros resp' ?. right. congruence. }
      destruct (String.eqb_spec (Response_StreamSessionID resp) "") as [Hs|Hs]; cbn [negb].
      * eapply ua_inline; try done. apply writeResponse_inline.
      * by eapply ua_streamed.
    + eapply ua_failed; try done. unfold nats_status. destruct e; [done..|]. by destruct (nats_ctx_done _).
Qed.

(** ** Streamed bodies *)

(** A frame that is relayed to the client and acknowledged. *)
Definition stream_data (ev : stream_event) : option string :=
  match ev with
  | StreamFrame f true => if String.eqb (Frame_Type f) FrameData then Some (Frame_Payload f) else None
  | _ => None
  end.

(** The stream goes on after the event. *)
Definition goes_on (ev : stream_event) : bool :=
  match ev with
  | StreamFrame f ok =>
      if String.eqb (Frame_Type f) FrameData then ok
      else negb (String.eqb (Frame_Type f) FrameEOF || String.eqb (Frame_Type f) FrameClose ||
                 String.eqb (Frame_Type f) FrameError)
  | _ => false
  end.

(** The event that ends the response without cutting the connection. *)
Definition ends_normally (ev : stream_event) : bool :=
  match ev with
  | ClientGone => true
  | TunnelGone => false
  | StreamFrame f ok =>
      if String.eqb (Frame_Type f) FrameData then negb ok else String.eqb (Frame_Type f) FrameEOF
  end.

Definition stream_resp (s : stream_state) : HTTPResponse :=
  match s with Streaming r _ | Finished r _ => r end.
Definition stream_acks (s : stream_state) : Z :=
  match s with Streaming _ a | Finished _ a => a end.

Lemma finished_stays events r a :
  foldl (fun s ev => stream_turn ev s) (Finished r a) events = Finished r a.
Proof using Type. by induction events. Qed.

(** As long as events go on, the data is appended and acknowledged. *)
Lemma stream_goes_on events r a :
  forallb goes_on events = true ->
  foldl (fun s ev => stream_turn ev s) (Streaming r a) events =
  Streaming (set_body (resp_body r +:+ str_concat (omap stream_data events)) r)
    (a + Z.of_nat (length (omap stream_data events))).
Proof using Type.
  revert r a. induction events as [|ev events IH]; intros r a Hg; cbn [foldl omap list_omap].
  - cbn. rewrite app_str_nil_r, Z.add_0_r. by destruct r.
  - cbn [forallb] in Hg. apply andb_true_iff in Hg as [Hev Hg].
    destruct ev as [| |f ok]; [done..|]. unfold goes_on in Hev.
    destruct (String.eqb (Frame_Type f) FrameData) eqn:Ed.
    + subst ok. assert (stream_data (StreamFrame f true) = Some (Frame_Payload f)) as -> by
        (unfold stream_data; by rewrite Ed).
      unfold stream_turn at 2. rewrite Ed, IH by done. cbn [str_concat foldr length].
      unfold set_body. cbn [resp_status resp_header resp_body resp_aborted].
      rewrite app_str_assoc. f_equal. lia.
    + assert (stream_data (StreamFrame f ok) = None) as -> by
        (unfold stream_data; rewrite Ed; by destruct ok).
      unfold stream_turn at 2. rewrite Ed. bsimpl.
      rewrite (proj2 (String.eqb_neq _ _)), (proj2 (String.eqb_neq _ _)), (proj2 (String.eqb_neq _ _)) by done.
      cbn [orb]. by rewrite IH.
Qed.

(** Whatever follows, the status and headers are those written before the loop. *)
Lemma streamed_head resp events :
  resp_status (stream_resp (serveStreamedResponse resp events)) = Response_Status resp /\
  (canonical_header (Response_Headers resp) -> forall k vs,
     resp_header (stream_resp (serveStreamedResponse resp events)) !! k = Some vs <->
     Response_Headers resp !! k = Some vs /\ vs <> [] /\ k <> "" /\ isHopByHop k = false).
Proof using Type.
  unfold serveStreamedResponse. assert (Hkeep : forall s,
    resp_status (stream_resp (foldl (fun s ev => stream_turn ev s) s events)) = resp_status (stream_resp s) /\
    resp_header (stream_resp (foldl (fun s ev => stream_turn ev s) s events)) = resp_header (stream_resp s)).
  { induction events as [|ev events IH]; intros s; [done|]. cbn [foldl]. destruct (IH (stream_turn ev s)) as [-> ->].
    destruct s as [r a|r a]; [|done]. destruct ev as [| |f ok]; [done..|]. cbn [stream_turn].
    destruct (String.eqb _ _); [by destruct ok|]. destruct (String.eqb _ _); [done|]. by destruct (_ || _). }
  destruct (Hkeep (stream_start resp)) as [-> ->]. split; [done|]. intros Hc k vs. by apply client_headers.
Qed.

(** A streamed response is complete or visibly cut.  The body given to the
    client is, in order, the data of the frames before the one that ended the
    stream, each acknowledged once; and the response ends without the
    connection being cut only on the connector's end of stream, or because the
    client itself is gone. *)
Theorem stream_complete_or_cut resp before ev after :
  forallb goes_on before = true -> goes_on ev = false ->
  let s := serveStreamedResponse resp (before ++ ev :: after) in
  resp_body (stream_resp s) = str_concat (omap stream_data before) /\
  stream_acks s = Z.of_nat (length (omap stream_data before)) /\
  resp_status (stream_resp s) = Response_Status resp /\
  resp_aborted (stream_resp s) = negb (ends_normally ev) /\
  (exists r a, s = Finished r a).
Proof using Type.
  intros Hb He. cbn zeta. unfold serveStreamedResponse. rewrite foldl_app.
  unfold stream_start. rewrite stream_goes_on by done. cbn [foldl].
  destruct ev as [| |f ok]; cbn [stream_turn].
  - rewrite finished_stays. split_and!; try done. by do 2 eexists.
  - rewrite finished_stays. split_and!; try done. by do 2 eexists.
  - unfold goes_on in He. unfold ends_normally.
    destruct (String.eqb (Frame_Type f) FrameData); [destruct ok; [done|]|].
    { rewrite finished_stays. split_and!; try done. by do 2 eexists. }
    destruct (String.eqb (Frame_Type f) FrameEOF).
    { rewrite finished_stays. split_and!; try done. by do 2 eexists. }
    cbn [orb] in He. apply negb_false_iff in He. rewrite He, finished_stays.
    split_and!; try done. by do 2 eexists.
Qed.
End Properties.

(** ** A route for the whole site *)

Section TrailingSlash.
Context {UT : UnicodeTables} {MQ : Msgpack Request} {MR : Msgpack Response}.

(** A prefix that ends in a slash serves almost nothing.  With
    [public_prefix: /], or any prefix ending in a slash, every path below it
    (but for the prefix itself and doubled slashes) is matched, is stripped of
    its leading slash, makes an invalid envelope and is answered 502 without
    asking any connector. *)
Theorem slash_prefix_unservable rid deadlineMS order nats req r rest body :
  route_exact r = "" -> HasSuffix (route_prefix r) "/" = true ->
  req_Path req = route_prefix r +:+ rest -> rest <> "" -> HasPrefix rest "/" = false ->
  hostMatches (Route_PublicHost (route_cfg r)) (req_Host req) = true ->
  readBounded (req_Body req) (routeRequestLimit (route_cfg r)) = Ok body ->
  exists suffix, matchRoute [r] req = Some (r, suffix) /\
    serveUnary (Some rid) deadlineMS order nats req r suffix =
      (Answer (http_Error "invalid request envelope" 502), []).
Proof.
  intros Hex Hslash Hpath Hne Hns Hhost Hbody. cbn [matchRoute]. rewrite Hhost, Hex. cbn [negb andb String.eqb].
  assert (Hp : pathHasPrefix (req_Path req) (route_prefix r) = true).
  { apply pathHasPrefix_spec. exists rest. split; [done|]. by right; left. }
  assert (Hpe : String.eqb (route_prefix r) "" = false).
  { destruct (String.eqb_spec (route_prefix r) "") as [E|]; [by rewrite E in Hslash|done]. }
  rewrite Hp, Hpe. cbn [negb andb]. rewrite Hpath, TrimPrefix_app, (proj2 (String.eqb_neq _ _) Hne).
  eexists. split; [done|].
  assert (Hq : HasPrefix (withQuery rest (req_RawQuery req)) "/" = false).
  { unfold withQuery. destruct (String.eqb (req_RawQuery req) ""); [done|]. destruct rest as [|c rest]; [done|]. by destruct rest. }
  unfold serveUnary. rewrite Hbody.
  destruct (EncodeRequest _) as [payload|] eqn:He; [|done].
  apply encode_validated_valid in He. unfold Request_Validate in He.
  autorewrite with airpc_ok in He. destruct He as (_ & _ & _ & _ & _ & _ & _ & _ & Hv & _).
  cbn [unary_envelope Request_Path] in Hv. apply validatePath_spec in Hv as [Hv _]. congruence.
Qed.
End TrailingSlash.

(** ** Witnesses *)

#[local] Existing Instance ascii_tables.
#[local] Existing Instance request_msgpack.
#[local] Existing Instance response_msgpack.

(** No connector subscribes to the route. *)
Definition demo_no_responders : string -> string -> nats_result :=
  fun _ _ => mkNatsResult (Err ErrNoResponders) false.

Lemma stream_complete_or_cut_witness :
  let data p := StreamFrame (dataFrame "s1" DataBinary p) true in
  let resp := mkResponse 1 "r" 200 ∅ "" "s1" "c1" None in
  let s := serveStreamedResponse resp ([data "a"; data "b"] ++ StreamFrame (eofFrame "s1") true :: []) in
  resp_body (stream_resp s) = "ab" /\ resp_aborted (stream_resp s) = false.
Proof.
  intros data resp s.
  destruct (stream_complete_or_cut resp [data "a"; data "b"] (StreamFrame (eofFrame "s1") true) []
    eq_refl eq_refl) as (H1 & _ & _ & H2 & _).
  split; [exact H1|exact H2].
Defined.

(** The documented [public_prefix: /] and a request for [/users]. *)
Lemma slash_prefix_unservable_witness :
  let r := mkroute (demo_route "users" "/" "") "/" "" in
  exists suffix, matchRoute [r] (demo_request "/users") = Some (r, suffix) /\
    serveUnary (Some "r1") 1700000000000 [] demo_no_responders (demo_request "/users") r suffix =
      (Answer (http_Error "invalid request envelope" 502), []).
Proof.
  intros r. apply (slash_prefix_unservable "r1" 1700000000000 [] demo_no_responders (demo_request "/users") r "users" "");
    first [reflexivity | discriminate].
Defined.

Definition demo_unary_route : route := mkroute (demo_route "api" "/api" "") "/api" "".

Lemma demo_request_canonical : canonical_header (req_Header (demo_request "/api/x")).
Proof. intros k vs H. cbn in H. by rewrite lookup_empty in H. Qed.

Lemma demo_request_order : iteration (req_Header (demo_request "/api/x")) [].
Proof. unfold iteration. cbn. by rewrite map_to_list_empty. Qed.

Lemma serveUnary_requests_witness :
  let run := serveUnary (Some "r1") 1700000000000 [] demo_no_responders (demo_request "/api/x") demo_unary_route "/x?x=1" in
  exists env payload,
    requests run.2 = [("airpc.v1.route.api.unary", payload)] /\ DecodeRequest payload = Ok env /\
    Request_Method env = "GET" /\ Request_Path env = "/x?x=1" /\ Request_Body env = "".
Proof.
  intros run.
  destruct (serveUnary_requests (LQ := countable_msgpack_laws) (Some "r1") 1700000000000 [] demo_no_responders
    (demo_request "/api/x") demo_unary_route "/x?x=1" demo_request_canonical demo_request_order)
    as [[H _]|(rid & env & payload & _ & _ & Hfw & Hreq & Hdec & _)].
  - unfold int64_range, min_int64, max_int64. lia.
  - vm_compute. reflexivity.
  - exfalso. vm_compute in H. discriminate.
  - exists env, payload. split; [exact Hreq|]. split; [exact Hdec|]. destruct Hfw as [_ _ _ _ Hm _ Hp _ Hb _].
    split; [exact Hm|]. split; [exact Hp|exact Hb].
Defined.

Lemma serveUnary_answers_witness :
  let answer := (serveUnary (Some "r1") 1700000000000 [] demo_no_responders (demo_request "/api/x") demo_unary_route "/x?x=1").1 in
  unary_answered (Some "r1") 1700000000000 demo_no_responders (demo_request "/api/x") demo_unary_route "/x?x=1" answer /\
  answer = Answer (http_Error "Service Unavailable" 503).
Proof.
  intros answer. split; [|vm_compute; reflexivity].
  apply (serveUnary_answers (LQ := countable_msgpack_laws) (Some "r1") 1700000000000 [] demo_no_responders
    (demo_request "/api/x") demo_unary_route "/x?x=1" demo_request_canonical demo_request_order).
  - unfold int64_range, min_int64, max_int64. lia.
  - vm_compute. reflexivity.
Defined.
