(* ===== verification/EdgeTunnel.v ===== *)
(** * The edge's side of the data tunnel

    [internal/edge/data.go]: the registry of connector links, the endpoint
    connectors dial, the sessions connectors open for streamed responses, and
    the opening of sessions towards a connector. *)
From S2P Require Import Prelude GoString GoStd Msgpack Config TunnelEnvelope Link EdgeRoutes EdgeUnary.

#[local] Open Scope Z_scope.

Definition dataTunnelPath : string := "/_airpc/data".

(** ** The registry *)

(** Links are shared: the registry and the handlers hold references. *)
Abbreviation lref := nat.

Record Edge := mkEdge {
  ed_registry : gmap string lref;
  ed_links : gmap lref Link
}.

Definition newTunnelRegistry : Edge := mkEdge ∅ ∅.

Definition close_link (l : lref) (e : Edge) : Edge := mkEdge (ed_registry e) (alter Close l (ed_links e)).

Definition register (connectorID : string) (link : lref) (e : Edge) : Edge :=
  let old := ed_registry e !! connectorID in
  let e1 := mkEdge (<[connectorID := link]> (ed_registry e)) (ed_links e) in
  match old with
  | Some o => close_link o e1
  | None => e1
  end.

Definition unregister (connectorID : string) (link : lref) (e : Edge) : Edge :=
  if bool_decide (ed_registry e !! connectorID = Some link)
  then mkEdge (delete connectorID (ed_registry e)) (ed_links e) else e.

Definition get (connectorID : string) (e : Edge) : option lref := ed_registry e !! connectorID.

Definition closeAll (e : Edge) : Edge :=
  foldr close_link (mkEdge ∅ (ed_links e)) (map_to_list (ed_registry e)).*2.

(** ** The endpoint connectors dial *)

(** The parts of the request the handler reads: the values of
    [URL.Query().Get] and the [Authorization] header. *)
Record DataRequest := mkDataRequest {
  dr_Path : string;
  dr_Query : string -> string;
  dr_Authorization : string
}.

Inductive data_outcome :=
| DataNotFound
| DataError (msg : string) (status : Z)
| DataUpgrade (connectorID : string).

(** [dataHandler.ServeHTTP] up to the upgrade. *)
Definition dataHandler_ServeHTTP (token : string) (req : DataRequest) : data_outcome :=
  if negb (String.eqb (dr_Path req) dataTunnelPath) then DataNotFound
  else
    let connectorID := dr_Query req "connector_id" in
    let connectorID := if String.eqb connectorID "" then dr_Query req "id" else connectorID in
    match ValidateSubjectToken "connector_id" connectorID with
    | Err _ => DataError "invalid connector id" 400
    | Ok _ =>
        if negb (String.eqb token "") && negb (String.eqb (dr_Query req "token") token) &&
           negb (String.eqb (dr_Authorization req) ("Bearer " +:+ token))
        then DataError "unauthorized" 401
        else DataUpgrade connectorID
    end.

(** After the upgrade: a fresh link is registered; when [Run] returns it has
    closed the link, which is then unregistered. *)
Definition data_connect (connectorID : string) (l : lref) (e : Edge) : Edge :=
  register connectorID l (mkEdge (ed_registry e) (<[l := NewLink]> (ed_links e))).
Definition data_disconnect (connectorID : string) (l : lref) (e : Edge) : Edge :=
  unregister connectorID l (close_link l e).

Section Sessions.
Context {MF : Msgpack Frame} {MQ : Msgpack OpenRequest} {MR : Msgpack OpenResponse}.

(** ** Sessions opened by connectors *)

(** [acceptStreamOpen]: the link, and the session whose claim timer was
    started. *)
Definition acceptStreamOpen (frame : Frame) (l : Link) : Link * option ref :=
  if negb (String.eqb (Frame_Kind frame) KindHTTPStream) then (l, None)
  else
    match Accept (Frame_SessionID frame) l with
    | (l', Err _) => (l', None)
    | (l', Ok r) => (l', Some r)
    end.

(** The claim timer's function. *)
Definition claim_timeout (r : ref) (l : Link) : Link :=
  if negb (Claimed r l) then CloseWithError "response stream was not claimed" r l else l.

Inductive claim_result :=
| ClaimWaiting                       (** sleep and poll again *)
| ClaimNone                          (** nil *)
| ClaimGot (r : ref).

(** One turn of [claimStreamSession]; [expired]: the deadline has passed. *)
Definition claim_turn (sessionID : string) (expired : bool) (l : Link) : Link * claim_result :=
  match lookupSession sessionID l with
  | Some r =>
      let '(l', claimed) := TryClaim r l in
      (l', if claimed then ClaimGot r else ClaimNone)
  | None => (l, if expired then ClaimNone else ClaimWaiting)
  end.

(** ** Opening a session towards a connector *)

Inductive open_error :=
| OpenEncode
| OpenNATS (e : nats_error)
| OpenDecode
| ErrTunnelUnavailable
| OpenRejected (msg : string)
| OpenLink (e : link_error).

Definition open_request (r : Route) (sessionID path : string) (deadlineMS : Z) : OpenRequest :=
  mkOpenRequest TunnelEnvelope.Version sessionID sessionID (Route_Name r) (Route_Mode r) path deadlineMS.

(** [attemptOpenDataSession]: the connector's link and the session on it. *)
Definition attemptOpenDataSession (deadlineMS : Z) (nats : string -> string -> res nats_error string)
    (r : Route) (sessionID path : string) (e : Edge) : Edge * res open_error (lref * ref) :=
  match EncodeOpenRequest (open_request r sessionID path deadlineMS) with
  | Err _ => (e, Err OpenEncode)
  | Ok payload =>
      match nats (OpenSubject r) payload with
      | Err err => (e, Err (OpenNATS err))
      | Ok reply =>
          match DecodeOpenResponse reply with
          | Err _ => (e, Err OpenDecode)
          | Ok resp =>
              if negb (String.eqb (OpenResponse_RequestID resp) sessionID) || negb (OpenResponse_Accepted resp)
              then
                if String.eqb (OpenResponse_Error resp) ErrTunnelNotConnected then (e, Err ErrTunnelUnavailable)
                else if String.eqb (OpenResponse_Error resp) "" then (e, Err (OpenRejected "open rejected"))
                else (e, Err (OpenRejected (OpenResponse_Error resp)))
              else
                match get (OpenResponse_ConnectorID resp) e with
                | None => (e, Err ErrTunnelUnavailable)
                | Some l =>
                    match ed_links e !! l with
                    | None => (e, Err ErrTunnelUnavailable)
                    | Some link =>
                        let '(link', res) := Open (openFrame sessionID (Route_Name r) (Route_Mode r) path) link in
                        (mkEdge (ed_registry e) (<[l := link']> (ed_links e)),
                         match res with Ok s => Ok (l, s) | Err err => Err (OpenLink err) end)
                    end
                end
          end
      end
  end.

(** The world at one turn of [openDataSession]'s loop: the answer of NATS, what
    else happened to the edge before the attempt, and whether the open timeout
    ends the wait after it. *)
Record open_turn := mkOpenTurn {
  ot_nats : string -> string -> res nats_error string;
  ot_world : Edge -> Edge;
  ot_timeout : bool
}.

(** [openDataSession]; [None] when the turns given end while it would still
    retry. *)
Fixpoint openDataSession (deadlineMS : Z) (turns : list open_turn) (r : Route) (sessionID path : string)
    (e : Edge) : Edge * option (res open_error (lref * ref)) :=
  match turns with
  | [] => (e, None)
  | t :: turns' =>
      let '(e', result) := attemptOpenDataSession deadlineMS (ot_nats t) r sessionID path (ot_world t e) in
      match result with
      | Ok s => (e', Some (Ok s))
      | Err ErrTunnelUnavailable =>
          if ot_timeout t then (e', Some (Err ErrTunnelUnavailable))
          else openDataSession deadlineMS turns' r sessionID path e'
      | Err err => (e', Some (Err err))
      end
  end.
End Sessions.

(** ** The registry over time *)

(** What the connectors and the edge's operator did. *)
Inductive tunnel_event :=
| Dialed (id : string) (l : lref)
| Dropped (l : lref)
| ShutDown.

(** The edge with, for each link, the connector it was dialled by, and what
    happened so far, the last event first. *)
Record Tunnels := mkTunnels {
  tn_edge : Edge;
  tn_owner : gmap lref string;
  tn_log : list tunnel_event
}.

(** The link a connector dialled last, unless that one has dropped since or the
    edge has shut down. *)
Fixpoint current (id : string) (log : list tunnel_event) : option lref :=
  match log with
  | [] => None
  | Dialed id' l :: log' => if String.eqb id' id then Some l else current id log'
  | Dropped l :: log' => if bool_decide (current id log' = Some l) then None else current id log'
  | ShutDown :: _ => None
  end.

(** Connectors dial and drop; links live, and never reopen once closed. *)
Inductive tunnels_step : Tunnels -> Tunnels -> Prop :=
| tn_connect id l e o log :
    o !! l = None -> ed_links e !! l = None ->
    tunnels_step (mkTunnels e o log) (mkTunnels (data_connect id l e) (<[l := id]> o) (Dialed id l :: log))
| tn_disconnect id l e o log :
    o !! l = Some id ->
    tunnels_step (mkTunnels e o log) (mkTunnels (data_disconnect id l e) o (Dropped l :: log))
| tn_activity l f e o log :
    (forall k, Link_open k = false -> Link_open (f k) = false) ->
    tunnels_step (mkTunnels e o log) (mkTunnels (mkEdge (ed_registry e) (alter f l (ed_links e))) o log)
| tn_closeAll e o log : tunnels_step (mkTunnels e o log) (mkTunnels (closeAll e) o (ShutDown :: log)).

Definition tunnels_init (t : Tunnels) : Prop := t = mkTunnels newTunnelRegistry ∅ [].

(** The link exists and its connection is open. *)
Definition alive (e : Edge) (l : lref) : Prop :=
  exists k, ed_links e !! l = Some k /\ Link_open k = true.

Record tunnels_inv (t : Tunnels) : Prop := {
  ti_owned : forall id l, ed_registry (tn_edge t) !! id = Some l -> tn_owner t !! l = Some id;
  ti_known : forall l, is_Some (ed_links (tn_edge t) !! l) -> is_Some (tn_owner t !! l);
  ti_alive : forall l id, tn_owner t !! l = Some id -> alive (tn_edge t) l ->
    ed_registry (tn_edge t) !! id = Some l
}.

Lemma alive_alter f l e l' :
  (forall k, Link_open k = false -> Link_open (f k) = false) ->
  alive (mkEdge (ed_registry e) (alter f l (ed_links e))) l' -> alive e l'.
Proof.
  intros Hf (k & Hk & Ho). cbn in Hk. rewrite lookup_alter in Hk.
  destruct (decide (l = l')) as [<-|]; [|by exists k].
  destruct (ed_links e !! l) as [k0|] eqn:E; [|done]. injection Hk as <-.
  exists k0. split; [done|]. destruct (Link_open k0) eqn:E0; [done|]. by rewrite Hf in Ho.
Qed.

Lemma Close_closes k : Link_open (Close k) = false.
Proof. apply Close_fields. Qed.

Lemma alive_close l e l' : alive (close_link l e) l' -> alive e l' /\ l' <> l.
Proof.
  intros H. split; [by apply (alive_alter Close l); [intros; apply Close_closes|]|].
  intros ->. destruct H as (k & Hk & Ho). cbn in Hk. rewrite lookup_alter_eq in Hk.
  destruct (ed_links e !! l); [|done]. injection Hk as <-. by rewrite Close_closes in Ho.
Qed.

Lemma closeAll_spec ls e :
  let e' := foldr close_link e ls in
  ed_registry e' = ed_registry e /\
  (forall l, is_Some (ed_links e' !! l) <-> is_Some (ed_links e !! l)) /\
  (forall l, alive e' l -> alive e l /\ l ∉ ls).
Proof.
  induction ls as [|l ls (IH1 & IH2 & IH3)]; cbn [foldr].
  - split_and!; [done|done|]. intros l H. split; [done|]. by intros ?%elem_of_nil.
  - split_and!; [done| |].
    + intros l'. rewrite <- IH2. cbn. rewrite lookup_alter.
      destruct (decide (l = l')) as [<-|]; [|done]. by rewrite fmap_is_Some.
    + intros l' [Ha Hne]%alive_close. destruct (IH3 l' Ha) as [? Hn]. split; [done|].
      by intros [?|?]%elem_of_cons.
Qed.

Lemma close_link_known l e l' : is_Some (ed_links (close_link l e) !! l') -> is_Some (ed_links e !! l').
Proof. cbn. rewrite lookup_alter. destruct (decide (l = l')) as [<-|]; [by rewrite fmap_is_Some|done]. Qed.

Lemma connect_inv id l e o log :
  o !! l = None -> tunnels_inv (mkTunnels e o log) ->
  tunnels_inv (mkTunnels (data_connect id l e) (<[l := id]> o) (Dialed id l :: log)).
Proof.
  intros Hl [H1 H2 H3]. cbn [tn_edge tn_owner] in *. unfold data_connect, register. cbn [ed_registry ed_links].
  assert (Hreg : forall e', ed_registry e' = <[id := l]> (ed_registry e) ->
    forall id' l', ed_registry e' !! id' = Some l' -> (<[l := id]> o) !! l' = Some id').
  { intros e' -> id' l'. rewrite lookup_insert. destruct (decide (id = id')) as [<-|].
    - intros [= <-]. by rewrite lookup_insert_eq.
    - intros Hr. rewrite lookup_insert_ne; [by apply H1|]. intros ->. apply H1 in Hr. congruence. }
  assert (Hknown : forall l', is_Some ((<[l := NewLink]> (ed_links e)) !! l') -> is_Some ((<[l := id]> o) !! l')).
  { intros l'. rewrite !lookup_insert. destruct (decide (l = l')); [by eexists|by apply H2]. }
  assert (Hold : forall l' id', l' <> l -> o !! l' = Some id' ->
    alive (mkEdge (<[id := l]> (ed_registry e)) (<[l := NewLink]> (ed_links e))) l' ->
    ed_registry e !! id' = Some l').
  { intros l' id' Hne Ho (k & Hk & Hopen). cbn in Hk. rewrite lookup_insert_ne in Hk by done.
    apply H3; [done|]. by exists k. }
  destruct (ed_registry e !! id) as [old|] eqn:Er; split; cbn [tn_edge tn_owner].
  - by apply Hreg.
  - intros l' Hl'. apply Hknown. by apply close_link_known in Hl'.
  - intros l' id' Ho Ha. apply alive_close in Ha as [Ha Hne]. cbn.
    rewrite lookup_insert in Ho. destruct (decide (l = l')) as [<-|Hll].
    + injection Ho as <-. by rewrite lookup_insert_eq.
    + pose proof (Hold l' id' ltac:(done) Ho Ha) as Hr. rewrite lookup_insert_ne; [done|]. congruence.
  - by apply Hreg.
  - apply Hknown.
  - intros l' id' Ho Ha. cbn. rewrite lookup_insert in Ho. destruct (decide (l = l')) as [<-|Hll].
    + injection Ho as <-. by rewrite lookup_insert_eq.
    + pose proof (Hold l' id' ltac:(done) Ho Ha) as Hr. rewrite lookup_insert_ne; [done|]. congruence.
Qed.

Lemma disconnect_inv id l e o log :
  o !! l = Some id -> tunnels_inv (mkTunnels e o log) ->
  tunnels_inv (mkTunnels (data_disconnect id l e) o (Dropped l :: log)).
Proof.
  intros Hl [H1 H2 H3]. cbn [tn_edge tn_owner] in *. unfold data_disconnect, unregister.
  cbn [close_link ed_registry]. case_bool_decide as Hr; split; cbn [tn_edge tn_owner ed_registry ed_links].
  - intros id' l'. rewrite lookup_delete. destruct (decide (id = id')); [done|apply H1].
  - intros l' Hl'. apply H2. by apply (close_link_known l e) in Hl'.
  - intros l' id' Ho Ha. destruct (alive_close l e l') as [Ha' Hne].
    { destruct Ha as (k & Hk & ?). by exists k. }
    pose proof (H3 l' id' Ho Ha') as Hr'. rewrite lookup_delete_ne; [done|]. congruence.
  - apply H1.
  - intros l' Hl'. apply H2. by apply (close_link_known l e) in Hl'.
  - intros l' id' Ho Ha. destruct (alive_close l e l' Ha) as [Ha' Hne]. by apply H3.
Qed.

Lemma tunnels_step_inv t t' : tunnels_inv t -> tunnels_step t t' -> tunnels_inv t'.
Proof.
  intros Hinv Hs. revert Hinv. destruct Hs as [id l e o log Ho _|id l e o log Ho|l f e o log Hf|e o log]; intros Hinv.
  - by apply connect_inv.
  - by apply disconnect_inv.
  - destruct Hinv as [H1 H2 H3]. cbn in *. split; cbn; [done| |].
    + intros l' Hl'. apply H2. rewrite lookup_alter in Hl'. destruct (decide (l = l')) as [<-|]; [|done].
      by rewrite fmap_is_Some in Hl'.
    + intros l' id Ho Ha. apply H3; [done|]. by eapply alive_alter.
  - destruct Hinv as [H1 H2 H3]. cbn [tn_edge tn_owner] in *.
    destruct (closeAll_spec (map_to_list (ed_registry e)).*2 (mkEdge ∅ (ed_links e))) as (E1 & E2 & E3).
    fold (closeAll e) in E1, E2, E3. split; cbn [tn_edge tn_owner]; rewrite ?E1.
    + done.
    + intros l Hl. apply H2. by apply E2.
    + intros l id Ho Ha. destruct (E3 l Ha) as [Ha' Hn]. destruct Hn.
      apply list_elem_of_fmap. exists (id, l). split; [done|]. apply elem_of_map_to_list. by apply H3.
Qed.

Lemma register_registry id l e : ed_registry (register id l e) = <[id := l]> (ed_registry e).
Proof. unfold register. by destruct (ed_registry e !! id). Qed.

Lemma closeAll_registry e : ed_registry (closeAll e) = ∅.
Proof. exact (proj1 (closeAll_spec (map_to_list (ed_registry e)).*2 (mkEdge ∅ (ed_links e)))). Qed.

(** The registry holds each connector's current link. *)
Lemma tunnels_step_log t t' :
  tunnels_inv t -> (forall id, get id (tn_edge t) = current id (tn_log t)) -> tunnels_step t t' ->
  forall id, get id (tn_edge t') = current id (tn_log t').
Proof.
  intros [H1 _ _] Hlog Hs id. revert H1 Hlog. unfold get.
  destruct Hs as [id' l e o log _ _|id' l e o log Ho|l f e o log Hf|e o log]; cbn [tn_edge tn_log tn_owner current]; intros H1 Hlog.
  - unfold data_connect. rewrite register_registry, lookup_insert. cbn [ed_registry]. rewrite Hlog.
    destruct (String.eqb_spec id' id); [by rewrite decide_True|by rewrite decide_False].
  - unfold data_disconnect, unregister. cbn [close_link ed_registry]. rewrite <- (Hlog id).
    destruct (decide (ed_registry e !! id' = Some l)) as [Hr|Hr].
    + rewrite bool_decide_true by done. cbn [ed_registry]. rewrite lookup_delete. destruct (decide (id' = id)) as [->|Hne].
      * by rewrite Hr, bool_decide_true.
      * rewrite bool_decide_false; [done|]. intros Hid'. apply H1 in Hid'. congruence.
    + rewrite (bool_decide_false (_ !! id' = _)) by done. cbn [ed_registry].
      rewrite bool_decide_false; [done|]. intros Hid'. pose proof (H1 _ _ Hid'). congruence.
  - apply Hlog.
  - by rewrite closeAll_registry, lookup_empty.
Qed.

(** ** Properties *)

Lemma tunnels_reachable_inv t :
  reachable tunnels_step tunnels_init t ->
  tunnels_inv t /\ forall id, get id (tn_edge t) = current id (tn_log t).
Proof.
  apply (reachable_inv _ _ (fun t => tunnels_inv t /\ forall id, get id (tn_edge t) = current id (tn_log t))).
  - intros ? ->. split; [|done]. split; cbn; try done. by intros l [k Hk].
  - intros t1 t2 [Hi Hl] Hs. split; [by apply (tunnels_step_inv t1)|by apply (tunnels_step_log t1)].
Qed.

(** C13: one live tunnel per connector.  Whatever the order in which connectors
    dial, are replaced, drop and are shut down: the registry hands out exactly
    the link a connector dialled last, and none once that link has dropped or
    the edge has shut down, so a late unregistration of a replaced link never
    evicts its successor; two open links of the same connector are the same
    link, the one the registry hands out; and the shutdown of the edge leaves no
    link open. *)
Theorem registry_exclusive t :
  reachable tunnels_step tunnels_init t ->
  (forall id, get id (tn_edge t) = current id (tn_log t)) /\
  (forall id l1 l2, tn_owner t !! l1 = Some id -> tn_owner t !! l2 = Some id ->
     alive (tn_edge t) l1 -> alive (tn_edge t) l2 ->
     l1 = l2 /\ get id (tn_edge t) = Some l1) /\
  (forall l, ~ alive (closeAll (tn_edge t)) l) /\ ed_registry (closeAll (tn_edge t)) = ∅.
Proof.
  intros Hr. destruct (tunnels_reachable_inv t Hr) as [[_ H2 H3] Hlog]. split; [exact Hlog|]. split.
  - intros id l1 l2 Ho1 Ho2 Ha1 Ha2. pose proof (H3 _ _ Ho1 Ha1). pose proof (H3 _ _ Ho2 Ha2).
    split; [congruence|done].
  - unfold closeAll. set (ls := _.*2).
    destruct (closeAll_spec ls (mkEdge ∅ (ed_links (tn_edge t)))) as (Hreg & _ & Hal). split; [|done].
    intros l [Ha Hni]%Hal. change (alive (tn_edge t) l) in Ha. destruct (H2 l) as [id Ho]; [by destruct Ha as (k & ? & _); exists k|].
    destruct Hni. apply list_elem_of_fmap. exists (id, l). split; [done|]. apply elem_of_map_to_list. by apply H3.
Qed.

(** Who may attach a tunnel.  The endpoint upgrades exactly the requests for
    its path whose connector id (from either parameter) is a valid subject
    token and who present the configured token, as a parameter or as a bearer
    credential, when one is configured. *)
Theorem data_endpoint_guarded token req id :
  dataHandler_ServeHTTP token req = DataUpgrade id <->
  dr_Path req = dataTunnelPath /\
  id = (if String.eqb (dr_Query req "connector_id") "" then dr_Query req "id" else dr_Query req "connector_id") /\
  subject_token id /\
  (token = "" \/ dr_Query req "token" = token \/ dr_Authorization req = "Bearer " +:+ token).
Proof.
  unfold dataHandler_ServeHTTP. destruct (String.eqb_spec (dr_Path req) dataTunnelPath); cbn [negb]; [|split; [done|tauto]].
  set (cid := if String.eqb _ "" then _ else _).
  pose proof (ValidateSubjectToken_spec "connector_id" cid) as Hv.
  destruct (ValidateSubjectToken "connector_id" cid) as [[]|err].
  - destruct (String.eqb_spec token ""), (String.eqb_spec (dr_Query req "token") token),
      (String.eqb_spec (dr_Authorization req) ("Bearer " +:+ token)); cbn [negb andb];
      (split; [intros [= <-]|intros (_ & -> & _ & Hor)]); intuition congruence.
  - split; [done|]. intros (_ & -> & Hs & _). by apply Hv in Hs.
Qed.

Section Opening.
Context {MF : Msgpack Frame} {MQ : Msgpack OpenRequest} {MR : Msgpack OpenResponse}.
Context {ML : MsgpackLaws Frame}.
#[local] Set Default Proof Using "Type*".

(** What a connector may open.  An open frame of a connector registers a
    fresh, unclaimed session, and only of the response-stream kind and under an
    id that is not in use; anything else leaves the link exactly as it was, so
    no session of another kind and no existing session can be touched. *)
Theorem connector_opens_only_streams frame l :
  link_wf l ->
  match acceptStreamOpen frame l with
  | (l', None) => l' = l /\ (Frame_Kind frame <> KindHTTPStream \/ is_Some (Link_sessions l !! Frame_SessionID frame))
  | (l', Some r) => Frame_Kind frame = KindHTTPStream /\ Link_sessions l !! Frame_SessionID frame = None /\
      Link_store l' !! r = Some (newSession (Frame_SessionID frame)) /\ Claimed r l' = false /\
      lookupSession (Frame_SessionID frame) l' = Some r /\ same_but (Frame_SessionID frame) l l'
  end.
Proof.
  intros Hl. unfold acceptStreamOpen. destruct (String.eqb_spec (Frame_Kind frame) KindHTTPStream); cbn [negb];
    [|split; [done|by left]].
  pose proof (addSession_same (Frame_SessionID frame) l Hl) as Hs. unfold Accept.
  unfold addSession in *. destruct (Link_sessions l !! Frame_SessionID frame) as [r0|] eqn:E.
  - split; [done|right; by eexists].
  - split_and!; try done; unfold Claimed, lookupSession; cbn; by rewrite lookup_insert_eq.
Qed.

(** What the claim timer does to a session that nobody has claimed. *)
Lemma claim_timeout_closes id r s l :
  link_wf l -> Link_store l !! r = Some s -> Session_id s = id -> Session_claimed s = false ->
  let l1 := claim_timeout r l in
  link_wf l1 /\ Link_store l1 !! r = Some (set_done s) /\ lookupSession id l1 = None /\
  (Link_open l = true -> ident id ->
     wire id l1 = wire id l ++ [errorFrame id "response stream was not claimed"]).
Proof.
  intros Hl Hs Hid Hc. cbn zeta. unfold claim_timeout, Claimed. rewrite Hs, Hc. cbn [negb].
  unfold CloseWithError, closeWith. rewrite Hs, Hid. set (f := errorFrame id _).
  pose proof (WriteFrame_wf f l Hl) as Hwf. pose proof (WriteFrame_store f l) as [Hst _].
  pose proof (WriteFrame_wire id f l) as Hw. destruct (WriteFrame f l) as [l1 e] eqn:E. cbn [fst snd] in *.
  assert (Hs1 : Link_store l1 !! r = Some s) by by rewrite Hst.
  pose proof (remove_done r s l1 Hwf Hs1) as Hd. rewrite Hid in Hd.
  split_and!; [by apply removeSession_wf|done|apply removeSession_gone|].
  intros Ho Hident. rewrite removeSession_wire, Hw.
  assert (Hf : frame_wf f) by (apply errorFrame_wf; [done|done|by apply ContainsAny_avoids]).
  pose proof (WriteFrame_ok f l Hf Ho) as Hok. rewrite E in Hok. cbn in Hok. subst e.
  by rewrite String.eqb_refl.
Qed.


(** A session is opened where the connector said.  When an attempt succeeds
    the connector accepted this very session, the link is the one registered
    for it, the new session is registered on it under the session's id with a
    full window, and the open frame with the route, its mode and the path is
    the last thing on the wire; no other link is touched. *)
Theorem attempt_opens_session deadlineMS nats r sessionID path e e' l s link :
  attemptOpenDataSession deadlineMS nats r sessionID path e = (e', Ok (l, s)) ->
  ed_links e !! l = Some link ->
  exists payload reply resp link',
    EncodeOpenRequest (open_request r sessionID path deadlineMS) = Ok payload /\
    nats (OpenSubject r) payload = Ok reply /\ DecodeOpenResponse reply = Ok resp /\
    OpenResponse_Accepted resp = true /\ OpenResponse_RequestID resp = sessionID /\
    get (OpenResponse_ConnectorID resp) e = Some l /\
    ed_links e' = <[l := link']> (ed_links e) /\ ed_registry e' = ed_registry e /\
    Link_sessions link !! sessionID = None /\
    Link_sessions link' !! sessionID = Some s /\ Link_store link' !! s = Some (newSession sessionID) /\
    wire sessionID link' = wire sessionID link ++ [openFrame sessionID (Route_Name r) (Route_Mode r) path].
Proof.
  unfold attemptOpenDataSession. intros H Hl.
  destruct (EncodeOpenRequest _) as [payload|] eqn:He; [|done].
  destruct (nats _ payload) as [reply|err] eqn:Hn; [|done].
  destruct (DecodeOpenResponse reply) as [resp|] eqn:Hd; [|done].
  destruct (String.eqb_spec (OpenResponse_RequestID resp) sessionID); cbn [negb orb] in H;
    [|destruct (String.eqb _ _); [done|]; by destruct (String.eqb _ "")].
  destruct (OpenResponse_Accepted resp) eqn:Hacc; cbn [negb] in H;
    [|destruct (String.eqb _ _); [done|]; by destruct (String.eqb _ "")].
  destruct (get _ e) as [l0|] eqn:Hg; [|done]. destruct (ed_links e !! l0) as [link0|] eqn:Hl0; [|done].
  set (frame := openFrame _ _ _ _) in *. destruct (Open frame link0) as [link' [s0|err]] eqn:Ho; [|done].
  injection H as <- <- <-. assert (link0 = link) as -> by congruence.
  exists payload, reply, resp, link'. split_and!; try done.
  all: unfold Open, addSession in Ho; cbn [Frame_SessionID openFrame frame] in Ho;
    destruct (Link_sessions link !! sessionID) eqn:Hse; [done|].
  all: set (l1 := mkLink _ _ _ _ _) in Ho; pose proof (WriteFrame_store frame l1) as [Hst Hss];
    pose proof (WriteFrame_wire sessionID frame l1) as Hw;
    destruct (WriteFrame frame l1) as [l2 [[]|er]]; [|done]; injection Ho as <- <-; cbn [fst snd] in *.
  - done.
  - rewrite Hss. apply lookup_insert_eq.
  - rewrite Hst. apply lookup_insert_eq.
  - rewrite Hw. cbn [is_ok andb Frame_SessionID openFrame frame]. by rewrite String.eqb_refl.
Qed.

(** There was no tunnel for the session: the connector that answered said its
    tunnel is down, or the edge has no link of the connector that accepted. *)
Definition tunnel_missing (deadlineMS : Z) (nats : string -> string -> res nats_error string) (r : Route)
    (sessionID path : string) (e : Edge) : Prop :=
  exists payload reply resp,
    EncodeOpenRequest (open_request r sessionID path deadlineMS) = Ok payload /\
    nats (OpenSubject r) payload = Ok reply /\ DecodeOpenResponse reply = Ok resp /\
    ((OpenResponse_RequestID resp <> sessionID \/ OpenResponse_Accepted resp = false) /\
       OpenResponse_Error resp = ErrTunnelNotConnected \/
     OpenResponse_RequestID resp = sessionID /\ OpenResponse_Accepted resp = true /\
       (forall l k, get (OpenResponse_ConnectorID resp) e = Some l -> ed_links e !! l <> Some k)).

(** A failed attempt that may be retried has found no tunnel and changed nothing. *)
Lemma unavailable_missing deadlineMS nats r sessionID path e e' :
  attemptOpenDataSession deadlineMS nats r sessionID path e = (e', Err ErrTunnelUnavailable) ->
  e' = e /\ tunnel_missing deadlineMS nats r sessionID path e.
Proof using Type.
  unfold attemptOpenDataSession.
  destruct (EncodeOpenRequest _) as [payload|] eqn:He; [|congruence].
  destruct (nats _ payload) as [reply|] eqn:Hn; [|congruence].
  destruct (DecodeOpenResponse reply) as [resp|] eqn:Hd; [|congruence]. destruct (_ || _) eqn:Hrej.
  - apply orb_true_iff in Hrej. destruct (String.eqb_spec (OpenResponse_Error resp) ErrTunnelNotConnected) as [Herr|].
    + intros [= ->]. split; [done|]. exists payload, reply, resp. split_and!; [done..|]. left. split; [|done].
      destruct Hrej as [H|H]; apply negb_true_iff in H; [left; by apply String.eqb_neq|by right].
    + destruct (String.eqb _ ""); congruence.
  - apply orb_false_iff in Hrej as [Hid%negb_false_iff%String.eqb_eq Hacc%negb_false_iff].
    assert (Hmiss : (forall l k, get (OpenResponse_ConnectorID resp) e = Some l -> ed_links e !! l <> Some k) ->
      tunnel_missing deadlineMS nats r sessionID path e).
    { intros H. exists payload, reply, resp. split_and!; [done..|]. by right. }
    destruct (get _ e) as [l|] eqn:Hg.
    + destruct (ed_links e !! l) as [k|] eqn:Hk; [destruct (Open _ k) as [k' [s|err]]; congruence|].
      intros [= ->]. split; [done|]. apply Hmiss. intros l' k' [= <-]. by rewrite Hk.
    + intros [= ->]. split; [done|]. by apply Hmiss.
Qed.

(** The attempt at turn [t], after the turns [before], found no tunnel and left
    the edge alone. *)
Definition retried (deadlineMS : Z) (r : Route) (sessionID path : string) (e : Edge) (before : list open_turn)
    (t : open_turn) : Prop :=
  let world := ot_world t (foldl (fun e t' => ot_world t' e) e before) in
  attemptOpenDataSession deadlineMS (ot_nats t) r sessionID path world = (world, Err ErrTunnelUnavailable) /\
  tunnel_missing deadlineMS (ot_nats t) r sessionID path world /\ ot_timeout t = false.

Lemma openDataSession_result deadlineMS turns r sessionID path e e' result :
  openDataSession deadlineMS turns r sessionID path e = (e', Some result) ->
  exists before t after world,
    turns = before ++ t :: after /\
    world = foldl (fun e t' => ot_world t' e) e before /\
    (forall pre t' post, before = pre ++ t' :: post -> retried deadlineMS r sessionID path e pre t') /\
    attemptOpenDataSession deadlineMS (ot_nats t) r sessionID path (ot_world t world) = (e', result) /\
    (result = Err ErrTunnelUnavailable -> ot_timeout t = true).
Proof using Type.
  revert e. induction turns as [|t turns IH]; intros e; cbn [openDataSession]; [done|].
  destruct (attemptOpenDataSession _ _ _ _ _ _) as [e1 res1] eqn:Ha.
  assert (Hhere : res1 = result -> e1 = e' ->
    (result = Err ErrTunnelUnavailable -> ot_timeout t = true) ->
    exists before t0 after world, t :: turns = before ++ t0 :: after /\
      world = foldl (fun e t' => ot_world t' e) e before /\
      (forall pre t' post, before = pre ++ t' :: post -> retried deadlineMS r sessionID path e pre t') /\
      attemptOpenDataSession deadlineMS (ot_nats t0) r sessionID path (ot_world t0 world) = (e', result) /\
      (result = Err ErrTunnelUnavailable -> ot_timeout t0 = true)).
  { intros -> -> Hto. exists [], t, turns, e. split_and!; try done. by intros [|? ?]. }
  destruct res1 as [s|err]; [intros [= <- <-]; by apply Hhere|].
  destruct err; try (intros [= <- <-]; by apply Hhere).
  destruct (ot_timeout t) eqn:Hto; [intros [= <- <-]; by apply Hhere|].
  destruct (unavailable_missing _ _ _ _ _ _ _ Ha) as [-> Hmiss]. intros H.
  destruct (IH _ H) as (before & t0 & after & world & -> & Hw & Hb & Hat & Hlast).
  exists (t :: before), t0, after, world. split_and!; try done.
  intros [|t1 pre] t' post; cbn [app]; intros [= <- Hrest]; [|by apply (Hb pre t' post)].
  split; [exact Ha|by split].
Qed.

(** C34: opening terminates and is retried exactly while a tunnel is missing.
    The loop returns by the time its timeout has expired; it goes on only after
    attempts that found no tunnel (the connector said it is not connected, or the
    edge has no link of the connector that accepted), each of which changed
    nothing and was not the last before the timeout; the first attempt with any
    other outcome, success or error, is the result, and so at most one session is
    opened. *)
Theorem open_retries_only_unavailable deadlineMS turns r sessionID path e :
  let '(e', returned) := openDataSession deadlineMS turns r sessionID path e in
  (List.Exists (fun t => ot_timeout t = true) turns -> is_Some returned) /\
  forall result, returned = Some result ->
    exists before t after world,
      turns = before ++ t :: after /\
      world = foldl (fun e t' => ot_world t' e) e before /\
      (forall pre t' post, before = pre ++ t' :: post -> retried deadlineMS r sessionID path e pre t') /\
      attemptOpenDataSession deadlineMS (ot_nats t) r sessionID path (ot_world t world) = (e', result) /\
      (result = Err ErrTunnelUnavailable -> ot_timeout t = true).
Proof using Type.
  destruct (openDataSession deadlineMS turns r sessionID path e) as [e' returned] eqn:Hrun. split.
  - intros Ht. revert e Hrun. induction Ht as [t turns Ht|t turns _ IH]; intros e; cbn [openDataSession];
      destruct (attemptOpenDataSession _ _ _ _ _ _) as [e1 [s|err]]; try (intros [= <- <-]; by eexists).
    + destruct err; try (intros [= <- <-]; by eexists). rewrite Ht. intros [= <- <-]. by eexists.
    + destruct err; try (intros [= <- <-]; by eexists). destruct (ot_timeout t); [intros [= <- <-]; by eexists|apply IH].
  - intros result ->. by apply openDataSession_result.
Qed.
End Opening.

(** ** Witnesses *)

#[local] Existing Instance frame_msgpack.
#[local] Existing Instance open_request_msgpack.
#[local] Existing Instance open_response_msgpack.
#[local] Existing Instance countable_msgpack_laws.

(** A connector dials, dials again before the first tunnel has gone, and only
    then the first tunnel's handler unregisters. *)
Definition demo_redial : Edge :=
  data_disconnect "c1" 0%nat (data_connect "c1" 1%nat (data_connect "c1" 0%nat newTunnelRegistry)).

Definition demo_owners : gmap lref string := <[1%nat := "c1"]> (<[0%nat := "c1"]> ∅).

Definition demo_log : list tunnel_event := [Dropped 0%nat; Dialed "c1" 1%nat; Dialed "c1" 0%nat].
Definition demo_tunnels : Tunnels := mkTunnels demo_redial demo_owners demo_log.

Lemma demo_tunnels_reachable : reachable tunnels_step tunnels_init demo_tunnels.
Proof.
  exists (mkTunnels newTunnelRegistry ∅ []). split; [reflexivity|].
  eapply rtc_l; [apply (tn_connect "c1" 0%nat); reflexivity|].
  eapply rtc_l; [apply (tn_connect "c1" 1%nat); reflexivity|].
  eapply rtc_l; [apply (tn_disconnect "c1" 0%nat); reflexivity|]. apply rtc_refl.
Qed.

(** Then the second tunnel drops as well, and the connector has none. *)
Definition demo_gone : Tunnels :=
  mkTunnels (data_disconnect "c1" 1%nat demo_redial) demo_owners (Dropped 1%nat :: demo_log).

Lemma demo_gone_reachable : reachable tunnels_step tunnels_init demo_gone.
Proof.
  destruct demo_tunnels_reachable as (t0 & H0 & Hr). exists t0. split; [exact H0|].
  eapply rtc_r; [exact Hr|]. apply (tn_disconnect "c1" 1%nat); reflexivity.
Qed.

Lemma registry_exclusive_witness :
  get "c1" (tn_edge demo_tunnels) = Some 1%nat /\ get "c1" (tn_edge demo_gone) = None /\
  (Link_open <$> ed_links demo_redial !! 0%nat) = Some false.
Proof.
  split; [|split; [|reflexivity]].
  - exact (proj1 (registry_exclusive demo_tunnels demo_tunnels_reachable) "c1").
  - exact (proj1 (registry_exclusive demo_gone demo_gone_reachable) "c1").
Defined.

Definition demo_stream_open : Frame := openFrame "s1" "api" KindHTTPStream "/".
Definition demo_streams : Link := (acceptStreamOpen demo_stream_open NewLink).1.

Lemma connector_opens_only_streams_witness :
  (acceptStreamOpen demo_stream_open NewLink).2 = Some 0%nat /\
  lookupSession "s1" demo_streams = Some 0%nat /\
  acceptStreamOpen (openFrame "s2" "api" KindTCP "/") demo_streams = (demo_streams, None) /\
  acceptStreamOpen demo_stream_open demo_streams = (demo_streams, None).
Proof.
  split; [reflexivity|]. split; [|split; reflexivity].
  refine (match connector_opens_only_streams demo_stream_open NewLink NewLink_wf with
          | conj _ (conj _ (conj _ (conj _ (conj H _)))) => H end).
Defined.


(** A connector that accepts the session over its only tunnel. *)
Definition demo_tcp : Route :=
  mkRoute "db" ModeTCP "" "" "" "" "127.0.0.1:5432" 0 0 0 0 0 0 [] false.
Definition demo_reply : OpenResponse := mkOpenResponse 1 "s1" true "c1" "".
Definition demo_nats (subject payload : string) : res nats_error string :=
  match EncodeOpenResponse demo_reply with Ok bs => Ok bs | Err _ => Err ErrNatsOther end.
Definition demo_attempt := attemptOpenDataSession 1700000000000 demo_nats demo_tcp "s1" "/" demo_redial.

Lemma attempt_opens_session_witness :
  demo_attempt.2 = Ok (1%nat, 0%nat) /\
  exists link', ed_links demo_attempt.1 !! 1%nat = Some link' /\
  wire "s1" link' = [openFrame "s1" "db" ModeTCP "/"].
Proof.
  assert (H : demo_attempt = (demo_attempt.1, Ok (1%nat, 0%nat))) by (vm_compute; reflexivity).
  split; [exact (f_equal snd H)|].
  destruct (attempt_opens_session _ _ _ _ _ _ _ _ _ NewLink H eq_refl)
    as (payload & reply & resp & link' & _ & _ & _ & _ & _ & _ & Hl & _ & _ & _ & _ & Hw).
  exists link'. split; [rewrite Hl; apply lookup_insert_eq|exact Hw].
Defined.

(** The tunnel is missing at the first attempt and there at the second. *)
Definition demo_turns : list open_turn :=
  [mkOpenTurn demo_nats (fun e => e) false; mkOpenTurn demo_nats (fun _ => demo_redial) false].

Lemma open_retries_only_unavailable_witness :
  let out := openDataSession 1700000000000 demo_turns demo_tcp "s1" "/" newTunnelRegistry in
  out.2 = Some (Ok (1%nat, 0%nat)) /\
  exists before t after, demo_turns = before ++ t :: after /\
    forall pre t' post, before = pre ++ t' :: post ->
      retried 1700000000000 demo_tcp "s1" "/" newTunnelRegistry pre t'.
Proof.
  intros out.
  assert (H : out = (out.1, Some (Ok (1%nat, 0%nat)))) by (vm_compute; reflexivity).
  split; [exact (f_equal snd H)|].
  pose proof (open_retries_only_unavailable 1700000000000 demo_turns demo_tcp "s1" "/" newTunnelRegistry) as Ht.
  fold out in Ht. rewrite H in Ht. destruct Ht as [_ Ht].
  destruct (Ht _ eq_refl) as (before & t & after & world & ? & _ & ? & _).
  by exists before, t, after.
Defined.
