(* ===== verification/ConnectorProxy.v ===== *)
(** * The connector's HTTP proxy

    [internal/connector/proxy.go]: unary envelopes are rebuilt as requests to a
    private backend, answered inline or through a response stream, and can be
    cancelled while they are in flight.  The HTTP client is a parameter: what
    the backend answers to a request. *)
From S2P Require Import Prelude GoString GoStd GoURL Msgpack HttpEnvelope Headers Config TunnelEnvelope Link EdgeRoutes.

#[local] Open Scope Z_scope.

(** [16 << 20]. *)
Definition defaultResponseLimit : Z := Z.shiftl 16 20.

(** ** Routes *)

Record route := mkroute { route_cfg : Route; route_target : URL }.

Section Routes.
Context {UT : UnicodeTables}.

(** An error names the route whose target does not parse. *)
Fixpoint httpRoutes (routes : list Route) : res (string * url_error) (list route) :=
  match routes with
  | [] => Ok []
  | r :: routes' =>
      if negb (String.eqb (Route_Mode r) ModeHTTP) then httpRoutes routes'
      else
        match Parse (Route_Target r) with
        | Err e => Err (Route_Name r, e)
        | Ok target => let? out := httpRoutes routes' in Ok (mkroute r target :: out)
        end
  end.

(** ** The backend URL *)

(** [targetURL(base, suffix)]. *)
Definition targetURL (base : URL) (suffix : string) : res url_error URL :=
  let? suffixURL := ParseRequestURI suffix in
  let basePath := TrimRightByte (Path base) "/" in
  let suffixPath := if String.eqb (Path suffixURL) "" then "/" else Path suffixURL in
  let path :=
    if String.eqb basePath "" then suffixPath
    else if String.eqb suffixPath "/" then basePath +:+ "/"
    else basePath +:+ suffixPath in
  Ok (mkURL (Scheme base) (Opaque base) (User base) (Host base) path "" (OmitHost base)
        (ForceQuery base) (RawQuery suffixURL) "").

(** ** The HTTP client *)

(** [removeEmptyPort(host)] of [net/http]. *)
Definition removeEmptyPort (host : string) : string :=
  let port :=
    match LastIndexByte host ":", LastIndexByte host "]" with
    | Some i, Some j => (j <? i)%nat
    | Some _, None => true
    | None, _ => false
    end in
  if port && HasSuffix host ":" then str_take (String.length host - 1) host else host.

(** [http.NewRequestWithContext(ctx, method, url, body)]. *)
Definition NewRequest (method url : string) : res unit (string * URL) :=
  let method := if String.eqb method "" then "GET" else method in
  if negb (str_forallb is_token_byte method) then Err tt
  else
    match Parse url with
    | Err _ => Err tt
    | Ok u =>
        Ok (method, mkURL (Scheme u) (Opaque u) (User u) (removeEmptyPort (Host u)) (Path u) (RawPath u)
              (OmitHost u) (ForceQuery u) (RawQuery u) (Fragment u))
    end.

(** [*http.Response] of the client; the length is negative when unknown. *)
Record BackendResponse := mkBackendResponse {
  br_StatusCode : Z;
  br_Header : Header;
  br_ContentLength : Z;
  br_Body : Body
}.

(** [client.Do]: the answer to a method, URL, headers and body. *)
Definition backend : Type := string -> URL -> Header -> string -> res unit BackendResponse.

(** ** Limits *)

(** The bytes and whether the body is larger than the limit. *)
Definition readBounded (body : Body) (limit : Z) : res unit (string * bool) :=
  match ReadAll_Limit body (wrap64 (limit + 1)) with
  | Err e => Err e
  | Ok data => if limit <? len data then Ok ("", true) else Ok (data, false)
  end.

Definition routeResponseLimit (r : Route) : Z :=
  let limit := MaxInlineResponse r in
  if limit <=? 0 then defaultResponseLimit else limit.

Definition shouldStream (resp : BackendResponse) (inlineLimit : Z) : bool :=
  if (br_ContentLength resp <? 0) || (inlineLimit <? br_ContentLength resp) then true
  else HasPrefix (ToLower (Header_Get (br_Header resp) "Content-Type")) "text/event-stream".

(** ** The proxy *)

Section Proxy.
Context {MF : Msgpack Frame} {MQ : Msgpack Request}.
Context (connectorID : string) (Do : backend).

(** [streamResponse] up to the goroutines it starts: the answer, and the
    session its pump sends the body on.  [link] is [tunnel.currentLink()],
    [None] also when there is no tunnel. *)
Definition streamResponse (req : Request) (resp : BackendResponse) (link : option Link) :
    option Link * option (Response * ref) :=
  match link with
  | None => (None, None)
  | Some l =>
      match Open (openFrame (Request_RequestID req) (Request_Route req) KindHTTPStream "") l with
      | (l', Err _) => (Some l', None)
      | (l', Ok session) =>
          (Some l', Some (mkResponse HttpEnvelope.Version (Request_RequestID req) (br_StatusCode resp)
             (FilterResponse (map_to_list (br_Header resp))) "" (Request_RequestID req) connectorID None, session))
      end
  end.

(** The answer without a stream. *)
Definition inlineResponse (r : route) (req : Request) (resp : BackendResponse) : Response :=
  let rid := Request_RequestID req in
  match readBounded (br_Body resp) (routeResponseLimit (route_cfg r)) with
  | Err _ => NewErrorResponse rid "backend_error" "failed to read backend response"
  | Ok (body, tooLarge) =>
      if tooLarge
      then NewErrorResponse rid "response_too_large" "backend response exceeds max_inline_response"
      else mkResponse HttpEnvelope.Version rid (br_StatusCode resp)
             (FilterResponse (map_to_list (br_Header resp))) body "" "" None
  end.

(** Once the backend has answered. *)
Definition answer (r : route) (req : Request) (resp : BackendResponse) (link : option Link) :
    option Link * Response * option ref :=
  if shouldStream resp (routeResponseLimit (route_cfg r)) then
    match streamResponse req resp link with
    | (link', Some (response, session)) => (link', response, Some session)
    | (link', None) => (link', inlineResponse r req resp, None)
    end
  else (link, inlineResponse r req resp, None).

(** [forward] between the registration of the request and its deferred
    clean-up: the answer and, when it is streamed, the session. *)
Definition forward (r : route) (req : Request) (link : option Link) : option Link * Response * option ref :=
  let rid := Request_RequestID req in
  match targetURL (route_target r) (Request_Path req) with
  | Err _ => (link, NewErrorResponse rid "protocol_error" "invalid request path", None)
  | Ok backendURL =>
      match NewRequest (Request_Method req) (URL_String backendURL) with
      | Err _ => (link, NewErrorResponse rid "protocol_error" "failed to build backend request", None)
      | Ok (method, url) =>
          match Do method url (Request_Headers req) (Request_Body req) with
          | Err _ => (link, NewErrorResponse rid "backend_error" "backend request failed", None)
          | Ok resp => answer r req resp link
          end
      end
  end.

(** The table [newHTTPProxy] builds: a later route replaces an earlier one of
    the same name. *)
Definition routesByName (routes : list route) : gmap string route :=
  foldl (fun m r => <[Route_Name (route_cfg r) := r]> m) ∅ routes.

Definition handle (routes : gmap string route) (data : string) (link : option Link) :
    option Link * Response * option ref :=
  match DecodeRequest data with
  | Err _ => (link, NewErrorResponse "unknown" "protocol_error" "invalid request envelope", None)
  | Ok req =>
      match routes !! Request_Route req with
      | None => (link, NewErrorResponse (Request_RequestID req) "unknown_route" "route is not configured on connector", None)
      | Some r => forward r req link
      end
  end.
End Proxy.

(** The subscription of a route in [connector.Start]: the encoded answer, or
    that of an error when the answer does not validate. *)
Definition respond {MR : Msgpack Response} (response : Response) : option string :=
  match EncodeResponse response with
  | Ok payload => Some payload
  | Err _ =>
      match EncodeResponse (NewErrorResponse (Response_RequestID response) "protocol_error" "failed to encode connector response") with
      | Ok payload => Some payload
      | Err _ => None
      end
  end.
End Routes.

(** ** Requests in flight *)

(** A cancellable context, by reference, and whether it was cancelled. *)
Abbreviation ctx := nat.

Record Inflight := mkInflight {
  inflight : gmap string ctx;
  cancelled : gmap ctx bool;
  next_ctx : ctx
}.

Definition newInflight : Inflight := mkInflight ∅ ∅ 0%nat.

(** Calling a cancel function. *)
Definition cancel_ctx (c : ctx) (p : Inflight) : Inflight :=
  mkInflight (inflight p) (alter (fun _ => true) c (cancelled p)) (next_ctx p).

Definition track (requestID : string) (c : ctx) (p : Inflight) : Inflight :=
  mkInflight (<[requestID := c]> (inflight p)) (cancelled p) (next_ctx p).
Definition untrack (requestID : string) (p : Inflight) : Inflight :=
  mkInflight (delete requestID (inflight p)) (cancelled p) (next_ctx p).

Definition cancel (requestID : string) (p : Inflight) : Inflight :=
  match inflight p !! requestID with
  | Some c => cancel_ctx c p
  | None => p
  end.

(** [context.WithCancel] and [track], at the start of [forward]. *)
Definition forward_begin (requestID : string) (p : Inflight) : Inflight * ctx :=
  let c := next_ctx p in
  (track requestID c (mkInflight (inflight p) (<[c := false]> (cancelled p)) (S c)), c).

(** [cancelBackend] and [untrack], when [forward] or the pump is done. *)
Definition forward_end (requestID : string) (c : ctx) (p : Inflight) : Inflight :=
  untrack requestID (cancel_ctx c p).

(** The handler of the cancel subscription. *)
Definition on_cancel_message (subject : string) (p : Inflight) : Inflight :=
  match RequestIDFromCancelSubject subject with
  | Some requestID => cancel requestID p
  | None => p
  end.

(** ** Lemmas *)

Lemma TrimRightByte_prefix s c : HasPrefix s "/" = true -> TrimRightByte s c = "" \/ HasPrefix (TrimRightByte s c) "/" = true.
Proof.
  intros Hs. apply HasPrefix_spec in Hs as [r ->]. change ("/" +:+ r) with (String "/" r).
  cbn [TrimRightByte]. destruct (TrimRightByte r c) as [|d t]; [|by right; destruct d as [[] [] [] [] [] [] [] []]].
  destruct (Ascii.eqb _ _); [by left|by right].
Qed.

Lemma unescape_slash p path :
  HasPrefix p "/" = true -> unescape p encodePath = Ok path -> HasPrefix path "/" = true.
Proof.
  intros [r ->]%HasPrefix_spec. change ("/" +:+ r) with (String "/" r). rewrite unescape_step by done.
  destruct (unescape r encodePath); [|done]. intros [= <-]. by apply (HasPrefix_app "/").
Qed.

Lemma removeEmptyPort_plain h : plain_host h -> removeEmptyPort h = h.
Proof.
  intros (_ & _ & Hs & _). unfold removeEmptyPort. rewrite Hs. by rewrite andb_false_r.
Qed.

Section Lemmas.
Context {UT : UnicodeTables}.

(** The URL of a forwarded path, and the request made from it. *)
Lemma targetURL_plain base p q path :
  plain_url base -> HasPrefix p "/" = true -> str_mem "?" p = false -> ctl_free p ->
  str_forallb query_byte q = true -> unescape p encodePath = Ok path ->
  exists u, targetURL base (p +:+ query_part q) = Ok u /\ plain_url u /\
    Scheme u = Scheme base /\ Host u = Host base /\
    Path u = TrimRightByte (Path base) "/" +:+ path /\ RawQuery u = q.
Proof.
  intros Hb Hp Hq Hc Hqb Hu.
  destruct (ParseRequestURI_split p q path Hp Hq Hc) as (s & Hs & Hsp & Hsq);
    [by apply containsCTL_free|done|].
  unfold targetURL. rewrite Hs. cbn beta iota zeta. rewrite Hsp, Hsq.
  pose proof (unescape_slash p path Hp Hu) as Hpath.
  assert (Hne : String.eqb path "" = false) by (by destruct path). rewrite Hne.
  set (final := if String.eqb (TrimRightByte (Path base) "/") "" then path else _).
  assert (Hfin : final = TrimRightByte (Path base) "/" +:+ path).
  { unfold final. destruct (String.eqb_spec (TrimRightByte (Path base) "/") "") as [->|]; [done|].
    by destruct (String.eqb_spec path "/") as [->|]. }
  eexists. split; [reflexivity|]. split_and!; try done.
  destruct Hb. split; cbn; try done. rewrite Hfin.
  destruct (TrimRightByte_prefix (Path base) "/" pu_path) as [->|[r ->]%HasPrefix_spec]; [done|].
  rewrite app_str_assoc. apply HasPrefix_app.
Qed.

Lemma NewRequest_plain method u :
  method <> "" -> str_forallb is_token_byte method = true -> plain_url u ->
  NewRequest method (URL_String u) = Ok (method, u).
Proof.
  intros Hm Ht Hu. unfold NewRequest. rewrite (proj2 (String.eqb_neq _ _) Hm), Ht, Parse_String by done.
  cbn [negb]. rewrite removeEmptyPort_plain by apply Hu. by destruct u.
Qed.

Lemma routesByName_lookup routes name r :
  routesByName routes !! name = Some r -> In r routes /\ Route_Name (route_cfg r) = name.
Proof.
  unfold routesByName. cut (forall m : gmap string route,
    foldl (fun m r => <[Route_Name (route_cfg r) := r]> m) m routes !! name = Some r ->
    (In r routes /\ Route_Name (route_cfg r) = name) \/ m !! name = Some r).
  { intros H Hr. destruct (H ∅ Hr) as [?|Hn]; [done|]. by rewrite lookup_empty in Hn. }
  induction routes as [|r0 routes IH]; intros m; cbn [foldl]; [by right|].
  intros [[? ?]|Hm]%IH; [left; split; [by right|done]|].
  rewrite lookup_insert in Hm. case_decide; [|by right].
  left. injection Hm as <-. split; [by left|done].
Qed.

(** The routes are those of the configuration in http mode, with their targets
    parsed. *)
Lemma httpRoutes_spec routes out :
  httpRoutes routes = Ok out ->
  map route_cfg out = List.filter (fun r => String.eqb (Route_Mode r) ModeHTTP) routes /\
  Forall (fun r => Parse (Route_Target (route_cfg r)) = Ok (route_target r)) out.
Proof.
  revert out. induction routes as [|r routes IH]; intros out; cbn [httpRoutes List.filter].
  - by intros [= <-].
  - destruct (String.eqb _ _); cbn [negb]; [|apply IH].
    destruct (Parse _) as [target|] eqn:Hp; [|done].
    destruct (httpRoutes routes) as [out'|]; [|done]. intros [= <-].
    destruct (IH out' eq_refl) as [Hm ?]. split; [cbn; by rewrite <- Hm|]. by constructor.
Qed.
End Lemmas.

(** ** Answers *)

Lemma readBounded_complete body limit data :
  limit < max_int64 -> readBounded body limit = Ok (data, false) ->
  data = body_data body /\ body_fails body = false /\ len data <= limit.
Proof.
  unfold readBounded, ReadAll_Limit, max_int64. intros Hl.
  destruct (Z.leb_spec (wrap64 (limit + 1)) 0) as [Hw|Hw].
  - destruct (Z.ltb_spec limit (len "")); [done|]. unfold len in *. cbn in *.
    rewrite wrap64_small in Hw by (unfold int64_range, min_int64, max_int64; lia). lia.
  - assert (Hrange : limit + 1 <= wrap64 (limit + 1)).
    { destruct (Z.leb_spec min_int64 (limit + 1)); [|pose proof (wrap64_range (limit + 1)); unfold int64_range in *; lia].
      rewrite wrap64_small; [lia|]. unfold int64_range, max_int64. lia. }
    destruct (Z.ltb_spec (len (body_data body)) (wrap64 (limit + 1))) as [Hs|Hs].
    + destruct (body_fails body); [done|]. destruct (Z.ltb_spec limit (len (body_data body))); [done|].
      by intros [= <-].
    + destruct (Z.ltb_spec limit (len (str_take (Z.to_nat (wrap64 (limit + 1))) (body_data body)))) as [|Ht]; [done|].
      exfalso. unfold len in *. rewrite length_str_take in Ht. lia.
Qed.

Section Answers.
Context {UT : UnicodeTables} {MF : Msgpack Frame}.

(** An answer without a stream is the backend's complete answer or an error. *)
Definition complete_answer (r : route) (req : Request) (resp : BackendResponse) (response : Response) : Prop :=
  Response_StreamSessionID response = "" /\ body_fails (br_Body resp) = false /\
  Response_Body response = body_data (br_Body resp) /\
  len (Response_Body response) <= routeResponseLimit (route_cfg r) /\
  Response_Status response = br_StatusCode resp /\
  Response_Headers response = FilterResponse (map_to_list (br_Header resp)).

Lemma inlineResponse_spec r req resp :
  routeResponseLimit (route_cfg r) < max_int64 ->
  Response_RequestID (inlineResponse r req resp) = Request_RequestID req /\
  (is_Some (Response_Error (inlineResponse r req resp)) \/ complete_answer r req resp (inlineResponse r req resp)).
Proof.
  intros Hl. unfold inlineResponse. destruct (readBounded _ _) as [[body [|]]|] eqn:Hb; cbn.
  - split; [done|left; by eexists].
  - split; [done|right]. apply readBounded_complete in Hb as (-> & ? & ?); [|done]. by split_and!.
  - split; [done|left; by eexists].
Qed.

Lemma streamResponse_spec cid req resp l l' response session :
  streamResponse cid req resp (Some l) = (l', Some (response, session)) ->
  exists link', l' = Some link' /\
    Open (openFrame (Request_RequestID req) (Request_Route req) KindHTTPStream "") l = (link', Ok session) /\
    response = mkResponse HttpEnvelope.Version (Request_RequestID req) (br_StatusCode resp)
      (FilterResponse (map_to_list (br_Header resp))) "" (Request_RequestID req) cid None.
Proof.
  unfold streamResponse. destruct (Open _ l) as [link' [s|]]; [|done]. intros [= <- <- <-]. by exists link'.
Qed.

Lemma answer_id cid r req resp link :
  Response_RequestID (answer cid r req resp link).1.2 = Request_RequestID req.
Proof.
  assert (Hi : Response_RequestID (inlineResponse r req resp) = Request_RequestID req).
  { unfold inlineResponse. by destruct (readBounded _ _) as [[? [|]]|]. }
  unfold answer, streamResponse. destruct (shouldStream _ _); [|done].
  destruct link as [l|]; [|done]. by destruct (Open _ l) as [? [?|]].
Qed.

Lemma forward_id cid Do r req link :
  Response_RequestID (forward cid Do r req link).1.2 = Request_RequestID req.
Proof.
  unfold forward. destruct (targetURL _ _); [|done]. destruct (NewRequest _ _) as [[m u]|]; [|done].
  destruct (Do m u _ _); [|done]. apply answer_id.
Qed.
End Answers.

(** An answer is always encoded: when it does not validate, as an error. *)
Lemma respond_spec {MR : Msgpack Response} {LR : MsgpackLaws Response} response :
  Response_RequestID response <> "" ->
  exists payload reply, respond response = Some payload /\ DecodeResponse payload = Ok reply /\
    Response_RequestID reply = Response_RequestID response /\
    (reply = response \/ is_Some (Response_Error reply) /\ Response_Validate response <> Ok tt).
Proof.
  intros Hid. unfold respond. destruct (EncodeResponse response) as [payload|] eqn:He.
  - exists payload, response. split_and!; [done| |done|by left]. by apply decode_encode_validated.
  - set (fallback := NewErrorResponse _ _ _).
    assert (Hv : Response_Validate fallback = Ok tt).
    { apply Response_Validate_iff. split; [done|]. split; [exact Hid|]. cbn.
      split; [by split|]. by apply ContainsAny_avoids. }
    destruct (encode_validated_total Response_Validate fallback Hv) as [payload Hp].
    unfold EncodeResponse. rewrite Hp. exists payload, fallback. split_and!; [done| |done|].
    + by apply decode_encode_validated.
    + right. split; [by eexists|]. intros Hr.
      destruct (encode_validated_total Response_Validate response Hr) as [bs Hbs].
      unfold EncodeResponse in He. congruence.
Qed.

(** ** Properties of the proxy *)

Section Properties.
Context {UT : UnicodeTables} {MF : Msgpack Frame} {MQ : Msgpack Request} {MR : Msgpack Response}.
Context {LR : MsgpackLaws Response}.
#[local] Set Default Proof Using "Type*".

Lemma withQuery_part p q : withQuery p q = p +:+ query_part q.
Proof using Type. unfold withQuery, query_part. destruct (String.eqb q ""); [by rewrite app_str_nil_r|done]. Qed.

(** The backend sees the request that was forwarded.  For a route to an
    ordinary backend URL, the request made has the envelope's method, headers
    and body, goes to the route's own scheme and host, and its path is the
    target's path followed by the forwarded path percent-decoded, with the
    query unchanged: printing the URL and parsing it again loses nothing, and
    no forwarded path can reach another host. *)
Theorem forward_reaches_backend cid Do r req link p q path :
  plain_url (route_target r) -> token (Request_Method req) ->
  Request_Path req = withQuery p q -> HasPrefix p "/" = true -> str_mem "?" p = false ->
  ctl_free p -> str_forallb query_byte q = true -> unescape p encodePath = Ok path ->
  exists u, Scheme u = Scheme (route_target r) /\ Host u = Host (route_target r) /\
    Path u = TrimRightByte (Path (route_target r)) "/" +:+ path /\ RawQuery u = q /\
    forward cid Do r req link =
      match Do (Request_Method req) u (Request_Headers req) (Request_Body req) with
      | Err _ => (link, NewErrorResponse (Request_RequestID req) "backend_error" "backend request failed", None)
      | Ok resp => answer cid r req resp link
      end.
Proof using Type.
  intros Hb [Hm1 Hm2] Hp Hs Hq Hc Hqb Hu.
  destruct (targetURL_plain _ p q path Hb Hs Hq Hc Hqb Hu) as (u & Ht & Hpu & ? & ? & ? & ?).
  exists u. split_and!; try done. unfold forward. rewrite Hp, withQuery_part, Ht.
  by rewrite NewRequest_plain.
Qed.

(** C16: an answer is complete or it is an error.  What the proxy returns once
    the backend answered is: an error; or the whole body, which was read to its
    end and fits the route's limit, with the backend's status and its headers
    less the hop-by-hop ones; or, if the body should be streamed and a tunnel
    is there, status and headers with a reference to a fresh session of the
    connector's link announced by an open frame.  An inline body is never
    truncated. *)
Theorem answers_complete cid r req resp link :
  routeResponseLimit (route_cfg r) < max_int64 ->
  match answer cid r req resp link with
  | (link', response, None) =>
      is_Some (Response_Error response) \/ complete_answer r req resp response
  | (link', response, Some session) =>
      shouldStream resp (routeResponseLimit (route_cfg r)) = true /\
      Response_Status response = br_StatusCode resp /\ Response_Body response = "" /\
      Response_StreamSessionID response = Request_RequestID req /\ Response_ConnectorID response = cid /\
      exists l l', link = Some l /\ link' = Some l' /\
        Link_sessions l !! Request_RequestID req = None /\
        Link_sessions l' !! Request_RequestID req = Some session /\
        Link_store l' !! session = Some (newSession (Request_RequestID req))
  end.
Proof using Type.
  intros Hl. destruct (inlineResponse_spec r req resp Hl) as [_ Hin]. unfold answer.
  destruct (shouldStream _ _) eqn:Hsh; [|done]. destruct link as [l|]; [|done].
  destruct (streamResponse cid req resp (Some l)) as [l' [[response session]|]] eqn:Hst; [|done].
  apply streamResponse_spec in Hst as (link' & -> & Ho & ->). split_and!; try done.
  exists l, link'. unfold Open, addSession in Ho. cbn [Frame_SessionID openFrame] in Ho.
  destruct (Link_sessions l !! Request_RequestID req) eqn:E; [done|].
  set (l1 := mkLink _ _ _ _ _) in Ho. pose proof (WriteFrame_store
    (openFrame (Request_RequestID req) (Request_Route req) KindHTTPStream "") l1) as [Hs1 Hs2].
  destruct (WriteFrame _ l1) as [l2 [[]|e]]; [|done]. injection Ho as <- <-. cbn [fst] in *.
  split_and!; [done..| |].
  - rewrite Hs2. apply lookup_insert_eq.
  - rewrite Hs1. apply lookup_insert_eq.
Qed.

(** C17: a connector always answers.  Whatever the payload of a unary message,
    the reply is encoded and decodes to an envelope for that request: the
    proxy's own answer, or an error when the backend's status or headers
    cannot be carried. *)
Theorem connector_always_answers cid Do routes data link :
  let response := (handle cid Do routes data link).1.2 in
  exists payload reply, respond response = Some payload /\ DecodeResponse payload = Ok reply /\
    Response_RequestID reply =
      match DecodeRequest data with Ok req => Request_RequestID req | Err _ => "unknown" end /\
    (reply = response \/ is_Some (Response_Error reply) /\ Response_Validate response <> Ok tt).
Proof.
  assert (Hid : Response_RequestID (handle cid Do routes data link).1.2 =
    match DecodeRequest data with Ok req => Request_RequestID req | Err _ => "unknown" end).
  { unfold handle. destruct (DecodeRequest data) as [req|]; [|done].
    destruct (routes !! Request_Route req); [apply forward_id|done]. }
  cbn zeta. rewrite <- Hid. apply respond_spec. rewrite Hid.
  destruct (DecodeRequest data) as [req|] eqn:Hd; [|done].
  apply decode_validated_valid in Hd. intros E. unfold Request_Validate in Hd. rewrite E in Hd.
  by destruct (negb _).
Qed.

(** A connector dials only its own configuration.  A request that names a
    route the connector does not have is answered without calling any backend;
    otherwise the one backend called is that of the configured route of that
    name. *)
Theorem only_configured_backends cid Do routes data link req :
  DecodeRequest data = Ok req ->
  match routesByName routes !! Request_Route req with
  | None => handle cid Do (routesByName routes) data link =
      (link, NewErrorResponse (Request_RequestID req) "unknown_route" "route is not configured on connector", None)
  | Some r => In r routes /\ Route_Name (route_cfg r) = Request_Route req /\
      handle cid Do (routesByName routes) data link = forward cid Do r req link
  end.
Proof using Type.
  intros Hd. unfold handle. rewrite Hd. destruct (routesByName routes !! _) as [r|] eqn:Hr; [|done].
  apply routesByName_lookup in Hr as [? ?]. done.
Qed.
End Properties.

(** ** Cancellation *)

(** The table, with the request each live context belongs to.  Request ids are
    128 random bits: a request is not begun under an id that is in flight. *)
Inductive inflight_step : Inflight * gmap ctx string -> Inflight * gmap ctx string -> Prop :=
| if_begin rid p a :
    (forall c, a !! c <> Some rid) ->
    inflight_step (p, a) ((forward_begin rid p).1, <[(forward_begin rid p).2 := rid]> a)
| if_end rid c p a : a !! c = Some rid -> inflight_step (p, a) (forward_end rid c p, delete c a)
| if_deadline rid c p a : a !! c = Some rid -> inflight_step (p, a) (cancel_ctx c p, a)
| if_message subject p a : inflight_step (p, a) (on_cancel_message subject p, a).

Definition inflight_init (s : Inflight * gmap ctx string) : Prop := s = (newInflight, ∅).

Record inflight_inv (s : Inflight * gmap ctx string) : Prop := {
  ii_exact : forall rid c, inflight s.1 !! rid = Some c <-> s.2 !! c = Some rid;
  ii_known : forall c, is_Some (cancelled s.1 !! c) <-> (c < next_ctx s.1)%nat;
  ii_live : forall c rid, s.2 !! c = Some rid -> (c < next_ctx s.1)%nat;
  ii_ended : forall c, (c < next_ctx s.1)%nat -> s.2 !! c = None -> cancelled s.1 !! c = Some true
}.

Lemma cancel_ctx_lookup c p c' :
  cancelled (cancel_ctx c p) !! c' = if decide (c = c') then (fun _ => true) <$> cancelled p !! c' else cancelled p !! c'.
Proof.
  cbn. rewrite lookup_alter. destruct (decide (c = c')) as [<-|]; [|done]. by destruct (cancelled p !! c).
Qed.

Lemma cancel_ctx_inv c p a : inflight_inv (p, a) -> inflight_inv (cancel_ctx c p, a).
Proof.
  intros [H1 H2 H3 H4]. split; cbn [fst snd] in *; [done| |done|].
  - intros c'. rewrite cancel_ctx_lookup, <- (H2 c'). destruct (decide _); [|done].
    destruct (cancelled p !! c'); cbn; split; intros [? ?]; try done; by eexists.
  - intros c' Hc Ha. rewrite cancel_ctx_lookup, (H4 c' Hc Ha). by destruct (decide _).
Qed.

Lemma begin_inv rid p a :
  (forall c, a !! c <> Some rid) -> inflight_inv (p, a) ->
  inflight_inv ((forward_begin rid p).1, <[(forward_begin rid p).2 := rid]> a).
Proof.
  intros Hf [H1 H2 H3 H4]. unfold forward_begin, track. cbn [fst snd] in *.
  assert (Hfresh : a !! next_ctx p = None).
  { destruct (a !! next_ctx p) eqn:E; [|done]. apply H3 in E. lia. }
  split; cbn [fst snd inflight cancelled next_ctx].
  - intros rid' c. rewrite !lookup_insert. destruct (decide (rid = rid')) as [<-|Hne], (decide (next_ctx p = c)) as [<-|Hc].
    + done.
    + split; [by intros [= ?]|]. intros E. by apply Hf in E.
    + rewrite H1, Hfresh. split; [done|by intros [= ?]].
    + apply H1.
  - intros c. rewrite lookup_insert. destruct (decide (next_ctx p = c)) as [<-|Hc].
    + split; [lia|by eexists].
    + rewrite H2. lia.
  - intros c rid'. rewrite lookup_insert. destruct (decide (next_ctx p = c)) as [<-|Hc]; [lia|].
    intros E%H3. lia.
  - intros c Hlt. rewrite !lookup_insert. destruct (decide (next_ctx p = c)) as [<-|Hc]; [done|].
    intros Ha. apply H4; [lia|done].
Qed.

Lemma end_inv rid c p a :
  a !! c = Some rid -> inflight_inv (p, a) -> inflight_inv (forward_end rid c p, delete c a).
Proof.
  intros Ha Hinv. pose proof (cancel_ctx_inv c p a Hinv) as [H1 H2 H3 H4].
  unfold forward_end, untrack. cbn [fst snd] in *. split; cbn [fst snd inflight cancelled next_ctx].
  - intros rid' c'. rewrite !lookup_delete.
    destruct (decide (rid = rid')) as [<-|Hne], (decide (c = c')) as [<-|Hc]; try done.
    + split; [done|]. intros E. apply H1 in E, Ha. congruence.
    + rewrite H1. split; [|done]. intros E. congruence.
  - apply H2.
  - intros c' rid'. rewrite lookup_delete. destruct (decide _); [done|apply H3].
  - intros c' Hlt. rewrite lookup_delete. destruct (decide (c = c')) as [<-|]; [|by apply H4].
    intros _. cbn. rewrite lookup_alter_eq. destruct Hinv as [_ K2 K3 _]. cbn in *.
    destruct (proj2 (K2 c) (K3 _ _ Ha)) as [b ->]. done.
Qed.

Lemma inflight_step_inv s s' : inflight_inv s -> inflight_step s s' -> inflight_inv s'.
Proof.
  intros Hinv Hs. revert Hinv. destruct Hs as [rid p a Hf|rid c p a Ha|rid c p a Ha|subject p a]; intros Hinv.
  - by apply begin_inv.
  - by apply end_inv.
  - by apply cancel_ctx_inv.
  - unfold on_cancel_message. destruct (RequestIDFromCancelSubject subject) as [rid|]; [|done].
    unfold cancel. destruct (inflight p !! rid); [by apply cancel_ctx_inv|done].
Qed.

(** C18: a cancel aborts exactly the request it names.  In any history of
    requests, deadlines and cancels: the message on a request's cancel subject
    cancels the context of that request if it is in flight, and no other
    context; every request that has ended has released its context, and the
    table holds nothing else than the requests in flight. *)
Theorem cancel_exact p a rid :
  reachable inflight_step inflight_init (p, a) -> subject_token rid ->
  (forall c, cancelled (on_cancel_message (CancelSubject rid) p) !! c = Some true <->
     cancelled p !! c = Some true \/ a !! c = Some rid) /\
  (forall c, (c < next_ctx p)%nat -> a !! c = None -> cancelled p !! c = Some true) /\
  (forall rid' c, inflight p !! rid' = Some c <-> a !! c = Some rid').
Proof.
  intros Hr Ht. cut (inflight_inv (p, a)).
  { intros [H1 H2 H3 H4]. cbn [fst snd] in *. split; [|done]. intros c.
    unfold on_cancel_message. rewrite (proj2 (cancel_subject_read (CancelSubject rid) rid)) by done.
    unfold cancel. destruct (inflight p !! rid) as [c0|] eqn:E.
    - rewrite cancel_ctx_lookup. apply H1 in E as Ha. destruct (decide (c0 = c)) as [<-|Hne].
      + destruct (proj2 (H2 c0) (H3 _ _ Ha)) as [b ->]. cbn. split; [by right|done].
      + split; [by left|]. intros [?|E']; [done|]. apply H1 in E'. congruence.
    - split; [by left|]. intros [?|E']; [done|]. apply H1 in E'. congruence. }
  revert Hr. apply reachable_inv; [|apply inflight_step_inv].
  intros ? ->. split; cbn; try done.
  - intros c. rewrite lookup_empty. split; [by intros [? ?]|lia].
  - intros c Hc. lia.
Qed.

(** ** Divergences *)

Section Divergences.
Context {UT : UnicodeTables}.

(** The edge forwards a path it has already percent-decoded and the proxy
    decodes it again: a question mark the client had escaped ([%3F]) starts the
    query at the backend, and an escaped percent sign ([%25]) starts an escape. *)
Theorem path_decoded_twice base p x path :
  plain_url base -> HasPrefix p "/" = true -> str_mem "?" p = false -> ctl_free p ->
  x <> "" -> str_forallb query_byte x = true -> unescape p encodePath = Ok path ->
  exists u, targetURL base (withQuery (p +:+ "?" +:+ x) "") = Ok u /\
    Path u = TrimRightByte (Path base) "/" +:+ path /\ RawQuery u = x.
Proof.
  intros Hb Hp Hq Hc Hx Hqb Hu. destruct (targetURL_plain base p x path) as (u & Ht & _ & _ & _ & H1 & H2); try done.
  exists u. split; [|done]. rewrite <- Ht. unfold withQuery, query_part. cbn [String.eqb].
  by rewrite (proj2 (String.eqb_neq _ _) Hx).
Qed.

(** A route with an exact path is forwarded with the path [/]: below a target
    with a base path, the backend sees that path with a slash appended. *)
Theorem exact_path_trailing_slash base :
  plain_url base -> exists u, targetURL base (withQuery "/" "") = Ok u /\
    Path u = TrimRightByte (Path base) "/" +:+ "/".
Proof.
  intros Hb. destruct (targetURL_plain base "/" "" "/") as (u & Ht & _ & _ & _ & H & _); try done.
  by exists u.
Qed.
End Divergences.

(** ** Witnesses *)

#[local] Existing Instance ascii_tables.
#[local] Existing Instance frame_msgpack.
#[local] Existing Instance request_msgpack.
#[local] Existing Instance response_msgpack.
#[local] Existing Instance countable_msgpack_laws.

Definition demo_target : URL := mkURL "http" "" None "10.0.0.7:9000" "/base" "" false false "" "".
Definition demo_route : route :=
  mkroute (mkRoute "api" ModeHTTP "" "/api" "" "" "http://10.0.0.7:9000/base" 0 0 0 0 0 0 [] false) demo_target.
Definition demo_request : Request :=
  mkRequest 1 "r1" "api" 1700000000000 "GET" "http" "edge:8080" "/a%20b?x=1" ∅ "".
Definition demo_answer : BackendResponse := mkBackendResponse 200 ∅ 2 (mkBody "ok" false).
Definition demo_backend : backend := fun _ _ _ _ => Ok demo_answer.

Lemma demo_target_plain : plain_url demo_target.
Proof. split; try reflexivity; [by left|]. split; [discriminate|]. split; [reflexivity|]. split; reflexivity. Qed.

Lemma forward_reaches_backend_witness :
  exists u, Host u = "10.0.0.7:9000" /\ Path u = "/base/a b" /\ RawQuery u = "x=1" /\
    forward "c1" demo_backend demo_route demo_request None =
      answer "c1" demo_route demo_request demo_answer None.
Proof.
  destruct (forward_reaches_backend "c1" demo_backend demo_route demo_request None "/a%20b" "x=1" "/a b"
    demo_target_plain) as (u & _ & H1 & H2 & H3 & H4); try reflexivity.
  - split; [discriminate|reflexivity].
  - exists u. split; [exact H1|]. split; [exact H2|]. split; [exact H3|exact H4].
Defined.

Lemma answers_complete_witness :
  routeResponseLimit (route_cfg demo_route) < max_int64 /\
  (is_Some (Response_Error (answer "c1" demo_route demo_request demo_answer None).1.2) \/
   complete_answer demo_route demo_request demo_answer (answer "c1" demo_route demo_request demo_answer None).1.2).
Proof.
  assert (Hl : routeResponseLimit (route_cfg demo_route) < max_int64) by (vm_compute; reflexivity).
  split; [exact Hl|].
  exact (answers_complete "c1" demo_route demo_request demo_answer None Hl).
Defined.

Definition demo_payload : string :=
  match EncodeRequest demo_request with Ok bs => bs | Err _ => "" end.

Lemma connector_always_answers_witness :
  exists payload reply,
    respond (handle "c1" demo_backend (routesByName [demo_route]) demo_payload None).1.2 = Some payload /\
    DecodeResponse payload = Ok reply /\ Response_RequestID reply = "r1".
Proof.
  destruct (connector_always_answers (LR := countable_msgpack_laws) "c1" demo_backend (routesByName [demo_route])
    demo_payload None) as (payload & reply & H1 & H2 & H3 & _).
  exists payload, reply. split; [exact H1|]. split; [exact H2|]. rewrite H3. vm_compute. reflexivity.
Defined.

Lemma only_configured_backends_witness :
  DecodeRequest demo_payload = Ok demo_request /\
  handle "c1" demo_backend (routesByName [demo_route]) demo_payload None =
    forward "c1" demo_backend demo_route demo_request None.
Proof.
  assert (Hd : DecodeRequest demo_payload = Ok demo_request) by (vm_compute; reflexivity).
  split; [exact Hd|].
  exact (proj2 (proj2 (only_configured_backends "c1" demo_backend [demo_route] demo_payload None demo_request Hd))).
Defined.

(** Two requests are in flight and the second is cancelled. *)
Definition demo_inflight : Inflight := (forward_begin "r2" (forward_begin "r1" newInflight).1).1.
Definition demo_live : gmap ctx string := <[1%nat := "r2"]> (<[0%nat := "r1"]> ∅).

Lemma cancel_exact_witness :
  let p := on_cancel_message (CancelSubject "r2") demo_inflight in
  cancelled p !! 1%nat = Some true /\ cancelled p !! 0%nat = Some false.
Proof.
  intros p. split; [|reflexivity].
  assert (Hr : reachable inflight_step inflight_init (demo_inflight, demo_live)).
  { exists (newInflight, ∅). split; [reflexivity|].
    eapply rtc_l; [apply (if_begin "r1"); intros c; by rewrite lookup_empty|].
    eapply rtc_l; [|apply rtc_refl]. apply (if_begin "r2"). intros c.
    rewrite lookup_insert. by case_decide. }
  assert (Ht : subject_token "r2") by (split; [split; [discriminate|reflexivity]|vm_compute; discriminate]).
  apply (proj1 (cancel_exact demo_inflight demo_live "r2" Hr Ht) 1%nat). right. reflexivity.
Defined.
