(* ===== verification/ConnectorTunnel.v ===== *)
(** * The connector's side of the data tunnel

    [internal/connector/data.go] and the open handler of [connector.go]: the
    routes a connector can serve sessions for, the answers to open requests,
    the sessions the edge opens on the link, and the loop that keeps the link
    alive.  Times are in nanoseconds. *)
From S2P Require Import Prelude GoString GoStd GoURL Msgpack Config TunnelEnvelope Link ConnectorProxy.

#[local] Open Scope Z_scope.

(** ** Routes *)

(** The target URL is nil except on websocket routes. *)
Record streamRoute := mkStreamRoute { sr_cfg : Route; sr_target : option URL }.

Section Routes.
Context {UT : UnicodeTables}.

(** The loop of [streamRoutes], [out] being the map so far. *)
Fixpoint streamRoutesLoop (routes : list Route) (out : gmap string streamRoute) :
    res (string * url_error) (gmap string streamRoute) :=
  match routes with
  | [] => Ok out
  | r :: routes' =>
      if String.eqb (Route_Mode r) ModeHTTP then streamRoutesLoop routes' out
      else if String.eqb (Route_Mode r) ModeWebSocket then
        match Parse (Route_Target r) with
        | Err e => Err (Route_Name r, e)
        | Ok u => streamRoutesLoop routes' (<[Route_Name r := mkStreamRoute r (Some u)]> out)
        end
      else streamRoutesLoop routes' (<[Route_Name r := mkStreamRoute r None]> out)
  end.

Definition streamRoutes (routes : list Route) : res (string * url_error) (gmap string streamRoute) :=
  streamRoutesLoop routes ∅.
End Routes.

(** ** Open requests over NATS *)

Section Opening.
Context {MQ : Msgpack OpenRequest} {MR : Msgpack OpenResponse}.

(** [payload, _ := EncodeOpenResponse(...)]: nil on an error. *)
Definition open_payload (resp : OpenResponse) : string :=
  match EncodeOpenResponse resp with Ok payload => payload | Err _ => "" end.

Definition handleOpenMessage (connectorID : string) (routes : gmap string streamRoute) (connected : bool)
    (data : string) : string :=
  match DecodeOpenRequest data with
  | Err _ => open_payload (mkOpenResponse TunnelEnvelope.Version "unknown" false "" "invalid open request")
  | Ok req =>
      let reject := open_payload (mkOpenResponse TunnelEnvelope.Version (OpenRequest_RequestID req) false ""
        "route is not configured on connector") in
      match routes !! OpenRequest_Route req with
      | None => reject
      | Some r =>
          if negb (String.eqb (Route_Mode (sr_cfg r)) (OpenRequest_Kind req)) then reject
          else if negb connected then
            open_payload (mkOpenResponse TunnelEnvelope.Version (OpenRequest_RequestID req) false "" ErrTunnelNotConnected)
          else open_payload (mkOpenResponse TunnelEnvelope.Version (OpenRequest_RequestID req) true connectorID "")
      end
  end.
End Opening.

(** ** Sessions opened by the edge *)

(** The goroutine started for an accepted session: which backend it dials. *)
Inductive relay_task :=
| RelayTCP (target : string) (idleTimeout : Z)
| RelayWS (target : option URL) (path : string) (idleTimeout : Z)
| NoRelay.                                        (** no case of the switch *)

Definition relay_of (r : streamRoute) (frame : Frame) : relay_task :=
  let mode := Route_Mode (sr_cfg r) in
  if String.eqb mode ModeTCP || String.eqb mode ModeGRPC
  then RelayTCP (Route_Target (sr_cfg r)) (Route_IdleTimeout (sr_cfg r))
  else if String.eqb mode ModeWebSocket
  then RelayWS (sr_target r) (Frame_Payload frame) (Route_IdleTimeout (sr_cfg r))
  else NoRelay.

Section HandleOpen.
Context {MF : Msgpack Frame}.

Definition handleOpen (routes : gmap string streamRoute) (frame : Frame) (l : Link) :
    Link * option (ref * relay_task) :=
  let reject msg := (WriteFrame (errorFrame (Frame_SessionID frame) msg) l).1 in
  match routes !! Frame_Route frame with
  | None => (reject "route is not configured", None)
  | Some r =>
      if negb (String.eqb (Route_Mode (sr_cfg r)) (Frame_Kind frame))
      then (reject "route is not configured", None)
      else
        match Accept (Frame_SessionID frame) l with
        | (l', Err _) =>
            ((WriteFrame (errorFrame (Frame_SessionID frame) "session already exists") l').1, None)
        | (l', Ok session) => (l', Some (session, relay_of r frame))
        end
  end.

(** What the goroutine of a session does before it relays: dial, or close the
    session.  [dial]: the dial succeeds. *)
Inductive task_outcome :=
| StartRelayConn (idleTimeout : Z)
| StartRelayWebSocket (url : string) (idleTimeout : Z)
| TaskClosed.

Definition relayTCPBackend (dial : string -> bool) (target : string) (idleTimeout : Z)
    (session : ref) (l : Link) : Link * task_outcome :=
  if dial target then (l, StartRelayConn idleTimeout)
  else (CloseWithError "backend dial failed" session l, TaskClosed).

Definition relayWebSocketBackend {UT : UnicodeTables} (dial : string -> bool) (base : URL) (path : string)
    (idleTimeout : Z) (session : ref) (l : Link) : Link * task_outcome :=
  let path := if String.eqb path "" then "/" else path in
  match targetURL base path with
  | Err _ => (CloseWithError "invalid websocket path" session l, TaskClosed)
  | Ok target =>
      if dial (URL_String target) then (l, StartRelayWebSocket (URL_String target) idleTimeout)
      else (CloseWithError "backend websocket dial failed" session l, TaskClosed)
  end.
End HandleOpen.

(** ** Keeping the link alive *)

Definition reconnectBackoffMin : Z := 250000000.
Definition reconnectBackoffMax : Z := 5000000000.
Definition reconnectStableAfter : Z := 30000000000.

Definition nextBackoff (current : Z) : Z :=
  if current =? 0 then reconnectBackoffMin
  else
    let next := wrap64 (current * 2) in
    if reconnectBackoffMax <? next then reconnectBackoffMax else next.

(** Where [run] is. *)
Inductive run_state :=
| Waiting (until : Z)                (** in the select on the backoff timer *)
| Dialing (connectedAt : Z)          (** in [dial] *)
| Connected (connectedAt : Z)        (** [link.Run] is running *)
| Stopped.                           (** returned *)

(** [tunnelClient] and the locals of [run]; links are references; [tc_open]
    the links whose [Close] or end of [Run] has not happened. *)
Record tunnelClient := mkTunnelClient {
  tc_link : option nat;
  tc_run : run_state;
  tc_backoff : Z;
  tc_attempted : bool;               (** [attemptDone] was called *)
  tc_open : gset nat
}.

(** What happens next to the loop. *)
Inductive run_event :=
| TimerFired
| DialFailed (ctx_done : bool)
| DialOK (link : nat)
| LinkEnded                          (** [link.Run] returned *)
| ContextDone.

(** The head of the loop: dial at once, or wait for the backoff. *)
Definition run_loop (now backoff : Z) (c : tunnelClient) : tunnelClient :=
  mkTunnelClient (tc_link c) (if 0 <? backoff then Waiting (now + backoff) else Dialing now) backoff
    (tc_attempted c) (tc_open c).

Definition run_start (now : Z) : tunnelClient :=
  run_loop now 0 (mkTunnelClient None Stopped 0 false ∅).

Definition stop (c : tunnelClient) : tunnelClient :=
  mkTunnelClient (tc_link c) Stopped (tc_backoff c) (tc_attempted c) (tc_open c).
Definition setLink (link : option nat) (c : tunnelClient) : tunnelClient :=
  mkTunnelClient link (tc_run c) (tc_backoff c) (tc_attempted c) (tc_open c).
Definition attemptDone (c : tunnelClient) : tunnelClient :=
  mkTunnelClient (tc_link c) (tc_run c) (tc_backoff c) true (tc_open c).

(** One event of [run] at time [now]; [None] when the loop is not waiting for
    it. *)
Definition run_turn (now : Z) (ev : run_event) (c : tunnelClient) : option tunnelClient :=
  match tc_run c, ev with
  | Waiting until, TimerFired =>
      if until <=? now
      then Some (mkTunnelClient (tc_link c) (Dialing now) (tc_backoff c) (tc_attempted c) (tc_open c))
      else None
  | Waiting _, ContextDone => Some (stop c)
  | Dialing _, DialFailed ctx_done =>
      let c1 := attemptDone c in
      Some (if ctx_done then stop c1 else run_loop now (nextBackoff (tc_backoff c)) c1)
  | Dialing connectedAt, DialOK link =>
      Some (attemptDone (mkTunnelClient (Some link) (Connected connectedAt) (tc_backoff c)
              (tc_attempted c) ({[link]} ∪ tc_open c)))
  | Connected connectedAt, LinkEnded =>
      let c1 := setLink None (mkTunnelClient (tc_link c) (tc_run c) (tc_backoff c) (tc_attempted c)
                  (match tc_link c with Some l => tc_open c ∖ {[l]} | None => tc_open c end)) in
      Some (run_loop now (if reconnectStableAfter <? now - connectedAt then 0 else nextBackoff (tc_backoff c)) c1)
  | Connected _, ContextDone =>
      Some (stop (setLink None (mkTunnelClient (tc_link c) (tc_run c) (tc_backoff c) (tc_attempted c)
              (match tc_link c with Some l => tc_open c ∖ {[l]} | None => tc_open c end))))
  | _, _ => None
  end.

Definition currentLink (c : tunnelClient) : option nat := tc_link c.
Definition connected (c : tunnelClient) : bool :=
  match currentLink c with Some _ => true | None => false end.

(** [requestHeader] of [dial]. *)
Definition dial_header (token : string) : Header :=
  if String.eqb token "" then ∅ else {["Authorization" := ["Bearer " +:+ token]]}.

(** ** Lemmas *)

Lemma streamRoutesLoop_spec {UT : UnicodeTables} routes out0 out name r :
  streamRoutesLoop routes out0 = Ok out -> out !! name = Some r ->
  (In (sr_cfg r) routes /\ Route_Name (sr_cfg r) = name /\ Route_Mode (sr_cfg r) <> ModeHTTP /\
   (Route_Mode (sr_cfg r) = ModeWebSocket -> exists u, sr_target r = Some u /\ Parse (Route_Target (sr_cfg r)) = Ok u)) \/
  out0 !! name = Some r.
Proof.
  revert out0. induction routes as [|r0 routes IH]; intros out0; cbn [streamRoutesLoop].
  - intros [= <-]. by right.
  - destruct (String.eqb_spec (Route_Mode r0) ModeHTTP) as [|Hm].
    { intros H1 H2. destruct (IH _ H1 H2) as [(? & ? & ? & ?)|?]; [left; split_and!; [by right|done..]|by right]. }
    assert (Hcons : forall x, streamRoutesLoop routes (<[Route_Name r0 := x]> out0) = Ok out ->
      out !! name = Some r -> sr_cfg x = r0 ->
      (Route_Mode r0 = ModeWebSocket -> exists u, sr_target x = Some u /\ Parse (Route_Target r0) = Ok u) ->
      (In (sr_cfg r) (r0 :: routes) /\ Route_Name (sr_cfg r) = name /\ Route_Mode (sr_cfg r) <> ModeHTTP /\
       (Route_Mode (sr_cfg r) = ModeWebSocket -> exists u, sr_target r = Some u /\ Parse (Route_Target (sr_cfg r)) = Ok u)) \/
      out0 !! name = Some r).
    { intros x H1 H2 Hx Hws. destruct (IH _ H1 H2) as [(? & ? & ? & ?)|Hi]; [left; split_and!; [by right|done..]|].
      rewrite lookup_insert in Hi. destruct (decide (Route_Name r0 = name)) as [Hn|]; [|by right].
      injection Hi as <-. left. rewrite Hx. split_and!; [by left|done..]. }
    destruct (String.eqb_spec (Route_Mode r0) ModeWebSocket) as [|Hw].
    + destruct (Parse (Route_Target r0)) as [u|] eqn:Hp; [|done]. intros H1 H2.
      apply (Hcons (mkStreamRoute r0 (Some u))); try done. intros _. by exists u.
    + intros H1 H2. by apply (Hcons (mkStreamRoute r0 None)).
Qed.

Lemma open_payload_decodes {MR : Msgpack OpenResponse} {LR : MsgpackLaws OpenResponse} resp :
  open_response_wf resp -> DecodeOpenResponse (open_payload resp) = Ok resp.
Proof.
  intros Hwf. apply OpenResponse_Validate_iff in Hwf. unfold open_payload.
  destruct (encode_validated_total OpenResponse_Validate resp Hwf) as [bs Hbs].
  unfold EncodeOpenResponse. rewrite Hbs. by apply decode_encode_validated.
Qed.

(** ** Properties *)

Section OpenProperties.
Context {MQ : Msgpack OpenRequest} {MR : Msgpack OpenResponse} {LR : MsgpackLaws OpenResponse}.
#[local] Set Default Proof Using "Type*".

(** The answer to a decoded request. *)
Definition open_answer (connectorID : string) (routes : gmap string streamRoute) (up : bool) (req : OpenRequest) :
    OpenResponse :=
  let id := OpenRequest_RequestID req in
  match routes !! OpenRequest_Route req with
  | Some r =>
      if negb (String.eqb (Route_Mode (sr_cfg r)) (OpenRequest_Kind req))
      then mkOpenResponse TunnelEnvelope.Version id false "" "route is not configured on connector"
      else if negb up then mkOpenResponse TunnelEnvelope.Version id false "" ErrTunnelNotConnected
      else mkOpenResponse TunnelEnvelope.Version id true connectorID ""
  | None => mkOpenResponse TunnelEnvelope.Version id false "" "route is not configured on connector"
  end.

Lemma handleOpenMessage_decodes connectorID routes up data req :
  ident connectorID -> DecodeOpenRequest data = Ok req ->
  DecodeOpenResponse (handleOpenMessage connectorID routes up data) = Ok (open_answer connectorID routes up req).
Proof.
  intros Hc Hd. unfold handleOpenMessage, open_answer. rewrite Hd.
  apply decode_validated_valid in Hd.
  assert (Hid : ident (OpenRequest_RequestID req)).
  { apply validToken_ident. unfold OpenRequest_Validate in Hd.
    destruct (negb (_ =? _)); [done|]. by destruct (validToken _). }
  assert (Hrej : forall msg, msg <> "" -> ContainsAny msg crlf = false ->
    DecodeOpenResponse (open_payload (mkOpenResponse TunnelEnvelope.Version (OpenRequest_RequestID req) false "" msg)) =
    Ok (mkOpenResponse TunnelEnvelope.Version (OpenRequest_RequestID req) false "" msg)).
  { intros msg Hm Ha. apply open_payload_decodes. split; [done|]. split; [done|]. cbn.
    split; [done|by apply ContainsAny_avoids]. }
  destruct (routes !! _) as [r|]; [|by apply Hrej]. destruct (negb _); [by apply Hrej|].
  destruct up; cbn [negb]; [|by apply Hrej]. apply open_payload_decodes. by split_and!.
Qed.

(** Open requests are answered truthfully.  A well-formed request is answered
    under its own id: accepted, with this connector's name, exactly when the
    connector has a route of that name and mode and its tunnel is up;
    otherwise refused, with the error that makes the edge try again exactly
    when only the tunnel is missing. *)
Theorem open_answers connectorID routes up data req :
  ident connectorID -> DecodeOpenRequest data = Ok req ->
  exists resp, DecodeOpenResponse (handleOpenMessage connectorID routes up data) = Ok resp /\
    OpenResponse_RequestID resp = OpenRequest_RequestID req /\
    let serves := exists r, routes !! OpenRequest_Route req = Some r /\ Route_Mode (sr_cfg r) = OpenRequest_Kind req in
    (OpenResponse_Accepted resp = true <-> serves /\ up = true) /\
    (OpenResponse_Accepted resp = true -> OpenResponse_ConnectorID resp = connectorID) /\
    (OpenResponse_Error resp = ErrTunnelNotConnected <-> serves /\ up = false).
Proof.
  intros Hc Hd. eexists. split; [by apply handleOpenMessage_decodes|]. unfold open_answer. cbn zeta.
  destruct (routes !! OpenRequest_Route req) as [r|] eqn:Hr.
  - destruct (String.eqb_spec (Route_Mode (sr_cfg r)) (OpenRequest_Kind req)) as [Hm|Hm]; cbn [negb].
    + assert (Hs : exists r0, Some r = Some r0 /\ Route_Mode (sr_cfg r0) = OpenRequest_Kind req) by by exists r.
      destruct up; cbn; split_and!; try done; split; try done; by intros [_ ?].
    + assert (Hs : (exists r0, Some r = Some r0 /\ Route_Mode (sr_cfg r0) = OpenRequest_Kind req) -> False)
        by (intros (r0 & [= <-] & ?); done).
      cbn. split_and!; try done; split; try done; by intros [?%Hs _].
  - cbn. split_and!; try done; split; try done; by intros [(r & ? & _) _].
Qed.
End OpenProperties.

Section HandleOpenProperties.
Context {MF : Msgpack Frame} {ML : MsgpackLaws Frame}.
#[local] Set Default Proof Using "Type*".

(** C15: the edge cannot reach beyond the connector's configuration.  An open
    frame creates a session only when it names a configured route and its
    mode, under an id that is not in use, and the backend dialed for it is that
    route's own; otherwise no session is created, removed or changed, and the
    edge is told with an error frame of that session. *)
Theorem handleOpen_guarded routes frame l :
  link_wf l ->
  match handleOpen routes frame l with
  | (l', Some (session, task)) =>
      exists r, routes !! Frame_Route frame = Some r /\ Route_Mode (sr_cfg r) = Frame_Kind frame /\
        Link_sessions l !! Frame_SessionID frame = None /\
        Link_sessions l' !! Frame_SessionID frame = Some session /\
        Link_store l' !! session = Some (newSession (Frame_SessionID frame)) /\
        same_but (Frame_SessionID frame) l l' /\ Link_out l' = Link_out l /\
        (Frame_Kind frame = ModeTCP \/ Frame_Kind frame = ModeGRPC ->
           task = RelayTCP (Route_Target (sr_cfg r)) (Route_IdleTimeout (sr_cfg r))) /\
        (Frame_Kind frame = ModeWebSocket ->
           task = RelayWS (sr_target r) (Frame_Payload frame) (Route_IdleTimeout (sr_cfg r)))
  | (l', None) =>
      Link_sessions l' = Link_sessions l /\ Link_store l' = Link_store l /\
      ((routes !! Frame_Route frame = None \/
        exists r, routes !! Frame_Route frame = Some r /\
          (Route_Mode (sr_cfg r) <> Frame_Kind frame \/ is_Some (Link_sessions l !! Frame_SessionID frame)))) /\
      (ident (Frame_SessionID frame) -> Link_open l = true ->
        exists msg, wire (Frame_SessionID frame) l' =
          wire (Frame_SessionID frame) l ++ [errorFrame (Frame_SessionID frame) msg])
  end.
Proof.
  intros Hl.
  assert (Hreject : forall msg l0, ContainsAny msg crlf = false -> msg <> "" ->
    let l' := (WriteFrame (errorFrame (Frame_SessionID frame) msg) l0).1 in
    Link_sessions l' = Link_sessions l0 /\ Link_store l' = Link_store l0 /\
    (ident (Frame_SessionID frame) -> Link_open l0 = true ->
      exists msg, wire (Frame_SessionID frame) l' =
        wire (Frame_SessionID frame) l0 ++ [errorFrame (Frame_SessionID frame) msg])).
  { intros msg l0 Hm Hne. cbn zeta. destruct (WriteFrame_store (errorFrame (Frame_SessionID frame) msg) l0) as [-> ->].
    split_and!; [done..|]. intros Hi Ho. exists msg. rewrite WriteFrame_wire, WriteFrame_ok; [|apply errorFrame_wf; [done..|by apply ContainsAny_avoids]|done].
    cbn [is_ok andb Frame_SessionID errorFrame]. by rewrite String.eqb_refl. }
  unfold handleOpen. cbn zeta. destruct (routes !! Frame_Route frame) as [r|] eqn:Hr.
  2:{ destruct (Hreject "route is not configured" l) as (? & ? & ?); [done..|]. split_and!; try done. by left. }
  destruct (String.eqb_spec (Route_Mode (sr_cfg r)) (Frame_Kind frame)) as [Hm|Hm]; cbn [negb].
  2:{ destruct (Hreject "route is not configured" l) as (? & ? & ?); [done..|]. split_and!; try done.
      right. exists r. split; [done|by left]. }
  pose proof (addSession_same (Frame_SessionID frame) l Hl) as Hsame. unfold Accept, addSession in *.
  destruct (Link_sessions l !! Frame_SessionID frame) as [r0|] eqn:Hs; cbn [fst] in Hsame.
  - destruct (Hreject "session already exists" l) as (? & ? & ?); [done..|]. split_and!; try done.
    right. exists r. split; [done|]. right. by eexists.
  - exists r. split_and!; try done; cbn [Link_sessions Link_store].
    + apply lookup_insert_eq.
    + apply lookup_insert_eq.
    + unfold relay_of. cbn zeta. rewrite Hm. by intros [-> | ->].
    + unfold relay_of. cbn zeta. rewrite Hm. by intros ->.
Qed.
End HandleOpenProperties.

(** ** The reconnect loop *)

Definition client_step (c c' : tunnelClient) : Prop := exists now ev, run_turn now ev c = Some c'.
Definition client_init (c : tunnelClient) : Prop := exists now, c = run_start now.

Definition backoff_ok (b : Z) : Prop := b = 0 \/ reconnectBackoffMin <= b <= reconnectBackoffMax.

Lemma nextBackoff_ok b : backoff_ok b -> reconnectBackoffMin <= nextBackoff b <= reconnectBackoffMax.
Proof.
  unfold backoff_ok, nextBackoff, reconnectBackoffMin, reconnectBackoffMax. intros [->|Hb]; [done|].
  destruct (Z.eqb_spec b 0); [lia|]. rewrite wrap64_small by (unfold int64_range, min_int64, max_int64; lia).
  destruct (Z.ltb_spec 5000000000 (b * 2)); lia.
Qed.

(** The link is published exactly while it runs, no other link is open, and a
    wait is never longer than the longest backoff. *)
Record client_inv (c : tunnelClient) : Prop := {
  ci_link :
    match tc_run c with
    | Connected _ => exists l, tc_link c = Some l /\ tc_open c = {[l]}
    | _ => tc_link c = None /\ tc_open c = ∅
    end;
  ci_backoff : backoff_ok (tc_backoff c)
}.

Lemma run_loop_inv now b c :
  tc_link c = None -> tc_open c = ∅ -> backoff_ok b -> client_inv (run_loop now b c).
Proof. intros Hl Ho Hb. unfold run_loop. split; cbn; [|done]. by destruct (0 <? b). Qed.

Lemma client_step_inv c c' : client_inv c -> client_step c c' -> client_inv c'.
Proof.
  intros [Hl Hb] (now & ev & Ht). unfold run_turn in Ht.
  destruct (tc_run c) as [until|t|t|] eqn:Hr, ev as [|d|l| |]; try done.
  - destruct (until <=? now); [|done]. injection Ht as <-. by split.
  - injection Ht as <-. by split.
  - injection Ht as <-. destruct Hl as [Hl Ho]. destruct d; [by split|].
    apply run_loop_inv; [done..|]. right. by apply nextBackoff_ok.
  - injection Ht as <-. destruct Hl as [_ Ho]. split; cbn; [|done]. exists l. split; [done|].
    rewrite Ho. apply (right_id_L ∅ (∪)).
  - injection Ht as <-. destruct Hl as (l & Hl & Ho). apply run_loop_inv; cbn; [done| |].
    + rewrite Hl, Ho. apply difference_diag_L.
    + destruct (_ <? _); [by left|]. right. by apply nextBackoff_ok.
  - injection Ht as <-. destruct Hl as (l & Hl & Ho). split; cbn; [|done].
    rewrite Hl, Ho. split; [done|]. apply difference_diag_L.
Qed.

Lemma client_reachable_inv c : reachable client_step client_init c -> client_inv c.
Proof.
  apply reachable_inv; [|intros; by eapply client_step_inv].
  intros ? [now ->]. split; [by split|by left].
Qed.

(** A sequence of turns at their times. *)
Fixpoint run_turns (turns : list (Z * run_event)) (c : tunnelClient) : option tunnelClient :=
  match turns with
  | [] => Some c
  | (now, ev) :: turns' =>
      match run_turn now ev c with
      | Some c' => run_turns turns' c'
      | None => None
      end
  end.

(** The backoff doubles from 250 ms to 5 s and stays there: the closed form
    of [n] failures in a row. *)
Theorem backoff_schedule n :
  Nat.iter (S n) nextBackoff 0 = Z.min reconnectBackoffMax (reconnectBackoffMin * 2 ^ Z.of_nat n).
Proof.
  induction n as [|n IH]; [done|]. change (Nat.iter (S (S n)) nextBackoff 0) with (nextBackoff (Nat.iter (S n) nextBackoff 0)).
  rewrite IH. replace (Z.of_nat (S n)) with (Z.of_nat n + 1) by lia.
  rewrite Z.pow_add_r by lia. change (2 ^ 1) with 2.
  pose proof (Z.pow_pos_nonneg 2 (Z.of_nat n) ltac:(lia) ltac:(lia)) as Hp.
  set (p := 2 ^ Z.of_nat n) in *. unfold nextBackoff, reconnectBackoffMin, reconnectBackoffMax.
  destruct (Z.eqb_spec (Z.min 5000000000 (250000000 * p)) 0); [lia|].
  rewrite wrap64_small by (unfold int64_range, min_int64, max_int64; lia).
  destruct (Z.ltb_spec 5000000000 (Z.min 5000000000 (250000000 * p) * 2)); lia.
Qed.

(** C14: the tunnel heals itself.  In any history of dials, failures and losses:
    the published link is the running one and no other link is left open; the
    loop stops only because its context ended; and from every other state
    without a link it reaches a new link after at most one wait, which is never
    longer than five seconds. *)
Theorem tunnel_heals c :
  reachable client_step client_init c ->
  (connected c = true <-> exists t, tc_run c = Connected t) /\
  (forall l, l ∈ tc_open c <-> currentLink c = Some l) /\
  (forall now ev c', run_turn now ev c = Some c' ->
     (tc_run c' = Stopped -> ev = ContextDone \/ ev = DialFailed true) /\
     (forall until, tc_run c' = Waiting until -> until <= now + reconnectBackoffMax)) /\
  (tc_run c <> Stopped -> connected c = false -> forall l, exists turns c',
     run_turns turns c = Some c' /\ currentLink c' = Some l /\ (length turns <= 2)%nat /\
     forall until, tc_run c = Waiting until -> Forall (fun t => t.1 = until) turns).
Proof.
  intros Hr. pose proof (client_reachable_inv c Hr) as Hinv. pose proof Hinv as [Hl Hb].
  assert (Hc : connected c = true <-> exists t, tc_run c = Connected t).
  { unfold connected, currentLink. destruct (tc_run c) as [u|t|t|]; [destruct Hl as [-> _]|destruct Hl as [-> _]| |].
    - split; [done|by intros [? ?]].
    - split; [done|by intros [? ?]].
    - destruct Hl as (l & -> & _). split; [by exists t|done].
    - destruct Hl as [-> _]. split; [done|by intros [? ?]]. }
  split; [exact Hc|]. split; [|split].
  - intros l. unfold currentLink. destruct (tc_run c) as [u|t|t|].
    1, 2, 4: destruct Hl as [-> ->]; split; [by intros ?%not_elem_of_empty|done].
    destruct Hl as (l0 & -> & ->). rewrite elem_of_singleton. split; [by intros ->|by intros [= ->]].
  - intros now ev c' Ht. pose proof (client_step_inv c c' Hinv ltac:(by exists now, ev)) as [_ Hb']. unfold run_turn in Ht.
    assert (Hloop : forall b c0, ((0 <? b) = false \/ tc_backoff c' = b) -> c' = run_loop now b c0 ->
      (tc_run c' = Stopped -> ev = ContextDone \/ ev = DialFailed true) /\
      (forall until, tc_run c' = Waiting until -> until <= now + reconnectBackoffMax)).
    { intros b c0 _ ->. unfold run_loop in *. cbn in *. destruct (0 <? b); [|done]. split; [done|].
      intros u [= <-]. destruct Hb'; unfold reconnectBackoffMax in *; lia. }
    destruct (tc_run c) as [until|t|t|] eqn:Hrun, ev as [|d|l| |]; try done.
    + destruct (until <=? now); [|done]. by injection Ht as <-.
    + injection Ht as <-. split; [by left|done].
    + injection Ht as Ht. destruct d; [subst; split; [by right|done]|].
      eapply Hloop; [right|by symmetry]. by subst.
    + by injection Ht as <-.
    + injection Ht as Ht. eapply Hloop; [right|by symmetry]. by subst.
    + injection Ht as <-. split; [by left|done].
  - intros Hns Hnc l. destruct (tc_run c) as [until|t|t|] eqn:Hrun; [| | |done].
    + set (c1 := mkTunnelClient (tc_link c) (Dialing until) (tc_backoff c) (tc_attempted c) (tc_open c)).
      assert (H1 : run_turn until TimerFired c = Some c1)
        by (unfold run_turn; by rewrite Hrun, (proj2 (Z.leb_le until until) (Z.le_refl _))).
      exists [(until, TimerFired); (until, DialOK l)]. cbn [run_turns]. rewrite H1.
      eexists. split; [reflexivity|]. split; [done|]. split; [cbn; lia|]. intros u [= <-]. by repeat constructor.
    + exists [(t, DialOK l)]. cbn [run_turns]. unfold run_turn. rewrite Hrun.
      eexists. split; [reflexivity|]. split; [done|]. split; [cbn; lia|done].
    + assert (connected c = true) by (apply Hc; by exists t). congruence.
Qed.

(** ** Witnesses *)

#[local] Existing Instance frame_msgpack.
#[local] Existing Instance open_request_msgpack.
#[local] Existing Instance open_response_msgpack.
#[local] Existing Instance countable_msgpack_laws.

Definition demo_db : Route := mkRoute "db" ModeTCP "" "" "" "" "10.0.0.5:5432" 0 0 0 0 0 0 [] false.
Definition demo_streams : gmap string streamRoute := {["db" := mkStreamRoute demo_db None]}.
Definition demo_open_request : OpenRequest := mkOpenRequest 1 "s1" "s1" "db" ModeTCP "/" 1700000000000.
Definition demo_open_data : string :=
  match EncodeOpenRequest demo_open_request with Ok bs => bs | Err _ => "" end.

Lemma open_answers_witness :
  ident "c1" /\ DecodeOpenRequest demo_open_data = Ok demo_open_request /\
  exists resp, DecodeOpenResponse (handleOpenMessage "c1" demo_streams true demo_open_data) = Ok resp /\
    OpenResponse_Accepted resp = true.
Proof.
  assert (Hi : ident "c1") by (split; [discriminate|reflexivity]).
  assert (Hd : DecodeOpenRequest demo_open_data = Ok demo_open_request) by (vm_compute; reflexivity).
  split; [exact Hi|]. split; [exact Hd|].
  destruct (open_answers "c1" demo_streams true demo_open_data demo_open_request Hi Hd)
    as (resp & H1 & _ & H2 & _).
  exists resp. split; [exact H1|]. apply H2. split; [|reflexivity].
  exists (mkStreamRoute demo_db None). split; reflexivity.
Defined.

Definition demo_open_frame : Frame := openFrame "s1" "db" ModeTCP "/".

Lemma handleOpen_guarded_witness :
  link_wf NewLink /\
  (handleOpen demo_streams demo_open_frame NewLink).2 = Some (0%nat, RelayTCP "10.0.0.5:5432" 0) /\
  Link_sessions (handleOpen demo_streams demo_open_frame NewLink).1 !! "s1" = Some 0%nat.
Proof.
  split; [exact NewLink_wf|]. split; [reflexivity|].
  destruct (handleOpen_guarded demo_streams demo_open_frame NewLink NewLink_wf)
    as (r & _ & _ & _ & H & _).
  exact H.
Defined.

(** The first dial fails, and the loop waits 250 ms. *)
Definition demo_client : tunnelClient :=
  match run_turns [(0, DialFailed false)] (run_start 0) with Some c => c | None => run_start 0 end.

Lemma tunnel_heals_witness :
  tc_run demo_client = Waiting 250000000 /\
  exists turns c', run_turns turns demo_client = Some c' /\ currentLink c' = Some 7%nat.
Proof.
  split; [reflexivity|].
  assert (Hr : reachable client_step client_init demo_client).
  { exists (run_start 0). split; [by exists 0|]. eapply rtc_l; [|apply rtc_refl].
    exists 0, (DialFailed false). reflexivity. }
  destruct (tunnel_heals demo_client Hr) as (_ & _ & _ & H).
  destruct (H ltac:(discriminate) eq_refl 7%nat) as (turns & c' & H1 & H2 & _).
  by exists turns, c'.
Defined.
