(* ===== verification/Dial.v ===== *)
(** * How a connector reaches the edge

    [startTunnelClient] and [dial] ([internal/connector/data.go]) against the
    endpoint of [internal/edge/data.go].  The handshake is the websocket
    library's: a parameter, of which the documented behaviour is used, that
    it requests the path and the query of the URL with the given headers. *)
From S2P Require Import Prelude GoString GoStd GoURL GoQuery Config Tls EdgeTunnel.
From S2P Require Import ConnectorTunnel.

#[local] Open Scope Z_scope.

Inductive dial_error := DialParse (e : url_error) | DialTLS (e : tls_error).

Section Dial.
Context {UT : UnicodeTables} {Certificate CertPool : Type}.

(** The fields of [tunnelClient] that never change. *)
Record Dialer := mkDialer {
  dl_dialURL : string;
  dl_token : string;
  dl_TLS : option (TLSConfig Certificate CertPool)   (** nil: the library's default *)
}.

(** [startTunnelClient] up to the goroutine it starts. *)
Definition startTunnelClient (fs : TLSFiles Certificate CertPool) (cfg : Config) (id : string) : res dial_error Dialer :=
  match Parse (Connector_EdgeDataURL (Config_Connector cfg)) with
  | Err e => Err (DialParse e)
  | Ok u =>
      let query := Values_Set "connector_id" id (Query (RawQuery u)) in
      let u := mkURL (Scheme u) (Opaque u) (User u) (Host u) (Path u) (RawPath u) (OmitHost u)
                 (ForceQuery u) (Encode query) (Fragment u) in
      let dialer := mkDialer (URL_String u) (Connector_TunnelToken (Config_Connector cfg)) in
      match Connector_TLS (Config_Connector cfg) with
      | None => Ok (dialer None)
      | Some t =>
          match ClientTLS fs t with
          | Err e => Err (DialTLS e)
          | Ok tlsCfg => Ok (dialer (Some tlsCfg))
          end
      end
  end.

(** The handshake: the request the edge receives for a dialed URL and header. *)
Context (handshake : string -> Header -> DataRequest).

Definition dial_request (d : Dialer) : DataRequest := handshake (dl_dialURL d) (dial_header (dl_token d)).

(** It asks for the path and the query of the URL, for [/] when it has no path. *)
Definition requests_url : Prop := forall raw u h, Parse raw = Ok u ->
  dr_Path (handshake raw h) = (if String.eqb (Path u) "" then "/" else Path u) /\
  (forall key, dr_Query (handshake raw h) key = Values_Get (Query (RawQuery u)) key) /\
  dr_Authorization (handshake raw h) = Header_Get h "Authorization".

Lemma dial_authorization token : Header_Get (dial_header token) "Authorization" = if String.eqb token "" then "" else "Bearer " +:+ token.
Proof. unfold dial_header. by destruct (String.eqb token ""). Qed.

(** The dialed URL is the configured one with [connector_id] set. *)
Lemma startTunnelClient_url fs cfg id base d :
  Parse (Connector_EdgeDataURL (Config_Connector cfg)) = Ok base -> plain_url base ->
  startTunnelClient fs cfg id = Ok d ->
  dl_token d = Connector_TunnelToken (Config_Connector cfg) /\
  exists u, Parse (dl_dialURL d) = Ok u /\ Scheme u = Scheme base /\ Host u = Host base /\ Path u = Path base /\
    Query (RawQuery u) = Values_Set "connector_id" id (Query (RawQuery base)).
Proof.
  intros Hp Hb. unfold startTunnelClient. rewrite Hp. cbn zeta. set (query := Values_Set _ _ _). set (u := mkURL _ _ _ _ _ _ _ _ _ _).
  intros Hd. assert (Hd' : dl_dialURL d = URL_String u /\ dl_token d = Connector_TunnelToken (Config_Connector cfg)).
  { destruct (Connector_TLS _) as [t|]; [destruct (ClientTLS fs t); [|done]|]; by injection Hd as <-. }
  destruct Hd' as [-> ->]. split; [done|]. exists u. split.
  - apply Parse_String. destruct Hb. split; try done. apply Encode_bytes.
  - split_and!; try done. cbn [RawQuery u]. apply Query_Encode. intros k vs. unfold query, Values_Set. rewrite lookup_insert.
    destruct (decide _); [by intros [= <-]|]. apply Query_nonempty.
Qed.

(** C32: a connector is known by its own id.  When the client starts, the request
    it dials with is upgraded by the edge's endpoint exactly when the
    configured URL names the endpoint's path and the connector brings the
    edge's token (as the bearer credential or in the URL), if the edge has one;
    and then the link is registered under this connector's id and no other,
    whatever the configured URL's own query says. *)
Theorem connector_identified fs cfg id base d token id' :
  requests_url -> subject_token id ->
  Parse (Connector_EdgeDataURL (Config_Connector cfg)) = Ok base -> plain_url base ->
  startTunnelClient fs cfg id = Ok d ->
  dataHandler_ServeHTTP token (dial_request d) = DataUpgrade id' <->
  id' = id /\ Path base = dataTunnelPath /\
  (token = "" \/ Values_Get (Query (RawQuery base)) "token" = token \/
   Connector_TunnelToken (Config_Connector cfg) = token).
Proof.
  intros Hlaw Hid Hp Hb Hd. destruct (startTunnelClient_url fs cfg id base d Hp Hb Hd) as (Htok & u & Hu & _ & _ & Hpath & Hq).
  rewrite data_endpoint_guarded. unfold dial_request. destruct (Hlaw _ _ (dial_header (dl_token d)) Hu) as (-> & Hget & ->).
  rewrite !Hget, Hq, Values_Get_Set, !Values_Get_Set_ne, Hpath, Htok, dial_authorization by done.
  assert (Hpth : (if String.eqb (Path base) "" then "/" else Path base) = dataTunnelPath <-> Path base = dataTunnelPath)
    by (destruct (String.eqb_spec (Path base) "") as [->|]; done).
  rewrite Hpth. assert (Hne : id <> "") by apply Hid. rewrite (proj2 (String.eqb_neq _ _) Hne). cbn iota.
  set (k := Connector_TunnelToken _). assert (Hauth : (if String.eqb k "" then "" else "Bearer " +:+ k) = "Bearer " +:+ token <-> k <> "" /\ k = token).
  { destruct (String.eqb_spec k "") as [->|Hk]; [split; [by intros|by intros []]|].
    split; [intros H%app_str_inj; done|by intros [_ ->]]. }
  rewrite Hauth. assert (Hk : token <> "" -> k = token -> k <> "") by (by intros ? ->).
  destruct (decide (token = "")); split.
  - intros (? & -> & _). auto.
  - intros (-> & ? & _). auto.
  - intros (? & -> & _ & [?|[?|[_ ?]]]); auto.
  - intros (-> & ? & [?|[?|?]]); split_and!; auto.
Qed.
End Dial.

(** ** Witness *)

#[local] Existing Instance ascii_tables.

(** A handshake that behaves as documented. *)
Definition demo_handshake (raw : string) (h : Header) : DataRequest :=
  match Parse raw with
  | Ok u => mkDataRequest (if String.eqb (Path u) "" then "/" else Path u) (Values_Get (Query (RawQuery u))) (Header_Get h "Authorization")
  | Err _ => mkDataRequest "" (fun _ => "") ""
  end.

Definition demo_dial_config : Config :=
  mkConfig (mkNATSConfig "nats://nats:4222" "" "" "") (mkEdgeConfig ":8080" ":8081" "" None)
    (mkConnectorConfig "ws://edge:8081/_airpc/data?site=a" "s3cret" "" None) [].

Lemma connector_identified_witness :
  dataHandler_ServeHTTP "s3cret" (dial_request demo_handshake
    (mkDialer (Certificate := unit) (CertPool := unit) "ws://edge:8081/_airpc/data?connector_id=c1&site=a" "s3cret" None)) =
  DataUpgrade "c1".
Proof.
  refine (proj2 (connector_identified demo_handshake (mkTLSFiles (fun _ => None) (fun _ _ => None) (fun _ => None))
    demo_dial_config "c1" (mkURL "ws" "" None "edge:8081" "/_airpc/data" "" false false "site=a" "")
    _ "s3cret" "c1" _ _ _ _ _) _).
  - intros raw u h H. unfold demo_handshake. by rewrite H.
  - split; [split; [discriminate|reflexivity]|vm_compute; discriminate].
  - vm_compute. reflexivity.
  - split; try reflexivity; [by right; right; left|]. split; [discriminate|]. split; [reflexivity|]. split; reflexivity.
  - vm_compute. reflexivity.
  - split; [reflexivity|]. split; [reflexivity|]. right. right. reflexivity.
Defined.
