(* ===== verification/EndToEnd.v ===== *)
(** * From the edge to the backend

    The edge's unary handler ([internal/edge/edge.go]) and the connector's
    proxy ([internal/connector/proxy.go]) joined by NATS; the negotiation of a
    session between the edge ([internal/edge/data.go]) and the connector
    ([internal/connector/data.go]). *)
From S2P Require Import Prelude GoString GoStd GoURL Msgpack HttpEnvelope Headers Config TunnelEnvelope Link EdgeRoutes EdgeUnary.
From S2P Require ConnectorProxy ConnectorTunnel EdgeTunnel.

#[local] Open Scope Z_scope.

(** ** A unary request *)

Section Unary.
Context {UT : UnicodeTables} {MF : Msgpack Frame} {MQ : Msgpack Request} {MR : Msgpack Response}.

(** NATS with one connector subscribed to a route's subject. *)
Definition connector_nats (r : Route) (reply : string -> string) (subject payload : string) : nats_result :=
  if String.eqb subject (UnarySubject r) then mkNatsResult (Ok (reply payload)) false
  else mkNatsResult (Err ErrNoResponders) false.

(** The subscription's handler: the reply to a payload. *)
Definition connector_reply (cid : string) (Do : ConnectorProxy.backend) (table : gmap string ConnectorProxy.route)
    (link : option Link) (payload : string) : string :=
  match ConnectorProxy.respond (ConnectorProxy.handle cid Do table payload link).1.2 with
  | Some bs => bs
  | None => ""
  end.

Context {LQ : MsgpackLaws Request} {LR : MsgpackLaws Response}.
#[local] Set Default Proof Using "Type*".

Lemma readBounded_fits body limit :
  0 <= limit < max_int64 -> body_fails body = false -> len (body_data body) <= limit ->
  ConnectorProxy.readBounded body limit = Ok (body_data body, false).
Proof using Type.
  intros Hl Hf Hlen. unfold ConnectorProxy.readBounded, ReadAll_Limit.
  rewrite wrap64_small by (unfold int64_range, min_int64, max_int64 in *; lia).
  rewrite (proj2 (Z.leb_gt _ _)), (proj2 (Z.ltb_lt _ _)), Hf, (proj2 (Z.ltb_ge _ _)) by lia. done.
Qed.

Lemma routeResponseLimit_pos r : 0 < ConnectorProxy.routeResponseLimit r.
Proof using Type.
  unfold ConnectorProxy.routeResponseLimit. destruct (Z.leb_spec (MaxInlineResponse r) 0); [done|lia].
Qed.

(** What the edge makes of a reply that validates and carries the id. *)
Lemma serveUnary_reply rid deadlineMS order req er suffix body reply response :
  int64_range deadlineMS ->
  readBounded (req_Body req) (routeRequestLimit (route_cfg er)) = Ok body ->
  request_wf (unary_envelope rid deadlineMS er suffix order body req) ->
  (forall payload, DecodeRequest payload = Ok (unary_envelope rid deadlineMS er suffix order body req) ->
     reply payload = match ConnectorProxy.respond response with Some bs => bs | None => "" end) ->
  response_wf response -> Response_RequestID response = rid -> Response_Error response = None ->
  (serveUnary (Some rid) deadlineMS order (connector_nats (route_cfg er) reply) req er suffix).1 =
    if negb (String.eqb (Response_StreamSessionID response) "") then StreamedAnswer response
    else Answer (writeResponse response).
Proof.
  intros Hd Hb Hwf Hreply Hresp Hid Herr.
  set (env := unary_envelope rid deadlineMS er suffix order body req) in *.
  assert (Hv : Request_Validate env = Ok tt) by (by apply Request_Validate_iff).
  destruct (encode_validated_total Request_Validate env Hv) as [payload Hp].
  rewrite (serveUnary_sent rid deadlineMS order _ req er suffix body payload Hb Hp). cbn zeta.
  unfold connector_nats. rewrite String.eqb_refl. cbn [nats_reply fst].
  rewrite (Hreply payload) by (by apply decode_encode_validated).
  destruct (encode_validated_total Response_Validate response) as [bs Hbs]; [by apply Response_Validate_iff|].
  unfold ConnectorProxy.respond, EncodeResponse. rewrite Hbs.
  assert (Hdec : DecodeResponse bs = Ok response) by (by apply decode_encode_validated). rewrite Hdec.
  unfold no_error. by rewrite Hid, String.eqb_refl, Herr.
Qed.

(** What the connector makes of the envelope. *)
Lemma connector_reply_forward cid Do table link rid deadlineMS order req er cr p q path body :
  let env := unary_envelope rid deadlineMS er (withQuery p q) order body req in
  table !! Route_Name (route_cfg er) = Some cr ->
  plain_url (ConnectorProxy.route_target cr) -> token (req_Method req) ->
  HasPrefix p "/" = true -> str_mem "?" p = false -> ctl_free p -> str_forallb query_byte q = true ->
  unescape p encodePath = Ok path ->
  exists u, Scheme u = Scheme (ConnectorProxy.route_target cr) /\ Host u = Host (ConnectorProxy.route_target cr) /\
    Path u = TrimRightByte (Path (ConnectorProxy.route_target cr)) "/" +:+ path /\ RawQuery u = q /\
    forall br payload, Do (req_Method req) u (Request_Headers env) body = Ok br -> DecodeRequest payload = Ok env ->
      connector_reply cid Do table link payload =
        match ConnectorProxy.respond (ConnectorProxy.answer cid cr env br link).1.2 with Some bs => bs | None => "" end.
Proof using Type.
  intros env Hcr Hpl [Hm1 Hm2] Hp Hq Hc Hqb Hu.
  destruct (ConnectorProxy.targetURL_plain _ p q path Hpl Hp Hq Hc Hqb Hu) as (u & Ht & Hpu & ? & ? & ? & ?).
  exists u. split_and!; try done. intros br payload Hdo Hdec. unfold connector_reply, ConnectorProxy.handle. rewrite Hdec.
  change (Request_Route env) with (Route_Name (route_cfg er)). rewrite Hcr. unfold ConnectorProxy.forward.
  change (Request_Path env) with (withQuery p q). rewrite ConnectorProxy.withQuery_part, Ht.
  change (Request_Method env) with (req_Method req). rewrite ConnectorProxy.NewRequest_plain by done.
  change (Request_Body env) with body. by rewrite Hdo.
Qed.

(** C1: a unary request, end to end.  For a well-formed request of a route both
    processes have, with a forwarded path that decodes: the backend is called
    at the route's own host, with the method, the complete body, the allowed
    headers, the decoded path below the target's and the query unchanged; and
    when its answer fits the inline limit, the client receives that answer: the
    status, the whole body, and the headers that cross both filters. *)
Theorem unary_end_to_end cid Do table link rid deadlineMS order req er cr p q path body :
  table !! Route_Name (route_cfg er) = Some cr ->
  plain_url (ConnectorProxy.route_target cr) -> int64_range deadlineMS ->
  readBounded (req_Body req) (routeRequestLimit (route_cfg er)) = Ok body ->
  request_wf (unary_envelope rid deadlineMS er (withQuery p q) order body req) ->
  str_mem "?" p = false -> ctl_free p -> str_forallb query_byte q = true -> unescape p encodePath = Ok path ->
  HasPrefix p "/" = true ->
  exists u, Scheme u = Scheme (ConnectorProxy.route_target cr) /\ Host u = Host (ConnectorProxy.route_target cr) /\
    Path u = TrimRightByte (Path (ConnectorProxy.route_target cr)) "/" +:+ path /\ RawQuery u = q /\
    forall br limit, limit = ConnectorProxy.routeResponseLimit (ConnectorProxy.route_cfg cr) ->
      Do (req_Method req) u (FilterRequest order (Route_ForwardedHeaders (route_cfg er))) body = Ok br ->
      ConnectorProxy.shouldStream br limit = false -> limit < max_int64 ->
      body_fails (ConnectorProxy.br_Body br) = false -> len (body_data (ConnectorProxy.br_Body br)) <= limit ->
      100 <= ConnectorProxy.br_StatusCode br <= 999 ->
      headers_wf (FilterResponse (map_to_list (ConnectorProxy.br_Header br))) ->
      let forwarded := FilterResponse (map_to_list (ConnectorProxy.br_Header br)) in
      (serveUnary (Some rid) deadlineMS order
         (connector_nats (route_cfg er) (connector_reply cid Do table link)) req er (withQuery p q)).1 =
      Answer (mkHTTPResponse (ConnectorProxy.br_StatusCode br)
        (addHeaders (map_to_list (FilterResponse (map_to_list forwarded))) ∅)
        (body_data (ConnectorProxy.br_Body br)) false).
Proof.
  intros Hcr Hpl Hd Hb Hwf Hq Hc Hqb Hu Hp.
  assert (Hm : token (req_Method req)) by apply Hwf.
  assert (Hrid : rid <> "") by apply Hwf.
  destruct (connector_reply_forward cid Do table link rid deadlineMS order req er cr p q path body
    Hcr Hpl Hm Hp Hq Hc Hqb Hu) as (u & H1 & H2 & H3 & H4 & Hreply).
  exists u. split_and!; try done. intros br limit -> Hdo Hs Hl Hbf Hlen Hst Hh. cbn zeta.
  set (env := unary_envelope rid deadlineMS er (withQuery p q) order body req) in *.
  set (response := mkResponse HttpEnvelope.Version rid (ConnectorProxy.br_StatusCode br)
    (FilterResponse (map_to_list (ConnectorProxy.br_Header br))) (body_data (ConnectorProxy.br_Body br)) "" "" None).
  assert (Hans : (ConnectorProxy.answer cid cr env br link).1.2 = response).
  { unfold ConnectorProxy.answer. rewrite Hs. cbn [fst snd]. unfold ConnectorProxy.inlineResponse.
    rewrite readBounded_fits; [done| |done|done]. pose proof (routeResponseLimit_pos (ConnectorProxy.route_cfg cr)). lia. }
  rewrite (serveUnary_reply rid deadlineMS order req er (withQuery p q) body _ response); try done.
  - intros payload Hdec. rewrite <- Hans. by apply Hreply.
  - split; [done|]. split; [done|]. cbn. split; [done|]. split; [done|]. by left.
Qed.
(** C8: a streamed answer, end to end.  When the backend's answer is to be
    streamed and the connector's tunnel is up: the edge's handler gets a
    response with the request's own id as the stream; however the stream goes,
    the client is sent the backend's status and, for canonical names, exactly
    the backend's headers with a value that are not hop-by-hop; the connector's
    link has announced a fresh session of that id; and once the announcement
    reaches the edge's link, the handler's first claim gets that session. *)
Theorem streamed_end_to_end {ML : MsgpackLaws Frame} cid Do table l rid deadlineMS order req er cr p q path body :
  table !! Route_Name (route_cfg er) = Some cr ->
  plain_url (ConnectorProxy.route_target cr) -> int64_range deadlineMS ->
  readBounded (req_Body req) (routeRequestLimit (route_cfg er)) = Ok body ->
  request_wf (unary_envelope rid deadlineMS er (withQuery p q) order body req) ->
  str_mem "?" p = false -> ctl_free p -> str_forallb query_byte q = true -> unescape p encodePath = Ok path ->
  HasPrefix p "/" = true -> ident rid -> token cid ->
  link_wf l -> Link_sessions l !! rid = None -> Link_open l = true ->
  exists u, Scheme u = Scheme (ConnectorProxy.route_target cr) /\ Host u = Host (ConnectorProxy.route_target cr) /\
    Path u = TrimRightByte (Path (ConnectorProxy.route_target cr)) "/" +:+ path /\ RawQuery u = q /\
    forall br,
    Do (req_Method req) u (FilterRequest order (Route_ForwardedHeaders (route_cfg er))) body = Ok br ->
    ConnectorProxy.shouldStream br (ConnectorProxy.routeResponseLimit (ConnectorProxy.route_cfg cr)) = true ->
    100 <= ConnectorProxy.br_StatusCode br <= 999 ->
    headers_wf (FilterResponse (map_to_list (ConnectorProxy.br_Header br))) ->
    let frame := openFrame rid (Route_Name (route_cfg er)) KindHTTPStream "" in
    exists response l' session,
      (serveUnary (Some rid) deadlineMS order
         (connector_nats (route_cfg er) (connector_reply cid Do table (Some l))) req er (withQuery p q)).1 =
      StreamedAnswer response /\
      Response_StreamSessionID response = rid /\ Response_ConnectorID response = cid /\
      (forall events, let sent := stream_resp (serveStreamedResponse response events) in
         resp_status sent = ConnectorProxy.br_StatusCode br /\
         (canonical_header (ConnectorProxy.br_Header br) -> forall k vs,
            resp_header sent !! k = Some vs <->
            ConnectorProxy.br_Header br !! k = Some vs /\ vs <> [] /\ k <> "" /\ isHopByHop k = false)) /\
      Open frame l = (l', Ok session) /\ wire rid l' = wire rid l ++ [frame] /\
      forall le, link_wf le -> Link_sessions le !! rid = None -> exists s,
        (EdgeTunnel.acceptStreamOpen frame le).2 = Some s /\
        (EdgeTunnel.claim_turn (Response_StreamSessionID response) false
           (EdgeTunnel.acceptStreamOpen frame le).1).2 = EdgeTunnel.ClaimGot s.
Proof.
  intros Hcr Hpl Hd Hb Hwf Hq Hc Hqb Hu Hp Hrid Hcid Hl Hfresh Hopen.
  assert (Hm : token (req_Method req)) by apply Hwf.
  assert (Hroute : ident (Route_Name (route_cfg er))) by apply Hwf.
  destruct (connector_reply_forward cid Do table (Some l) rid deadlineMS order req er cr p q path body
    Hcr Hpl Hm Hp Hq Hc Hqb Hu) as (u & ? & ? & ? & ? & Hreply).
  exists u. split_and!; try done. intros br Hdo Hs Hst Hh frame.
  set (env := unary_envelope rid deadlineMS er (withQuery p q) order body req) in *.
  assert (Hwr : forall l0, Link_open l0 = true -> (WriteFrame frame l0).2 = Ok tt).
  { intros l0 Ho. apply WriteFrame_ok; [|done]. split; [done|]. split; [done|]. left. split; [done|]. split; [done|].
    unfold session_kind. cbn. auto. }
  assert (Ho : exists l' session, Open frame l = (l', Ok session) /\ wire rid l' = wire rid l ++ [frame]).
  { unfold Open, addSession. cbn [Frame_SessionID openFrame frame]. rewrite Hfresh. set (l1 := mkLink _ _ _ _ _).
    pose proof (Hwr l1 Hopen) as Hok. pose proof (WriteFrame_wire rid frame l1) as Hw. rewrite Hok in Hw.
    destruct (WriteFrame frame l1) as [l2 e]. cbn [snd fst] in *. subst e. eexists _, _. split; [reflexivity|].
    rewrite Hw. cbn [is_ok andb Frame_SessionID openFrame frame]. by rewrite String.eqb_refl. }
  destruct Ho as (l' & session & Ho & Hw).
  set (response := mkResponse HttpEnvelope.Version rid (ConnectorProxy.br_StatusCode br)
    (FilterResponse (map_to_list (ConnectorProxy.br_Header br))) "" rid cid None).
  assert (Hans : (ConnectorProxy.answer cid cr env br (Some l)).1.2 = response).
  { unfold ConnectorProxy.answer. rewrite Hs. unfold ConnectorProxy.streamResponse.
    change (openFrame (Request_RequestID env) (Request_Route env) KindHTTPStream "") with frame. by rewrite Ho. }
  assert (Hne : rid <> "") by apply Hrid.
  exists response, l', session. split; [|split; [done|]; split; [done|]; split; [|split_and!; try done]].
  - rewrite (serveUnary_reply rid deadlineMS order req er (withQuery p q) body _ response); try done.
    + cbn. by rewrite (proj2 (String.eqb_neq _ _) Hne).
    + intros payload Hdec. rewrite <- Hans. by apply Hreply.
    + split; [done|]. split; [done|]. cbn. split; [done|]. split; [done|]. right. split_and!; try done. by apply ident_token.
  - intros events. cbn zeta. destruct (streamed_head response events) as [Hs1 Hs2]. split; [exact Hs1|].
    intros Hch k vs. rewrite Hs2 by apply FilterResponse_canonical. unfold response. cbn [Response_Headers].
    rewrite (FilterResponse_lookup _ _ _ _ Hch (Permutation_refl _)). tauto.
  - intros le Hle Hnone. unfold EdgeTunnel.acceptStreamOpen, Accept, addSession.
    cbn [Frame_Kind Frame_SessionID openFrame frame]. rewrite Hnone. cbn. exists (Link_next le). split; [done|].
    unfold EdgeTunnel.claim_turn, lookupSession, TryClaim. cbn. rewrite lookup_insert_eq. cbn. by rewrite lookup_insert_eq.
Qed.
End Unary.

(** ** A session *)

Section Session.
Context {MF : Msgpack Frame} {MQ : Msgpack OpenRequest} {MR : Msgpack OpenResponse}.

(** NATS with one connector subscribed to the route's open subject. *)
Definition open_nats (r : Route) (reply : string -> string) (subject payload : string) : res nats_error string :=
  if String.eqb subject (OpenSubject r) then Ok (reply payload) else Err ErrNoResponders.

Context {ML : MsgpackLaws Frame} {LQ : MsgpackLaws OpenRequest} {LR : MsgpackLaws OpenResponse}.
#[local] Set Default Proof Using "Type*".

Lemma attempt_reply deadlineMS cid routes up r sid path e :
  ident cid -> int64_range deadlineMS -> open_request_wf (EdgeTunnel.open_request r sid path deadlineMS) ->
  exists payload,
    EncodeOpenRequest (EdgeTunnel.open_request r sid path deadlineMS) = Ok payload /\
    DecodeOpenResponse (ConnectorTunnel.handleOpenMessage cid routes up payload) =
      Ok (ConnectorTunnel.open_answer cid routes up (EdgeTunnel.open_request r sid path deadlineMS)) /\
    EdgeTunnel.attemptOpenDataSession deadlineMS (open_nats r (ConnectorTunnel.handleOpenMessage cid routes up)) r sid path e =
      EdgeTunnel.attemptOpenDataSession deadlineMS
        (fun _ _ => Ok (ConnectorTunnel.handleOpenMessage cid routes up payload)) r sid path e.
Proof.
  intros Hc Hd Hwf. set (req := EdgeTunnel.open_request r sid path deadlineMS) in *.
  destruct (encode_validated_total OpenRequest_Validate req) as [payload Hp]; [by apply OpenRequest_Validate_iff|].
  exists payload. split; [done|]. split.
  - apply ConnectorTunnel.handleOpenMessage_decodes; [done|]. by apply decode_encode_validated.
  - unfold EdgeTunnel.attemptOpenDataSession. fold req. unfold EncodeOpenRequest. rewrite Hp.
    unfold open_nats. by rewrite String.eqb_refl.
Qed.

(** C7: a session is negotiated end to end.  When the connector has the route in
    the route's mode and its tunnel is up at both ends, one attempt of the edge
    opens the session on that connector's link; and when the open frame reaches
    the connector's link, the connector accepts it and starts the relay to that
    route's own target.  When the connector's tunnel is down the attempt fails
    with the one error that is retried, and changes nothing. *)
Theorem session_end_to_end deadlineMS cid routes r sr sid path e l link :
  ident cid -> int64_range deadlineMS -> open_request_wf (EdgeTunnel.open_request r sid path deadlineMS) ->
  routes !! Route_Name r = Some sr -> Route_Mode (ConnectorTunnel.sr_cfg sr) = Route_Mode r ->
  EdgeTunnel.get cid e = Some l -> EdgeTunnel.ed_links e !! l = Some link ->
  Link_open link = true -> Link_sessions link !! sid = None ->
  let attempt up := EdgeTunnel.attemptOpenDataSession deadlineMS
    (open_nats r (ConnectorTunnel.handleOpenMessage cid routes up)) r sid path e in
  let frame := openFrame sid (Route_Name r) (Route_Mode r) path in
  attempt false = (e, Err EdgeTunnel.ErrTunnelUnavailable) /\
  exists e' s link', attempt true = (e', Ok (l, s)) /\
    EdgeTunnel.ed_links e' !! l = Some link' /\ Link_sessions link' !! sid = Some s /\
    wire sid link' = wire sid link ++ [frame] /\
    forall k, link_wf k -> Link_sessions k !! sid = None -> exists k' session,
      ConnectorTunnel.handleOpen routes frame k = (k', Some (session, ConnectorTunnel.relay_of sr frame)) /\
      Link_sessions k' !! sid = Some session.
Proof.
  intros Hc Hd Hwf Hr Hm Hg Hl Hopen Hfresh attempt frame.
  assert (Hmode : String.eqb (Route_Mode (ConnectorTunnel.sr_cfg sr)) (Route_Mode r) = true)
    by (by apply String.eqb_eq).
  assert (Hans : forall up, ConnectorTunnel.open_answer cid routes up (EdgeTunnel.open_request r sid path deadlineMS) =
    if up then mkOpenResponse TunnelEnvelope.Version sid true cid ""
    else mkOpenResponse TunnelEnvelope.Version sid false "" ErrTunnelNotConnected).
  { intros up. unfold ConnectorTunnel.open_answer. cbn. rewrite Hr, Hmode. by destruct up. }
  split.
  - destruct (attempt_reply deadlineMS cid routes false r sid path e Hc Hd Hwf) as (payload & Hp & Hdec & Ha).
    unfold attempt. rewrite Ha. unfold EdgeTunnel.attemptOpenDataSession. rewrite Hp, Hdec, Hans. cbn.
    by rewrite orb_true_r.
  - destruct (attempt_reply deadlineMS cid routes true r sid path e Hc Hd Hwf) as (payload & Hp & Hdec & Ha).
    unfold attempt. rewrite Ha. unfold EdgeTunnel.attemptOpenDataSession. rewrite Hp, Hdec, Hans.
    cbn [OpenResponse_RequestID OpenResponse_Accepted OpenResponse_ConnectorID]. rewrite String.eqb_refl, Hg, Hl.
    cbn [negb orb]. fold frame. unfold Open, addSession. cbn [Frame_SessionID openFrame frame]. rewrite Hfresh.
    set (l1 := mkLink _ _ _ _ _).
    assert (Hok : (WriteFrame frame l1).2 = Ok tt).
    { apply WriteFrame_ok; [|done]. destruct Hwf as (_ & _ & ? & ? & ? & _). split; [done|]. split; [done|]. by left. }
    pose proof (WriteFrame_store frame l1) as [_ Hs2]. pose proof (WriteFrame_wire sid frame l1) as Hw. rewrite Hok in Hw.
    change (openFrame sid (Route_Name r) (Route_Mode r) path) with frame.
    destruct (WriteFrame frame l1) as [l2 res]. cbn [snd fst] in *. subst res.
    do 3 eexists. split; [reflexivity|]. cbn [EdgeTunnel.ed_links]. split; [apply lookup_insert_eq|].
    split; [rewrite Hs2; apply lookup_insert_eq|]. split.
    + rewrite Hw. cbn [is_ok andb Frame_SessionID openFrame frame]. by rewrite String.eqb_refl.
    + intros k _ Hk. unfold ConnectorTunnel.handleOpen. cbn [Frame_Route Frame_Kind Frame_SessionID openFrame frame].
      rewrite Hr, Hmode. unfold Accept, addSession. rewrite Hk. do 2 eexists. split; [reflexivity|]. apply lookup_insert_eq.
Qed.
End Session.

(** ** Witnesses *)

#[local] Existing Instance ascii_tables.
#[local] Existing Instance frame_msgpack.
#[local] Existing Instance request_msgpack.
#[local] Existing Instance response_msgpack.
#[local] Existing Instance open_request_msgpack.
#[local] Existing Instance open_response_msgpack.
#[local] Existing Instance countable_msgpack_laws.

Definition demo_edge_route : route := mkroute (ConnectorProxy.route_cfg ConnectorProxy.demo_route) "/api" "".
Definition demo_table : gmap string ConnectorProxy.route := ConnectorProxy.routesByName [ConnectorProxy.demo_route].
Definition demo_deadline : Z := 1700000000000.

Lemma demo_deadline_range : int64_range demo_deadline.
Proof. unfold int64_range, min_int64, max_int64, demo_deadline. lia. Qed.

Lemma demo_envelope_wf :
  request_wf (unary_envelope "r1" demo_deadline demo_edge_route (withQuery "/x" "x=1") [] "" (demo_request "/api/x")).
Proof. apply Request_Validate_iff; [exact demo_deadline_range|]. vm_compute. reflexivity. Qed.

Lemma no_headers_wf : headers_wf (FilterResponse (map_to_list (∅ : Header))).
Proof. rewrite map_to_list_empty. intros name values H. unfold FilterResponse in H. cbn [filterResponseLoop] in H. by rewrite lookup_empty in H. Qed.

Lemma unary_end_to_end_witness :
  (serveUnary (Some "r1") demo_deadline [] (connector_nats (route_cfg demo_edge_route)
     (connector_reply "c1" ConnectorProxy.demo_backend demo_table None))
     (demo_request "/api/x") demo_edge_route (withQuery "/x" "x=1")).1 =
  Answer (mkHTTPResponse 200 ∅ "ok" false).
Proof.
  destruct (unary_end_to_end (LQ := countable_msgpack_laws) (LR := countable_msgpack_laws)
    "c1" ConnectorProxy.demo_backend demo_table None "r1" demo_deadline []
    (demo_request "/api/x") demo_edge_route ConnectorProxy.demo_route "/x" "x=1" "/x" ""
    eq_refl ConnectorProxy.demo_target_plain demo_deadline_range eq_refl demo_envelope_wf
    eq_refl eq_refl eq_refl eq_refl eq_refl) as (u & _ & _ & _ & _ & H).
  refine (eq_trans (H ConnectorProxy.demo_answer _ eq_refl eq_refl _ _ eq_refl _ _ no_headers_wf) _).
  1, 2, 5: vm_compute; reflexivity.
  - vm_compute. discriminate.
  - vm_compute. split; discriminate.
Defined.

(** A backend that sends a body of unknown length. *)
Definition demo_sse_answer : ConnectorProxy.BackendResponse :=
  ConnectorProxy.mkBackendResponse 200 {["Content-Type" := ["text/event-stream"]; "Connection" := ["close"]]} (-1) (mkBody "event" false).
Definition demo_sse : ConnectorProxy.backend := fun _ _ _ _ => Ok demo_sse_answer.

Lemma demo_sse_canonical : canonical_header (ConnectorProxy.br_Header demo_sse_answer).
Proof.
  change (map_Forall (fun name _ => CanonicalHeaderKey name = name) (ConnectorProxy.br_Header demo_sse_answer)).
  apply (bool_decide_unpack _). vm_compute. exact I.
Qed.

Lemma demo_sse_wf : headers_wf (FilterResponse (map_to_list (ConnectorProxy.br_Header demo_sse_answer))).
Proof.
  assert (FilterResponse (map_to_list (ConnectorProxy.br_Header demo_sse_answer)) = {["Content-Type" := ["text/event-stream"]]})
    as -> by (vm_compute; reflexivity).
  intros name values H. apply lookup_singleton_Some in H as [<- <-].
  split; [split; [discriminate|reflexivity]|]. apply list.Forall_singleton, ContainsAny_avoids. reflexivity.
Qed.

Lemma streamed_end_to_end_witness :
  exists response,
    (serveUnary (Some "r1") demo_deadline [] (connector_nats (route_cfg demo_edge_route)
       (connector_reply "c1" demo_sse demo_table (Some NewLink)))
       (demo_request "/api/x") demo_edge_route (withQuery "/x" "x=1")).1 = StreamedAnswer response /\
    Response_StreamSessionID response = "r1" /\
    resp_status (stream_resp (serveStreamedResponse response [TunnelGone])) = 200 /\
    resp_header (stream_resp (serveStreamedResponse response [TunnelGone])) !! "Content-Type" = Some ["text/event-stream"].
Proof.
  assert (Hr : ident "r1") by (split; [discriminate|reflexivity]).
  assert (Hc : token "c1") by (split; [discriminate|reflexivity]).
  destruct (streamed_end_to_end (LQ := countable_msgpack_laws) (LR := countable_msgpack_laws)
    (ML := countable_msgpack_laws) "c1" demo_sse demo_table NewLink "r1" demo_deadline []
    (demo_request "/api/x") demo_edge_route ConnectorProxy.demo_route "/x" "x=1" "/x" ""
    eq_refl ConnectorProxy.demo_target_plain demo_deadline_range eq_refl demo_envelope_wf
    eq_refl eq_refl eq_refl eq_refl eq_refl Hr Hc NewLink_wf eq_refl eq_refl) as (u & _ & _ & _ & _ & H).
  destruct (H demo_sse_answer eq_refl eq_refl
    ltac:(vm_compute; split; discriminate) demo_sse_wf) as (response & l' & session & H1 & H2 & _ & H3 & _).
  exists response. split; [exact H1|]. split; [exact H2|]. destruct (H3 [TunnelGone]) as [H4 H5].
  split; [exact H4|]. apply (H5 demo_sse_canonical). split; [vm_compute; reflexivity|].
  split; [discriminate|]. split; [discriminate|vm_compute; reflexivity].
Defined.

Definition demo_edge : EdgeTunnel.Edge := EdgeTunnel.data_connect "c1" 0%nat EdgeTunnel.newTunnelRegistry.

Lemma session_end_to_end_witness :
  exists e' s, EdgeTunnel.attemptOpenDataSession demo_deadline
    (open_nats ConnectorTunnel.demo_db (ConnectorTunnel.handleOpenMessage "c1" ConnectorTunnel.demo_streams true))
    ConnectorTunnel.demo_db "s1" "/" demo_edge = (e', Ok (0%nat, s)).
Proof.
  assert (Hc : ident "c1") by (split; [discriminate|reflexivity]).
  assert (Hwf : open_request_wf (EdgeTunnel.open_request ConnectorTunnel.demo_db "s1" "/" demo_deadline)).
  { apply OpenRequest_Validate_iff; [exact demo_deadline_range|]. vm_compute. reflexivity. }
  destruct (session_end_to_end (ML := countable_msgpack_laws) (LQ := countable_msgpack_laws)
    (LR := countable_msgpack_laws) demo_deadline "c1" ConnectorTunnel.demo_streams ConnectorTunnel.demo_db
    (ConnectorTunnel.mkStreamRoute ConnectorTunnel.demo_db None) "s1" "/" demo_edge 0%nat NewLink
    Hc demo_deadline_range Hwf eq_refl eq_refl eq_refl eq_refl eq_refl eq_refl)
    as (_ & e' & s & link' & H & _).
  exists e', s. exact H.
Defined.
