(* ===== verification/StreamPipe.v ===== *)
(** * A streamed response body, from the backend to the client

    The pump goroutine of [streamResponse] ([internal/connector/proxy.go]) at
    one end of a session and the loop of [serveStreamedResponse]
    ([internal/edge/edge.go]) at the other: both are users of the session
    interface, so what holds of any two users holds of them. *)
From S2P Require Import Prelude GoString GoStd Msgpack HttpEnvelope TunnelEnvelope Link FlowSpec FlowControl SessionUser Pipe Relay EdgeUnary.

#[local] Open Scope Z_scope.

(** ** The pump *)

(** How [Body.Read] ended. *)
Inductive body_end := BodyEOF | BodyFailed.

Inductive pump_state :=
| PumpRead                                             (** in [Body.Read] *)
| PumpSend (chunk : string) (err : option body_end)    (** in [SendData] *)
| PumpDone.

Record PumpEnd := mkPumpEnd {
  pe_side : Side;
  pe_state : pump_state;
  pe_read : string;                 (** the bytes of the body read so far *)
  pe_ended : option body_end
}.

Definition streamBufferSize : nat := 32 * 1024.

Section Pump.
Context {MF : Msgpack Frame} (id : string).

(** After the chunk was sent: the read's error is examined. *)
Definition pump_next (err : option body_end) (p : PumpEnd) : PumpEnd :=
  match err with
  | None => mkPumpEnd (pe_side p) PumpRead (pe_read p) (pe_ended p)
  | Some BodyEOF =>
      mkPumpEnd (side_close id (fun i => closeFrame i 0 "") (side_SendEOF id (pe_side p)).1)
        PumpDone (pe_read p) (pe_ended p)
  | Some BodyFailed =>
      mkPumpEnd (side_close id (fun i => errorFrame i "backend body read failed") (pe_side p))
        PumpDone (pe_read p) (pe_ended p)
  end.

(** [Body.Read(buf)] returned [chunk] and [err]. *)
Definition pump_read (chunk : string) (err : option body_end) (p : PumpEnd) : option PumpEnd :=
  match pe_state p with
  | PumpRead =>
      let p1 := mkPumpEnd (pe_side p) (PumpSend chunk err) (pe_read p +:+ chunk) err in
      Some (if String.eqb chunk "" then pump_next err p1 else p1)
  | _ => None
  end.

(** [session.SendData] returned; [None] while it blocks. *)
Definition pump_send (prefer_done : bool) (p : PumpEnd) : option PumpEnd :=
  match pe_state p with
  | PumpSend chunk err =>
      match side_SendData id prefer_done DataBinary chunk (pe_side p) with
      | (_, Blocked) => None
      | (x, Returned (Err _)) => Some (mkPumpEnd x PumpDone (pe_read p) (pe_ended p))
      | (x, Returned (Ok _)) => Some (pump_next err (mkPumpEnd x (pe_state p) (pe_read p) (pe_ended p)))
      end
  | _ => None
  end.

Inductive pump_step : PumpEnd -> PumpEnd -> Prop :=
| ps_read chunk err p p' :
    (String.length chunk <= streamBufferSize)%nat -> pump_read chunk err p = Some p' -> pump_step p p'
| ps_send b p p' : pump_send b p = Some p' -> pump_step p p'.
End Pump.

(** ** The handler *)

Record HandlerEnd := mkHandlerEnd {
  he_side : Side;
  he_state : stream_state;
  he_gone : bool                    (** the client had gone when the loop ended *)
}.

(** The ready case of the [select]; for a frame, whether [w.Write] succeeds. *)
Inductive handler_case := HClientGone | HTunnelGone | HRecv (write_ok : bool).

Section Handler.
Context {MF : Msgpack Frame} (id : string).

(** Returning or panicking runs the deferred [session.Close]. *)
Definition handler_end (st : stream_state) (gone : bool) (x : Side) : HandlerEnd :=
  mkHandlerEnd (side_close id (fun i => closeFrame i 0 "") x) st gone.

Definition handler_turn (case : handler_case) (h : HandlerEnd) : option HandlerEnd :=
  match he_state h with
  | Finished _ _ => None
  | Streaming _ _ =>
      match case with
      | HClientGone => Some (handler_end (stream_turn ClientGone (he_state h)) true (he_side h))
      | HTunnelGone =>
          if side_done (he_side h)
          then Some (handler_end (stream_turn TunnelGone (he_state h)) false (he_side h)) else None
      | HRecv write_ok =>
          match side_Recv (he_side h) with
          | None => None
          | Some (frame, x) =>
              let st := stream_turn (StreamFrame frame write_ok) (he_state h) in
              let data := String.eqb (Frame_Type frame) FrameData in
              match st with
              | Finished _ _ => Some (handler_end st (data && negb write_ok) x)
              | Streaming _ _ => Some (mkHandlerEnd (if data then side_AckData x else x) st false)
              end
          end
      end
  end.

Definition handler_step (h h' : HandlerEnd) : Prop :=
  is_Some (s_ref (he_side h)) /\ exists case, handler_turn case h = Some h'.
End Handler.

(** ** Their invariants *)

Section Discipline.
Context {MF : Msgpack Frame} {ML : MsgpackLaws Frame} (id : string).

Definition pump_pending (s : pump_state) : string :=
  match s with PumpSend chunk _ => chunk | _ => "" end.

Record pump_inv (p : PumpEnd) : Prop := {
  pi_read : exists lost, pe_read p = payloads (s_sent (pe_side p)) +:+ pump_pending (pe_state p) +:+ lost /\
    (lost <> "" -> pe_state p = PumpDone /\ ~ has_eof (s_sent (pe_side p)));
  pi_err : forall chunk err, pe_state p = PumpSend chunk err -> pe_ended p = err;
  pi_clean : ends_clean (s_sent (pe_side p));
  pi_ctl : count is_ctl (s_sent (pe_side p)) <= match pe_state p with PumpDone => 2 | _ => 0 end;
  pi_eof : has_eof (s_sent (pe_side p)) -> pe_ended p = Some BodyEOF /\ pe_state p = PumpDone
}.

Record handler_inv (h : HandlerEnd) : Prop := {
  hi_silent : count is_data (s_sent (he_side h)) = 0;
  hi_ctl : count is_ctl (s_sent (he_side h)) <= match he_state h with Finished _ _ => 1 | _ => 0 end;
  hi_body : prefix_of (resp_body (stream_resp (he_state h))) (payloads (s_got (he_side h)));
  hi_exact : forall r acks, he_state h = Streaming r acks ->
    resp_body r = payloads (s_got (he_side h)) /\ resp_aborted r = false /\
    s_acked (he_side h) = count is_data (s_got (he_side h));
  hi_complete : forall r acks, he_state h = Finished r acks -> resp_aborted r = false -> he_gone h = false ->
    has_eof (s_got (he_side h)) /\ resp_body r = payloads (s_got (he_side h))
}.

(** The end of a body, with nothing left to send. *)
Lemma pump_next_ok err p :
  pe_read p = payloads (s_sent (pe_side p)) -> pe_ended p = err ->
  ends_clean (s_sent (pe_side p)) -> count is_ctl (s_sent (pe_side p)) = 0 ->
  pump_inv (pump_next id err p) /\ rtc (side_step id) (pe_side p) (pe_side (pump_next id err p)).
Proof.
  intros Hread Herr Hcl Hctl. pose proof (no_ctl_no_eof _ Hctl) as Hne.
  assert (Hsl : count is_ctl (s_sent (pe_side p)) < slack) by (unfold slack, recvSlack; lia).
  destruct err as [[|]|]; cbn [pump_next].
  - destruct (side_SendEOF id (pe_side p)) as [x ok] eqn:E.
    destruct (side_SendEOF_spec id _ _ _ E Hsl) as (Hst & _ & _ & _ & Hsent). cbn [fst].
    assert (Hx : ends_clean (s_sent x) /\ payloads (s_sent x) = payloads (s_sent (pe_side p)) /\
      count is_ctl (s_sent x) <= 1).
    { destruct Hsent as [->| ->]; [split_and!; [done|done|lia]|].
      destruct (sent_eof_clean id _ Hcl) as (? & ? & ->). split_and!; [done|done|lia]. }
    destruct Hx as (Hclx & Hpx & Hcx).
    destruct (side_close_spec id (fun i => closeFrame i 0 "") x (closing_code 0 ""))
      as (Hst' & _ & _ & _ & Hsent'); [unfold slack, recvSlack; lia|].
    destruct (sent_close_clean id (s_sent x) 0 "" Hclx) as (Hcl' & Hp' & Hc' & _).
    split; [|cbn -[side_close]; by etrans].
    split; cbn -[side_close]; [|done| | |by rewrite Herr].
    + exists "". rewrite str_app_nil. split; [|done]. rewrite Hread, <- Hpx.
      by destruct Hsent' as [->| ->].
    + by destruct Hsent' as [->| ->].
    + destruct Hsent' as [->| ->]; lia.
  - destruct (side_close_spec id (fun i => errorFrame i "backend body read failed") (pe_side p)
      (closing_error "backend body read failed") Hsl)
      as (Hst & _ & _ & _ & Hsent).
    split; [|done]. split; cbn -[side_close]; [|done| | |].
    + exists "". rewrite str_app_nil. split; [|done]. rewrite Hread.
      destruct Hsent as [->| ->]; [done|]. rewrite payloads_app. cbn. by rewrite str_app_nil.
    + destruct Hsent as [->| ->]; [done|]. by apply ends_clean_snoc.
    + destruct Hsent as [->| ->]; rewrite ?count_app; cbn; lia.
    + intros H. destruct Hne. destruct Hsent as [Hs|Hs]; rewrite Hs in H; [done|].
      apply has_eof_app in H as [H|H]; [done|]. apply List.Exists_cons in H as [H|H]; [done|by apply List.Exists_nil in H].
  - split; [|apply rtc_refl]. split; cbn; [|done|done|lia|done].
    exists "". by rewrite Hread, str_app_nil.
Qed.

Lemma pump_active p :
  pump_inv p -> pe_state p <> PumpDone ->
  pe_read p = payloads (s_sent (pe_side p)) +:+ pump_pending (pe_state p) /\
  count is_ctl (s_sent (pe_side p)) = 0.
Proof.
  intros [(lost & Hr & Hl) _ _ Hc _] Hne. split.
  - destruct (decide (lost = "")) as [->|Hlost]; [by rewrite Hr, str_app_nil|]. by destruct (Hl Hlost).
  - pose proof (count_nonneg is_ctl (s_sent (pe_side p))). destruct (pe_state p); [lia|lia|done].
Qed.

Lemma pump_step_ok p p' :
  pump_inv p -> pump_step id p p' -> pump_inv p' /\ rtc (side_step id) (pe_side p) (pe_side p').
Proof.
  intros Hinv Hs. revert Hinv. destruct Hs as [chunk err p p' _ H|b p p' H]; intros Hinv.
  - unfold pump_read in H. destruct (pe_state p) eqn:Hst; [|done..]. injection H as <-.
    destruct (pump_active p Hinv) as [Hr Hc]; [congruence|]. rewrite Hst in Hr. cbn in Hr. rewrite str_app_nil in Hr.
    destruct (String.eqb_spec chunk "") as [->|Hne].
    + apply (pump_next_ok err (mkPumpEnd (pe_side p) (PumpSend "" err) (pe_read p +:+ "") err)); cbn; try done.
      * by rewrite str_app_nil.
      * apply Hinv.
    + split; [|apply rtc_refl]. split; cbn.
      * exists "". rewrite str_app_nil, Hr. done.
      * by intros ? ? [= _ <-].
      * apply Hinv.
      * lia.
      * intros He. by destruct (no_ctl_no_eof _ Hc).
  - unfold pump_send in H. destruct (pe_state p) as [|chunk err|] eqn:Hst; [done| |done].
    destruct (pump_active p Hinv) as [Hr Hc]; [congruence|]. rewrite Hst in Hr. cbn in Hr.
    destruct (side_SendData id b DataBinary chunk (pe_side p)) as [x res] eqn:E.
    destruct (side_SendData_spec id b DataBinary chunk _ _ _ (or_introl eq_refl) E)
      as (Hsteps & _ & _ & _ & Hsent).
    destruct res as [|[[]|e]]; [done| |]; injection H as <-.
    + assert (Hctl : count is_ctl (s_sent x) = 0) by (rewrite Hsent, count_app; cbn; lia).
      destruct (pump_next_ok err (mkPumpEnd x (PumpSend chunk err) (pe_read p) (pe_ended p))) as [Hi Hst']; cbn; try done.
      * rewrite Hr, Hsent, payloads_app. cbn. by rewrite str_app_nil.
      * by eapply pi_err.
      * rewrite Hsent. apply ends_clean_snoc; [apply Hinv|]. intros _. by apply no_ctl_no_eof.
      * split; [done|]. by etrans.
    + pose proof (no_ctl_no_eof _ Hc) as Hno. split; [|done]. split; cbn; rewrite ?Hsent.
      * exists chunk. by rewrite Hr.
      * done.
      * apply Hinv.
      * lia.
      * done.
Qed.

(** The loop is left with the state [st]. *)
Lemma handler_end_ok st gone x h :
  rtc (side_step id) (he_side h) x -> s_sent x = s_sent (he_side h) ->
  handler_inv h -> (exists r acks, he_state h = Streaming r acks) ->
  (exists r acks, st = Finished r acks) ->
  prefix_of (resp_body (stream_resp st)) (payloads (s_got x)) ->
  (resp_aborted (stream_resp st) = false -> gone = false ->
    has_eof (s_got x) /\ resp_body (stream_resp st) = payloads (s_got x)) ->
  handler_inv (handler_end id st gone x) /\ rtc (side_step id) (he_side h) (he_side (handler_end id st gone x)).
Proof.
  intros Hst Hsx [Hsil Hctl _ _ _] (r0 & a0 & Hs0) (r & acks & ->) Hb Hc. rewrite Hs0 in Hctl. cbn [stream_resp] in *.
  pose proof (count_nonneg is_ctl (s_sent x)) as Hn. rewrite Hsx in Hn.
  destruct (side_close_spec id (fun i => closeFrame i 0 "") x (closing_code 0 ""))
    as (Hst' & _ & Hgot & _ & Hsent); [rewrite Hsx; unfold slack, recvSlack; lia|].
  split; [|cbn -[side_close]; by etrans].
  assert (Hcount : count is_data (s_sent (side_close id (fun i => closeFrame i 0 "") x)) = 0 /\
    count is_ctl (s_sent (side_close id (fun i => closeFrame i 0 "") x)) <= 1).
  { destruct Hsent as [->| ->]; rewrite ?count_app, Hsx; cbn; lia. }
  destruct Hcount. split; cbn -[side_close]; rewrite ?Hgot; try done.
  intros r1 a1 [= <- <-]. by apply Hc.
Qed.

Lemma handler_step_ok h h' :
  handler_inv h -> handler_step id h h' -> handler_inv h' /\ rtc (side_step id) (he_side h) (he_side h').
Proof.
  intros Hinv (Href & case & H). unfold handler_turn in H.
  destruct (he_state h) as [r acks|] eqn:Hst; [|done].
  destruct (hi_exact _ Hinv r acks Hst) as (Hbody & Hab & Hack).
  assert (Hs : exists r acks, he_state h = Streaming r acks) by by exists r, acks.
  assert (Hpre : prefix_of (resp_body r) (payloads (s_got (he_side h)))) by (rewrite Hbody; apply prefix_of_refl).
  destruct case as [| |write_ok].
  - injection H as <-. apply handler_end_ok; cbn; try done; by exists r, acks.
  - destruct (side_done (he_side h)); [|done]. injection H as <-.
    apply handler_end_ok; cbn; try done; by exists (abort r), acks.
  - destruct (side_Recv (he_side h)) as [[frame x]|] eqn:E; [|done].
    destruct (side_Recv_spec id _ _ _ E) as (Hsteps & Hr & Hgot & Hacked & Hsent).
    cbn [stream_turn] in H. destruct (String.eqb (Frame_Type frame) FrameData) eqn:Hd.
    + assert (Hp : payloads (s_got x) = payloads (s_got (he_side h)) +:+ Frame_Payload frame).
      { rewrite Hgot, payloads_app. cbn. unfold is_data. rewrite Hd. by rewrite str_app_nil. }
      assert (Hc : count is_data (s_got x) = count is_data (s_got (he_side h)) + 1).
      { rewrite Hgot, count_app. cbn. unfold is_data at 2. rewrite Hd. lia. }
      destruct write_ok; cbn [negb andb] in H; injection H as <-.
      * destruct (side_AckData_spec id x) as (Hst' & _ & Hgot' & Hacked' & Hsent');
          [by rewrite Hr|rewrite Hacked, Hack, Hc; lia|].
        split; [|cbn -[side_AckData]; by etrans]. destruct Hinv as [H1 H2 _ _ _]. rewrite Hst in H2.
        split; cbn -[side_AckData]; rewrite ?Hsent', ?Hsent, ?Hgot'; try done.
        -- rewrite Hbody, Hp. apply prefix_of_refl.
        -- intros r1 a1 [= <- <-]. cbn. rewrite Hacked', Hacked, Hack, Hc, Hbody, Hp. done.
      * apply handler_end_ok; cbn; try done; [by exists r, acks|].
        rewrite Hp, Hbody. apply prefix_of_app.
    + assert (Hp : payloads (s_got x) = payloads (s_got (he_side h))).
      { rewrite Hgot, payloads_app. cbn. unfold is_data. rewrite Hd. apply str_app_nil. }
      destruct (String.eqb (Frame_Type frame) FrameEOF) eqn:He.
      { injection H as <-. apply handler_end_ok; cbn; rewrite ?Hp; try done; [by exists r, acks|].
        intros _ _. split; [|done]. rewrite Hgot. apply has_eof_app. right. by left. }
      destruct (String.eqb (Frame_Type frame) FrameClose || String.eqb (Frame_Type frame) FrameError);
        rewrite ?Hst in H; injection H as <-.
      * apply handler_end_ok; cbn; rewrite ?Hp; try done; by exists (abort r), acks.
      * split; [|done]. destruct Hinv as [H1 H2 _ _ _]. rewrite Hst in H2.
        split; cbn; rewrite ?Hsent, ?Hp; try done.
        intros r1 a1 [= <- <-]. rewrite Hacked, Hack, Hgot, count_app. cbn. unfold is_data at 3. rewrite Hd. split_and!; [done|done|lia].
Qed.
End Discipline.

(** ** Both ends as users of the session *)

Inductive StreamEnd :=
| APump (p : PumpEnd)
| AHandler (h : HandlerEnd).

Definition se_side (e : StreamEnd) : Side :=
  match e with APump p => pe_side p | AHandler h => he_side h end.
Definition se_set_side (x : Side) (e : StreamEnd) : StreamEnd :=
  match e with
  | APump p => APump (mkPumpEnd x (pe_state p) (pe_read p) (pe_ended p))
  | AHandler h => AHandler (mkHandlerEnd x (he_state h) (he_gone h))
  end.

(** What the pump read from the backend; what the handler wrote to the client. *)
Definition se_read (e : StreamEnd) : string :=
  match e with APump p => pe_read p | AHandler _ => "" end.
Definition se_written (e : StreamEnd) : string :=
  match e with APump _ => "" | AHandler h => resp_body (stream_resp (he_state h)) end.

Section User.
Context {MF : Msgpack Frame} {ML : MsgpackLaws Frame} (id : string).

Inductive se_step : StreamEnd -> StreamEnd -> Prop :=
| se_pump p p' : pump_step id p p' -> se_step (APump p) (APump p')
| se_handler h h' : handler_step id h h' -> se_step (AHandler h) (AHandler h').

Definition se_inv (e : StreamEnd) : Prop :=
  match e with APump p => pump_inv p | AHandler h => handler_inv h end.

(** The pump before its first read; the handler with an empty body. *)
Definition se_fresh (e : StreamEnd) : Prop :=
  match e with
  | APump p => exists x, p = mkPumpEnd x PumpRead "" None
  | AHandler h => exists x r, h = mkHandlerEnd x (Streaming r 0) false /\ resp_body r = "" /\ resp_aborted r = false
  end.

Lemma no_data_payloads l : datas l = [] -> payloads l = "" /\ count is_data l = 0.
Proof. intros H. by rewrite <- payloads_datas, count_datas, H. Qed.

Lemma se_stream_inv x e : same_stream (se_side e) x -> se_inv e -> se_inv (se_set_side x e).
Proof.
  intros Hsame. pose proof (same_stream_datas _ _ Hsame) as Hd. destruct Hsame as (Hs & Ha & more & Hm & _).
  destruct e as [p|h]; cbn in *.
  - intros [H1 H2 H3 H4 H5]. split; cbn; rewrite ?Hs; done.
  - intros [H1 H2 H3 H4 H5].
    assert (Hp : payloads (s_got x) = payloads (s_got (he_side h))) by (by rewrite <- payloads_datas, Hd, payloads_datas).
    assert (Hc : count is_data (s_got x) = count is_data (s_got (he_side h))) by (by rewrite !count_datas, Hd).
    split; cbn; rewrite ?Hs, ?Ha, ?Hp, ?Hc; try done.
    intros r acks Hst Hab Hg. destruct (H5 r acks Hst Hab Hg). split; [|done].
    rewrite Hm. apply has_eof_app. by left.
Qed.

Lemma se_fresh_inv e :
  se_fresh e -> datas (s_sent (se_side e)) = [] -> count is_ctl (s_sent (se_side e)) = 0 ->
  s_got (se_side e) = [] -> s_acked (se_side e) = 0 -> se_inv e.
Proof.
  intros Hf Hd Hc Hg Ha. destruct (no_data_payloads _ Hd) as [Hp Hn]. pose proof (no_ctl_no_eof _ Hc) as He.
  destruct e as [p|h]; cbn in *.
  - destruct Hf as [x ->]. cbn in *. split; cbn; try done.
    + exists "". by rewrite Hp.
    + intros pre f post Hs Hf. destruct He. rewrite Hs. apply has_eof_app. right. by left.
    + lia.
  - destruct Hf as (x & r & -> & Hr & Hab). cbn in *. split; cbn; rewrite ?Hg, ?Hr; try done.
    + by rewrite Hc.
    + intros r0 acks [= <- <-]. by rewrite Hr, Ha.
Qed.

#[export] Program Instance StreamEnd_user : SessionUser StreamEnd string id := {|
  us_side := se_side;
  us_set_side := se_set_side;
  us_step := se_step;
  us_fresh := se_fresh;
  us_inv := se_inv;
  us_read := se_read;
  us_written := se_written;
  us_value := payloads;
  us_prefix := prefix_of
|}.
Next Obligation. by intros x []. Qed.
Next Obligation. by intros [[]|[]]. Qed.
Next Obligation. by intros x []. Qed.
Next Obligation.
  intros e e' Hinv Hs. revert Hinv. destruct Hs as [p p' H|h h' H]; intros Hinv.
  - by apply pump_step_ok.
  - by apply handler_step_ok.
Qed.
Next Obligation. apply se_stream_inv. Qed.
Next Obligation. apply se_fresh_inv. Qed.
Next Obligation. intros l k. rewrite payloads_app. apply prefix_of_app. Qed.
Next Obligation.
  intros [p|h] Hi; cbn.
  - destruct (pi_read _ Hi) as (lost & -> & _). apply prefix_of_app.
  - rewrite payloads_no_data by apply Hi. by exists "".
Qed.
Next Obligation.
  intros [p|h] Hi; cbn; [by eexists|apply Hi].
Qed.
End User.

(** ** Properties *)

Section Properties.
Context {MF : Msgpack Frame} {ML : MsgpackLaws Frame}.
Context (id : string) (id_ident : ident id).
Context (o : Frame) (onOpen : Frame -> Link -> Link) {ACC : Acceptor id o onOpen}.
#[local] Set Default Proof Using "Type*".

(** A streamed body is complete or visibly cut.  Whatever the scheduling, the
    chunking and the other sessions of the tunnel: the client has been sent a
    prefix of what the backend produced; and when the handler ends while the
    client is still there without cutting the connection, the client has
    received every byte of the body and the backend had reached its end: a
    truncated stream is never passed off as a complete response. *)
Theorem stream_body_complete p h :
  reachable (pipe_step (R := StreamEnd) id onOpen) (pipe_init (R := StreamEnd) id o) (APump p, AHandler h) ->
  prefix_of (resp_body (stream_resp (he_state h))) (pe_read p) /\
  (forall r acks, he_state h = Finished r acks -> resp_aborted r = false -> he_gone h = false ->
     resp_body r = pe_read p /\ pe_ended p = Some BodyEOF).
Proof.
  intros Hr. split.
  - exact (proj1 (pipe_faithful id id_ident o onOpen _ _ Hr)).
  - intros r acks Hst Hab Hg.
    destruct (pipe_reachable_inv id id_ident o onOpen _ Hr) as [Hs Hp Hh].
    destruct (reachable_delivered id id_ident o onOpen _ _ Hs) as [[rest Hrest] _].
    cbn in *. destruct (hi_complete _ Hh r acks Hst Hab Hg) as [Heof ->].
    assert (Hsent : has_eof (s_sent (pe_side p))) by (rewrite Hrest; apply has_eof_app; by left).
    destruct (pi_eof _ Hp Hsent) as [Hend Hdone]. split; [|done].
    destruct (pi_read _ Hp) as (lost & Hread & Hlost). rewrite Hdone in Hread. cbn in Hread.
    assert (lost = "") as -> by (destruct (decide (lost = "")) as [|Hne]; [done|]; by destruct (Hlost Hne) as [_ []]).
    rewrite Hread, str_app_nil, Hrest, payloads_app.
    apply List.Exists_exists in Heof as (f & Hin & Hf).
    apply list_elem_of_In, list_elem_of_split in Hin as (pre & post & Hsplit). pose proof (pi_clean _ Hp) as Hcl.
    rewrite Hrest, Hsplit in Hcl. rewrite <- app_assoc, <- app_comm_cons in Hcl.
    pose proof (Hcl _ _ _ eq_refl Hf) as H0. rewrite count_app in H0.
    pose proof (count_nonneg is_data post). pose proof (count_nonneg is_data rest).
    rewrite (payloads_no_data rest) by lia. by rewrite str_app_nil.
Qed.
End Properties.

Section Abandoned.
Context {MF : Msgpack Frame} (id : string).

(** A reader that vanishes is not noticed by a pump that is out of credit.
    The close frame the edge sends when the client disconnects is only queued:
    nobody receives from the session, which does not become done, so neither
    the goroutine that waits for that nor the blocked [SendData] ever goes on,
    and the backend's body stays open as long as the tunnel. *)
Theorem stream_close_unnoticed p r s chunk err drop code text :
  pe_state p = PumpSend chunk err -> s_ref (pe_side p) = Some r ->
  Link_sessions (s_link (pe_side p)) !! id = Some r -> Link_store (s_link (pe_side p)) !! r = Some s ->
  Session_done s = false -> Session_credit s = 0%nat -> (length (Session_recv s) < recvCap)%nat ->
  let l' := dispatch drop (closeFrame id code text) (s_link (pe_side p)) in
  let p' := mkPumpEnd (mkSide l' (Some r) (s_sent (pe_side p)) (s_got (pe_side p)) (s_acked (pe_side p)))
              (pe_state p) (pe_read p) (pe_ended p) in
  side_done (pe_side p') = false /\ forall p2, ~ pump_step id p' p2.
Proof.
  intros Hst Href Hreg Hs Hd Hc Hroom. cbn zeta. unfold dispatch. cbn [Frame_SessionID closeFrame].
  rewrite Hreg. unfold deliver. cbn [Frame_Type closeFrame]. cbn [String.eqb].
  change (String.eqb FrameClose FrameWindow) with false. cbn iota.
  rewrite Hs, (proj2 (Nat.ltb_lt _ _) Hroom), Hd. cbn [andb negb].
  assert (Hs' : Link_store (on_session r (set_recv (Session_recv s ++ [closeFrame id code text])) (s_link (pe_side p))) !! r =
    Some (set_recv (Session_recv s ++ [closeFrame id code text]) s)) by (cbn; by rewrite lookup_alter_eq, Hs).
  split; [unfold side_done; cbn [pe_side s_ref s_link]; by rewrite Hs'|].
  intros p2 Hstep. inversion Hstep as [? ? ? ? _ H|b ? ? H]; subst.
  - unfold pump_read in H. cbn [pe_state] in H. by rewrite Hst in H.
  - unfold pump_send in H. cbn [pe_state pe_side] in H. rewrite Hst in H.
    unfold side_SendData, SendData in H. cbn [s_ref s_link] in H. rewrite Hs' in H. cbn [Session_credit Session_done set_recv] in H.
    by rewrite Hc, Hd in H.
Qed.
End Abandoned.

(** ** Witnesses *)

#[local] Existing Instance frame_msgpack.
#[local] Existing Instance countable_msgpack_laws.

(** A session whose 32 credits are used up. *)
Definition demo_starved : Link :=
  on_session 0%nat (set_credit 0) (Open demo_open NewLink).1.
Definition demo_stuck : PumpEnd :=
  mkPumpEnd (mkSide demo_starved (Some 0%nat) [] [] 0) (PumpSend "more" None) "more" None.

Definition demo_closed : PumpEnd :=
  mkPumpEnd (mkSide (dispatch false (closeFrame "s1" 0 "") demo_starved) (Some 0%nat) [] [] 0) (PumpSend "more" None) "more" None.

Lemma stream_close_unnoticed_witness :
  side_done (pe_side demo_closed) = false /\ forall p2, ~ pump_step "s1" demo_closed p2.
Proof.
  exact (stream_close_unnoticed "s1" demo_stuck 0%nat (set_credit 0 (newSession "s1")) "more" None false 0 ""
    eq_refl eq_refl eq_refl eq_refl eq_refl eq_refl ltac:(apply Nat.ltb_lt; reflexivity)).
Defined.
