(* ===== verification/Tunnels.v ===== *)
(** * Connections through the tunnel

    The session between a relay at the edge and a relay at the connector, or
    between the connector's body pump and the edge's handler, accepted by the
    real open handlers: [handleOpen] ([internal/connector/data.go]) and
    [acceptStreamOpen] ([internal/edge/data.go]) are acceptors in the sense of
    [FlowControl], so everything shown of a session holds of the sessions of
    this program. *)
From S2P Require Import Prelude GoString GoStd GoURL Msgpack Config HttpEnvelope TunnelEnvelope Link FlowSpec FlowControl SessionUser Pipe Relay RelayPipe WsRelay EdgeRoutes EdgeUnary StreamPipe.
From S2P Require ConnectorTunnel EdgeTunnel.

#[local] Open Scope Z_scope.

(** ** The acceptors *)

Section Acceptors.
Context {MF : Msgpack Frame} {ML : MsgpackLaws Frame}.
#[local] Set Default Proof Using "Type*".

(** The callbacks given to [NewLink] at the connector and at the edge. *)
Definition connector_onOpen (routes : gmap string ConnectorTunnel.streamRoute) (f : Frame) (l : Link) : Link :=
  (ConnectorTunnel.handleOpen routes f l).1.
Definition edge_onOpen (f : Frame) (l : Link) : Link := (EdgeTunnel.acceptStreamOpen f l).1.

(** [routes] serves [r] in the mode of [r]. *)
Definition serves_route (routes : gmap string ConnectorTunnel.streamRoute) (r : Route) : Prop :=
  exists sr, routes !! Route_Name r = Some sr /\ Route_Mode (ConnectorTunnel.sr_cfg sr) = Route_Mode r.

Lemma handleOpen_touches routes f l : touches (Frame_SessionID f) l (connector_onOpen routes f l).
Proof.
  unfold connector_onOpen, ConnectorTunnel.handleOpen.
  pose proof (WriteFrame_touches (errorFrame (Frame_SessionID f) "route is not configured") l) as Hw.
  destruct (routes !! Frame_Route f) as [sr|]; [|exact Hw]. destruct (negb _); [exact Hw|].
  pose proof (addSession_touches (Frame_SessionID f) l) as Ha. unfold Accept in *.
  destruct (addSession (Frame_SessionID f) l) as [l' [s|e]]; [exact Ha|]. cbn [fst] in *.
  etrans; [exact Ha|]. exact (WriteFrame_touches (errorFrame (Frame_SessionID f) "session already exists") l').
Qed.

Lemma acceptStreamOpen_touches f l : touches (Frame_SessionID f) l (edge_onOpen f l).
Proof.
  unfold edge_onOpen, EdgeTunnel.acceptStreamOpen. destruct (negb _); [reflexivity|].
  pose proof (addSession_touches (Frame_SessionID f) l) as Ha. unfold Accept in *.
  by destruct (addSession (Frame_SessionID f) l) as [l' [s|e]].
Qed.

(** The connector accepts the sessions of the routes it serves. *)
Lemma connector_acceptor sid routes r path :
  serves_route routes r ->
  Acceptor sid (openFrame sid (Route_Name r) (Route_Mode r) path) (connector_onOpen routes).
Proof.
  intros (sr & Hsr & Hm). split; [done|done| |].
  - intros l Hnone. unfold connector_onOpen, ConnectorTunnel.handleOpen. cbn [Frame_Route Frame_Kind Frame_SessionID openFrame].
    rewrite Hsr, Hm, String.eqb_refl. cbn [negb]. unfold Accept, addSession. by rewrite Hnone.
  - intros f l Hne. eapply touches_others; [exact Hne|apply handleOpen_touches].
Qed.

(** The edge accepts the response streams of connectors. *)
Lemma edge_acceptor sid route :
  Acceptor sid (openFrame sid route KindHTTPStream "") edge_onOpen.
Proof.
  split; [done|done| |].
  - intros l Hnone. unfold edge_onOpen, EdgeTunnel.acceptStreamOpen. cbn [Frame_Kind Frame_SessionID openFrame].
    rewrite String.eqb_refl. cbn [negb]. unfold Accept, addSession. by rewrite Hnone.
  - intros f l Hne. eapply touches_others; [exact Hne|apply acceptStreamOpen_touches].
Qed.
End Acceptors.

(** ** Properties *)

Section Properties.
Context {MF : Msgpack Frame} {ML : MsgpackLaws Frame}.
Context (sid : string) (sid_ident : ident sid).
#[local] Set Default Proof Using "Type*".

(** The states of a session of the edge for route [r], whose users at both ends
    are [R]s, with a connector that serves [routes]. *)
Definition route_session {R M} `{!SessionUser R M sid} (routes : gmap string ConnectorTunnel.streamRoute) (r : Route)
    (path : string) (x y : R) : Prop :=
  reachable (pipe_step (R := R) sid (connector_onOpen routes))
    (pipe_init (R := R) sid (openFrame sid (Route_Name r) (Route_Mode r) path)) (x, y).

(** The states of a streamed response. *)
Definition response_stream (route : string) (p : PumpEnd) (h : HandlerEnd) : Prop :=
  reachable (pipe_step (R := StreamEnd) sid edge_onOpen)
    (pipe_init (R := StreamEnd) sid (openFrame sid route KindHTTPStream "")) (APump p, AHandler h).

(** C2: a TCP or gRPC connection crosses the tunnel intact.  Whatever the
    scheduling, the chunking of reads, the failures of either connection and
    the other sessions of the links: what has been written to the backend is a
    prefix of what the client sent, and the other way round.  Half-close is end
    to end and never truncates: a relay whose own connection has ended with
    [io.EOF] has announced it to the peer, unless it has returned; a relay that
    has taken its peer's end of stream has written every byte the peer's
    connection ever gave, and that connection had ended with [io.EOF], not with
    an error; and the write side of a connection that has one is shut exactly
    when the peer's end of stream was taken. *)
Theorem tcp_end_to_end routes r path (edge connector : Relay) :
  serves_route routes r -> route_session routes r path edge connector ->
  prefix_of (conn_written (rl_conn connector)) (conn_read (rl_conn edge)) /\
  prefix_of (conn_written (rl_conn edge)) (conn_read (rl_conn connector)) /\
  half_closed edge connector /\ half_closed connector edge.
Proof.
  intros Hs Hr. pose proof (connector_acceptor sid routes r path Hs) as Hacc.
  destruct (relay_faithful sid sid_ident _ _ edge connector Hr) as [H1 H2].
  destruct (relay_half_close sid sid_ident _ _ edge connector Hr) as [H3 H4]. done.
Qed.

(** C10: WebSocket messages cross the tunnel whole, in order and with their type,
    in both directions: what was written at one end is a prefix of the list of
    messages read at the other. *)
Theorem websocket_end_to_end routes r path (edge connector : WsRelay) :
  serves_route routes r -> route_session routes r path edge connector ->
  ws_written (wr_ws connector) `prefix_of` ws_read (wr_ws edge) /\
  ws_written (wr_ws edge) `prefix_of` ws_read (wr_ws connector).
Proof.
  intros Hs Hr. pose proof (connector_acceptor sid routes r path Hs) as Hacc.
  exact (ws_relay_faithful sid sid_ident _ _ edge connector Hr).
Qed.

(** C3: a streamed body is complete or visibly cut.  Whatever the scheduling, the
    chunking and the other sessions of the tunnel: the client has been sent a
    prefix of what the backend produced; and when the handler ends while the
    client is still there without cutting the connection, the client has
    received every byte of the body and the backend had reached its end: a
    truncated stream is never passed off as a complete response. *)
Theorem response_stream_complete route p h :
  response_stream route p h ->
  prefix_of (resp_body (stream_resp (he_state h))) (pe_read p) /\
  (forall r acks, he_state h = Finished r acks -> resp_aborted r = false -> he_gone h = false ->
     resp_body r = pe_read p /\ pe_ended p = Some BodyEOF).
Proof.
  intros Hr. pose proof (edge_acceptor sid route) as Hacc.
  exact (stream_body_complete sid sid_ident _ _ p h Hr).
Qed.
End Properties.

(** ** Witnesses *)

#[local] Existing Instance frame_msgpack.
#[local] Existing Instance countable_msgpack_laws.

Definition demo_route (name mode : string) : Route :=
  mkRoute name mode "" "/ws" "" ":6000" "10.0.0.7:5432" 0 0 0 0 0 0 [] false.
Definition db : Route := demo_route "db" ModeTCP.
Definition chat : Route := demo_route "chat" ModeWebSocket.
Definition demo_routes : gmap string ConnectorTunnel.streamRoute :=
  {["db" := ConnectorTunnel.mkStreamRoute db None; "chat" := ConnectorTunnel.mkStreamRoute chat None]}.

Lemma serves_db : serves_route demo_routes db.
Proof. exists (ConnectorTunnel.mkStreamRoute db None). split; vm_compute; reflexivity. Qed.
Lemma serves_chat : serves_route demo_routes chat.
Proof. exists (ConnectorTunnel.mkStreamRoute chat None). split; vm_compute; reflexivity. Qed.

(** The two sides once the initiator has opened the session. *)
Definition opened (o : Frame) : Side * Side :=
  (mkSide (Open o NewLink).1 (Some 0%nat) [o] [] 0, mkSide NewLink None [] [] 0).
Definition tcp_open : Frame := openFrame "s1" "db" ModeTCP "/".
Definition tcp0 := opened tcp_open.
Definition chat_open : Frame := openFrame "s1" "chat" ModeWebSocket "/room".
Definition chat0 := opened chat_open.
Definition stream_open : Frame := openFrame "s1" "api" KindHTTPStream "".
Definition stream0 := opened stream_open.

(** *** A TCP connection *)

Definition demo_conn : Conn := mkConn "" "" true false false None.
Definition present {A} (o : option A) : bool := match o with Some _ => true | None => false end.

Lemma present_default {A} (o : option A) d : present o = true -> o = Some (default d o).
Proof. by destruct o. Qed.

Definition run_read (data : string) (err : option read_error) (r : Relay) : Relay :=
  default r (reader_read data err r).
Definition run_send (r : Relay) : Relay := default r (reader_send "s1" false 0 r).
Definition run_turn (case : select_case) (r : Relay) : Relay := default r (RelayConn_turn "s1" case 0 r).
Definition run_net (p : Relay * Relay) : Relay * Relay :=
  match Link_out (s_link (rl_side p.1)) with
  | data :: rest => (set_side (take rest (rl_side p.1)) p.1,
      set_side (receive "s1" (connector_onOpen demo_routes) false data (rl_side p.2)) p.2)
  | [] => p
  end.

#[local] Abbreviation tcp_step := (pipe_step (R := Relay) "s1" (connector_onOpen demo_routes)).

Lemma run_read_step data err x y :
  present (s_ref (rl_side x)) = true -> (String.length data <=? relayBufferSize)%nat = true ->
  (forall e, err <> Some (SendFailed e)) -> present (reader_read data err x) = true ->
  tcp_step (x, y) (run_read data err x, y).
Proof.
  intros Hr Hl He Hp. apply pipe_left. apply (rs_read "s1" data err); [|by apply Nat.leb_le|done|].
  - destruct (s_ref (rl_side x)); [by eexists|done].
  - by apply present_default.
Qed.

Lemma run_send_step x y :
  present (reader_send "s1" false 0 x) = true -> tcp_step (x, y) (run_send x, y).
Proof. intros Hp. apply pipe_left. apply (rs_send "s1" false 0). by apply present_default. Qed.

Lemma run_turn_step case x :
  present (s_ref (rl_side x)) = true -> rl_returned x = false ->
  present (RelayConn_turn "s1" case 0 x) = true -> relay_step "s1" x (run_turn case x).
Proof.
  intros Hr Hret Hp. apply (rs_turn "s1" case 0); [|done|by apply present_default].
  destruct (s_ref (rl_side x)); [by eexists|done].
Qed.

Lemma run_net_step p : negb (bool_decide (Link_out (s_link (rl_side p.1)) = [])) = true -> tcp_step p (run_net p).
Proof.
  intros H%negb_true_iff%bool_decide_eq_false. unfold run_net. destruct p as [x y]. cbn in *.
  destruct (Link_out _) as [|data rest] eqn:E; [done|]. by apply pipe_to_right.
Qed.

(** The edge's side reads "hi" and then the end of its connection; both cross
    the tunnel. *)
Definition pd0 : Relay * Relay :=
  (RelayConn_start tcp0.1 demo_conn 0 0, RelayConn_start tcp0.2 demo_conn 0 0).
Definition pd1 := run_net pd0.
Definition pd2 := (run_read "hi" (Some EOF) pd1.1, pd1.2).
Definition pd3 := (run_send pd2.1, pd2.2).
Definition pd4 := (run_turn ReadResult pd3.1, pd3.2).
Definition pd5 := run_net pd4.
Definition pd6 := run_net pd5.
Definition pd7 := (pd6.1, run_turn (RecvFrame None) pd6.2).
Definition pd8 := (pd7.1, run_turn (RecvFrame None) pd7.2).

Lemma pd8_reachable : reachable tcp_step (pipe_init "s1" tcp_open) pd8.
Proof.
  exists pd0. split.
  { split; [|split; [by exists tcp0.1, demo_conn, 0, 0|by exists tcp0.2, demo_conn, 0, 0]].
    exists NewLink, NewLink, 0%nat, (Open tcp_open NewLink).1.
    split_and!; try exact NewLink_wf; reflexivity. }
  eapply (rtc_l _ _ pd1); [apply run_net_step; vm_compute; reflexivity|].
  eapply (rtc_l _ _ pd2); [apply (run_read_step _ _ pd1.1 pd1.2); [vm_compute; reflexivity..|done|vm_compute; reflexivity]|].
  eapply (rtc_l _ _ pd3); [apply (run_send_step pd2.1 pd2.2); vm_compute; reflexivity|].
  eapply (rtc_l _ _ pd4); [apply (pipe_left _ _ pd3.1 _ pd3.2), run_turn_step; vm_compute; reflexivity|].
  eapply (rtc_l _ _ pd5); [apply run_net_step; vm_compute; reflexivity|].
  eapply (rtc_l _ _ pd6); [apply run_net_step; vm_compute; reflexivity|].
  eapply (rtc_l _ _ pd7); [apply (pipe_right _ _ pd6.1 pd6.2), run_turn_step; vm_compute; reflexivity|].
  eapply (rtc_l _ _ pd8); [apply (pipe_right _ _ pd7.1 pd7.2), run_turn_step; vm_compute; reflexivity|].
  apply rtc_refl.
Qed.

Lemma tcp_end_to_end_witness :
  conn_written (rl_conn pd8.2) = "hi" /\ conn_read (rl_conn pd8.1) = "hi" /\
  conn_ended (rl_conn pd8.1) = Some EOF /\ conn_writeClosed (rl_conn pd8.2) = true.
Proof.
  destruct (tcp_end_to_end "s1" s1_ident demo_routes db "/" pd8.1 pd8.2 serves_db pd8_reachable)
    as (_ & _ & [Heof Hshut _] & _).
  assert (He : rl_remoteEOF pd8.2 = true) by (vm_compute; reflexivity).
  destruct (Heof He) as [Hend Hsame].
  assert (Hw : conn_written (rl_conn pd8.2) = "hi") by (vm_compute; reflexivity).
  split; [exact Hw|]. split; [rewrite <- Hsame; exact Hw|]. split; [exact Hend|].
  rewrite Hshut, He. vm_compute. reflexivity.
Defined.

(** *** A WebSocket *)

Definition demo_ws : Ws := mkWs [] [] None false.

Definition ws_net (p : WsRelay * WsRelay) : WsRelay * WsRelay :=
  match Link_out (s_link (wr_side p.1)) with
  | data :: rest => (wset_side (take rest (wr_side p.1)) p.1,
      wset_side (receive "s1" (connector_onOpen demo_routes) false data (wr_side p.2)) p.2)
  | [] => p
  end.

(** The client sends the text message "hi"; it reaches the backend. *)
Definition ws0 : WsRelay * WsRelay :=
  (RelayWebSocket_start chat0.1 demo_ws 0 0, RelayWebSocket_start chat0.2 demo_ws 0 0).
Definition ws1 := ws_net ws0.
Definition ws2 := (default ws1.1 (ws_reader_read (inr (TextMessage, "hi")) ws1.1), ws1.2).
Definition ws3 := (default ws2.1 (ws_reader_send "s1" false 0 ws2.1), ws2.2).
Definition ws4 := ws_net ws3.
Definition ws5 := (ws4.1, default ws4.2 (RelayWebSocket_turn "s1" (WsRecvFrame true) 0 ws4.2)).

Lemma ws_net_step p :
  negb (bool_decide (Link_out (s_link (wr_side p.1)) = [])) = true ->
  pipe_step (R := WsRelay) "s1" (connector_onOpen demo_routes) p (ws_net p).
Proof.
  intros H%negb_true_iff%bool_decide_eq_false. unfold ws_net. destruct p as [x y]. cbn in *.
  destruct (Link_out _) as [|data rest] eqn:E; [done|].
  exact (pipe_to_right "s1" (connector_onOpen demo_routes) (R := WsRelay) x y false data rest E).
Qed.

Lemma chat_turn_step x y :
  present (s_ref (wr_side y)) = true -> wr_returned y = false ->
  present (RelayWebSocket_turn "s1" (WsRecvFrame true) 0 y) = true ->
  pipe_step (R := WsRelay) "s1" (connector_onOpen demo_routes) (x, y)
    (x, default y (RelayWebSocket_turn "s1" (WsRecvFrame true) 0 y)).
Proof.
  intros Hr Hret Hp. apply (pipe_right "s1" _ (R := WsRelay)).
  apply (ws_turn_step "s1" (WsRecvFrame true) 0); [|done|by apply present_default].
  destruct (s_ref (wr_side y)); [by eexists|done].
Qed.

Lemma chat_reachable :
  reachable (pipe_step (R := WsRelay) "s1" (connector_onOpen demo_routes)) (pipe_init "s1" chat_open) (ws5.1, ws5.2).
Proof.
  exists ws0. split.
  - split; [|split; [by exists chat0.1, demo_ws, 0, 0|by exists chat0.2, demo_ws, 0, 0]].
    exists NewLink, NewLink, 0%nat, (Open chat_open NewLink).1.
    split_and!; try exact NewLink_wf; reflexivity.
  - eapply (rtc_l _ _ ws1); [apply ws_net_step; vm_compute; reflexivity|].
    eapply (rtc_l _ _ ws2).
    { apply (pipe_left _ _ ws1.1 _ ws1.2), (ws_read_step "s1" (inr (TextMessage, "hi")));
        [exists 0%nat; vm_compute; reflexivity|discriminate|apply present_default; vm_compute; reflexivity]. }
    eapply (rtc_l _ _ ws3).
    { apply (pipe_left _ _ ws2.1 _ ws2.2), (ws_send_step "s1" false 0), present_default. vm_compute. reflexivity. }
    eapply (rtc_l _ _ ws4); [apply ws_net_step; vm_compute; reflexivity|].
    eapply (rtc_l _ _ ws5); [apply (chat_turn_step ws4.1 ws4.2); vm_compute; reflexivity|].
    apply rtc_refl.
Qed.

Lemma websocket_end_to_end_witness :
  ws_written (wr_ws ws5.2) = [(DataText, "hi")] /\ ws_written (wr_ws ws5.2) `prefix_of` ws_read (wr_ws ws5.1).
Proof.
  split; [vm_compute; reflexivity|].
  exact (proj1 (websocket_end_to_end "s1" s1_ident demo_routes chat "/room" ws5.1 ws5.2 serves_chat chat_reachable)).
Defined.

(** *** A streamed response *)

#[local] Abbreviation stream_step := (pipe_step (R := StreamEnd) "s1" edge_onOpen).

(** The message at the head of the left end's connection crosses. *)
Definition demo_cross (e : StreamEnd * StreamEnd) : StreamEnd * StreamEnd :=
  match Link_out (s_link (se_side e.1)) with
  | data :: rest => (se_set_side (take rest (se_side e.1)) e.1,
      se_set_side (receive "s1" edge_onOpen false data (se_side e.2)) e.2)
  | [] => e
  end.

Lemma demo_cross_step e :
  negb (bool_decide (Link_out (s_link (se_side e.1)) = [])) = true -> stream_step e (demo_cross e).
Proof.
  intros H%negb_true_iff%bool_decide_eq_false. unfold demo_cross. destruct e as [x y]. cbn [fst snd] in *.
  destruct (Link_out _) as [|data rest] eqn:E; [done|].
  exact (pipe_to_right "s1" edge_onOpen (R := StreamEnd) x y false data rest E).
Qed.

Definition on_pump (f : PumpEnd -> option PumpEnd) (e : StreamEnd * StreamEnd) : StreamEnd * StreamEnd :=
  match e with
  | (APump p, y) => (APump (default p (f p)), y)
  | _ => e
  end.
Definition on_handler (f : HandlerEnd -> option HandlerEnd) (e : StreamEnd * StreamEnd) : StreamEnd * StreamEnd :=
  match e with
  | (x, AHandler h) => (x, AHandler (default h (f h)))
  | _ => e
  end.

(** The backend sends "hi" and ends; the client gets it. *)
Definition sd0 : StreamEnd * StreamEnd :=
  (APump (mkPumpEnd stream0.1 PumpRead "" None),
   AHandler (mkHandlerEnd stream0.2 (Streaming (mkHTTPResponse 200 ∅ "" false) 0) false)).
Definition sd1 := demo_cross sd0.
Definition sd2 := on_pump (pump_read "s1" "hi" (Some BodyEOF)) sd1.
Definition sd3 := on_pump (pump_send "s1" false) sd2.
Definition sd4 := demo_cross sd3.
Definition sd5 := demo_cross sd4.
Definition sd6 := on_handler (handler_turn "s1" (HRecv true)) sd5.
Definition sd7 := on_handler (handler_turn "s1" (HRecv true)) sd6.
Definition sd_handler : HandlerEnd :=
  match sd7.2 with AHandler h => h | APump _ => mkHandlerEnd stream0.2 (Streaming (mkHTTPResponse 0 ∅ "" false) 0) false end.
Definition sd_pump : PumpEnd :=
  match sd7.1 with APump p => p | AHandler _ => mkPumpEnd stream0.1 PumpRead "" None end.

Lemma sd_eta : sd7 = (APump sd_pump, AHandler sd_handler).
Proof.
  assert (H : match sd7 with (APump _, AHandler _) => true | _ => false end = true) by (vm_compute; reflexivity).
  unfold sd_pump, sd_handler. by destruct sd7 as [[p|h] [p'|h']].
Qed.

Lemma pump_step_left p p' y : pump_step "s1" p p' -> stream_step (APump p, y) (APump p', y).
Proof. intros H. exact (pipe_left "s1" edge_onOpen (R := StreamEnd) (APump p) (APump p') y (se_pump "s1" _ _ H)). Qed.

Lemma handler_step_right x h case h' :
  is_Some (s_ref (he_side h)) -> handler_turn "s1" case h = Some h' -> stream_step (x, AHandler h) (x, AHandler h').
Proof.
  intros Href H. apply (pipe_right "s1" edge_onOpen (R := StreamEnd) x (AHandler h) (AHandler h')).
  apply se_handler. split; [done|by exists case].
Qed.

Definition present_of {A} (d : A) (o : option A) : bool := match o with Some _ => true | None => false end.

Lemma present_some {A} (d : A) o : present_of d o = true -> o = Some (default d o).
Proof. by destruct o. Qed.

Lemma on_pump_step f e :
  (forall p p', f p = Some p' -> pump_step "s1" p p') ->
  match e with (APump p, _) => present_of p (f p) | _ => false end = true -> stream_step e (on_pump f e).
Proof.
  intros Hf. destruct e as [[p|h] y]; [|done]. intros H. apply pump_step_left, Hf. by apply (present_some p).
Qed.

Lemma on_handler_step case e :
  match e with
  | (_, AHandler h) => present_of h (handler_turn "s1" case h) && match s_ref (he_side h) with Some _ => true | None => false end
  | _ => false
  end = true -> stream_step e (on_handler (handler_turn "s1" case) e).
Proof.
  destruct e as [x [p|h]]; [done|]. intros [H1 H2]%andb_true_iff. apply (handler_step_right x h case).
  - destruct (s_ref (he_side h)); [by eexists|done].
  - by apply (present_some h).
Qed.

Lemma sd_reachable : reachable stream_step (pipe_init (R := StreamEnd) "s1" stream_open) (APump sd_pump, AHandler sd_handler).
Proof.
  rewrite <- sd_eta. exists sd0. split.
  { split; [|split; [by exists stream0.1|by exists stream0.2, (mkHTTPResponse 200 ∅ "" false)]].
    exists NewLink, NewLink, 0%nat, (Open stream_open NewLink).1.
    split_and!; try exact NewLink_wf; reflexivity. }
  eapply (rtc_l _ _ sd1); [apply demo_cross_step; vm_compute; reflexivity|].
  eapply (rtc_l _ _ sd2).
  { apply (on_pump_step (pump_read "s1" "hi" (Some BodyEOF))); [|vm_compute; reflexivity].
    intros p p' H. apply (ps_read "s1" "hi" (Some BodyEOF)); [apply Nat.leb_le; vm_compute; reflexivity|done]. }
  eapply (rtc_l _ _ sd3).
  { apply (on_pump_step (pump_send "s1" false)); [|vm_compute; reflexivity]. intros p p' H. by apply (ps_send "s1" false). }
  eapply (rtc_l _ _ sd4); [apply demo_cross_step; vm_compute; reflexivity|].
  eapply (rtc_l _ _ sd5); [apply demo_cross_step; vm_compute; reflexivity|].
  eapply (rtc_l _ _ sd6); [apply on_handler_step; vm_compute; reflexivity|].
  eapply (rtc_l _ _ sd7); [apply on_handler_step; vm_compute; reflexivity|].
  apply rtc_refl.
Qed.

Lemma response_stream_complete_witness :
  resp_body (stream_resp (he_state sd_handler)) = "hi" /\ pe_read sd_pump = "hi" /\
  pe_ended sd_pump = Some BodyEOF.
Proof.
  destruct (response_stream_complete "s1" s1_ident "api" sd_pump sd_handler sd_reachable) as [_ H].
  split; [vm_compute; reflexivity|]. split; [vm_compute; reflexivity|].
  refine (proj2 (H (stream_resp (he_state sd_handler)) 1 _ _ _)); vm_compute; reflexivity.
Defined.
