(* ===== verification/Observer.v ===== *)
(** * The passive gRPC observer

    [internal/grpcobs/observer.go]: relayed bytes are copied into a bounded
    queue per direction, a parser goroutine reads each queue as a stream, and
    the HTTP/2 frames it finds become metrics.  The framer and the header
    decoder are golang.org/x/net's: here a parser is given the frames they
    deliver. *)
From S2P Require Import Prelude GoString GoStd Config Relay.

#[local] Open Scope Z_scope.

(** ** The feed of one direction *)

Definition feedQueueSize : nat := 256.

Record feed := mkFeed { feed_ch : list string; feed_dead : bool }.

Definition newFeed : feed := mkFeed [] false.

Definition put (p : string) (f : feed) : feed :=
  if feed_dead f then f
  else if (length (feed_ch f) <? feedQueueSize)%nat then mkFeed (feed_ch f ++ [p]) false
  else mkFeed (feed_ch f) true.

(** What [Read] does: wait, report the end, or return bytes. *)
Inductive read_result := ReadBlocks | ReadEOF | ReadBytes (b : string).

(** The loop of [feedReader.Read]: chunks are taken until one is not empty.
    Whether the [select] sees the closed [done] first makes no difference: the
    inner [select] takes a queued chunk before it reports the end. *)
Fixpoint next_chunk (ch : list string) : option (string * list string) :=
  match ch with
  | [] => None
  | chunk :: ch' => if String.eqb chunk "" then next_chunk ch' else Some (chunk, ch')
  end.

(** [feedReader.Read(p)] with [len(p) = n]; [rest] is the reader's. *)
Definition feed_Read (n : nat) (done : bool) (rest : string) (f : feed) : read_result * string * feed :=
  let deliver rest f := (ReadBytes (str_take n rest), str_drop n rest, f) in
  if negb (String.eqb rest "") then deliver rest f
  else
    match next_chunk (feed_ch f) with
    | Some (chunk, ch') => deliver chunk (mkFeed ch' (feed_dead f))
    | None => (if done then ReadEOF else ReadBlocks, "", mkFeed [] (feed_dead f))
    end.

(** ** RPCs *)

(** The parts of the decoded frames that are looked at: the [:path] pseudo
    header and the fields of a header block. *)
Inductive h2_frame :=
| MetaHeaders (stream : Z) (path : string) (fields : list (string * string))
| RSTStream (stream : Z)
| OtherFrame.

(** A byte of [methodPattern]'s classes. *)
Definition method_byte (dot : bool) (c : ascii) : bool :=
  is_alnum (bz c) || Ascii.eqb c "_" || (dot && Ascii.eqb c ".").

(** [methodPattern.MatchString]:
    [^/[A-Za-z0-9_.]{1,200}/[A-Za-z0-9_]{1,100}$]. *)
Definition methodPattern (s : string) : bool :=
  match s with
  | String "/" t =>
      let '(service, name, found) := Cut t "/" in
      found && str_forallb (method_byte true) service && str_forallb (method_byte false) name &&
      (1 <=? len service) && (len service <=? 200) && (1 <=? len name) && (len name <=? 100)
  | _ => false
  end.

Definition statusCode (value : string) : string :=
  match Atoi value with
  | Ok n => if (0 <=? n) && (n <=? 16) then value else "invalid"
  | Err _ => "invalid"
  end.

Record rpcStart := mkRpcStart { rpc_method : string; rpc_start : Z }.

(** What is recorded for a finished RPC: the labels and the duration.  The
    stream is not a label; it is kept to state the theorems. *)
Record rpc_record := mkRpcRecord {
  rec_stream : Z;
  rec_route : string;
  rec_method : string;
  rec_code : string;
  rec_nanos : Z
}.

Record Observer := mkObserver {
  ob_route : string;
  ob_started : gmap Z rpcStart;
  ob_records : list rpc_record
}.

Definition New (route : string) : Observer := mkObserver route ∅ [].

Definition finish (now stream : Z) (code : string) (o : Observer) : Observer :=
  let started := delete stream (ob_started o) in
  match ob_started o !! stream with
  | None => mkObserver (ob_route o) started (ob_records o)
  | Some rpc =>
      mkObserver (ob_route o) started
        (ob_records o ++ [mkRpcRecord stream (ob_route o) (rpc_method rpc) code (now - rpc_start rpc)])
  end.

(** One turn of [parseClient]'s loop. *)
Definition client_frame (now : Z) (frame : h2_frame) (o : Observer) : Observer :=
  match frame with
  | MetaHeaders stream path _ =>
      let method := if methodPattern path then path else "other" in
      mkObserver (ob_route o) (<[stream := mkRpcStart method now]> (ob_started o)) (ob_records o)
  | _ => o
  end.

(** The first [grpc-status] field of a header block. *)
Fixpoint grpc_status (fields : list (string * string)) : option string :=
  match fields with
  | [] => None
  | (name, value) :: fields' => if String.eqb name "grpc-status" then Some value else grpc_status fields'
  end.

(** One turn of [parseBackend]'s loop. *)
Definition backend_frame (now : Z) (frame : h2_frame) (o : Observer) : Observer :=
  match frame with
  | MetaHeaders stream _ fields =>
      match grpc_status fields with
      | Some value => finish now stream (statusCode value) o
      | None => o
      end
  | RSTStream stream => finish now stream "canceled" o
  | OtherFrame => o
  end.

(** The two parsers run concurrently: a history is any interleaving. *)
Inductive observed :=
| FromClient (now : Z) (frame : h2_frame)
| FromBackend (now : Z) (frame : h2_frame).

Definition observe (o : Observer) (e : observed) : Observer :=
  match e with
  | FromClient now frame => client_frame now frame o
  | FromBackend now frame => backend_frame now frame o
  end.

(** ** The feed never tears the stream *)

(** A feed and its reader, with the chunks put and the bytes read so far. *)
Record Tap := mkTap {
  tap_feed : feed;
  tap_rest : string;
  tap_put : list string;
  tap_read : string
}.

Inductive tap_step : Tap -> Tap -> Prop :=
| tap_puts p f rest puts read : tap_step (mkTap f rest puts read) (mkTap (put p f) rest (puts ++ [p]) read)
| tap_reads n done f rest puts read res rest' f' :
    feed_Read n done rest f = (res, rest', f') ->
    tap_step (mkTap f rest puts read)
      (mkTap f' rest' puts (read +:+ match res with ReadBytes b => b | _ => "" end)).

Definition tap_init (t : Tap) : Prop := t = mkTap newFeed "" [] "".

Definition waiting (t : Tap) : string := tap_rest t +:+ str_concat (feed_ch (tap_feed t)).

Record tap_inv (t : Tap) : Prop := {
  ti_prefix : exists accepted lost, tap_put t = accepted ++ lost /\
    tap_read t +:+ waiting t = str_concat accepted /\ (feed_dead (tap_feed t) = false -> lost = []);
  ti_bound : (length (feed_ch (tap_feed t)) <= feedQueueSize)%nat
}.

Lemma next_chunk_spec ch :
  match next_chunk ch with
  | Some (chunk, ch') => str_concat ch = chunk +:+ str_concat ch' /\ (length ch' <= length ch)%nat /\ chunk <> ""
  | None => str_concat ch = ""
  end.
Proof.
  induction ch as [|chunk ch IH]; [done|]. cbn [next_chunk]. destruct (String.eqb_spec chunk "") as [->|Hne].
  - destruct (next_chunk ch) as [[c ch']|]; [|done]. destruct IH as (? & ? & ?). split_and!; [done|cbn; lia|done].
  - split_and!; [done|cbn; lia|done].
Qed.

Lemma feed_Read_spec n done rest f res rest' f' :
  feed_Read n done rest f = (res, rest', f') ->
  match res with ReadBytes b => b | _ => "" end +:+ rest' +:+ str_concat (feed_ch f') = rest +:+ str_concat (feed_ch f) /\
  (length (feed_ch f') <= length (feed_ch f))%nat /\ feed_dead f' = feed_dead f /\
  (res = ReadEOF -> done = true /\ rest +:+ str_concat (feed_ch f) = "").
Proof.
  unfold feed_Read. destruct (String.eqb_spec rest "") as [->|Hne]; cbn [negb].
  - pose proof (next_chunk_spec (feed_ch f)) as Hc. destruct (next_chunk (feed_ch f)) as [[chunk ch']|].
    + destruct Hc as (He & Hl & _). intros [= <- <- <-]. cbn [feed_ch feed_dead]. split_and!; try done.
      by rewrite str_app_assoc, str_take_drop, He.
    + destruct done; intros [= <- <- <-]; cbn; split_and!; try done; lia.
  - intros [= <- <- <-]. split_and!; try done. by rewrite str_app_assoc, str_take_drop.
Qed.

Lemma tap_step_inv t t' : tap_inv t -> tap_step t t' -> tap_inv t'.
Proof.
  intros Hinv Hs. revert Hinv. destruct Hs as [p f rest puts read|n done f rest puts read res rest' f' H]; intros [(acc & lost & Hp & Hr & Hd) Hb].
  - cbn in *. unfold put, waiting in *. cbn [tap_rest tap_feed] in *. destruct (feed_dead f) eqn:Hdead.
    + split; cbn; [|done]. exists acc, (lost ++ [p]). split_and!; [by rewrite Hp, app_assoc|done|by rewrite Hdead].
    + specialize (Hd eq_refl). subst lost. rewrite app_nil_r in Hp.
      destruct (Nat.ltb_spec (length (feed_ch f)) feedQueueSize) as [Hlt|Hge]; split; cbn.
      * exists (acc ++ [p]), []. split_and!; [by rewrite Hp, app_nil_r| |done].
        unfold waiting. cbn. rewrite !str_concat_app, <- Hr. cbn. by rewrite str_app_nil, !str_app_assoc.
      * rewrite length_app. cbn. lia.
      * exists acc, [p]. split_and!; [by rewrite Hp|done|done].
      * lia.
  - destruct (feed_Read_spec _ _ _ _ _ _ _ H) as (He & Hl & Hde & _). cbn in *. unfold waiting in *. cbn [tap_rest tap_feed] in *.
    split; cbn; [|lia]. exists acc, lost. split_and!; [done| |by rewrite Hde].
    unfold waiting. cbn. rewrite <- !app_str_assoc, !app_str_assoc, He. by rewrite <- Hr.
Qed.

(** The observer sees a prefix of the traffic.  Whatever the chunks, the
    speeds of relay and parser and the sizes of its reads: the bytes a parser
    has read are a prefix of the bytes relayed, with no hole and nothing
    repeated; the queue never exceeds its bound; while it has not overflowed
    nothing is lost; and the parser is told the end only when the observer is
    closed and everything queued has been read. *)
Theorem feed_prefix t :
  reachable tap_step tap_init t ->
  prefix_of (tap_read t) (str_concat (tap_put t)) /\
  (length (feed_ch (tap_feed t)) <= feedQueueSize)%nat /\
  (feed_dead (tap_feed t) = false -> tap_read t +:+ waiting t = str_concat (tap_put t)) /\
  (forall n done rest' f', feed_Read n done (tap_rest t) (tap_feed t) = (ReadEOF, rest', f') ->
     done = true /\ (feed_dead (tap_feed t) = false -> tap_read t = str_concat (tap_put t))).
Proof.
  intros Hr. cut (tap_inv t).
  { intros [(acc & lost & Hp & Hrd & Hd) Hb].
    assert (Hall : feed_dead (tap_feed t) = false -> tap_read t +:+ waiting t = str_concat (tap_put t)).
    { intros Hl. by rewrite Hp, (Hd Hl), app_nil_r. }
    split_and!; [|done|done|].
    - rewrite Hp, str_concat_app, <- Hrd, app_str_assoc. apply prefix_of_app.
    - intros n done rest' f' H. destruct (feed_Read_spec _ _ _ _ _ _ _ H) as (_ & _ & _ & Hend).
      destruct (Hend eq_refl) as [-> Hw]. split; [done|]. intros Hl. rewrite <- (Hall Hl). unfold waiting.
      by rewrite Hw, str_app_nil. }
  revert Hr. apply reachable_inv; [|apply tap_step_inv].
  intros ? ->. split; [|cbn; lia]. by exists [], [].
Qed.

(** ** The metrics, stream by stream *)

Definition method_label (path : string) : string := if methodPattern path then path else "other".

(** The code with which a backend frame ends stream [s], if it does. *)
Definition ends_stream (s : Z) (frame : h2_frame) : option string :=
  match frame with
  | MetaHeaders stream _ fields =>
      if stream =? s then match grpc_status fields with Some value => Some (statusCode value) | None => None end
      else None
  | RSTStream stream => if stream =? s then Some "canceled" else None
  | OtherFrame => None
  end.

(** The reference: one stream on its own.  Request headers open the RPC, the
    first ending frame of the backend closes and records it. *)
Fixpoint rpc_spec (route : string) (s : Z) (open : option rpcStart) (h : list observed) : list rpc_record :=
  match h with
  | [] => []
  | FromClient now (MetaHeaders stream path _) :: h' =>
      rpc_spec route s (if stream =? s then Some (mkRpcStart (method_label path) now) else open) h'
  | FromClient _ _ :: h' => rpc_spec route s open h'
  | FromBackend now frame :: h' =>
      match ends_stream s frame with
      | None => rpc_spec route s open h'
      | Some code =>
          match open with
          | Some rpc => mkRpcRecord s route (rpc_method rpc) code (now - rpc_start rpc) :: rpc_spec route s None h'
          | None => rpc_spec route s None h'
          end
      end
  end.

Definition of_stream (s : Z) (l : list rpc_record) : list rpc_record := List.filter (fun r => rec_stream r =? s) l.

Definition label_ok (r : rpc_record) : Prop :=
  (rec_method r = "other" \/ methodPattern (rec_method r) = true) /\
  (rec_code r = "canceled" \/ rec_code r = "invalid" \/ exists n, Atoi (rec_code r) = Ok n /\ 0 <= n <= 16).

Lemma finish_stream now stream code s o :
  let o' := finish now stream code o in
  ob_route o' = ob_route o /\
  (stream <> s -> ob_started o' !! s = ob_started o !! s /\ of_stream s (ob_records o') = of_stream s (ob_records o)) /\
  (stream = s -> ob_started o' !! s = None /\
     of_stream s (ob_records o') = of_stream s (ob_records o) ++
       match ob_started o !! s with
       | Some rpc => [mkRpcRecord s (ob_route o) (rpc_method rpc) code (now - rpc_start rpc)]
       | None => []
       end).
Proof.
  unfold finish, of_stream. cbn zeta. destruct (ob_started o !! stream) as [rpc|] eqn:E; cbn; split_and!; try done.
  - intros Hne. rewrite lookup_delete_ne by done. split; [done|]. rewrite List.filter_app. cbn.
    by rewrite (proj2 (Z.eqb_neq _ _) Hne), app_nil_r.
  - intros <-. rewrite lookup_delete_eq, E. split; [done|]. rewrite List.filter_app. cbn. by rewrite Z.eqb_refl.
  - intros Hne. by rewrite lookup_delete_ne.
  - intros <-. rewrite lookup_delete_eq, E. by rewrite app_nil_r.
Qed.

(** A backend frame, seen from stream [s]. *)
Lemma backend_stream now frame s o :
  let o' := backend_frame now frame o in
  ob_route o' = ob_route o /\
  match ends_stream s frame with
  | None => ob_started o' !! s = ob_started o !! s /\ of_stream s (ob_records o') = of_stream s (ob_records o)
  | Some code => ob_started o' !! s = None /\
      of_stream s (ob_records o') = of_stream s (ob_records o) ++
        match ob_started o !! s with
        | Some rpc => [mkRpcRecord s (ob_route o) (rpc_method rpc) code (now - rpc_start rpc)]
        | None => []
        end
  end.
Proof.
  destruct frame as [stream path fields|stream|]; cbn [backend_frame ends_stream].
  - destruct (grpc_status fields) as [value|].
    + destruct (finish_stream now stream (statusCode value) s o) as (H1 & H2 & H3).
      split; [done|]. destruct (Z.eqb_spec stream s); auto.
    + split; [done|]. by destruct (stream =? s).
  - destruct (finish_stream now stream "canceled" s o) as (H1 & H2 & H3).
    split; [done|]. destruct (Z.eqb_spec stream s); auto.
  - done.
Qed.

Lemma observe_stream h s o :
  of_stream s (ob_records (foldl observe o h)) =
  of_stream s (ob_records o) ++ rpc_spec (ob_route o) s (ob_started o !! s) h.
Proof.
  revert o. induction h as [|e h IH]; intros o; cbn [foldl rpc_spec]; [by rewrite app_nil_r|].
  rewrite IH. destruct e as [now frame|now frame]; cbn [observe].
  - destruct frame as [stream path fields|stream|]; cbn [client_frame]; [|done|done].
    cbn [ob_records ob_route ob_started]. rewrite lookup_insert. unfold method_label.
    destruct (Z.eqb_spec stream s), (decide (stream = s)); done.
  - destruct (backend_stream now frame s o) as [Hr Hb]. rewrite Hr.
    destruct (ends_stream s frame) as [code|]; destruct Hb as [-> ->]; [|done].
    destruct (ob_started o !! s); by rewrite <- app_assoc.
Qed.

Lemma statusCode_label value :
  statusCode value = "invalid" \/ exists n, Atoi (statusCode value) = Ok n /\ 0 <= n <= 16.
Proof.
  unfold statusCode. destruct (Atoi value) as [n|] eqn:E; [|by left].
  destruct (Z.leb_spec 0 n), (Z.leb_spec n 16); cbn; try by left. right. exists n. split; [done|lia].
Qed.

Lemma rpc_spec_labels route s open h :
  (forall rpc, open = Some rpc -> rpc_method rpc = "other" \/ methodPattern (rpc_method rpc) = true) ->
  Forall label_ok (rpc_spec route s open h).
Proof.
  revert open. induction h as [|e h IH]; intros open Ho; cbn [rpc_spec]; [constructor|].
  destruct e as [now [stream path fields|stream|]|now frame]; try (by apply IH).
  - apply IH. destruct (stream =? s); [|done]. intros rpc [= <-]. cbn. unfold method_label.
    destruct (methodPattern path) eqn:E; [by right|by left].
  - destruct (ends_stream s frame) as [code|] eqn:He; [|by apply IH].
    destruct open as [rpc|]; [|by apply IH]. constructor; [|by apply IH]. split; cbn; [by apply Ho|].
    unfold ends_stream in He. destruct frame as [stream path fields|stream|]; [|destruct (_ =? _); [|done]; injection He as <-; by left|done].
    destruct (_ =? _); [|done]. destruct (grpc_status fields) as [value|]; [|done]. injection He as <-.
    right. apply statusCode_label.
Qed.

(** C39: the shared table implements one automaton per stream.  However the frames
    of the two directions and of the streams interleave, the records of each
    stream are exactly those of the reference run on that stream alone: one
    record per RPC, with the method of its request headers, at the first frame
    of the backend that ends it; and every label is a well-formed method or
    [other], and a status from 0 to 16, [canceled] or [invalid]. *)
Theorem observer_per_stream route h s :
  of_stream s (ob_records (foldl observe (New route) h)) = rpc_spec route s None h /\
  Forall label_ok (of_stream s (ob_records (foldl observe (New route) h))).
Proof.
  assert (H : of_stream s (ob_records (foldl observe (New route) h)) = rpc_spec route s None h).
  { rewrite observe_stream. cbn. by rewrite lookup_empty. }
  split; [done|]. rewrite H. by apply rpc_spec_labels.
Qed.

(** ** Divergences *)

Fixpoint zeros (n : nat) : string := match n with O => "" | S n' => String "0" (zeros n') end.

Lemma parse_digits_zeros n s : parse_digits max_uint64 0 (zeros n +:+ s) = parse_digits max_uint64 0 s.
Proof. induction n as [|n IH]; [done|]. cbn. exact IH. Qed.

(** Status values are accepted in every spelling and become labels as they are:
    a backend can make as many labels as it likes. *)
Theorem statusCode_unbounded n : statusCode (zeros (S n) +:+ "5") = zeros (S n) +:+ "5".
Proof.
  unfold statusCode, Atoi, ParseInt. change (zeros (S n) +:+ "5") with (String "0" (zeros n +:+ "5")).
  cbn [String.eqb]. change (ParseUint (String "0" (zeros n +:+ "5")) max_uint64) with
    (parse_digits max_uint64 0 (zeros (S n) +:+ "5")). rewrite parse_digits_zeros. reflexivity.
Qed.

(** A stream the client resets is neither recorded nor forgotten: its entry
    stays until the backend ends it, which it need not do. *)
Theorem client_reset_ignored now stream o : client_frame now (RSTStream stream) o = o.
Proof. reflexivity. Qed.

(** ** The observed connection *)

(** [observedConn] ([internal/edge/data.go]): the counters are the route's. *)
Record observedConn := mkObservedConn {
  oc_conn : Conn;
  oc_in : Z;
  oc_out : Z;
  oc_observer : option (feed * feed)      (** the client's and the backend's; nil on other routes *)
}.

Definition observeConn (conn : Conn) (r : Route) : observedConn :=
  mkObservedConn conn 0 0 (if String.eqb (Route_Mode r) ModeGRPC then Some (newFeed, newFeed) else None).

(** [Read] after the wrapped [Read] returned the bytes [p] and [err]. *)
Definition observed_Read (p : string) (err : option read_error) (c : observedConn) : observedConn :=
  let conn := conn_on_read p err (oc_conn c) in
  if 0 <? len p then
    mkObservedConn conn (oc_in c + len p) (oc_out c)
      (match oc_observer c with Some (client, backend) => Some (put p client, backend) | None => None end)
  else mkObservedConn conn (oc_in c) (oc_out c) (oc_observer c).

(** [Write] after the wrapped [Write] accepted the bytes [p]. *)
Definition observed_Write (p : string) (c : observedConn) : observedConn :=
  let conn := conn_on_write p (oc_conn c) in
  if 0 <? len p then
    mkObservedConn conn (oc_in c) (oc_out c + len p)
      (match oc_observer c with Some (client, backend) => Some (client, put p backend) | None => None end)
  else mkObservedConn conn (oc_in c) (oc_out c) (oc_observer c).

Definition observed_CloseWrite (c : observedConn) : observedConn :=
  mkObservedConn (closeWrite (oc_conn c)) (oc_in c) (oc_out c) (oc_observer c).

(** What a relay does with a connection. *)
Inductive conn_op := OpRead (p : string) (err : option read_error) | OpWrite (p : string) | OpCloseWrite.

Definition observed_op (c : observedConn) (op : conn_op) : observedConn :=
  match op with
  | OpRead p err => observed_Read p err c
  | OpWrite p => observed_Write p c
  | OpCloseWrite => observed_CloseWrite c
  end.

Definition plain_op (c : Conn) (op : conn_op) : Conn :=
  match op with
  | OpRead p err => conn_on_read p err c
  | OpWrite p => conn_on_write p c
  | OpCloseWrite => closeWrite c
  end.

(** The chunks read and written, those without bytes left out. *)
Fixpoint reads (ops : list conn_op) : list string :=
  match ops with
  | [] => []
  | OpRead p _ :: ops' => if 0 <? len p then p :: reads ops' else reads ops'
  | _ :: ops' => reads ops'
  end.
Fixpoint writes (ops : list conn_op) : list string :=
  match ops with
  | [] => []
  | OpWrite p :: ops' => if 0 <? len p then p :: writes ops' else writes ops'
  | _ :: ops' => writes ops'
  end.

Definition total (chunks : list string) : Z := len (str_concat chunks).

Lemma total_cons p chunks : total (p :: chunks) = len p + total chunks.
Proof. unfold total, len, str_concat. cbn [foldr]. rewrite length_app_str. lia. Qed.

(** Observation is transparent.  Whatever a relay does, the wrapped connection
    goes through exactly what it would without observation; the counters are
    the numbers of bytes; and each feed is given each direction's chunks in
    order. *)
Theorem observation_transparent ops c :
  let c' := foldl observed_op c ops in
  oc_conn c' = foldl plain_op (oc_conn c) ops /\
  oc_in c' = oc_in c + total (reads ops) /\ oc_out c' = oc_out c + total (writes ops) /\
  oc_observer c' = match oc_observer c with
    | Some (client, backend) =>
        Some (foldl (fun f p => put p f) client (reads ops), foldl (fun f p => put p f) backend (writes ops))
    | None => None
    end.
Proof.
  cbn zeta. revert c. induction ops as [|op ops IH]; intros c.
  { cbn. rewrite !Z.add_0_r. split_and!; try done. by destruct (oc_observer c) as [[? ?]|]. }
  cbn [foldl]. destruct (IH (observed_op c op)) as (-> & -> & -> & ->). clear IH.
  destruct op as [p err|p|]; cbn [observed_op plain_op reads writes]; unfold observed_Read, observed_Write;
    try destruct (0 <? len p); cbn [oc_conn oc_in oc_out oc_observer foldl]; rewrite ?total_cons;
    (split_and!; try done; try lia; by destruct (oc_observer c) as [[? ?]|]).
Qed.

(** ** Witnesses *)

Lemma feed_prefix_witness :
  let f := put "world" (put "hello " newFeed) in
  let '(res, rest, f') := feed_Read 4 false "" f in
  res = ReadBytes "hell" /\ prefix_of "hell" "hello world".
Proof.
  cbn. split; [reflexivity|].
  refine (proj1 (feed_prefix (mkTap (mkFeed ["world"] false) "o " ["hello "; "world"] "hell") _)).
  exists (mkTap newFeed "" [] ""). split; [reflexivity|].
  eapply rtc_l; [apply (tap_puts "hello ")|]. eapply rtc_l; [apply (tap_puts "world")|].
  eapply rtc_l; [apply (tap_reads 4 false); reflexivity|]. apply rtc_refl.
Defined.
