(* ===== verification/Lifecycle.v ===== *)
(** * Starting and stopping

    [Start] of [internal/edge/edge.go] and [internal/connector/connector.go],
    the end of a process, and the handlers of accepted public connections
    ([internal/edge/data.go]).  What a process holds is a set of resources;
    the environment says which acquisitions succeed. *)
From S2P Require Import Prelude GoString GoStd GoURL Config Tls EdgeRoutes Dial.
From S2P Require ConnectorProxy ConnectorTunnel.

#[local] Open Scope Z_scope.

(** ** Resources *)

Inductive resource :=
| NATSConn
| MetricsServer                 (** lives until the context is done *)
| HTTPListener
| DataListener
| RouteListener (name : string)
| Subscription (subject : string)
| TunnelLoop.                   (** lives until the context is done *)

#[export] Instance resource_eq_dec : EqDecision resource.
Proof. solve_decision. Defined.
#[export] Instance resource_countable : Countable resource.
Proof.
  refine (inj_countable'
    (fun r => match r with
              | NATSConn => inl 0%nat | MetricsServer => inl 1%nat | HTTPListener => inl 2%nat
              | DataListener => inl 3%nat | TunnelLoop => inl 4%nat
              | RouteListener n => inr (inl n) | Subscription s => inr (inr s) end)
    (fun x => match x with
              | inl 0%nat => NATSConn | inl 1%nat => MetricsServer | inl 2%nat => HTTPListener
              | inl 3%nat => DataListener | inl _ => TunnelLoop
              | inr (inl n) => RouteListener n | inr (inr s) => Subscription s end) _).
  by intros [].
Defined.

(** The goroutine of [telemetry.StartServer]: the metrics server is shut down when
    the context is done, and by nothing else. *)
Definition metrics_stops (held : gset resource) : gset resource := held ∖ {[MetricsServer]}.

(** ** The edge *)

(** Which acquisitions succeed. *)
Record edge_env := mkEdgeEnv {
  en_nats : bool;
  en_metrics : bool;
  en_http : bool;
  en_data : bool;
  en_listen : Route -> bool
}.

Inductive start_error :=
| NATSFailed | MetricsFailed | ListenHTTP | ListenData | TLSFailed (e : tls_error) | ListenRoute (name : string)
| TargetInvalid (name : string) (e : url_error) | TunnelFailed (e : dial_error) | SubscribeFailed (subject : string).

(** [telemetry.StartServer]: an empty address starts nothing. *)
Definition StartServer (ok : bool) (addr : string) (held : gset resource) : gset resource * bool :=
  if String.eqb addr "" then (held, true)
  else if ok then ({[MetricsServer]} ∪ held, true) else (held, false).

Definition route_listeners (routes : list Route) : gset resource :=
  list_to_set (map (fun r => RouteListener (Route_Name r)) routes).

Section Processes.
Context {Certificate CertPool : Type}.
#[local] Abbreviation TLSConfig := (TLSConfig Certificate CertPool).
Context (fs : TLSFiles Certificate CertPool).

(** A listener, or [tls.NewListener] of one. *)
Inductive listener := PlainListener | TLSListener (cfg : option TLSConfig).

Record Server := mkServer {
  sv_httpRoutes : list route;
  sv_wsRoutes : list route;
  sv_token : string;
  sv_listener : listener;
  sv_dataListen : listener;
  sv_tcpListen : list (Route * listener)     (** the listener and the route served on it *)
}.

(** The loop over the TCP routes; the listeners opened so far are in [mine]. *)
Fixpoint listenRoutes (env : edge_env) (publicTLS : option TLSConfig) (routes : list Route)
    (mine : list (Route * listener)) (held : gset resource) :
    gset resource * res start_error (list (Route * listener)) :=
  match routes with
  | [] => (held, Ok mine)
  | r :: routes' =>
      if en_listen env r then
        let l := if Route_TLS r then TLSListener publicTLS else PlainListener in
        listenRoutes env publicTLS routes' (mine ++ [(r, l)]) ({[RouteListener (Route_Name r)]} ∪ held)
      else
        ((((held ∖ {[HTTPListener]}) ∖ {[DataListener]}) ∖ route_listeners mine.*1) ∖ {[NATSConn]},
         Err (ListenRoute (Route_Name r)))
  end.

(** The TLS configurations of the public and of the data listener. *)
Definition edge_tls (t : option TLSServerConfig) : res tls_error (option (TLSConfig * TLSConfig)) :=
  match t with
  | None => Ok None
  | Some t => let? publicTLS := ServerTLS fs t in let? dataTLS := DataTLS fs t in Ok (Some (publicTLS, dataTLS))
  end.

(** [edge.Start] until its goroutines: what is held, and the server. *)
Definition edge_Start (env : edge_env) (cfg : Config) : gset resource * res start_error Server :=
  if negb (en_nats env) then (∅, Err NATSFailed)
  else
    match StartServer (en_metrics env) (Edge_MetricsAddr (Config_Edge cfg)) {[NATSConn]} with
    | (held, false) => (held ∖ {[NATSConn]}, Err MetricsFailed)
    | (held, true) =>
        if negb (en_http env) then (held ∖ {[NATSConn]}, Err ListenHTTP)
        else
          let held := {[HTTPListener]} ∪ held in
          if negb (en_data env) then ((held ∖ {[HTTPListener]}) ∖ {[NATSConn]}, Err ListenData)
          else
            let held := {[DataListener]} ∪ held in
            match edge_tls (Edge_TLS (Config_Edge cfg)) with
            | Err e => (((held ∖ {[HTTPListener]}) ∖ {[DataListener]}) ∖ {[NATSConn]}, Err (TLSFailed e))
            | Ok tls =>
                let wrap cfg := match tls with None => PlainListener | Some p => TLSListener (Some (cfg p)) end in
                match listenRoutes env (fst <$> tls) (tcpRoutes (Config_Routes cfg)) [] held with
                | (held, Err e) => (held, Err e)
                | (held, Ok tcpListen) =>
                    (held, Ok (mkServer (httpRoutes (Config_Routes cfg)) (wsRoutes (Config_Routes cfg))
                       (Connector_TunnelToken (Config_Connector cfg)) (wrap fst) (wrap snd) tcpListen))
                end
            end
    end.

(** The last goroutine of [Start], once the context is done or a server has
    failed: shutting a server down closes its listener. *)
Definition edge_stop (server : Server) (held : gset resource) : gset resource :=
  (((held ∖ {[HTTPListener]}) ∖ {[DataListener]}) ∖ route_listeners (sv_tcpListen server).*1) ∖ {[NATSConn]}.

(** ** The connector *)

Record connector_env := mkConnectorEnv {
  ce_nats : bool;
  ce_metrics : bool;
  ce_subscribe : string -> bool;      (** the library's [Subscribe] and [QueueSubscribe] *)
  ce_flush : string -> bool
}.

(** [natscore.Subscribe] and [QueueSubscribe]: a subscription the server has not
    confirmed is taken back. *)
Definition Subscribe (env : connector_env) (subject : string) (held : gset resource) : gset resource * bool :=
  if negb (ce_subscribe env subject) then (held, false)
  else
    let held := {[Subscription subject]} ∪ held in
    if negb (ce_flush env subject) then (held ∖ {[Subscription subject]}, false) else (held, true).

(** The loops of subscriptions; [mine] are those of [connector.subscriptions]. *)
Fixpoint subscribeAll (env : connector_env) (subjects : list string) (mine held : gset resource) :
    gset resource * gset resource * res start_error unit :=
  match subjects with
  | [] => (mine, held, Ok tt)
  | s :: subjects' =>
      match Subscribe env s held with
      | (held, false) => (mine, held, Err (SubscribeFailed s))
      | (held, true) => subscribeAll env subjects' ({[Subscription s]} ∪ mine) held
      end
  end.

(** [cleanup]. *)
Definition cleanup (mine held : gset resource) : gset resource := (held ∖ mine) ∖ {[NATSConn]}.

Context {UT : UnicodeTables}.

(** The fields of [Connector]. *)
Record Connector := mkConnector {
  cn_tunnel : Dialer (Certificate := Certificate) (CertPool := CertPool);
  cn_subscriptions : gset resource
}.

(** [connector.Start]; [iterate] is the order in which the map of stream routes
    is ranged over. *)
Definition connector_Start (env : connector_env) (cfg : Config) (id : string)
    (iterate : gmap string ConnectorTunnel.streamRoute -> list ConnectorTunnel.streamRoute) :
    gset resource * res start_error Connector :=
  match ConnectorProxy.httpRoutes (Config_Routes cfg) with
  | Err (name, e) => (∅, Err (TargetInvalid name e))
  | Ok routes =>
      match ConnectorTunnel.streamRoutes (Config_Routes cfg) with
      | Err (name, e) => (∅, Err (TargetInvalid name e))
      | Ok streamByName =>
          if negb (ce_nats env) then (∅, Err NATSFailed)
          else
            match StartServer (ce_metrics env) (Connector_MetricsAddr (Config_Connector cfg)) {[NATSConn]} with
            | (held, false) => (cleanup ∅ held, Err MetricsFailed)
            | (held, true) =>
                match startTunnelClient fs cfg id with
                | Err e => (cleanup ∅ held, Err (TunnelFailed e))
                | Ok dataTunnel =>
                    let unary := map (fun r => UnarySubject (ConnectorProxy.route_cfg r)) routes in
                    let cancels := if (0 <? length routes)%nat then [CancelSubjectWildcard] else [] in
                    let opens := map (fun r => OpenSubject (ConnectorTunnel.sr_cfg r)) (iterate streamByName) in
                    match subscribeAll env (unary ++ cancels ++ opens) ∅ ({[TunnelLoop]} ∪ held) with
                    | (mine, held, Ok _) => (held, Ok (mkConnector dataTunnel mine))
                    | (mine, held, Err e) => (cleanup mine held, Err e)
                    end
                end
            end
      end
  end.
End Processes.

(** The goroutine that waits for the context: [Drain] closes the connection
    once the subscriptions have drained. *)
Definition connector_stop (subscriptions held : gset resource) : gset resource :=
  (held ∖ subscriptions) ∖ {[NATSConn]}.

(** ** Accepted connections *)

(** What becomes of an accepted TCP connection. *)
Inductive conn_fate :=
| ConnClosed                                 (** closed without a session *)
| ConnRelayed (idleTimeout : Z).             (** handed to [RelayConn] *)

(** [handleTCPConn]; [opened]: [openDataSession] on the path [/] returned a
    session for the id drawn. *)
Definition handleTCPConn (requestID : option string) (opened : string -> string -> bool) (r : Route) : conn_fate :=
  match requestID with
  | None => ConnClosed
  | Some sessionID => if opened sessionID "/" then ConnRelayed (Route_IdleTimeout r) else ConnClosed
  end.

(** What becomes of a WebSocket request: the close code sent before closing. *)
Inductive ws_fate :=
| WSNotUpgraded
| WSClosed (code : Z) (text : string)
| WSRelayed (idleTimeout : Z).

Definition CloseInternalServerErr : Z := 1011.
Definition CloseTryAgainLater : Z := 1013.

(** [handleWebSocketRoute]. *)
Definition handleWebSocketRoute (upgraded : bool) (requestID : option string) (opened : string -> string -> bool)
    (r : route) (suffix : string) : ws_fate :=
  if negb upgraded then WSNotUpgraded
  else
    match requestID with
    | None => WSClosed CloseInternalServerErr "session id"
    | Some sessionID =>
        if opened sessionID suffix then WSRelayed (Route_IdleTimeout (route_cfg r))
        else WSClosed CloseTryAgainLater "connector unavailable"
    end.

(** [serveTCPRoute]'s loop on the results of [Accept]: [None] is a connection,
    [Some closed] an error, [closed] when the listener was closed or the
    context is done.  The number of connections handled and the result, [None]
    while it is still accepting. *)
Fixpoint serveTCPRoute (accepts : list (option bool)) : nat * option (res unit unit) :=
  match accepts with
  | [] => (0%nat, None)
  | None :: accepts' => let '(n, result) := serveTCPRoute accepts' in (S n, result)
  | Some closed :: _ => (0%nat, Some (if closed then Ok tt else Err tt))
  end.

(** [serveHTTP]: the error of [Serve], [closed] when it is one of the two that
    mean a shutdown. *)
Definition serveHTTP (closed : bool) : res unit unit := if closed then Ok tt else Err tt.

(** ** Lemmas *)

Definition servers : gset resource := {[NATSConn; HTTPListener; DataListener]}.
Definition subscriptions (subjects : list string) : gset resource := list_to_set (map Subscription subjects).

Lemma route_listeners_app k l : route_listeners (k ++ l) = route_listeners k ∪ route_listeners l.
Proof. unfold route_listeners. by rewrite map_app, list_to_set_app_L. Qed.

Lemma tcpRoutes_in r routes : r ∈ tcpRoutes routes -> r ∈ routes.
Proof.
  induction routes as [|r0 routes IH]; [done|]. cbn. destruct (_ || _); [|by right; apply IH].
  intros [->|?]%elem_of_cons; [by left|by right; apply IH].
Qed.

Lemma servers_no_route name : RouteListener name ∉ servers.
Proof. unfold servers. rewrite !elem_of_union, !elem_of_singleton. by intros [[?|?]|?]. Qed.

Section Specs.
Context {Certificate CertPool : Type} (fs : TLSFiles Certificate CertPool).
#[local] Abbreviation TLSConfig := (TLSConfig Certificate CertPool).

(** The listener of a route. *)
Definition route_listener (publicTLS : option TLSConfig) (r : Route) : listener :=
  if Route_TLS r then TLSListener publicTLS else PlainListener.

Lemma listenRoutes_spec env (publicTLS : option TLSConfig) routes mine base :
  (forall name, RouteListener name ∉ base) ->
  match listenRoutes env publicTLS routes mine (route_listeners mine.*1 ∪ base) with
  | (held', Ok mine') =>
      mine' = mine ++ map (fun r => (r, route_listener publicTLS r)) routes /\
      held' = route_listeners routes ∪ route_listeners mine.*1 ∪ base
  | (held', Err e) => held' = base ∖ servers /\ exists name, e = ListenRoute name
  end.
Proof.
  intros Hb. revert mine. induction routes as [|r routes IH]; intros mine; cbn [listenRoutes].
  - unfold route_listeners at 2. cbn. by rewrite (left_id_L ∅ (∪)), app_nil_r.
  - destruct (en_listen env r).
    2:{ split; [|by eexists]. unfold servers. assert (Hd : forall x, x ∈ route_listeners mine.*1 -> x ∉ base).
        { intros x Hx. unfold route_listeners in Hx. apply elem_of_list_to_set, list_elem_of_fmap in Hx as (r' & -> & _). apply Hb. }
        clear -Hd. set_solver. }
    set (l := if Route_TLS r then TLSListener publicTLS else PlainListener).
    specialize (IH (mine ++ [(r, l)])).
    assert (Hr : route_listeners (mine ++ [(r, l)]).*1 = route_listeners mine.*1 ∪ {[RouteListener (Route_Name r)]}).
    { rewrite fmap_app, route_listeners_app. unfold route_listeners at 2. cbn. by rewrite (right_id_L ∅ (∪)). }
    rewrite Hr in IH.
    replace ({[RouteListener (Route_Name r)]} ∪ (route_listeners mine.*1 ∪ base))
      with (route_listeners mine.*1 ∪ {[RouteListener (Route_Name r)]} ∪ base) by set_solver.
    destruct (listenRoutes env publicTLS routes _ _) as [held' [mine'|e]]; [|exact IH].
    destruct IH as [-> ->]. split; [by rewrite <- app_assoc|].
    change (route_listeners (r :: routes)) with ({[RouteListener (Route_Name r)]} ∪ route_listeners routes). set_solver.
Qed.
End Specs.

(** The metrics server, when one is configured. *)
Definition metrics_held (addr : string) : gset resource := if String.eqb addr "" then ∅ else {[MetricsServer]}.

Lemma StartServer_held ok addr held :
  StartServer ok addr held = (if String.eqb addr "" || ok then metrics_held addr ∪ held else held, String.eqb addr "" || ok).
Proof.
  unfold StartServer, metrics_held. destruct (String.eqb addr ""), ok; cbn; try done; by rewrite (left_id_L ∅ (∪)).
Qed.

Lemma metrics_held_in addr x : x ∈ metrics_held addr -> x = MetricsServer.
Proof. unfold metrics_held. destruct (String.eqb addr ""); set_solver. Qed.

Lemma metrics_held_iff addr : MetricsServer ∈ metrics_held addr <-> addr <> "".
Proof. unfold metrics_held. destruct (String.eqb_spec addr ""); set_solver. Qed.

(** What a [Start] that failed with an error still holds: what belongs to the
    context. *)
Definition left_behind (addr : string) (e : start_error) : gset resource :=
  match e with
  | NATSFailed | MetricsFailed | TargetInvalid _ _ => ∅
  | SubscribeFailed _ => {[TunnelLoop]} ∪ metrics_held addr
  | _ => metrics_held addr
  end.

Lemma subscribeAll_spec env subjects mine base :
  (forall s, Subscription s ∉ base) ->
  match subscribeAll env subjects mine (mine ∪ base) with
  | (mine', held', Ok _) => mine' = subscriptions subjects ∪ mine /\ held' = subscriptions subjects ∪ mine ∪ base
  | (mine', held', Err e) => held' ∖ mine' = base ∖ mine' /\ (forall x, x ∈ mine' -> x ∈ mine \/ exists s, x = Subscription s) /\
      exists s, e = SubscribeFailed s
  end.
Proof.
  intros Hb. revert mine. induction subjects as [|s subjects IH]; intros mine; cbn [subscribeAll].
  - unfold subscriptions. cbn. by rewrite !(left_id_L ∅ (∪)).
  - unfold subscriptions. cbn [map list_to_set]. unfold Subscribe. pose proof (Hb s) as Hs.
    destruct (ce_subscribe env s); cbn [negb].
    2:{ split; [clear; set_solver|]. split; [by left|by eexists]. }
    destruct (ce_flush env s); cbn [negb].
    2:{ split; [clear -Hs; set_solver|]. split; [by left|by eexists]. }
    specialize (IH ({[Subscription s]} ∪ mine)). unfold subscriptions in IH.
    replace ({[Subscription s]} ∪ (mine ∪ base)) with ({[Subscription s]} ∪ mine ∪ base) by (clear; set_solver).
    destruct (subscribeAll env subjects _ _) as [[mine' held'] [[]|e]].
    + destruct IH as [-> ->]. split; clear; set_solver.
    + destruct IH as (H1 & H2 & H3). split; [done|]. split; [|done]. intros x Hx.
      destruct (H2 x Hx) as [[->%elem_of_singleton|?]%elem_of_union|?]; eauto.
Qed.

(** ** Properties *)

Section Properties.
Context {Certificate CertPool : Type} (fs : TLSFiles Certificate CertPool).

(** [Start] step by step: what is held when it returns. *)
Lemma edge_Start_spec env cfg :
  match edge_Start fs env cfg with
  | (held, Err e) => held = left_behind (Edge_MetricsAddr (Config_Edge cfg)) e
  | (held, Ok server) =>
      sv_tcpListen server = map (fun r => (r, route_listener (match sv_listener server with
        | TLSListener c => c | PlainListener => None end) r)) (tcpRoutes (Config_Routes cfg)) /\
      sv_token server = Connector_TunnelToken (Config_Connector cfg) /\
      match Edge_TLS (Config_Edge cfg) with
      | None => sv_listener server = PlainListener /\ sv_dataListen server = PlainListener
      | Some t => exists publicTLS dataTLS, ServerTLS fs t = Ok publicTLS /\ DataTLS fs t = Ok dataTLS /\
          sv_listener server = TLSListener (Some publicTLS) /\ sv_dataListen server = TLSListener (Some dataTLS)
      end /\
      held = route_listeners (tcpRoutes (Config_Routes cfg)) ∪ (servers ∪ metrics_held (Edge_MetricsAddr (Config_Edge cfg)))
  end.
Proof.
  unfold edge_Start. destruct (en_nats env); cbn [negb]; [|done].
  set (addr := Edge_MetricsAddr (Config_Edge cfg)). rewrite StartServer_held.
  pose proof (metrics_held_in addr) as Hm.
  destruct (String.eqb addr "" || en_metrics env); [|unfold left_behind; set_solver].
  set (met := metrics_held addr) in *.
  assert (Hn : forall x, x ∈ met -> x ∉ servers) by (intros x ->%Hm; unfold servers; set_solver).
  destruct (en_http env); cbn [negb left_behind]; [|unfold servers in Hn; fold met; clear Hm; set_solver].
  destruct (en_data env); cbn [negb left_behind]; [|unfold servers in Hn; fold met; clear Hm; set_solver].
  set (held := {[DataListener]} ∪ _). assert (Hheld : held = servers ∪ met) by (unfold held, servers; clear; set_solver).
  clearbody held. subst held.
  assert (Htls : match edge_tls fs (Edge_TLS (Config_Edge cfg)) with
    | Err _ => True
    | Ok None => Edge_TLS (Config_Edge cfg) = None
    | Ok (Some (p, d)) => exists t, Edge_TLS (Config_Edge cfg) = Some t /\ ServerTLS fs t = Ok p /\ DataTLS fs t = Ok d
    end).
  { destruct (Edge_TLS _) as [t|]; [|done]. cbn. destruct (ServerTLS fs t) as [p|] eqn:?; [|done]. cbn.
    destruct (DataTLS fs t) as [d|] eqn:?; [|done]. by exists t. }
  destruct (edge_tls fs _) as [tls|e]; [|cbn [left_behind]; fold met; unfold servers in *; clear Hm Htls; set_solver].
  pose proof (listenRoutes_spec env (fst <$> tls) (tcpRoutes (Config_Routes cfg)) [] (servers ∪ met)) as Hl.
  specialize (Hl ltac:(intros name Hx; apply elem_of_union in Hx as [Hx|Hx]; [by apply servers_no_route in Hx|by apply Hm in Hx])).
  assert (He : route_listeners ([] : list (Route * listener (Certificate := Certificate) (CertPool := CertPool))).*1 = ∅) by done.
  rewrite He, (left_id_L ∅ (∪)) in Hl.
  destruct (listenRoutes env _ _ [] _) as [held' [tcpListen|e]].
  - destruct Hl as [-> ->]. cbn [app]. rewrite (right_id_L ∅ (∪)).
    destruct tls as [[pub dat]|]; cbn; [destruct Htls as (t & -> & ? & ?)|rewrite Htls];
      (split_and!; try done); by exists pub, dat.
  - destruct Hl as (-> & name & ->). cbn [left_behind]. fold met. clear -Hn. set_solver.
Qed.

(** The errors of the edge's [Start]. *)
Lemma edge_Start_errors env cfg :
  match (edge_Start fs env cfg).2 with
  | Err (TargetInvalid _ _ | TunnelFailed _ | SubscribeFailed _) => False
  | _ => True
  end.
Proof.
  unfold edge_Start. destruct (en_nats env); [cbn [negb]|done].
  destruct (StartServer _ _ _) as [held []]; [|done].
  destruct (en_http env); [cbn [negb]|done]. destruct (en_data env); [cbn [negb]|done].
  destruct (edge_tls fs _) as [tls|e]; [|done].
  assert (Hl : forall routes mine held', match (listenRoutes env (fst <$> tls) routes mine held').2 with
    | Err (ListenRoute _) | Ok _ => True | _ => False end).
  { induction routes as [|r routes IH]; intros mine held'; cbn [listenRoutes]; [done|]. destruct (en_listen env r); [apply IH|done]. }
  specialize (Hl (tcpRoutes (Config_Routes cfg)) [] ({[DataListener]} ∪ ({[HTTPListener]} ∪ held))).
  destruct (listenRoutes env _ _ [] _) as [held' [l|e]]; [done|]. by destruct e.
Qed.

(** The shutdown releases the servers and the route listeners, and nothing else. *)
Lemma stop_leaves routes addr :
  ((((route_listeners routes ∪ (servers ∪ metrics_held addr)) ∖ {[HTTPListener]}) ∖ {[DataListener]}) ∖ route_listeners routes) ∖ {[NATSConn]}
    = metrics_held addr.
Proof.
  assert (Hl : forall x, x ∈ route_listeners routes -> exists n, x = RouteListener n).
  { intros x Hx. unfold route_listeners in Hx. apply elem_of_list_to_set, list_elem_of_fmap in Hx as (r' & -> & _). by eexists. }
  pose proof (metrics_held_in addr) as Hm. apply set_eq. intros x. unfold servers.
  rewrite !elem_of_difference, !elem_of_union, !elem_of_singleton. split.
  - tauto.
  - intros Hx. pose proof (Hm x Hx) as ->. split_and!; try done; [by do 2 right|].
    intros Hr. by destruct (Hl _ Hr).
Qed.

(** C40: what starting and stopping the edge holds and releases.  A [Start] that
    fails on NATS or on the metrics listener holds nothing; one that fails later
    has released the NATS connection and every listener, and holds exactly the
    metrics server, if one is configured: that listener stays until the context
    is done.  A [Start] that succeeds holds exactly the NATS connection, both
    servers' listeners, one listener per TCP and gRPC route and the configured
    metrics server; the shutdown that ends the process releases all but the
    latter; and when the context is done nothing is left of either. *)
Theorem edge_start_releases env cfg :
  let addr := Edge_MetricsAddr (Config_Edge cfg) in
  match edge_Start fs env cfg with
  | (held, Err e) =>
      held = match e with NATSFailed | MetricsFailed => ∅ | _ => metrics_held addr end /\ metrics_stops held = ∅
  | (held, Ok server) =>
      (sv_tcpListen server).*1 = tcpRoutes (Config_Routes cfg) /\
      held = servers ∪ route_listeners (tcpRoutes (Config_Routes cfg)) ∪ metrics_held addr /\
      edge_stop server held = metrics_held addr /\ metrics_stops (edge_stop server held) = ∅
  end.
Proof.
  cbn zeta. pose proof (edge_Start_spec env cfg) as H. pose proof (edge_Start_errors env cfg) as Herr.
  set (addr := Edge_MetricsAddr (Config_Edge cfg)) in *.
  assert (Hs : metrics_stops (metrics_held addr) = ∅).
  { unfold metrics_stops. pose proof (metrics_held_in addr) as Hm. clear -Hm. set_solver. }
  assert (He : metrics_stops ∅ = ∅) by (unfold metrics_stops; clear; set_solver).
  destruct (edge_Start fs env cfg) as [held [server|e]].
  - destruct H as (Hl & _ & _ & ->).
    assert (H1 : (sv_tcpListen server).*1 = tcpRoutes (Config_Routes cfg)).
    { rewrite Hl, <- list_fmap_compose. apply list_fmap_id. }
    assert (Hstop : edge_stop server (route_listeners (tcpRoutes (Config_Routes cfg)) ∪ (servers ∪ metrics_held addr)) = metrics_held addr)
      by (unfold edge_stop; rewrite H1; apply stop_leaves).
    split; [done|]. split; [clear; set_solver|]. by rewrite Hstop.
  - subst held. destruct e; by destruct Herr.
Qed.

(** C35: a server that started listens as it was configured.  With a valid
    configuration: without a TLS block every listener is plain; with one, the
    public and the data listener both present the configured certificate, TLS
    1.2 or later, and the data listener demands a client certificate of the
    configured CA exactly when there is one.  A TCP or gRPC route is served over
    TLS exactly when it says so, with the public certificate and never with a
    missing one; and the data endpoint checks the configured token. *)
Theorem edge_listens_as_configured {UT : UnicodeTables} env cfg held server :
  Config_Validate cfg = Ok tt -> edge_Start fs env cfg = (held, Ok server) ->
  sv_token server = Connector_TunnelToken (Config_Connector cfg) /\
  (sv_tcpListen server).*1 = tcpRoutes (Config_Routes cfg) /\
  match Edge_TLS (Config_Edge cfg) with
  | None => sv_listener server = PlainListener /\ sv_dataListen server = PlainListener /\
      forall r l, (r, l) ∈ sv_tcpListen server -> Route_TLS r = false /\ l = PlainListener
  | Some t => exists publicTLS dataTLS,
      sv_listener server = TLSListener (Some publicTLS) /\ sv_dataListen server = TLSListener (Some dataTLS) /\
      presents fs t publicTLS /\ presents fs t dataTLS /\ tls_ClientAuth publicTLS = NoClientCert /\
      (tls_ClientAuth dataTLS = RequireAndVerifyClientCert <-> TLSServer_ClientCAFile t <> "") /\
      (TLSServer_ClientCAFile t <> "" -> exists pool, loadCertPool fs (TLSServer_ClientCAFile t) = Ok pool /\
         tls_ClientCAs dataTLS = Some pool) /\
      forall r l, (r, l) ∈ sv_tcpListen server ->
        l = if Route_TLS r then TLSListener (Some publicTLS) else PlainListener
  end.
Proof.
  intros Hv Hs. pose proof (edge_Start_spec env cfg) as H. rewrite Hs in H. destruct H as (Hl & Htok & Htls & _).
  split; [done|]. split; [rewrite Hl, <- list_fmap_compose; apply list_fmap_id|].
  assert (Hin : forall r l, (r, l) ∈ sv_tcpListen server -> r ∈ Config_Routes cfg /\
    l = route_listener (match sv_listener server with TLSListener c => c | PlainListener => None end) r).
  { intros r l. rewrite Hl. intros (r' & [= -> ->] & Hr)%list_elem_of_fmap. split; [|done].
    by apply tcpRoutes_in. }
  apply Config_Validate_iff in Hv as (_ & _ & _ & _ & _ & _ & _ & _ & _ & _ & _ & _ & Hr).
  destruct (Edge_TLS _) as [t|].
  - destruct Htls as (p & d & Hp & Hd & Hpub & Hdat). exists p, d.
    destruct (ServerTLS_Ok fs t p Hp) as [? ?]. destruct (DataTLS_Ok fs t d Hd) as [? Hca].
    destruct (String.eqb_spec (TLSServer_ClientCAFile t) "") as [E|Hne];
      (split_and!; try done; [..|intros r l Hrl; destruct (Hin r l Hrl) as [_ ->]; by rewrite Hpub]).
    + rewrite Hca. done.
    + by destruct Hca as [-> _].
    + intros _. apply Hca.
  - destruct Htls as [Hpub Hdat]. split_and!; [done..|]. intros r l Hrl. destruct (Hin r l Hrl) as [Hc ->].
    rewrite list.Forall_forall in Hr. destruct (Hr r Hc) as [_ Hno]. unfold route_listener.
    destruct (Route_TLS r); [|done]. by destruct (Hno eq_refl) as [_ [? ?]].
Qed.

(** What starting and stopping the connector holds and releases.  A failed start
    has released its NATS connection and every subscription made before the
    failing one; what it still holds, the configured metrics server and, once it
    was started, the reconnect loop, ends with the context only.  A [Start] that
    succeeds is subscribed to exactly the unary subject of each http route, the
    cancels if there is one, and the open subject of each other route; stopping
    releases the subscriptions and the connection. *)
Theorem connector_start_releases {UT : UnicodeTables} env cfg id iterate :
  let addr := Connector_MetricsAddr (Config_Connector cfg) in
  match connector_Start fs env cfg id iterate with
  | (held, Err e) => held = left_behind addr e
  | (held, Ok connector) =>
      exists routes table, ConnectorProxy.httpRoutes (Config_Routes cfg) = Ok routes /\
      ConnectorTunnel.streamRoutes (Config_Routes cfg) = Ok table /\
      let subs := subscriptions (map (fun r => UnarySubject (ConnectorProxy.route_cfg r)) routes ++
               (if (0 <? length routes)%nat then [CancelSubjectWildcard] else []) ++
               map (fun r => OpenSubject (ConnectorTunnel.sr_cfg r)) (iterate table)) in
      cn_subscriptions connector = subs /\ startTunnelClient fs cfg id = Ok (cn_tunnel connector) /\
      held = {[NATSConn; TunnelLoop]} ∪ subs ∪ metrics_held addr /\
      connector_stop subs held = {[TunnelLoop]} ∪ metrics_held addr
  end.
Proof.
  cbn zeta. unfold connector_Start. destruct (ConnectorProxy.httpRoutes _) as [routes|[name e]] eqn:Hr; [|done].
  destruct (ConnectorTunnel.streamRoutes _) as [table|[name e]] eqn:Ht; [|done].
  destruct (ce_nats env); cbn [negb]; [|done].
  set (addr := Connector_MetricsAddr (Config_Connector cfg)). rewrite StartServer_held.
  pose proof (metrics_held_in addr) as Hm. unfold cleanup.
  destruct (String.eqb addr "" || ce_metrics env); [|cbn [left_behind]; clear; set_solver].
  set (met := metrics_held addr) in *.
  destruct (startTunnelClient fs cfg id) as [dialer|e]; [|cbn [left_behind]; fold met; clear -Hm; set_solver].
  set (subjects := _ ++ _ ++ _).
  pose proof (subscribeAll_spec env subjects ∅ ({[TunnelLoop]} ∪ (met ∪ {[NATSConn]}))) as Hs.
  rewrite (left_id_L ∅ (∪)) in Hs.
  specialize (Hs ltac:(intros x; rewrite !elem_of_union, !elem_of_singleton; intros [?|[?%Hm|?]]; done)).
  destruct (subscribeAll env subjects ∅ _) as [[mine held'] [[]|e]].
  - destruct Hs as [-> ->]. rewrite !(right_id_L ∅ (∪)). exists routes, table. split_and!; try done.
    + clear; set_solver.
    + unfold connector_stop. assert (Hsub : forall x, x ∈ subscriptions subjects -> exists s, x = Subscription s).
      { intros x Hx. unfold subscriptions in Hx. apply elem_of_list_to_set, list_elem_of_fmap in Hx as (s & -> & _). by eexists. }
      apply set_eq. intros x. rewrite !elem_of_difference, !elem_of_union, !elem_of_singleton. fold met. split; [tauto|].
      intros Hx. assert (x = TunnelLoop \/ x = MetricsServer) as Hx' by (destruct Hx as [?|?%Hm]; auto).
      split_and!; [tauto| |by destruct Hx' as [-> | ->]]. intros (s & ->)%Hsub. by destruct Hx'.
  - destruct Hs as (Hs & Hin & s & ->). rewrite Hs. cbn [left_behind]. fold met.
    apply set_eq. intros x. rewrite !elem_of_difference, !elem_of_union, !elem_of_singleton. split; [tauto|].
    intros Hx. assert (x = TunnelLoop \/ x = MetricsServer) as Hx' by (destruct Hx as [?|?%Hm]; auto).
    split_and!; [tauto| |by destruct Hx' as [-> | ->]]. intros [?%elem_of_empty|(s' & ->)]%Hin; [done|]. by destruct Hx'.
Qed.
End Properties.

(** An accepted connection is never forgotten.  Every TCP connection is
    relayed on the session opened for it, with the route's idle timeout, or
    closed; an upgraded WebSocket that is not relayed is told why: 1011 when no
    id could be drawn, 1013 (try again later) when no connector took it. *)
Theorem connections_relayed_or_closed id opened r er upgraded suffix :
  handleTCPConn id opened r =
    match id with
    | Some sid => if opened sid "/" then ConnRelayed (Route_IdleTimeout r) else ConnClosed
    | None => ConnClosed
    end /\
  (handleWebSocketRoute upgraded id opened er suffix = WSRelayed (Route_IdleTimeout (route_cfg er)) <->
     upgraded = true /\ exists sid, id = Some sid /\ opened sid suffix = true) /\
  (handleWebSocketRoute upgraded id opened er suffix = WSClosed CloseTryAgainLater "connector unavailable" <->
     upgraded = true /\ exists sid, id = Some sid /\ opened sid suffix = false).
Proof.
  split; [by destruct id|]. unfold handleWebSocketRoute.
  destruct upgraded; cbn [negb]; [|split; split; [done|by intros [? _]|done|by intros [? _]]].
  destruct id as [sid|]; [|split; split; [done|by intros (_ & ? & ? & _)|done|by intros (_ & ? & ? & _)]].
  destruct (opened sid suffix) eqn:E; split; split; try done; try (by intros _; split; [|exists sid]);
    by intros (_ & ? & [= <-] & ?); congruence.
Qed.

(** ** Witness *)

#[local] Existing Instance ascii_tables.

(** Files whose contents are their names; a key pair and a pool are the names. *)
Definition demo_files : TLSFiles (string * string) string :=
  mkTLSFiles Some (fun c k => Some (c, k)) Some.

Definition demo_tls_route : Route :=
  mkRoute "db" ModeTCP "" "" "" "0.0.0.0:6000" "10.0.0.7:5432" 0 0 0 0 0 0 [] true.
Definition demo_tls_config : Config :=
  mkConfig (mkNATSConfig "nats://nats:4222" "" "" "")
    (mkEdgeConfig ":8080" ":8081" "" (Some (mkTLSServerConfig "edge.crt" "edge.key" "clients.pem")))
    (mkConnectorConfig "wss://edge:8081/_airpc/data" "s3cret" "" None) [demo_tls_route].
Definition demo_env : edge_env := mkEdgeEnv true true true true (fun _ => true).
Definition demo_started : gset resource * res start_error (Server (Certificate := string * string) (CertPool := string)) :=
  edge_Start demo_files demo_env demo_tls_config.
Definition demo_server : Server (Certificate := string * string) (CertPool := string) :=
  match demo_started.2 with Ok server => server | Err _ => mkServer [] [] "" PlainListener PlainListener [] end.

Lemma demo_starts : edge_Start demo_files demo_env demo_tls_config = (demo_started.1, Ok demo_server).
Proof.
  change (edge_Start demo_files demo_env demo_tls_config) with demo_started. unfold demo_server.
  assert (Hok : is_ok demo_started.2 = true) by (vm_compute; reflexivity).
  destruct demo_started as [held [server|e]]; [reflexivity|discriminate].
Qed.

Lemma edge_listens_as_configured_witness :
  exists publicTLS dataTLS : TLSConfig (string * string) string,
    sv_dataListen demo_server = TLSListener (Some dataTLS) /\
    tls_ClientAuth dataTLS = RequireAndVerifyClientCert /\
    sv_tcpListen demo_server = [(demo_tls_route, TLSListener (Some publicTLS))].
Proof.
  destruct (edge_listens_as_configured demo_files demo_env demo_tls_config demo_started.1 demo_server
    ltac:(vm_compute; reflexivity) demo_starts) as (_ & Hr & p & d & _ & Hd & _ & _ & _ & Hca & _ & Hl).
  exists p, d. split; [exact Hd|]. split; [apply Hca; discriminate|].
  destruct (sv_tcpListen demo_server) as [|[r l] rest]; [discriminate|]. cbn in Hr. injection Hr as -> Hrest.
  destruct rest as [|? ?]; [|discriminate]. rewrite (Hl demo_tls_route l); [reflexivity|left].
Defined.
