(* ===== verification/EdgeRun.v ===== *)
(** * The edge while it runs

    The goroutines that [Start] ([internal/edge/edge.go]) leaves behind, as a
    step relation: a server per listener, each of which reports once on
    [errCh], the supervisor, which waits for the context or for the first
    report, releases the listeners and the NATS connection and hands the outcome
    to [Wait], and the metrics server of [internal/telemetry/metrics.go], which
    only follows the context.  Servers 0 and
    1 are the public and the data HTTP server, server [i + 2] is
    [serveTCPRoute] on the [i]-th route listener. *)
From S2P Require Import Prelude GoString GoStd Config Tls EdgeRoutes Lifecycle.

(** The error a server or the process ends with. *)
Abbreviation outcome := (res string unit).

Inductive supervisor :=
| Watching                      (** in the [select] *)
| Stopping (runErr : outcome)   (** shutting the servers down *)
| Stopped.                      (** [done] is closed *)

Record EdgeRun := mkEdgeRun {
  er_serving : gset nat;        (** the servers that have not reported *)
  er_errCh : list outcome;
  er_ctx_done : bool;
  er_closed : bool;             (** [Close] was called *)
  er_supervisor : supervisor;
  er_done : list outcome;       (** the buffer of [done] *)
  er_held : gset resource
}.

(** Listeners are closed by [Close] and by the shutdown. *)
Definition er_closing (r : EdgeRun) : bool :=
  er_closed r || match er_supervisor r with Watching => false | _ => true end.

Section Run.
Context {Certificate CertPool : Type}.
Context (server : Server (Certificate := Certificate) (CertPool := CertPool)).

(** The two HTTP servers and one server per route listener. *)
Definition server_count : nat := 2 + length (sv_tcpListen server).

(** The capacity of [errCh]. *)
Definition errCh_cap : nat := length (sv_tcpListen server) + 2.

(** The state in which [Start] returns. *)
Definition run_init (held : gset resource) : EdgeRun :=
  mkEdgeRun (list_to_set (seq 0 server_count)) [] false false Watching [] held.

(** Server [i] returns and reports; it blocks on a full channel.  [serveHTTP]
    reports nil only for a server that was shut down, [serveTCPRoute] also when
    the context is done. *)
Definition server_reports (i : nat) (result : outcome) (r : EdgeRun) : option EdgeRun :=
  if bool_decide (i ∈ er_serving r) && (length (er_errCh r) <? errCh_cap)%nat &&
     (negb (is_ok result) || er_closing r || (2 <=? i)%nat && er_ctx_done r)
  then Some (mkEdgeRun (er_serving r ∖ {[i]}) (er_errCh r ++ [result]) (er_ctx_done r) (er_closed r) (er_supervisor r)
               (er_done r) (er_held r))
  else None.

(** The supervisor's next move, [None] while it blocks; [prefer_ctx] is the
    choice of the [select] when both cases are ready. *)
Definition supervise (prefer_ctx : bool) (r : EdgeRun) : option EdgeRun :=
  match er_supervisor r with
  | Watching =>
      match er_errCh r with
      | runErr :: errCh' =>
          if er_ctx_done r && prefer_ctx
          then Some (mkEdgeRun (er_serving r) (er_errCh r) (er_ctx_done r) (er_closed r) (Stopping (Ok tt)) (er_done r) (er_held r))
          else Some (mkEdgeRun (er_serving r) errCh' (er_ctx_done r) (er_closed r) (Stopping runErr) (er_done r) (er_held r))
      | [] =>
          if er_ctx_done r
          then Some (mkEdgeRun (er_serving r) [] (er_ctx_done r) (er_closed r) (Stopping (Ok tt)) (er_done r) (er_held r))
          else None
      end
  | Stopping runErr =>
      (* [done] has room for one value *)
      if (length (er_done r) <? 1)%nat
      then Some (mkEdgeRun (er_serving r) (er_errCh r) (er_ctx_done r) (er_closed r) Stopped (er_done r ++ [runErr])
                   (edge_stop server (er_held r)))
      else None
  | Stopped => None
  end.

(** [Wait] on a server that [Start] returned; [None] while it blocks.  A closed
    channel that is empty yields nil. *)
Definition Wait (r : EdgeRun) : option (outcome * EdgeRun) :=
  match er_done r, er_supervisor r with
  | runErr :: done', _ =>
      Some (runErr, mkEdgeRun (er_serving r) (er_errCh r) (er_ctx_done r) (er_closed r) (er_supervisor r) done' (er_held r))
  | [], Stopped => Some (Ok tt, r)
  | [], _ => None
  end.

(** [Close]: the listeners are closed, the tunnels too ([EdgeTunnel.closeAll]);
    the NATS connection stays. *)
Definition Close (r : EdgeRun) : EdgeRun :=
  mkEdgeRun (er_serving r) (er_errCh r) (er_ctx_done r) true (er_supervisor r) (er_done r)
    (((er_held r ∖ route_listeners (sv_tcpListen server).*1) ∖ {[DataListener]}) ∖ {[HTTPListener]}).

(** The metrics server's goroutine, once the context is done. *)
Definition metrics_server (r : EdgeRun) : option EdgeRun :=
  if er_ctx_done r
  then Some (mkEdgeRun (er_serving r) (er_errCh r) (er_ctx_done r) (er_closed r) (er_supervisor r) (er_done r)
               (metrics_stops (er_held r)))
  else None.

Inductive run_step : EdgeRun -> EdgeRun -> Prop :=
| rn_ctx r : run_step r (mkEdgeRun (er_serving r) (er_errCh r) true (er_closed r) (er_supervisor r) (er_done r) (er_held r))
| rn_close r : run_step r (Close r)
| rn_server i result r r' : server_reports i result r = Some r' -> run_step r r'
| rn_supervise prefer_ctx r r' : supervise prefer_ctx r = Some r' -> run_step r r'
| rn_wait runErr r r' : Wait r = Some (runErr, r') -> run_step r r'
| rn_metrics r r' : metrics_server r = Some r' -> run_step r r'.
End Run.

(** ** The invariant *)

Section Invariant.
Context {Certificate CertPool : Type}.
Context (server : Server (Certificate := Certificate) (CertPool := CertPool)) (held : gset resource).

(** A nil outcome has a reason. *)
Definition explained (r : EdgeRun) (runErr : outcome) : Prop :=
  is_ok runErr = true -> er_ctx_done r = true \/ er_closed r = true.

Record run_inv (r : EdgeRun) : Prop := {
  ri_room : length (er_errCh r) + size (er_serving r) <= errCh_cap server;
  ri_reports : er_supervisor r = Watching -> Forall (explained r) (er_errCh r);
  ri_done : Forall (explained r) (er_done r) /\ (er_supervisor r = Stopped \/ er_done r = []);
  ri_phase : match er_supervisor r with
             | Watching => er_held r ⊆ held
             | Stopping runErr => explained r runErr /\ er_held r ⊆ held
             | Stopped => er_held r ⊆ edge_stop server held
             end;
  ri_cause : er_ctx_done r = true \/ size (er_serving r) < server_count server \/
             er_supervisor r = Watching /\ er_errCh r = [];
  ri_metrics : er_ctx_done r = false -> MetricsServer ∈ held -> MetricsServer ∈ er_held r
}.

Lemma run_init_inv : run_inv (run_init server held).
Proof.
  unfold run_init. split; cbn [er_errCh er_serving er_supervisor er_done er_held er_ctx_done er_closed]; try done.
  - rewrite size_list_to_set by apply NoDup_seq. rewrite length_seq. unfold server_count, errCh_cap. cbn. lia.
  - by split; [|right].
  - by right; right.
Qed.

Lemma edge_stop_mono h h' : h ⊆ h' -> edge_stop server h ⊆ edge_stop server h'.
Proof. unfold edge_stop. set_solver. Qed.

(** No server's shutdown touches the metrics server. *)
Lemma keeps_metrics (l : list Route) (h : gset resource) :
  MetricsServer ∈ h ->
  MetricsServer ∈ ((h ∖ {[HTTPListener]}) ∖ {[DataListener]}) ∖ route_listeners l /\
  MetricsServer ∈ ((h ∖ route_listeners l) ∖ {[DataListener]}) ∖ {[HTTPListener]}.
Proof.
  intros Hh. assert (Hm : MetricsServer ∉ route_listeners l).
  { unfold route_listeners. rewrite elem_of_list_to_set. by intros (r' & ? & _)%list_elem_of_fmap. }
  by rewrite !elem_of_difference, !elem_of_singleton.
Qed.

Lemma stop_keeps_metrics (h : gset resource) : MetricsServer ∈ h -> MetricsServer ∈ edge_stop server h.
Proof.
  intros Hh. unfold edge_stop. rewrite elem_of_difference, elem_of_singleton.
  split; [|done]. by apply (keeps_metrics (sv_tcpListen server).*1).
Qed.

Lemma supervise_inv b r r' : run_inv r -> supervise server b r = Some r' -> run_inv r'.
Proof.
  destruct r as [serving ch ctx closed sup done_ held_]. intros [H1 H2 [H3 H4] H5 H6 H7].
  unfold supervise, explained in *. cbn in *.
  destruct sup as [|e|]; [|destruct H5 as [H5 Hh]|done]; (destruct H4 as [?| ->]; [done|]).
  - specialize (H2 eq_refl). destruct ch as [|e ch].
    + destruct ctx; [|done]. intros [= <-]. split; cbn; auto. by split; [left|].
    + apply list.Forall_cons in H2 as [He Hch]. cbn in H1.
      assert (Hcause : ctx = true \/ size serving < server_count server) by (destruct H6 as [?|[?|[_ ?]]]; auto; done).
      destruct (ctx && b) eqn:Hb; intros [= <-]; split; cbn; auto; try done; try tauto; try lia.
      apply andb_true_iff in Hb as [-> _]. by split; [left|].
  - cbn. intros [= <-]. split; cbn; auto; try done.
    + by apply edge_stop_mono.
    + destruct H6 as [?|[?|[? _]]]; auto; done.
    + intros Hc Hm. apply stop_keeps_metrics. auto.
Qed.

Lemma server_reports_inv i result r r' :
  run_inv r -> server_reports server i result r = Some r' -> run_inv r'.
Proof.
  intros [H1 H2 H3 H5 H6 H7] Hs. unfold server_reports in Hs. case_bool_decide as Hin; [|done]. cbn [andb] in Hs.
  destruct (_ <? _)%nat; [|done]. cbn [andb] in Hs. destruct (_ || _) eqn:Hok; [|done]. injection Hs as <-.
  assert (Hsz : size (er_serving r ∖ {[i]}) + 1 = size (er_serving r)).
  { rewrite size_difference by set_solver. rewrite size_singleton.
    assert (size (er_serving r) <> 0) by (intros E%size_empty_inv; set_solver). lia. }
  split; cbn; try done.
  - rewrite length_app. cbn. lia.
  - intros Hw. apply Forall_app. split; [by apply H2|]. constructor; [|constructor].
    unfold explained. cbn. intros Hr. unfold er_closing in Hok. rewrite Hr, Hw in Hok. cbn in Hok.
    rewrite orb_false_r in Hok. apply orb_true_iff in Hok as [?|[_ ?]%andb_true_iff]; auto.
  - right. left. unfold errCh_cap, server_count in *. lia.
Qed.

(** Later in the run an outcome is explained all the more. *)
Lemma explained_mono r r' l :
  (er_ctx_done r = true -> er_ctx_done r' = true) -> (er_closed r = true -> er_closed r' = true) ->
  Forall (explained r) l -> Forall (explained r') l.
Proof. intros H1 H2. apply Forall_impl. unfold explained. naive_solver. Qed.

Lemma run_step_inv r r' : run_inv r -> run_step server r r' -> run_inv r'.
Proof.
  intros Hi Hs. destruct Hs as [r|r|i result r r' Hs|b r r' Hs|e r r' Hs|r r' Hs].
  - destruct Hi as [H1 H2 [H3 H4] H5 H6 H7]. split; cbn; [done| | | |by left|done].
    + intros Hw. by apply (explained_mono r _ _); [..|apply H2].
    + split; [|done]. by apply (explained_mono r).
    + destruct (er_supervisor r); try done. split; [by left|apply H5].
  - destruct Hi as [H1 H2 [H3 H4] H5 H6 H7]. split; cbn; [done| | | |done|].
    + intros Hw. by apply (explained_mono r _ _); [..|apply H2].
    + split; [|done]. by apply (explained_mono r).
    + destruct (er_supervisor r); [set_solver|split; [by right|set_solver]|set_solver].
    + intros Hc Hm. apply (keeps_metrics (sv_tcpListen server).*1). auto.
  - by eapply server_reports_inv.
  - by eapply supervise_inv.
  - destruct Hi as [H1 H2 [H3 H4] H5 H6 H7]. unfold Wait in Hs. destruct (er_done r) as [|e' rest] eqn:Hd.
    + destruct (er_supervisor r) eqn:Hsup; try done. injection Hs as _ <-. split; rewrite ?Hsup, ?Hd; try done.
    + injection Hs as _ <-. apply list.Forall_cons in H3 as [_ H3]. destruct H4 as [H4|?]; [|done].
      split; cbn; try done. by split; [|left].
  - destruct Hi as [H1 H2 [H3 H4] H5 H6 H7]. unfold metrics_server in Hs. destruct (er_ctx_done r) eqn:Hc; [|done].
    injection Hs as <-. unfold explained in *. rewrite ?Hc in *. split; cbn; rewrite ?Hc; try done.
    unfold metrics_stops. destruct (er_supervisor r); [set_solver|split; [by left|set_solver]|set_solver].
Qed.

Lemma run_reachable_inv r : reachable (run_step server) (eq (run_init server held)) r -> run_inv r.
Proof. apply reachable_inv; [intros ? <-; apply run_init_inv|intros; by eapply run_step_inv]. Qed.
End Invariant.

(** ** Property *)

Section Properties.
Context {Certificate CertPool : Type} (fs : TLSFiles Certificate CertPool).

(** A server can report whenever it wants to: there is room in the channel. *)
Lemma server_never_blocks (server : Server (Certificate := Certificate) (CertPool := CertPool)) held r i result :
  run_inv server held r -> i ∈ er_serving r -> is_ok result = false \/ er_closing r = true ->
  exists r', server_reports server i result r = Some r'.
Proof.
  intros [H1 _ _ _ _ _] Hi Hr. unfold server_reports. rewrite bool_decide_true by done. cbn [andb].
  destruct (Nat.ltb_spec (length (er_errCh r)) (errCh_cap server)) as [_|Hge].
  - cbn [andb]. destruct Hr as [-> | ->]; [|rewrite orb_true_r]; cbn; by eexists.
  - assert (size (er_serving r) <> 0) by (intros E%size_empty_inv; set_solver). lia.
Qed.

(** C36: A started edge runs until the context is done or a server reports, and then
    it stops.  In every reachable state: while neither has happened [Wait]
    blocks; once one has, the supervisor can move, whichever case its [select]
    takes, and its second move is its last: its send on [done] does not block.
    No server ever blocks on the report it makes.  When the supervisor has
    stopped, [Wait] returns at once; the outcome it returns is nil only if the
    context was done, the server was closed, or the outcome was already taken.
    All that can then still be held is the configured metrics server: exactly
    that as long as the context is not done, also when it was a failing server
    that ended the edge, and nothing once the context has ended it. *)
Theorem edge_run_terminates env cfg held server r :
  edge_Start fs env cfg = (held, Ok server) ->
  reachable (run_step server) (eq (run_init server held)) r ->
  (forall runErr r', Wait r = Some (runErr, r') -> er_supervisor r = Stopped /\
     (er_ctx_done r = true \/ size (er_serving r) < server_count server) /\
     (is_ok runErr = true -> er_ctx_done r = true \/ er_closed r = true \/ er_done r = [])) /\
  (er_supervisor r = Stopped -> exists runErr r', Wait r = Some (runErr, r')) /\
  (forall prefer_ctx, er_ctx_done r = true \/ er_errCh r <> [] ->
     match er_supervisor r with
     | Watching => exists runErr r1 r2, supervise server prefer_ctx r = Some r1 /\
         (runErr = Ok tt /\ er_ctx_done r = true \/ head (er_errCh r) = Some runErr) /\
         supervise server prefer_ctx r1 = Some r2 /\ er_supervisor r2 = Stopped /\ er_done r2 = [runErr]
     | Stopping runErr => exists r1, supervise server prefer_ctx r = Some r1 /\
         er_supervisor r1 = Stopped /\ er_done r1 = [runErr]
     | Stopped => True
     end) /\
  (forall i result, i ∈ er_serving r -> is_ok result = false \/ er_closing r = true ->
     exists r', server_reports server i result r = Some r') /\
  (er_supervisor r = Stopped ->
     er_held r ⊆ metrics_held (Edge_MetricsAddr (Config_Edge cfg)) /\
     (er_ctx_done r = false -> er_held r = metrics_held (Edge_MetricsAddr (Config_Edge cfg))) /\
     (er_ctx_done r = true -> exists r', metrics_server r = Some r' /\ er_held r' = ∅)).
Proof.
  intros Hs Hr. pose proof (run_reachable_inv server held r Hr) as Hi. set (addr := Edge_MetricsAddr (Config_Edge cfg)).
  assert (Hrel : edge_stop server held = metrics_held addr /\ (addr <> "" -> MetricsServer ∈ held)).
  { pose proof (edge_Start_spec fs env cfg) as H. rewrite Hs in H. destruct H as (Hl & _ & _ & ->).
    assert (H1 : (sv_tcpListen server).*1 = tcpRoutes (Config_Routes cfg)) by (rewrite Hl, <- list_fmap_compose; apply list_fmap_id).
    split; [unfold edge_stop; rewrite H1; apply stop_leaves|]. intros Hne%metrics_held_iff. fold addr. set_solver. }
  destruct Hrel as [Hrel Hmet]. destruct (Hi) as [H1 H2 [H3 H4] H5 H6 H7].
  assert (Hheld : er_supervisor r = Stopped -> er_held r ⊆ metrics_held addr /\
    (er_ctx_done r = false -> er_held r = metrics_held addr) /\
    (er_ctx_done r = true -> exists r', metrics_server r = Some r' /\ er_held r' = ∅)).
  { intros E. rewrite E, Hrel in H5. pose proof (metrics_held_in addr) as Hin. split_and!; [done| |].
    - intros Hc. apply set_eq. intros x. split; [apply H5|]. intros Hx. pose proof (Hin x Hx) as ->.
      apply H7, Hmet, metrics_held_iff; done.
    - intros Hc. unfold metrics_server. rewrite Hc. eexists. split; [done|]. cbn. unfold metrics_stops.
      apply set_eq. intros x. rewrite elem_of_difference, elem_of_singleton. split; [|by intros ?%elem_of_empty].
      intros [Hx Hne]. by apply H5, Hin in Hx. }
  split_and!; [..|by intros i result ??; eapply server_never_blocks|done].
  - intros runErr r' Hw. unfold Wait in Hw. destruct H4 as [Hst|Hd].
    + split; [done|]. split; [rewrite Hst in H6; destruct H6 as [?|[?|[? _]]]; auto; done|].
      intros Hok. destruct (er_done r) as [|e rest]; [by do 2 right|]. injection Hw as -> _.
      apply list.Forall_cons in H3 as [He _]. destruct (He Hok); auto.
    + rewrite Hd in *. destruct (er_supervisor r) eqn:Hsup; try done. split; [done|]. split; [|by do 2 right].
      destruct H6 as [?|[?|[? _]]]; auto; done.
  - intros Hst. unfold Wait. rewrite Hst. destruct (er_done r); by do 2 eexists.
  - intros b Hcause. unfold supervise. destruct (er_supervisor r) as [|e|] eqn:Hsup; [..|done].
    + destruct H4 as [?|Hd]; [done|]. rewrite Hd. destruct (er_errCh r) as [|e ch].
      * destruct Hcause as [-> |?]; [|done]. do 3 eexists. cbn. by split_and!; [|left| | |].
      * destruct (er_ctx_done r && b) eqn:Hb; do 3 eexists; cbn; split_and!; try done; [|by right].
        left. by apply andb_true_iff in Hb as [-> _].
    + destruct H4 as [?|Hd]; [done|]. rewrite Hd. by eexists.
Qed.
End Properties.

(** ** Witness: the data server fails *)

Definition demo_idle : EdgeRun := run_init demo_server demo_started.1.
Definition demo_failed : EdgeRun :=
  default demo_idle (server_reports demo_server 1 (Err "accept: too many open files"%string) demo_idle).

Lemma edge_run_terminates_witness :
  er_supervisor demo_failed = Watching /\
  exists r1 r2, supervise demo_server true demo_failed = Some r1 /\
    supervise demo_server true r1 = Some r2 /\ er_supervisor r2 = Stopped /\
    er_done r2 = [Err "accept: too many open files"%string].
Proof.
  assert (Hr : reachable (run_step demo_server) (eq (run_init demo_server demo_started.1)) demo_failed).
  { exists demo_idle. split; [reflexivity|]. apply rtc_once. apply (rn_server demo_server 1 (Err "accept: too many open files"%string)).
    vm_compute. reflexivity. }
  destruct (edge_run_terminates demo_files demo_env demo_tls_config _ demo_server demo_failed demo_starts Hr)
    as (_ & _ & H & _).
  assert (Hw : er_supervisor demo_failed = Watching) by (vm_compute; reflexivity).
  assert (Hc : er_errCh demo_failed = [Err "accept: too many open files"%string]) by (vm_compute; reflexivity).
  assert (Hx : er_ctx_done demo_failed = false) by (vm_compute; reflexivity).
  split; [exact Hw|]. specialize (H true). rewrite Hw, Hc, Hx in H. clear Hw Hc Hx Hr.
  generalize dependent demo_failed. generalize demo_server. intros server r H.
  destruct H as (e & r1 & r2 & H1 & [[_ ?]|He] & H2 & H3 & H4); [right; discriminate|discriminate|].
  injection He as <-. exists r1, r2. exact (conj H1 (conj H2 (conj H3 H4))).
Defined.
