(* ===== verification/WireTyping.v ===== *)
(** * The tunnel is well typed

    Frames are typed by the protocol's grammar ([frame_wf]).  The calls of
    [internal/datatunnel] as data, what it means that a call is well typed, and
    type soundness: a link of well-typed sessions only ever writes frames its
    own codec accepts, whatever bytes its peer sends.  The users of sessions
    (the relays, the body pump, the edge's handler) make well-typed calls. *)
From S2P Require Import Prelude GoString GoStd Msgpack Config TunnelEnvelope Link FlowControl SessionUser Relay WsRelay EdgeUnary StreamPipe Tunnels.
From S2P Require ConnectorTunnel EdgeTunnel.

#[local] Open Scope Z_scope.

(** A frame that may wait in the queue of session [id]. *)
Record queued (id : string) (f : Frame) : Prop := {
  q_wf : frame_wf f;
  q_id : Frame_SessionID f = id;
  q_not_open : Frame_Type f <> FrameOpen;
  q_not_window : Frame_Type f <> FrameWindow
}.

Record session_typed (s : Session) : Prop := {
  st_id : ident (Session_id s);
  st_recv : Forall (queued (Session_id s)) (Session_recv s)
}.

Section Typing.
Context {MF : Msgpack Frame}.

Record link_typed (l : Link) : Prop := {
  lt_wf : link_wf l;
  lt_store : forall r s, Link_store l !! r = Some s -> session_typed s
}.

(** The messages that carry [fs]: a frame the codec refuses carries nothing. *)
Definition encodings (fs : list Frame) : list string :=
  omap (fun f => match EncodeFrame f with Ok data => Some data | Err _ => None end) fs.

(** ** Calls *)

(** The calls on a link and its sessions; for a message, as [Run] reads it. *)
Inductive call :=
| CallMessage (drop isBinary : bool) (data : string)
| CallOpen (frame : Frame)
| CallSendData (prefer_done : bool) (r : ref) (kind payload : string)
| CallSendEOF (r : ref)
| CallAckData (r : ref)
| CallClose (r : ref)
| CallCloseWithError (message : string) (r : ref)
| CallCloseWithCode (code : Z) (text : string) (r : ref)
| CallTryClaim (r : ref)
| CallRecv (r : ref)
| CallLinkClose.

Definition run_call (onOpen : option (Frame -> Link -> Link)) (c : call) (l : Link) : Link :=
  match c with
  | CallMessage drop isBinary data => Run_message onOpen drop isBinary data l
  | CallOpen frame => (Open frame l).1
  | CallSendData prefer_done r kind payload => (SendData prefer_done r kind payload l).1
  | CallSendEOF r => (SendEOF r l).1
  | CallAckData r => AckData r l
  | CallClose r => Session_Close r l
  | CallCloseWithError message r => CloseWithError message r l
  | CallCloseWithCode code text r => CloseWithCode code text r l
  | CallTryClaim r => (TryClaim r l).1
  | CallRecv r => match Recv r l with Some (_, l') => l' | None => l end
  | CallLinkClose => Close l
  end.

(** The callback of the link's open frames, and the frames it writes. *)
Class OpenWrites (onOpen : option (Frame -> Link -> Link)) := open_writes : Frame -> Link -> list Frame.

(** The frames a call writes. *)
Definition writes (onOpen : option (Frame -> Link -> Link)) {OW : OpenWrites onOpen} (c : call) (l : Link) : list Frame :=
  let on r f := match Link_store l !! r with Some s => f s | None => [] end in
  match c with
  | CallMessage drop isBinary data =>
      if negb isBinary then []
      else
        match DecodeFrame data with
        | Err _ => []
        | Ok frame =>
            if String.eqb (Frame_Type frame) FrameOpen then
              match onOpen with Some _ => open_writes frame l | None => [] end
            else if String.eqb (Frame_Type frame) FrameWindow then []
            else
              match Link_sessions l !! Frame_SessionID frame ≫= fun r => Link_store l !! r with
              | Some s =>
                  if (length (Session_recv s) <? recvCap)%nat || Session_done s then []
                  else [errorFrame (Frame_SessionID frame) "flow control violation"]
              | None => []
              end
        end
  | CallOpen frame => match Link_sessions l !! Frame_SessionID frame with Some _ => [] | None => [frame] end
  | CallSendData prefer_done r kind payload =>
      on r (fun s => if (0 <? Session_credit s)%nat && negb (Session_done s && prefer_done)
                     then [dataFrame (Session_id s) kind payload] else [])
  | CallSendEOF r => on r (fun s => [eofFrame (Session_id s)])
  | CallAckData r =>
      on r (fun s => if ackThreshold <=? Session_consumed s + 1
                     then [windowFrame (Session_id s) (Session_consumed s + 1)] else [])
  | CallClose r => on r (fun s => [closeFrame (Session_id s) 0 ""])
  | CallCloseWithError message r => on r (fun s => [errorFrame (Session_id s) message])
  | CallCloseWithCode code text r => on r (fun s => [closeFrame (Session_id s) code text])
  | CallTryClaim _ | CallRecv _ | CallLinkClose => []
  end.

(** The types of the arguments: a message may be anything. *)
Definition call_typed (l : Link) (c : call) : Prop :=
  let live r := is_Some (Link_store l !! r) in
  match c with
  | CallMessage _ _ _ | CallLinkClose => True
  | CallOpen frame => frame_wf frame
  | CallSendData _ r kind _ => live r /\ (kind = DataBinary \/ kind = DataText)
  | CallCloseWithError message r => live r /\ message <> "" /\ avoids crlf message
  | CallCloseWithCode code _ r => live r /\ (code = 0 \/ 1000 <= code <= 4999)
  | CallSendEOF r | CallAckData r | CallClose r | CallTryClaim r | CallRecv r => live r
  end.

(** ** What a call must achieve *)

(** Writing [fs]: each message is encoded, and reaches the connection if it is
    open. *)
Definition emits (fs : list Frame) (l l' : Link) : Prop :=
  Link_out l' = Link_out l ++ (if Link_open l then encodings fs else []).

Record sound (fs : list Frame) (l l' : Link) : Prop := {
  so_typed : link_typed l';
  so_frames : Forall frame_wf fs;
  so_out : emits fs l l'
}.
End Typing.

(** The promise of a callback: sound on every open frame of the grammar. *)
Class OpenTyped `{Msgpack Frame} (onOpen : option (Frame -> Link -> Link)) `{!OpenWrites onOpen} : Prop :=
  open_sound : forall f open l, onOpen = Some open -> link_typed l -> frame_wf f -> Frame_Type f = FrameOpen ->
    sound (open_writes f l) l (open f l).

(** ** Lemmas *)

Section Soundness.
Context {MF : Msgpack Frame} {ML : MsgpackLaws Frame}.
#[local] Set Default Proof Using "Type*".

Lemma encodings_app fs gs : encodings (fs ++ gs) = encodings fs ++ encodings gs.
Proof using Type. apply omap_app. Qed.

(** Every frame of the grammar has its message, and it is read back. *)
Lemma encodings_wf fs :
  Forall frame_wf fs -> Forall2 (fun data f => frame_wf f /\ EncodeFrame f = Ok data /\ DecodeFrame data = Ok f) (encodings fs) fs.
Proof.
  induction 1 as [|f fs Hf _ IH]; [constructor|]. unfold encodings. cbn.
  destruct (encode_validated_total Frame_Validate f) as [data Hd]; [by apply Frame_Validate_iff|].
  unfold EncodeFrame. rewrite Hd. constructor; [|exact IH]. split_and!; [done..|].
  by apply (decode_encode_validated Frame_Validate).
Qed.

Lemma emits_nil l l' : Link_out l' = Link_out l -> emits [] l l'.
Proof using Type. intros H. unfold emits. rewrite H. destruct (Link_open l); by rewrite app_nil_r. Qed.

Lemma sound_still l l' : link_typed l' -> Link_out l' = Link_out l -> sound [] l l'.
Proof using Type. intros H1 H2. split; [done|constructor|by apply emits_nil]. Qed.

Lemma sound_refl l : link_typed l -> sound [] l l.
Proof using Type. intros H. by apply sound_still. Qed.

Lemma sound_trans fs gs l1 l2 l3 :
  Link_open l2 = Link_open l1 -> sound fs l1 l2 -> sound gs l2 l3 -> sound (fs ++ gs) l1 l3.
Proof using Type.
  intros Ho [H1 H2 H3] [K1 K2 K3]. split; [done|by apply Forall_app|]. unfold emits in *.
  rewrite K3, H3, Ho, <- app_assoc. destruct (Link_open l1); [by rewrite encodings_app|done].
Qed.

(** A step that writes nothing after one that writes. *)
Lemma sound_quiet fs l1 l2 l3 :
  sound fs l1 l2 -> link_typed l3 -> Link_out l3 = Link_out l2 -> sound fs l1 l3.
Proof using Type. intros [_ H2 H3] H Ho. split; [done..|]. unfold emits in *. by rewrite Ho. Qed.

Lemma link_typed_store l l' :
  link_typed l -> link_wf l' -> Link_store l' = Link_store l -> link_typed l'.
Proof using Type. intros [_ H] Hwf Hs. split; [done|]. by rewrite Hs. Qed.

(** Writing a frame of the grammar never fails for the frame's sake. *)
Lemma WriteFrame_sound frame l : link_typed l -> frame_wf frame -> sound [frame] l (WriteFrame frame l).1.
Proof.
  intros Hl Hf. split; [|by constructor|].
  - eapply link_typed_store; [done|apply WriteFrame_wf, Hl|apply WriteFrame_store].
  - unfold emits, WriteFrame, encodings. cbn.
    destruct (encode_validated_total Frame_Validate frame) as [data Hd]; [by apply Frame_Validate_iff|].
    unfold EncodeFrame. rewrite Hd. destruct (Link_open l); [done|]. by rewrite app_nil_r.
Qed.

Lemma WriteFrame_open frame l : Link_open (WriteFrame frame l).1 = Link_open l.
Proof using Type. unfold WriteFrame. destruct (EncodeFrame frame); [|done]. by destruct (Link_open l) eqn:E. Qed.

(** Updating an object. *)
Lemma on_session_typed r f l :
  link_typed l -> link_wf (on_session r f l) -> (forall s, Link_store l !! r = Some s -> session_typed s -> session_typed (f s)) ->
  link_typed (on_session r f l).
Proof using Type.
  intros Hl Hwf Hf. split; [done|]. intros r' s'. cbn. rewrite lookup_alter.
  destruct (decide (r = r')) as [<-|]; [|apply Hl].
  destruct (Link_store l !! r) as [s|] eqn:Hs; [|done]. intros [= <-]. by apply Hf, (lt_store _ Hl r).
Qed.

Lemma session_typed_same s s' :
  Session_id s' = Session_id s -> Session_recv s' = Session_recv s -> session_typed s -> session_typed s'.
Proof using Type. intros Hi Hr [H1 H2]. split; by rewrite Hi, ?Hr. Qed.

Lemma removeSession_typed id l : link_typed l -> link_typed (removeSession id l).
Proof using Type.
  intros Hl. pose proof (removeSession_wf id l (lt_wf _ Hl)) as Hwf. unfold removeSession in *.
  destruct (Link_sessions l !! id) as [r|]; [|by apply (link_typed_store l)].
  split; [done|]. intros r' s'. cbn. rewrite lookup_alter. destruct (decide (r = r')) as [<-|]; [|apply Hl].
  destruct (Link_store l !! r) as [s|] eqn:Hs; [|done]. intros [= <-].
  by apply (session_typed_same s), (lt_store _ Hl r).
Qed.

Lemma removeSession_out id l : Link_out (removeSession id l) = Link_out l.
Proof using Type. unfold removeSession. by destruct (_ !! id). Qed.

Lemma addSession_typed id l : link_typed l -> ident id -> link_typed (addSession id l).1.
Proof using Type.
  intros Hl Hid. pose proof (addSession_wf id l (lt_wf _ Hl)) as Hwf. unfold addSession in *.
  destruct (Link_sessions l !! id); [done|]. split; [done|]. intros r s. cbn. rewrite lookup_insert.
  case_decide; [|apply Hl]. intros [= <-]. by split; [|constructor].
Qed.

Lemma addSession_fields id l :
  Link_out (addSession id l).1 = Link_out l /\ Link_open (addSession id l).1 = Link_open l.
Proof using Type. unfold addSession. by destruct (_ !! id). Qed.

Lemma closeFrame_wf id code text :
  ident id -> code = 0 \/ 1000 <= code <= 4999 -> frame_wf (closeFrame id code text).
Proof using Type. intros Hi Hc. split_and!; [done|done|]. do 4 right. by left. Qed.

Lemma eofFrame_wf id : ident id -> frame_wf (eofFrame id).
Proof using Type. intros Hi. split_and!; [done|done|]. do 2 right. by left. Qed.

Lemma DecodeFrame_wf data f : DecodeFrame data = Ok f -> frame_wf f.
Proof using Type. intros H. by eapply Frame_Validate_iff, decode_validated_valid. Qed.

(** Closing a session with any frame of the grammar. *)
Lemma closeWith_sound frame r s l :
  link_typed l -> Link_store l !! r = Some s -> frame_wf (frame (Session_id s)) ->
  sound [frame (Session_id s)] l (closeWith frame r l).
Proof.
  intros Hl Hs Hf. unfold closeWith. rewrite Hs. pose proof (WriteFrame_sound (frame (Session_id s)) l Hl Hf) as Hw.
  destruct (WriteFrame _ l) as [l1 e]. cbn [fst] in Hw. apply (sound_quiet _ _ l1); [done| |apply removeSession_out].
  apply removeSession_typed, Hw.
Qed.
End Soundness.

(** ** Each call is sound *)

Section Calls.
Context {MF : Msgpack Frame} {ML : MsgpackLaws Frame}.
Context (onOpen : option (Frame -> Link -> Link)) {OW : OpenWrites onOpen} {OT : OpenTyped onOpen}.
#[local] Set Default Proof Using "Type*".

Lemma session_typed_at l r s : link_typed l -> Link_store l !! r = Some s -> session_typed s.
Proof using Type. intros Hl. apply Hl. Qed.

Lemma dispatch_sound drop frame l :
  link_typed l -> frame_wf frame -> Frame_Type frame <> FrameOpen ->
  sound (if String.eqb (Frame_Type frame) FrameWindow then []
         else match Link_sessions l !! Frame_SessionID frame ≫= fun r => Link_store l !! r with
              | Some s => if (length (Session_recv s) <? recvCap)%nat || Session_done s then []
                          else [errorFrame (Frame_SessionID frame) "flow control violation"]
              | None => []
              end) l (dispatch drop frame l).
Proof using ML.
  intros Hl Hf Ho. pose proof (dispatch_touches drop frame l (lt_wf _ Hl)) as (Hwf & _).
  unfold dispatch, deliver in *. destruct (Link_sessions l !! Frame_SessionID frame) as [r|] eqn:Hr; cbn [mbind option_bind].
  2: { destruct (String.eqb _ _); by apply sound_refl. }
  destruct (wf_registered _ (lt_wf _ Hl) _ _ Hr) as (s & Hs & Hid & Hd). rewrite Hs, Hd in *.
  destruct (String.eqb_spec (Frame_Type frame) FrameWindow) as [Hw|Hw].
  { apply sound_still; [|done]. apply on_session_typed; [done..|]. intros s0 _. by apply session_typed_same. }
  rewrite orb_false_r. cbn [negb andb] in *. rewrite andb_true_r in *.
  destruct (length (Session_recv s) <? recvCap)%nat.
  - apply sound_still; [|done]. apply on_session_typed; [done..|]. intros s0 Hs0 [H1 H2]. cbn in *.
    assert (s0 = s) as -> by congruence. split; [done|]. apply Forall_app. split; [done|]. constructor; [|constructor].
    by split.
  - pose proof (WriteFrame_sound (errorFrame (Frame_SessionID frame) "flow control violation") l Hl) as Hws.
    destruct (WriteFrame _ l) as [l1 e]. cbn [fst] in Hws.
    specialize (Hws ltac:(apply errorFrame_wf; [apply Hf|done|by apply ContainsAny_avoids])).
    apply (sound_quiet _ _ l1); [done| |apply removeSession_out]. apply removeSession_typed, Hws.
Qed.

Lemma message_sound drop isBinary data l :
  link_typed l -> sound (writes onOpen (CallMessage drop isBinary data) l) l (Run_message onOpen drop isBinary data l).
Proof.
  intros Hl. unfold Run_message, writes. destruct (negb isBinary); [by apply sound_refl|].
  destruct (DecodeFrame data) as [frame|] eqn:Hd; [|by apply sound_refl]. apply DecodeFrame_wf in Hd.
  destruct (String.eqb_spec (Frame_Type frame) FrameOpen) as [Ho|Ho]; [|by apply dispatch_sound].
  destruct onOpen as [f|] eqn:Hf; [|by apply sound_refl]. by apply (open_sound frame f l).
Qed.

Lemma Open_sound frame l :
  link_typed l -> frame_wf frame ->
  sound (match Link_sessions l !! Frame_SessionID frame with Some _ => [] | None => [frame] end) l (Open frame l).1.
Proof using ML.
  intros Hl Hf. unfold Open. pose proof (addSession_typed (Frame_SessionID frame) l Hl ltac:(apply Hf)) as Ha.
  destruct (addSession_fields (Frame_SessionID frame) l) as [Hout Hopen].
  unfold addSession in *. destruct (Link_sessions l !! Frame_SessionID frame) as [r|]; [by apply sound_refl|].
  cbn [fst] in *. set (l1 := mkLink _ _ _ _ _) in *. pose proof (WriteFrame_sound frame l1 Ha Hf) as Hw.
  assert (Hs : sound [frame] l (WriteFrame frame l1).1).
  { apply (sound_trans [] [frame] l l1); [done|by apply sound_still|done]. }
  destruct (WriteFrame frame l1) as [l2 [[]|e]]; [done|]. cbn [fst] in *.
  apply (sound_quiet _ _ l2); [done| |apply removeSession_out]. apply removeSession_typed, Hs.
Qed.

Lemma SendData_sound b r s kind payload l :
  link_typed l -> Link_store l !! r = Some s -> kind = DataBinary \/ kind = DataText ->
  sound (if (0 <? Session_credit s)%nat && negb (Session_done s && b) then [dataFrame (Session_id s) kind payload] else [])
    l (SendData b r kind payload l).1.
Proof using ML.
  intros Hl Hs Hk. pose proof (SendData_touches b r s kind payload l Hs (lt_wf _ Hl)) as (Hwf & _).
  unfold SendData in *. rewrite Hs in *. destruct (_ && _); [|destruct (Session_done s); by apply sound_refl].
  rewrite WriteFrame_on_session in *. cbn [fst] in *.
  pose proof (WriteFrame_sound (dataFrame (Session_id s) kind payload) l Hl) as Hw.
  specialize (Hw ltac:(apply dataFrame_wf; [by apply (session_typed_at l r)|done])).
  apply (sound_quiet _ _ _ _ Hw); [|done]. apply on_session_typed; [apply Hw|done|]. intros s0 _. by apply session_typed_same.
Qed.

Lemma AckData_sound r s l :
  link_typed l -> Link_store l !! r = Some s ->
  sound (if ackThreshold <=? Session_consumed s + 1 then [windowFrame (Session_id s) (Session_consumed s + 1)] else [])
    l (AckData r l).
Proof using ML.
  intros Hl Hs. pose proof (AckData_touches r s l Hs (lt_wf _ Hl)) as (Hwf & _). rewrite (AckData_eq r s l Hs) in *.
  destruct (Z.leb_spec ackThreshold (Session_consumed s + 1)) as [Hge|_].
  - pose proof (WriteFrame_sound (windowFrame (Session_id s) (Session_consumed s + 1)) l Hl) as Hw.
    specialize (Hw ltac:(apply windowFrame_wf; [by apply (session_typed_at l r)|unfold ackThreshold in *; lia])).
    apply (sound_quiet _ _ _ _ Hw); [|done]. apply on_session_typed; [apply Hw|done|]. intros s0 _. by apply session_typed_same.
  - apply sound_still; [|done]. apply on_session_typed; [done..|]. intros s0 _. by apply session_typed_same.
Qed.

Lemma Recv_sound r l : link_typed l -> sound [] l (match Recv r l with Some (_, l') => l' | None => l end).
Proof using ML.
  intros Hl. destruct (Recv r l) as [[f l']|] eqn:E; [|by apply sound_refl]. unfold Recv in E.
  destruct (Link_store l !! r) as [s|] eqn:Hs; [|done].
  pose proof (session_op_touches _ _ _ (op_recv r s f l l' Hs ltac:(unfold Recv; by rewrite Hs)) (lt_wf _ Hl)) as (Hwf & _).
  destruct (Session_recv s) as [|f' q] eqn:Hq; [done|]. injection E as <- <-.
  apply sound_still; [|done]. apply on_session_typed; [done..|]. intros s0 Hs0 [H1 H2].
  assert (s0 = s) as -> by congruence. split; [done|]. rewrite Hq in H2. by inversion H2.
Qed.

Lemma TryClaim_sound r l : link_typed l -> sound [] l (TryClaim r l).1.
Proof using ML.
  intros Hl. unfold TryClaim. destruct (Link_store l !! r) as [s|] eqn:Hs; [|by apply sound_refl]. cbn [fst].
  pose proof (session_op_touches _ _ _ (op_claim r s l Hs) (lt_wf _ Hl)) as (Hwf & _).
  unfold TryClaim in Hwf. rewrite Hs in Hwf. apply sound_still; [|done].
  apply on_session_typed; [done..|]. intros s0 _. by apply session_typed_same.
Qed.

Lemma Close_sound l : link_typed l -> sound [] l (Close l).
Proof using Type.
  intros Hl. destruct (Close_fields l) as (_ & _ & Hout & _). apply sound_still; [|done].
  split; [apply Close_wf, Hl|]. intros r s. rewrite Close_store. case_bool_decide; [|apply Hl].
  destruct (Link_store l !! r) as [s0|] eqn:Hs; [|done]. intros [= <-]. by apply (session_typed_same s0), (lt_store _ Hl r).
Qed.

Lemma run_call_sound c l : link_typed l -> call_typed l c -> sound (writes onOpen c l) l (run_call onOpen c l).
Proof.
  intros Hl Hc. assert (Hid : forall r s, Link_store l !! r = Some s -> ident (Session_id s)) by (intros; by apply (session_typed_at l r)).
  destruct c; cbn [call_typed run_call writes] in *.
  - by apply message_sound.
  - by apply Open_sound.
  - destruct Hc as [[s Hs] Hc]. rewrite Hs. by apply SendData_sound.
  - destruct Hc as [s Hs]. unfold SendEOF. rewrite Hs. apply WriteFrame_sound, eofFrame_wf; eauto.
  - destruct Hc as [s Hs]. rewrite Hs. by apply AckData_sound.
  - destruct Hc as [s Hs]. rewrite Hs. by apply (closeWith_sound (fun id => closeFrame id 0 "")), closeFrame_wf; eauto.
  - destruct Hc as [[s Hs] Hc]. rewrite Hs. apply (closeWith_sound (fun id => errorFrame id message)); [done..|].
    apply errorFrame_wf; [eauto|apply Hc..].
  - destruct Hc as [[s Hs] Hc]. rewrite Hs. by apply (closeWith_sound (fun id => closeFrame id code text)), closeFrame_wf; eauto.
  - by apply TryClaim_sound.
  - by apply Recv_sound.
  - by apply Close_sound.
Qed.
End Calls.

(** ** The callbacks of the two processes *)

#[export] Instance no_open_writes : OpenWrites None := fun _ _ => [].
#[export] Instance edge_open_writes : OpenWrites (Some edge_onOpen) := fun _ _ => [].
#[export] Instance connector_open_writes `{!Msgpack Frame} routes : OpenWrites (Some (connector_onOpen routes)) := fun f l =>
  let served := match routes !! Frame_Route f with
    | Some r => String.eqb (Route_Mode (ConnectorTunnel.sr_cfg r)) (Frame_Kind f) | None => false end in
  if negb served then [errorFrame (Frame_SessionID f) "route is not configured"]
  else match Link_sessions l !! Frame_SessionID f with
       | Some _ => [errorFrame (Frame_SessionID f) "session already exists"] | None => [] end.

Section Callbacks.
Context {MF : Msgpack Frame} {ML : MsgpackLaws Frame}.
#[local] Set Default Proof Using "Type*".

#[export] Instance no_open_typed : OpenTyped None.
Proof. done. Qed.

Lemma accept_sound id l : link_typed l -> ident id -> sound [] l (addSession id l).1.
Proof. intros Hl Hi. apply sound_still; [by apply addSession_typed|apply addSession_fields]. Qed.

#[export] Instance edge_open_typed : OpenTyped (Some edge_onOpen).
Proof.
  intros f open l [= <-] Hl Hf _. unfold edge_onOpen, EdgeTunnel.acceptStreamOpen.
  destruct (negb _); [by apply sound_refl|]. pose proof (accept_sound (Frame_SessionID f) l Hl ltac:(apply Hf)) as Ha.
  unfold Accept. by destruct (addSession _ l) as [l' [s|e]].
Qed.

#[export] Instance connector_open_typed routes : OpenTyped (Some (connector_onOpen routes)).
Proof.
  intros f open l [= <-] Hl Hf _. assert (Hi : ident (Frame_SessionID f)) by apply Hf.
  assert (Hrej : forall msg, msg <> "" -> ContainsAny msg crlf = false ->
    sound [errorFrame (Frame_SessionID f) msg] l (WriteFrame (errorFrame (Frame_SessionID f) msg) l).1).
  { intros msg Hm Hc. apply WriteFrame_sound; [done|]. apply errorFrame_wf; [done..|by apply ContainsAny_avoids]. }
  unfold connector_onOpen, ConnectorTunnel.handleOpen, open_writes, connector_open_writes.
  destruct (routes !! Frame_Route f) as [r|]; [|by apply Hrej]. destruct (String.eqb _ _); cbn [negb]; [|by apply Hrej].
  pose proof (accept_sound (Frame_SessionID f) l Hl Hi) as Ha. specialize (Hrej "session already exists").
  unfold Accept, addSession in *. destruct (Link_sessions l !! Frame_SessionID f); [by apply Hrej|done].
Qed.
End Callbacks.

(** ** The users of sessions *)

Section Users.
Context {MF : Msgpack Frame} {ML : MsgpackLaws Frame} (onOpen : option (Frame -> Link -> Link)) {OW : OpenWrites onOpen} (id : string).

Inductive typed_call : Link -> Link -> Prop :=
| typed_call_intro c l : call_typed l c -> typed_call l (run_call onOpen c l).

(** A user moves by well-typed calls on its link. *)
Definition typed_calls (x x' : Side) : Prop := rtc typed_call (s_link x) (s_link x').

#[local] Instance typed_calls_preorder : PreOrder typed_calls.
Proof. split; [intros x; apply rtc_refl|intros x y z H1 H2; unfold typed_calls in *; by etrans]. Qed.

Lemma calls_SendData b kind payload x :
  kind = DataBinary \/ kind = DataText -> typed_calls x (side_SendData id b kind payload x).1.
Proof.
  intros Hk. unfold side_SendData. destruct (s_ref x) as [r|]; [|reflexivity].
  destruct (Link_store (s_link x) !! r) as [s|] eqn:Hs.
  - pose proof (typed_call_intro (CallSendData b r kind payload) (s_link x) (conj (ex_intro _ s Hs) Hk)) as H.
    cbn [run_call] in H. destruct (SendData b r kind payload (s_link x)) as [l' e]. by apply rtc_once.
  - unfold SendData. rewrite Hs. apply rtc_refl.
Qed.

Lemma calls_SendEOF x : typed_calls x (side_SendEOF id x).1.
Proof.
  unfold side_SendEOF. destruct (s_ref x) as [r|]; [|reflexivity].
  destruct (Link_store (s_link x) !! r) as [s|] eqn:Hs.
  - pose proof (typed_call_intro (CallSendEOF r) (s_link x) (ex_intro _ s Hs)) as H.
    cbn [run_call] in H. destruct (SendEOF r (s_link x)) as [l' e]. by apply rtc_once.
  - unfold SendEOF. rewrite Hs. apply rtc_refl.
Qed.

Lemma calls_close_code code text x :
  code = 0 \/ 1000 <= code <= 4999 -> typed_calls x (side_close id (fun i => closeFrame i code text) x).
Proof.
  intros Hc. unfold side_close. destruct (s_ref x) as [r|]; [|reflexivity].
  destruct (Link_store (s_link x) !! r) as [s|] eqn:Hs.
  - apply rtc_once. exact (typed_call_intro (CallCloseWithCode code text r) (s_link x) (conj (ex_intro _ s Hs) Hc)).
  - unfold typed_calls. cbn. unfold closeWith. rewrite Hs. apply rtc_refl.
Qed.

Lemma calls_close_error message x :
  message <> "" -> ContainsAny message crlf = false -> typed_calls x (side_close id (fun i => errorFrame i message) x).
Proof.
  intros Hm Hc%ContainsAny_avoids. unfold side_close. destruct (s_ref x) as [r|]; [|reflexivity].
  destruct (Link_store (s_link x) !! r) as [s|] eqn:Hs.
  - apply rtc_once. exact (typed_call_intro (CallCloseWithError message r) (s_link x) (conj (ex_intro _ s Hs) (conj Hm Hc))).
  - unfold typed_calls. cbn. unfold closeWith. rewrite Hs. apply rtc_refl.
Qed.

Lemma calls_Recv x f x' : side_Recv x = Some (f, x') -> typed_calls x x'.
Proof.
  unfold side_Recv. destruct (s_ref x) as [r|]; [|done]. destruct (Recv r (s_link x)) as [[f' l']|] eqn:E; [|done].
  intros [= _ <-]. assert (Hs : is_Some (Link_store (s_link x) !! r)).
  { unfold Recv in E. destruct (Link_store (s_link x) !! r); [by eexists|done]. }
  pose proof (typed_call_intro (CallRecv r) (s_link x) Hs) as H. cbn [run_call] in H. rewrite E in H. by apply rtc_once.
Qed.

Lemma calls_AckData x : typed_calls x (side_AckData x).
Proof.
  unfold side_AckData. destruct (s_ref x) as [r|]; [|reflexivity].
  destruct (Link_store (s_link x) !! r) as [s|] eqn:Hs.
  - apply rtc_once. exact (typed_call_intro (CallAckData r) (s_link x) (ex_intro _ s Hs)).
  - unfold typed_calls. cbn. unfold AckData. rewrite Hs. apply rtc_refl.
Qed.

(** Every return closes the session without a code. *)
Lemma calls_return x : typed_calls x (side_close id (fun i => closeFrame i 0 "") x).
Proof. apply calls_close_code. by left. Qed.

Lemma relay_step_typed r r' : relay_step id r r' -> typed_calls (rl_side r) (rl_side r').
Proof.
  intros [data err r0 r1 _ _ _ H|b now r0 r1 H|case now r0 r1 _ _ H].
  - unfold reader_read in H. destruct (rl_reader r0); try done. injection H as <-.
    destruct (String.eqb data ""); [destruct err|]; reflexivity.
  - unfold reader_send in H. destruct (rl_reader r0) as [|payload err|]; try done.
    pose proof (calls_SendData b DataBinary payload (rl_side r0) (or_introl eq_refl)) as Hc.
    destruct (side_SendData _ _ _ _ _) as [x [|[[]|e]]]; [done|..]; injection H as <-; [destruct err|]; exact Hc.
  - destruct case as [| | |write|]; cbn [RelayConn_turn] in H.
    + injection H as <-. apply calls_return.
    + destruct (side_done _); [|done]. injection H as <-. apply calls_return.
    + destruct (rl_result r0) as [[| |]|]; try done.
      2, 3: injection H as <-; apply (calls_return (rl_side r0)).
      pose proof (calls_SendEOF (rl_side r0)) as Hc. destruct (side_SendEOF id (rl_side r0)) as [x ok].
      injection H as <-. destruct (negb ok || rl_remoteEOF r0); [|exact Hc]. etrans; [exact Hc|apply (calls_return x)].
    + destruct (side_Recv _) as [[f x]|] eqn:Hf; [|done]. apply calls_Recv in Hf.
      destruct (String.eqb _ FrameData); [destruct write; injection H as <-|].
      * etrans; [exact Hf|apply (calls_return x)].
      * etrans; [exact Hf|apply (calls_AckData x)].
      * destruct (String.eqb _ FrameEOF); [|destruct (_ || _)]; injection H as <-; [| |exact Hf].
        -- destruct (rl_localEOF _); [|exact Hf]. etrans; [exact Hf|apply (calls_return x)].
        -- etrans; [exact Hf|apply (calls_return x)].
    + destruct (idle_fires _ _); [|done]. destruct (idle_expired _ _) as [[] g]; injection H as <-; [|reflexivity].
      apply (calls_return (rl_side r0)).
Qed.

(** The WebSocket library reports the close codes of the protocol. *)
Definition code_reported (e : option ws_error) : Prop :=
  forall code text, e = Some (CloseError code text) -> 1000 <= code <= 4999.

Lemma ws_step_typed r r' :
  ws_step id r r' -> ws_inv r -> code_reported (wr_result r) -> typed_calls (wr_side r) (wr_side r').
Proof.
  intros H0 Hinv Hcode. destruct H0 as [result r0 r1 _ _ H|b now r0 r1 H|case now r0 r1 _ _ H].
  - unfold ws_reader_read in H. destruct (wr_reader r0); try done.
    destruct result as [e|[t payload]]; [|destruct (kind_of_type t)]; injection H as <-; reflexivity.
  - unfold ws_reader_send in H. pose proof (wi_kind _ Hinv) as Hk. destruct (wr_reader r0) as [|kind payload|]; try done.
    pose proof (calls_SendData b kind payload (wr_side r0) Hk) as Hc.
    destruct (side_SendData _ _ _ _ _) as [x [|[[]|e]]]; [done|..]; injection H as <-; exact Hc.
  - destruct case as [| | |write_ok|]; cbn [RelayWebSocket_turn] in H.
    + injection H as <-. apply calls_return.
    + destruct (side_done _); [|done]. injection H as <-. apply calls_return.
    + destruct (wr_result r0) as [[code text| |]|] eqn:Hres; try done; injection H as <-; try apply (calls_return (wr_side r0)).
      pose proof (calls_close_code code text (wr_side r0) (or_intror (Hcode _ _ eq_refl))) as Hc.
      etrans; [exact Hc|]. apply (calls_return (side_close id (fun i => closeFrame i code text) (wr_side r0))).
    + destruct (side_Recv _) as [[f x]|] eqn:Hf; [|done]. apply calls_Recv in Hf.
      assert (Hret : typed_calls (wr_side r0) (side_close id (fun i => closeFrame i 0 "") x))
        by (etrans; [exact Hf|apply (calls_return x)]).
      destruct (String.eqb _ FrameData); [destruct write_ok; injection H as <-; [|exact Hret]|].
      * etrans; [exact Hf|apply (calls_AckData x)].
      * destruct (String.eqb _ FrameClose); [injection H as <-; destruct (_ =? _); exact Hret|].
        destruct (_ || _); injection H as <-; [exact Hret|exact Hf].
    + destruct (idle_fires _ _); [|done]. destruct (idle_expired _ _) as [[] g]; injection H as <-; [|reflexivity].
      apply (calls_return (wr_side r0)).
Qed.

Lemma pump_step_typed p p' : pump_step id p p' -> typed_calls (pe_side p) (pe_side p').
Proof.
  assert (Hnext : forall err q, typed_calls (pe_side q) (pe_side (pump_next id err q))).
  { intros [[]|] q; [| |reflexivity]; cbn [pump_next pe_side].
    - pose proof (calls_SendEOF (pe_side q)) as Hc. etrans; [exact Hc|]. apply calls_return.
    - by apply calls_close_error. }
  intros [chunk err p0 p1 _ H|b p0 p1 H].
  - unfold pump_read in H. destruct (pe_state p0); try done. injection H as <-.
    destruct (String.eqb chunk ""); [|reflexivity]. apply (Hnext err (mkPumpEnd (pe_side p0) _ _ _)).
  - unfold pump_send in H. destruct (pe_state p0) as [|chunk err|]; try done.
    pose proof (calls_SendData b DataBinary chunk (pe_side p0) (or_introl eq_refl)) as Hc.
    destruct (side_SendData _ _ _ _ _) as [x [|[[]|e]]]; [done| |]; injection H as <-; [|exact Hc].
    etrans; [exact Hc|]. apply (Hnext err (mkPumpEnd x _ _ _)).
Qed.

Lemma handler_step_typed h h' : handler_step id h h' -> typed_calls (he_side h) (he_side h').
Proof.
  intros [_ [case H]]. unfold handler_turn in H. destruct (he_state h); [|done].
  destruct case as [| |write_ok].
  - injection H as <-. apply calls_return.
  - destruct (side_done _); [|done]. injection H as <-. apply calls_return.
  - destruct (side_Recv _) as [[f x]|] eqn:Hf; [|done]. apply calls_Recv in Hf. cbn zeta in H.
    destruct (stream_turn _ _); injection H as <-.
    + destruct (String.eqb _ _); [|exact Hf]. etrans; [exact Hf|apply (calls_AckData x)].
    + etrans; [exact Hf|apply (calls_return x)].
Qed.
End Users.

(** ** Properties *)

Section Properties.
Context {MF : Msgpack Frame} {ML : MsgpackLaws Frame}.
#[local] Set Default Proof Using "Type*".

(** A link at work: a well-typed call, or the peer reads what was written. *)
Inductive typed_step (onOpen : option (Frame -> Link -> Link)) : Link -> Link -> Prop :=
| ty_call c l : call_typed l c -> typed_step onOpen l (run_call onOpen c l)
| ty_read l rest : typed_step onOpen l (set_out rest l).

Lemma typed_step_sound onOpen `{!OpenWrites onOpen, !OpenTyped onOpen} l l' :
  link_typed l -> typed_step onOpen l l' -> link_typed l'.
Proof.
  intros Hl Hs. destruct Hs as [c l Hc|l rest].
  - by apply (run_call_sound onOpen c l).
  - eapply link_typed_store; [done|apply link_wf_out, Hl|done].
Qed.

(** C12: type soundness of the tunnel.  Start from a new link with any callback
    that is typed (none, the edge's, the connector's), and let its sessions make
    well-typed calls and its peer send any bytes at all.  Then: every session's
    id is an identifier and its queue holds only data, EOF, close and error
    frames of its own; and whatever call comes next, each frame it writes is of
    the grammar, is accepted by the codec, is read back by the peer as it was
    written, and is appended to the connection while that is open.  The calls
    of both relays, of the body pump and of the edge's stream handler are
    well typed. *)
Theorem tunnel_type_sound onOpen `{!OpenWrites onOpen, !OpenTyped onOpen} l :
  reachable (typed_step onOpen) (eq NewLink) l ->
  (forall r s, Link_store l !! r = Some s -> session_typed s) /\
  (forall c, call_typed l c ->
     exists messages, Forall2 (fun data f => frame_wf f /\ EncodeFrame f = Ok data /\ DecodeFrame data = Ok f)
       messages (writes onOpen c l) /\
     Link_out (run_call onOpen c l) = Link_out l ++ (if Link_open l then messages else [])) /\
  forall id,
    (forall r r', relay_step id r r' -> typed_calls onOpen (rl_side r) (rl_side r')) /\
    (forall r r', ws_step id r r' -> ws_inv r -> code_reported (wr_result r) ->
       typed_calls onOpen (wr_side r) (wr_side r')) /\
    (forall p p', pump_step id p p' -> typed_calls onOpen (pe_side p) (pe_side p')) /\
    (forall h h', handler_step id h h' -> typed_calls onOpen (he_side h) (he_side h')).
Proof.
  intros Hr. assert (Hl : link_typed l).
  { revert l Hr. apply reachable_inv; [|intros; by eapply typed_step_sound].
    intros ? <-. split; [apply NewLink_wf|]. intros r s Hs. cbn in Hs. by rewrite lookup_empty in Hs. }
  split; [apply Hl|]. split.
  - intros c Hc. destruct (run_call_sound onOpen c l Hl Hc) as [_ Hf Ho].
    exists (encodings (writes onOpen c l)). split; [by apply encodings_wf|exact Ho].
  - intros id. split_and!; [apply relay_step_typed|apply ws_step_typed|apply pump_step_typed|apply handler_step_typed].
Qed.
End Properties.

(** ** Witness: a session the connector accepted *)

#[local] Existing Instance frame_msgpack.
#[local] Existing Instance countable_msgpack_laws.

Definition demo_message : string := match EncodeFrame tcp_open with Ok data => data | Err _ => "" end.
Definition demo_accepted : Link :=
  run_call (Some (connector_onOpen demo_routes)) (CallMessage false true demo_message) NewLink.

Lemma tunnel_type_sound_witness :
  exists messages,
    Forall2 (fun data f => frame_wf f /\ EncodeFrame f = Ok data /\ DecodeFrame data = Ok f)
      messages [dataFrame "s1" DataBinary "hi"] /\
    Link_out (run_call (Some (connector_onOpen demo_routes)) (CallSendData false 0%nat DataBinary "hi") demo_accepted) = messages.
Proof.
  assert (Hr : reachable (typed_step (Some (connector_onOpen demo_routes))) (eq NewLink) demo_accepted).
  { exists NewLink. split; [reflexivity|]. apply rtc_once. constructor. exact I. }
  destruct (tunnel_type_sound (MF := frame_msgpack) (Some (connector_onOpen demo_routes)) demo_accepted Hr) as (_ & H & _).
  assert (Hc : call_typed demo_accepted (CallSendData false 0%nat DataBinary "hi")).
  { split; [|left; reflexivity]. exists (newSession "s1"). vm_compute. reflexivity. }
  destruct (H _ Hc) as (messages & H1 & H2). exists messages.
  assert (Hw : writes (Some (connector_onOpen demo_routes)) (CallSendData false 0%nat DataBinary "hi") demo_accepted =
    [dataFrame "s1" DataBinary "hi"]) by (vm_compute; reflexivity).
  assert (Ho : Link_open demo_accepted = true /\ Link_out demo_accepted = []) by (vm_compute; split; reflexivity).
  rewrite Hw in H1. rewrite (proj1 Ho), (proj2 Ho) in H2. exact (conj H1 H2).
Defined.
