(* ===== verification/Flag.v ===== *)
(** * Package flag

    Go's [flag], as far as the programs use it: flag sets with [ContinueOnError]
    whose values are strings or integers, the integers as
    [strconv.ParseInt(s, 0, 64)] reads them; and what a command line means. *)
From S2P Require Import Prelude GoString.
From S2P Require GoURL.

#[local] Open Scope Z_scope.

(** ** Parsing *)

Inductive flag_error :=
| BadSyntax (arg : string) | NotDefined (name : string) | NeedsArgument (name : string)
| InvalidValue (name value : string) | ErrHelp.

(** The name and the value of an argument that starts with a dash: the value is
    what follows the first [=] after the first byte. *)
Definition flag_name (body : string) : string * option string :=
  match body with
  | EmptyString => ("", None)
  | String c body' =>
      let '(name, value, found) := Cut body' "=" in
      (String c name, if found then Some value else None)
  end.

(** What [parseOne] finds in an argument. *)
Inductive flag_arg := ArgPositional | ArgTerminator | ArgFlag (body : string).

Definition flag_kind (s : string) : flag_arg :=
  match s with
  | String "-" (String "-" EmptyString) => ArgTerminator
  | String "-" (String "-" body) => ArgFlag body
  | String "-" (String c body) => ArgFlag (String c body)
  | _ => ArgPositional
  end.

Section Parse.
Context (accepts : string -> string -> bool).

(** [fs.Set]. *)
Definition flag_Set (name value : string) (values : gmap string string) : res flag_error (gmap string string) :=
  if accepts name value then Ok (<[name := value]> values) else Err (InvalidValue name value).

(** [fs.Parse]: the values of the flags [formal] that were set, and the
    remaining arguments; [accepts name v]: the variable of the flag takes [v]. *)
Fixpoint flag_Parse (formal : list string) (args : list string) (values : gmap string string) :
    res flag_error (gmap string string * list string) :=
  match args with
  | [] => Ok (values, [])
  | s :: args1 =>
      match flag_kind s with
      | ArgPositional => Ok (values, args)
      | ArgTerminator => Ok (values, args1)
      | ArgFlag body =>
          if String.eqb body "" || HasPrefix body "-" || HasPrefix body "=" then Err (BadSyntax s)
          else
            let '(name, value) := flag_name body in
            if negb (bool_decide (name ∈ formal)) then
              if String.eqb name "help" || String.eqb name "h" then Err ErrHelp else Err (NotDefined name)
            else
              match value with
              | Some v => let? values' := flag_Set name v values in flag_Parse formal args1 values'
              | None =>
                  match args1 with
                  | [] => Err (NeedsArgument name)
                  | v :: args2 => let? values' := flag_Set name v values in flag_Parse formal args2 values'
                  end
              end
      end
  end.

End Parse.

(** String flags take any value. *)
Definition any_value (name value : string) : bool := true.

(** A flag's variable, with its default. *)
Definition flag_or (values : gmap string string) (name dflt : string) : string := default dflt (values !! name).

(** A flag's variable, with the empty default. *)
Definition flag_value (values : gmap string string) (name : string) : string := default "" (values !! name).

(** ** Integers *)

(** [lower(c)] of [strconv]: [c | ('x' - 'X')]. *)
Definition byte_lower (c : ascii) : Z := Z.lor (bz c) 32.

Definition digit_value (c : ascii) : option Z :=
  if (48 <=? bz c) && (bz c <=? 57) then Some (bz c - 48)
  else if (97 <=? byte_lower c) && (byte_lower c <=? 122) then Some (byte_lower c - 97 + 10)
  else None.

(** The loop of [strconv.ParseUint] for base 0: underscores are skipped. *)
Fixpoint uintLoop (base : Z) (s : string) (n : Z) : option Z :=
  match s with
  | EmptyString => Some n
  | String c s' =>
      if Ascii.eqb c "_" then uintLoop base s' n
      else
        match digit_value c with
        | Some d => if base <=? d then None else uintLoop base s' (n * base + d)
        | None => None
        end
  end.

(** The base that a prefix asks for, and the rest. *)
Definition base_prefix (s : string) : Z * string :=
  match s with
  | String "0" (String c (String d s')) =>
      if byte_lower c =? 98 then (2, String d s')
      else if byte_lower c =? 111 then (8, String d s')
      else if byte_lower c =? 120 then (16, String d s')
      else (8, String c (String d s'))
  | String "0" s' => (8, s')
  | _ => (10, s)
  end.

(** The loop of [underscoreOK]; [i] is the class of the last byte: [^] at the
    beginning, [0] for a digit, [_], or [!]. *)
Fixpoint underscoreLoop (hex : bool) (s : string) (i : ascii) : bool :=
  match s with
  | EmptyString => negb (Ascii.eqb i "_")
  | String c s' =>
      if (48 <=? bz c) && (bz c <=? 57) || hex && (97 <=? byte_lower c) && (byte_lower c <=? 102)
      then underscoreLoop hex s' "0"
      else if Ascii.eqb c "_" then
        if negb (Ascii.eqb i "0") then false else underscoreLoop hex s' "_"
      else if Ascii.eqb i "_" then false else underscoreLoop hex s' "!"
  end.

Definition trim_sign (s : string) : bool * string :=
  match s with
  | String "+" s' => (false, s')
  | String "-" s' => (true, s')
  | _ => (false, s)
  end.

Definition underscoreOK (s : string) : bool :=
  let '(_, s) := trim_sign s in
  match s with
  | String "0" (String c s') =>
      if (byte_lower c =? 98) || (byte_lower c =? 111) || (byte_lower c =? 120)
      then underscoreLoop (byte_lower c =? 120) s' "0" else underscoreLoop false s "^"
  | _ => underscoreLoop false s "^"
  end.

(** [strconv.ParseInt(s, 0, 64)], [None] for an error. *)
Definition ParseInt0 (s : string) : option Z :=
  let '(neg, digits) := trim_sign s in
  let '(base, digits') := base_prefix digits in
  if String.eqb digits "" then None
  else
    match uintLoop base digits' 0 with
    | None => None
    | Some n =>
        if (if str_mem "_" digits' then negb (underscoreOK s) else false) then None
        else if neg then if min_int64 <=? - n then Some (- n) else None
        else if n <=? max_int64 then Some n else None
    end.

Example ParseInt0_examples :
  map ParseInt0 ["60"; "-5"; "0x1F"; "0b101"; "017"; "1_000"; "1__0"; "0x"; ""; "9223372036854775808"; "+0"; "6o"; "_1"] =
  [Some 60; Some (-5); Some 31; Some 5; Some 15; Some 1000; None; None; None; None; Some 0; None; None].
Proof. reflexivity. Qed.

(** Integer flags. *)
Definition int_value (v : string) : bool := match ParseInt0 v with Some _ => true | None => false end.

(** ** What a command line means *)

(** A flag as it may be written: [-name=value], [--name=value], or the value in
    the next argument. *)
Record setting := mkSetting {
  st_name : string;
  st_value : string;
  st_two : bool;        (** two dashes *)
  st_joined : bool      (** joined by an equals sign *)
}.

Definition dashes (two : bool) : string := if two then "--" else "-".

Definition render (s : setting) : list string :=
  if st_joined s then [dashes (st_two s) +:+ st_name s +:+ "=" +:+ st_value s]
  else [dashes (st_two s) +:+ st_name s; st_value s].

Definition apply_settings (settings : list setting) (values : gmap string string) : gmap string string :=
  foldl (fun values s => <[st_name s := st_value s]> values) values settings.

(** The last value given to a flag, empty when there is none. *)
Definition last_value (name : string) (settings : list setting) : string :=
  flag_value (apply_settings settings ∅) name.

(** The arguments that set [formal] flags and nothing else; [--] may end them. *)
Definition sets_flags (accepts : string -> string -> bool) (formal : list string) (settings : list setting)
    (args : list string) : Prop :=
  Forall (fun s => st_name s ∈ formal /\ accepts (st_name s) (st_value s) = true) settings /\
  (args = concat (map render settings) \/ args = concat (map render settings) ++ ["--"]).

(** ** Lemmas *)

Definition flag_name_wf (n : string) : Prop :=
  exists c r, n = String c r /\ c <> "-"%char /\ c <> "="%char /\ str_mem "=" r = false.

Lemma Cut_inv s c a b found :
  Cut s c = (a, b, found) ->
  if found then s = a +:+ String c b /\ str_mem c a = false else s = a /\ str_mem c a = false.
Proof.
  unfold Cut. revert a b found. induction s as [|d s IH]; intros a b found; cbn [IndexByte].
  - by intros [= <- <- <-].
  - destruct (Ascii.eqb_spec c d) as [->|Hne]; [by intros [= <- <- <-]; cbn; destruct s|].
    destruct (IndexByte s c) as [i|]; cbn [fmap option_fmap option_map]; intros [= <- <- <-];
      destruct (IH _ _ _ eq_refl) as [Hs Hm]; cbn; rewrite (proj2 (Ascii.eqb_neq c d) Hne); cbn.
    + split; [by rewrite Hs at 1|done].
    + done.
Qed.

Lemma flag_kind_dashes two c body :
  c <> "-"%char -> flag_kind (dashes two +:+ String c body) = ArgFlag (String c body).
Proof. destruct two; [by destruct c as [[] [] [] [] [] [] [] []]|]. destruct c as [[] [] [] [] [] [] [] []]; done. Qed.

Lemma flag_kind_inv s :
  match flag_kind s with
  | ArgPositional => True
  | ArgTerminator => s = "--"
  | ArgFlag body => exists two, s = dashes two +:+ body
  end.
Proof.
  destruct s as [|c [|d s]]; [done|by destruct c as [[] [] [] [] [] [] [] []]|].
  destruct (decide (c = "-"%char)) as [->|Hc]; [|by destruct c as [[] [] [] [] [] [] [] []]].
  destruct (decide (d = "-"%char)) as [->|Hd].
  - destruct s as [|e s]; [done|]. by exists true.
  - assert (H : flag_kind (dashes false +:+ String d s) = ArgFlag (String d s)) by (by apply flag_kind_dashes).
    cbn [dashes String.append] in H. rewrite H. by exists false.
Qed.

Lemma flag_name_spec n v : flag_name_wf n -> flag_name (n +:+ "=" +:+ v) = (n, Some v) /\ flag_name n = (n, None).
Proof.
  intros (c & r & -> & _ & _ & Hm). cbn [flag_name String.append]. change ("=" +:+ v) with (String "=" v).
  by rewrite GoURL.Cut_app, GoURL.Cut_none.
Qed.

Lemma flag_name_inv body name value :
  body <> "" -> flag_name body = (name, value) ->
  body = match value with Some v => name +:+ "=" +:+ v | None => name end.
Proof.
  destruct body as [|c body]; [done|]. intros _. cbn [flag_name].
  destruct (Cut body "=") as [[a b] found] eqn:E. apply Cut_inv in E.
  destruct found; intros [= <- <-]; destruct E as [-> _]; done.
Qed.

Section ParseLemmas.
Context (accepts : string -> string -> bool) (formal : list string) (formal_wf : Forall flag_name_wf formal).
#[local] Set Default Proof Using "Type*".
#[local] Abbreviation flag_Parse := (flag_Parse accepts).
#[local] Abbreviation flag_Set := (flag_Set accepts).
#[local] Abbreviation sets_flags := (sets_flags accepts).

(** A well-named flag is not refused. *)
Lemma flag_step two n x v args values :
  n ∈ formal -> flag_name (n +:+ x) = (n, v) ->
  flag_Parse formal ((dashes two +:+ n +:+ x) :: args) values =
  match v with
  | Some v => let? values' := flag_Set n v values in flag_Parse formal args values'
  | None => match args with
            | [] => Err (NeedsArgument n)
            | v :: args' => let? values' := flag_Set n v values in flag_Parse formal args' values'
            end
  end.
Proof.
  intros Hn Hname. rewrite list.Forall_forall in formal_wf. destruct (formal_wf n Hn) as (c & r & -> & Hc & He & _).
  cbn [Flag.flag_Parse]. cbn [String.append]. rewrite flag_kind_dashes by done.
  assert (Hchk : String.eqb (String c (r +:+ x)) "" || HasPrefix (String c (r +:+ x)) "-" || HasPrefix (String c (r +:+ x)) "=" = false).
  { cbn [HasPrefix String.eqb orb]. by rewrite !(proj2 (Ascii.eqb_neq _ _)). }
  rewrite Hchk. cbn [String.append] in Hname. rewrite Hname. by rewrite bool_decide_eq_true_2.
Qed.

Lemma flag_Parse_render settings tail values :
  Forall (fun s => st_name s ∈ formal /\ accepts (st_name s) (st_value s) = true) settings ->
  flag_Parse formal (concat (map render settings) ++ tail) values = flag_Parse formal tail (apply_settings settings values).
Proof.
  intros Hs. revert values. induction Hs as [|[n v two joined] settings [Hn Hv] _ IH]; intros values; [done|].
  cbn [st_name st_value] in Hn, Hv. assert (Hw : flag_name_wf n) by (rewrite list.Forall_forall in formal_wf; auto).
  destruct (flag_name_spec n v Hw) as [Hj Hp]. cbn [map concat]. rewrite <- app_assoc.
  unfold apply_settings. cbn [foldl st_name st_value]. fold (apply_settings settings (<[n := v]> values)). rewrite <- IH.
  unfold render. cbn [st_joined st_two st_name st_value]. destruct joined; cbn [app].
  - by rewrite (flag_step two n ("=" +:+ v) (Some v)); [unfold Flag.flag_Set; rewrite Hv|..].
  - rewrite <- (app_str_nil_r n) at 1. rewrite (flag_step two n "" None); [|done|by rewrite app_str_nil_r]. unfold Flag.flag_Set. by rewrite Hv.
Qed.

Lemma flag_Parse_complete args values values' :
  flag_Parse formal args values = Ok (values', []) ->
  exists settings, sets_flags formal settings args /\ values' = apply_settings settings values.
Proof.
  remember (length args) as n eqn:Hlen. assert (Hle : (length args <= n)%nat) by lia. clear Hlen. revert args values Hle.
  induction n as [|n IH]; intros args values Hle.
  { destruct args; [|cbn in Hle; lia]. intros [= <-]. exists []. split; [|done]. split; [constructor|by left]. }
  destruct args as [|s args]; [intros [= <-]; exists []; split; [|done]; split; [constructor|by left]|].
  cbn in Hle. cbn [Flag.flag_Parse]. pose proof (flag_kind_inv s) as Hk. destruct (flag_kind s) as [| |body]; [done| |].
  { intros [= <- ->]. exists []. split; [|done]. split; [constructor|]. right. by rewrite Hk. }
  destruct Hk as [two ->]. destruct (String.eqb_spec body "") as [|Hne]; [done|]. cbn [orb].
  destruct (HasPrefix body "-" || HasPrefix body "="); [done|].
  destruct (flag_name body) as [name value] eqn:Hname. apply flag_name_inv in Hname; [|done].
  destruct (bool_decide _) eqn:Hin; cbn [negb]; [|by destruct (_ || _)]. apply bool_decide_eq_true in Hin.
  assert (Hadd : forall v joined args' args0, (length args' <= n)%nat -> args0 = render (mkSetting name v two joined) ++ args' ->
    (let? values0 := flag_Set name v values in flag_Parse formal args' values0) = Ok (values', []) ->
    exists settings, sets_flags formal settings args0 /\ values' = apply_settings settings values).
  { intros v joined args' args0 Hl -> Hp. unfold Flag.flag_Set in Hp. destruct (accepts name v) eqn:Hv; [|done].
    destruct (IH args' (<[name := v]> values)) as (settings & [Hf Ha] & ->); [lia|done|].
    exists (mkSetting name v two joined :: settings). split; [|done]. split; [by constructor|]. cbn [map concat].
    rewrite <- app_assoc. destruct Ha as [-> | ->]; auto. }
  destruct value as [v|]; subst body.
  - by apply (Hadd v true); [lia|].
  - destruct args as [|v args]; [done|]. apply (Hadd v false); [cbn in Hle; lia|done].
Qed.

(** The command line is read exactly as it is written. *)
Lemma flag_Parse_iff args values :
  flag_Parse formal args ∅ = Ok (values, []) <->
  exists settings, sets_flags formal settings args /\ values = apply_settings settings ∅.
Proof.
  split; [apply flag_Parse_complete|]. intros (settings & [Hf Ha] & ->). destruct Ha as [-> | ->].
  - rewrite <- (app_nil_r (concat _)). by rewrite flag_Parse_render.
  - by rewrite flag_Parse_render.
Qed.
End ParseLemmas.

