(* ===== verification/Cli.v ===== *)
(** * The command line

    [cmd/airpc/main.go], on Go's [flag] package. *)
From S2P Require Import Prelude GoString Config Flag.

#[local] Open Scope Z_scope.

(** ** The program *)

Inductive cli_error :=
| MissingCommand | UnknownCommand (c : string)
| MissingSubcommand | UnknownSubcommand (c : string)
| FlagFailed (e : flag_error) | PositionalArguments | ConfigRequired | IDRequired
| IDInvalid (e : config_error) | LoadFailed (e : load_error).

(** What the process goes on to run. *)
Inductive command :=
| RunEdge (cfg : Config)
| RunConnector (cfg : Config) (id : string).

Section Program.
Context {UT : UnicodeTables} (yaml_decode : string -> option Config) (readFile : string -> option string).
#[local] Abbreviation LoadFile := (LoadFile yaml_decode readFile).

Definition runEdge (args : list string) : res cli_error command :=
  match args with
  | [] => Err MissingSubcommand
  | sub :: args' =>
      if negb (String.eqb sub "start") then Err (UnknownSubcommand sub)
      else
        match flag_Parse any_value ["config"] args' ∅ with
        | Err e => Err (FlagFailed e)
        | Ok (values, rest) =>
            if negb (length rest =? 0)%nat then Err PositionalArguments
            else if String.eqb (flag_value values "config") "" then Err ConfigRequired
            else
              match LoadFile (flag_value values "config") with
              | Err e => Err (LoadFailed e)
              | Ok cfg => Ok (RunEdge cfg)
              end
        end
  end.

Definition runConnector (args : list string) : res cli_error command :=
  match args with
  | [] => Err MissingSubcommand
  | sub :: args' =>
      if negb (String.eqb sub "start") then Err (UnknownSubcommand sub)
      else
        match flag_Parse any_value ["config"; "id"] args' ∅ with
        | Err e => Err (FlagFailed e)
        | Ok (values, rest) =>
            if negb (length rest =? 0)%nat then Err PositionalArguments
            else if String.eqb (flag_value values "config") "" then Err ConfigRequired
            else if String.eqb (flag_value values "id") "" then Err IDRequired
            else
              match ValidateSubjectToken "connector id" (flag_value values "id") with
              | Err e => Err (IDInvalid e)
              | Ok _ =>
                  match LoadFile (flag_value values "config") with
                  | Err e => Err (LoadFailed e)
                  | Ok cfg => Ok (RunConnector cfg (flag_value values "id"))
                  end
              end
        end
  end.

Definition run (args : list string) : res cli_error command :=
  match args with
  | [] => Err MissingCommand
  | c :: args' =>
      if String.eqb c "edge" then runEdge args'
      else if String.eqb c "connector" then runConnector args'
      else Err (UnknownCommand c)
  end.
End Program.

Lemma formal_names_wf : Forall flag_name_wf ["config"; "id"].
Proof. repeat constructor; do 2 eexists; split_and!; reflexivity || discriminate. Qed.

(** ** Properties *)

Section Properties.
Context {UT : UnicodeTables} (yaml_decode : string -> option Config) (readFile : string -> option string).
#[local] Abbreviation run := (run yaml_decode readFile).
#[local] Abbreviation LoadFile := (LoadFile yaml_decode readFile).

Lemma LoadFile_wf path cfg : LoadFile path = Ok cfg -> config_wf cfg.
Proof.
  unfold Config.LoadFile, Load. destruct (readFile path); [|done]. destruct (yaml_decode _) as [c|]; [|done].
  destruct (Config_Validate c) as [[]|] eqn:E; [|done]. intros [= <-]. by apply Config_Validate_iff.
Qed.

(** C31: the command line is exact.  A connector is started if and only if the
    arguments are [connector start] followed by settings of the flags [config]
    and [id], in any of the four spellings and any order, the last of each
    counting: a non-empty path of a file that loads, and a valid id.  The same
    of the edge without the id.  Whatever is started has a valid
    configuration. *)
Theorem command_line args command :
  run args = Ok command <->
  match command with
  | RunEdge cfg => exists settings rest, args = "edge" :: "start" :: rest /\ sets_flags any_value ["config"] settings rest /\
      last_value "config" settings <> "" /\ LoadFile (last_value "config" settings) = Ok cfg /\ config_wf cfg
  | RunConnector cfg id => exists settings rest, args = "connector" :: "start" :: rest /\
      sets_flags any_value ["config"; "id"] settings rest /\
      last_value "config" settings <> "" /\ LoadFile (last_value "config" settings) = Ok cfg /\ config_wf cfg /\
      id = last_value "id" settings /\ subject_token id
  end.
Proof.
  pose proof (flag_Parse_iff any_value ["config"; "id"] formal_names_wf) as Hc.
  pose proof (flag_Parse_iff any_value ["config"] (proj1 (proj1 (list.Forall_app _ ["config"] ["id"]) formal_names_wf))) as He.
  split.
  - unfold Cli.run, runEdge, runConnector. destruct args as [|c args]; [done|].
    destruct (String.eqb_spec c "edge") as [->|]; [|destruct (String.eqb_spec c "connector") as [->|]; [|done]];
      destruct args as [|sub args]; try done; destruct (String.eqb_spec sub "start") as [->|]; try done; cbn [negb].
    + destruct (flag_Parse _ _ _) as [[values [|? ?]]|] eqn:Hp; try done. cbn [length Nat.eqb negb].
      destruct (String.eqb_spec (flag_value values "config") "") as [|Hne]; [done|].
      destruct (LoadFile _) as [cfg|] eqn:Hl; [|done]. intros [= <-].
      apply He in Hp as (settings & Hs & ->). exists settings, args. split_and!; try done. by apply (LoadFile_wf _ _ Hl).
    + destruct (flag_Parse _ _ _) as [[values [|? ?]]|] eqn:Hp; try done. cbn [length Nat.eqb negb].
      destruct (String.eqb_spec (flag_value values "config") "") as [|Hne]; [done|].
      destruct (String.eqb_spec (flag_value values "id") "") as [|Hid]; [done|].
      destruct (ValidateSubjectToken _ _) as [[]|] eqn:Hv; [|done].
      destruct (LoadFile _) as [cfg|] eqn:Hl; [|done]. intros [= <-].
      apply Hc in Hp as (settings & Hs & ->). exists settings, args.
      split_and!; try done; [by apply (LoadFile_wf _ _ Hl)|by apply ValidateSubjectToken_spec in Hv].
  - destruct command as [cfg|cfg id].
    + intros (settings & rest & -> & Hs & Hne & Hl & _). unfold last_value in *. set (values := apply_settings settings ∅) in *.
      assert (Hp : flag_Parse any_value ["config"] rest ∅ = Ok (values, [])) by (apply He; by exists settings).
      cbn -[flag_Parse]. rewrite Hp. cbn. by rewrite (proj2 (String.eqb_neq _ _) Hne), Hl.
    + intros (settings & rest & -> & Hs & Hne & Hl & _ & -> & Hid). unfold last_value in *. set (values := apply_settings settings ∅) in *.
      assert (Hp : flag_Parse any_value ["config"; "id"] rest ∅ = Ok (values, [])) by (apply Hc; by exists settings).
      assert (Hid' : flag_value values "id" <> "") by apply Hid.
      apply ValidateSubjectToken_spec with (field := "connector id") in Hid.
      cbn -[flag_Parse]. rewrite Hp. cbn -[ValidateSubjectToken].
      by rewrite (proj2 (String.eqb_neq _ _) Hne), (proj2 (String.eqb_neq _ _) Hid'), Hid, Hl.
Qed.
End Properties.
