(* ===== verification/Interact.v ===== *)
(** * Programs that talk to each other

    Interaction trees for programs that read from and write to a connection,
    and two such programs joined by a channel: each direction is a queue, a
    read takes what the channel offers (bytes in any chunks, messages one by
    one), and the programs run interleaved in any order.  States are taken up
    to [eutt], so a program is whatever behaves like it. *)
From S2P Require Import Prelude GoString.
From Stdlib Require Import Program.Equality.
From ITree Require Import ITree ITreeFacts.
From Paco Require Import paco.

(** A Go call whose result is bound. *)
Notation "'let!' x ':=' e 'in' k" := (ITree.bind e (fun x => k))
  (at level 10, x pattern, e at level 100, k at level 200) : go_scope.

(** Two programs, and what is on the way to each. *)
Record Joined (E : Type -> Type) (Q A B : Type) :=
  mkJoined { p_left : itree E A; p_right : itree E B; p_to_right : Q; p_to_left : Q }.
Arguments mkJoined {E Q A B}.
Arguments p_left {E Q A B}.
Arguments p_right {E Q A B}.
Arguments p_to_right {E Q A B}.
Arguments p_to_left {E Q A B}.

Section Joining.
Context {E : Type -> Type} {Q A B : Type}.
#[local] Abbreviation Joined := (Joined E Q A B).

(** [io X e ended inq outq x inq' outq']: with [inq] to be read and [outq]
    written, the event [e] may return [x]; [ended]: the other program has
    returned. *)
Context (io : forall X, E X -> Prop -> Q -> Q -> X -> Q -> Q -> Prop).

Definition returned {R} (t : itree E R) : Prop := exists r, t ≈ Ret r.

Inductive pair_step : Joined -> Joined -> Prop :=
| ps_left X (e : E X) k t s u d x d' u' :
    t ≈ Vis e k -> io X e (returned s) d u x d' u' -> pair_step (mkJoined t s u d) (mkJoined (k x) s u' d')
| ps_right X (e : E X) k t s u d x u' d' :
    s ≈ Vis e k -> io X e (returned t) u d x u' d' -> pair_step (mkJoined t s u d) (mkJoined t (k x) u' d').

(** Every way of going on reaches the goal after finitely many steps, and on
    the way there always is one. *)
Inductive always_reaches (goal : Joined -> Prop) : Joined -> Prop :=
| ar_there p : goal p -> always_reaches goal p
| ar_step p : (exists p', pair_step p p') -> (forall p', pair_step p p' -> always_reaches goal p') -> always_reaches goal p.

(** Pairs of programs that behave alike. *)
Definition pair_equiv (p p' : Joined) : Prop :=
  p_left p ≈ p_left p' /\ p_right p ≈ p_right p' /\ p_to_right p = p_to_right p' /\ p_to_left p = p_to_left p'.

#[export] Instance pair_equiv_equivalence : Equivalence pair_equiv.
Proof.
  split.
  - intros p. split_and!; try done; reflexivity.
  - intros p q (H1 & H2 & H3 & H4). split_and!; by symmetry.
  - intros p q r (H1 & H2 & H3 & H4) (K1 & K2 & K3 & K4). split_and!; by etransitivity.
Qed.

#[export] Instance mkJoined_proper :
  Proper (eutt eq ==> eutt eq ==> eq ==> eq ==> pair_equiv) mkJoined.
Proof. intros t t' Ht s s' Hs u u' <- d d' <-. by split_and!. Qed.

#[export] Instance returned_proper {R} : Proper (eutt eq ==> iff) (@returned R).
Proof. intros t t' Ht. split; intros [r Hr]; exists r; by rewrite <- Hr, Ht. Qed.

(** A pair that behaves alike steps alike. *)
Lemma pair_step_equiv p p' q :
  (forall X e P P' i o x i' o', (P <-> P') -> io X e P i o x i' o' -> io X e P' i o x i' o') ->
  pair_equiv p p' -> pair_step p q -> exists q', pair_step p' q' /\ pair_equiv q q'.
Proof.
  intros Hio (H1 & H2 & H3 & H4) Hs. destruct p' as [t' s' u' d']. destruct Hs as [X e k t s u d x d1 u1 Ht Hi|X e k t s u d x u1 d1 Hs Hi]; cbn in *; subst.
  - exists (mkJoined (k x) s' u1 d1). split; [|by rewrite H2]. eapply ps_left; [by rewrite <- H1|].
    eapply Hio; [|exact Hi]. by rewrite H2.
  - exists (mkJoined t' (k x) u1 d1). split; [|by rewrite H1]. eapply ps_right; [by rewrite <- H2|].
    eapply Hio; [|exact Hi]. by rewrite H1.
Qed.

(** ** Reasoning about the next steps *)

Context (io_iff : forall X e P P' i o x i' o', (P <-> P') -> io X e P i o x i' o' -> io X e P' i o x i' o').
#[local] Set Default Proof Using "Type*".

Lemma always_reaches_equiv goal p p' :
  (forall q q', pair_equiv q q' -> goal q -> goal q') ->
  pair_equiv p p' -> always_reaches goal p -> always_reaches goal p'.
Proof.
  intros Hg He Hr. revert p' He. induction Hr as [p Hp|p [q Hq] _ IH]; intros p' He; [apply ar_there; eauto|].
  apply ar_step.
  - destruct (pair_step_equiv p p' q io_iff He Hq) as (q' & Hq' & _). by exists q'.
  - intros q' Hq'. destruct (pair_step_equiv p' p q' io_iff (symmetry He) Hq') as (q0 & Hq0 & He0).
    by apply (IH q0).
Qed.

Lemma vis_inv {R X Y} (e : E X) (e' : E Y) (k : X -> itree E R) k' :
  Vis e k ≈ Vis e' k' -> exists H : X = Y, eqeq E H e e' /\ pweqeq (eutt eq) H k k'.
Proof using Type. apply eqit_inv_Vis_weak. Qed.

Lemma ret_vis {R X} (e : E X) (k : X -> itree E R) r : Ret r ≈ Vis e k -> False.
Proof using Type. intros H. punfold H. red in H. cbn in H. inversion H. Qed.

Lemma vis_not_returned {R X} (e : E X) (k : X -> itree E R) t : t ≈ Vis e k -> ~ returned t.
Proof using Type. intros Ht [r Hr]. rewrite Ht in Hr. symmetry in Hr. by apply ret_vis in Hr. Qed.

(** The steps of a pair at known events. *)
Lemma pair_step_inv {X Y} (e : E X) k (e' : E Y) k' t s u d p :
  t ≈ Vis e k -> s ≈ Vis e' k' -> pair_step (mkJoined t s u d) p ->
  (exists x d' u', io X e (returned s) d u x d' u' /\ pair_equiv p (mkJoined (k x) s u' d')) \/
  (exists x u' d', io Y e' (returned t) u d x u' d' /\ pair_equiv p (mkJoined t (k' x) u' d')).
Proof.
  intros Ht Hs Hp. inversion Hp as [X0 e0 k0 t0 s0 u0 d0 x d' u' Ht0 Hi|X0 e0 k0 t0 s0 u0 d0 x u' d' Hs0 Hi]; subst.
  - left. rewrite Ht in Ht0. apply vis_inv in Ht0 as [H [He Hk]]. destruct H. cbn in He, Hk. subst e0.
    exists x, d', u'. split; [done|]. by rewrite (Hk x).
  - right. rewrite Hs in Hs0. apply vis_inv in Hs0 as [H [He Hk]]. destruct H. cbn in He, Hk. subst e0.
    exists x, u', d'. split; [done|]. by rewrite (Hk x).
Qed.

Lemma pair_step_inv_ret {Y} r (e' : E Y) k' t s u d p :
  t ≈ Ret r -> s ≈ Vis e' k' -> pair_step (mkJoined t s u d) p ->
  exists x u' d', io Y e' (returned t) u d x u' d' /\ pair_equiv p (mkJoined t (k' x) u' d').
Proof.
  intros Ht Hs Hp. inversion Hp as [X0 e0 k0 t0 s0 u0 d0 x d' u' Ht0 Hi|X0 e0 k0 t0 s0 u0 d0 x u' d' Hs0 Hi]; subst.
  - rewrite Ht in Ht0. by apply ret_vis in Ht0.
  - rewrite Hs in Hs0. apply vis_inv in Hs0 as [H [He Hk]]. destruct H. cbn in He, Hk. subst e0.
    exists x, u', d'. split; [done|]. by rewrite (Hk x).
Qed.

(** Reaching the goal from a pair at known events: some event can happen, and
    whichever happens the goal is reached. *)
Lemma reach_events {X Y} (e : E X) k (e' : E Y) k' goal t s u d :
  (forall q q', pair_equiv q q' -> goal q -> goal q') -> t ≈ Vis e k -> s ≈ Vis e' k' ->
  ((exists x d' u', io X e (returned s) d u x d' u') \/ (exists x u' d', io Y e' (returned t) u d x u' d')) ->
  (forall x d' u', io X e (returned s) d u x d' u' -> always_reaches goal (mkJoined (k x) s u' d')) ->
  (forall x u' d', io Y e' (returned t) u d x u' d' -> always_reaches goal (mkJoined t (k' x) u' d')) ->
  always_reaches goal (mkJoined t s u d).
Proof.
  intros Hg Ht Hs Hex Hl Hr. apply ar_step.
  - destruct Hex as [(x & d' & u' & Hi)|(x & u' & d' & Hi)]; eexists; [by eapply ps_left|by eapply ps_right].
  - intros p Hp. destruct (pair_step_inv e k e' k' t s u d p Ht Hs Hp) as [(x & d' & u' & Hi & He)|(x & u' & d' & Hi & He)];
      (eapply always_reaches_equiv; [done|symmetry; exact He|eauto]).
Qed.

Lemma reach_ended {Y} r (e' : E Y) k' goal t s u d :
  (forall q q', pair_equiv q q' -> goal q -> goal q') -> t ≈ Ret r -> s ≈ Vis e' k' ->
  (exists x u' d', io Y e' (returned t) u d x u' d') ->
  (forall x u' d', io Y e' (returned t) u d x u' d' -> always_reaches goal (mkJoined t (k' x) u' d')) ->
  always_reaches goal (mkJoined t s u d).
Proof.
  intros Hg Ht Hs (x & u' & d' & Hi) Hr. apply ar_step; [eexists; by eapply ps_right|].
  intros p Hp. destruct (pair_step_inv_ret r e' k' t s u d p Ht Hs Hp) as (x1 & u1 & d1 & Hi1 & He).
  eapply always_reaches_equiv; [done|symmetry; exact He|eauto].
Qed.
End Joining.
