(* ===== verification/E2eEcho.v ===== *)
(** * The echo sessions of the smoke test

    [cmd/airpc-e2e/main.go]: the TCP, WebSocket and gRPC backends, and the
    checks that talk to them, as interaction trees; and that a check passes
    whenever it is connected to its backend by a channel that loses nothing,
    in every interleaving and for every chunking of the bytes, which is what
    the tunnel promises ([Tunnels.tcp_end_to_end],
    [Tunnels.websocket_end_to_end]). *)
From S2P Require Import Prelude GoString Interact.
From ITree Require Import ITree ITreeFacts.

Abbreviation failure := string.

(** ** Byte streams: [net.Conn] *)

Variant connE : Type -> Type :=
| ConnWrite (p : string) : connE (res failure unit)
| ConnRead (n : nat) : connE (res failure string).   (** at most [n] bytes *)

(** Writing appends to what the peer is to read; reading takes some bytes from
    the front, in whatever chunks they come; the end of the stream is seen
    once the peer has returned and everything was read. *)
Definition conn_io X (e : connE X) (ended : Prop) : string -> string -> X -> string -> string -> Prop :=
  match e in connE X return string -> string -> X -> string -> string -> Prop with
  | ConnWrite p => fun i o x i' o' => x = Ok tt /\ i' = i /\ o' = o +:+ p
  | ConnRead n => fun i o x i' o' => o' = o /\
      ((exists chunk, x = Ok chunk /\ chunk <> "" /\ String.length chunk <= n /\ i = chunk +:+ i') \/
       (x = Err "EOF" /\ i = "" /\ i' = "" /\ ended))
  end.

(** [io.ReadFull(conn, make([]byte, n))]; [acc] was read so far. *)
Definition ReadFull_from (n : nat) (acc : string) : itree connE (res failure string) :=
  ITree.iter (fun acc =>
    if n <=? String.length acc then Ret (inr (Ok acc))
    else
      let! r := ITree.trigger (ConnRead (n - String.length acc)) in
      match r with
      | Ok chunk => Ret (inl (acc +:+ chunk))
      | Err e => Ret (inr (Err (if String.eqb acc "" then e else "unexpected EOF")))
      end) acc.
Definition ReadFull (n : nat) : itree connE (res failure string) := ReadFull_from n "".

Definition writeAndReadTCP (payload : string) : itree connE (res failure unit) :=
  let! w := ITree.trigger (ConnWrite payload) in
  match w with
  | Err e => Ret (Err e)
  | Ok _ =>
      let! got := ReadFull (String.length payload) in
      match got with
      | Err e => Ret (Err e)
      | Ok got => if negb (String.eqb got payload) then Ret (Err "tcp echo mismatch") else Ret (Ok tt)
      end
  end.

(** [checkTCPSession] on the connection it dialed. *)
Definition checkTCPSession (first : string) : itree connE (res failure unit) :=
  let! r := writeAndReadTCP first in
  match r with
  | Err e => Ret (Err e)
  | Ok _ => writeAndReadTCP "second-write"
  end.

(** The goroutine of a connection in [serveTCPBackend]: [io.Copy(conn, conn)],
    with its buffer of 32 KiB. *)
Definition copyBufferSize : nat := 32 * 1024.
#[global] Arguments copyBufferSize : simpl never.
Definition tcp_echo_body (_ : unit) : itree connE (unit + unit) :=
  let! r := ITree.trigger (ConnRead copyBufferSize) in
  match r with
  | Ok chunk =>
      let! w := ITree.trigger (ConnWrite chunk) in
      match w with
      | Ok _ => Ret (inl tt)
      | Err _ => Ret (inr tt)
      end
  | Err _ => Ret (inr tt)
  end.
Definition serveTCPConn : itree connE unit := ITree.iter tcp_echo_body tt.

(** [serveTCPBackend] once it listens: the connections its goroutines serve,
    and the error it returns, if [Accept] fails. *)
Fixpoint serveTCPBackend {C : Type} (accepts : list (res failure C)) : list C * option failure :=
  match accepts with
  | [] => ([], None)
  | Err e :: _ => ([], Some e)
  | Ok conn :: accepts' => let '(served, e) := serveTCPBackend accepts' in (conn :: served, e)
  end.

(** ** Messages: WebSockets and gRPC streams *)

Section Messages.
Context {M : Type}.

Variant msgE : Type -> Type :=
| SendMsg (m : M) : msgE (res failure unit)
| RecvMsg : msgE (res failure M).

Definition msg_io X (e : msgE X) (ended : Prop) : list M -> list M -> X -> list M -> list M -> Prop :=
  match e in msgE X return list M -> list M -> X -> list M -> list M -> Prop with
  | SendMsg m => fun i o x i' o' => x = Ok tt /\ i' = i /\ o' = o ++ [m]
  | RecvMsg => fun i o x i' o' => o' = o /\
      ((exists m, x = Ok m /\ i = m :: i') \/ (x = Err "EOF" /\ i = [] /\ i' = [] /\ ended))
  end.
End Messages.
Arguments msgE : clear implicits.

Inductive ws_kind := TextMessage | BinaryMessage | OtherMessage.
#[export] Instance ws_kind_eq_dec : EqDecision ws_kind.
Proof. solve_decision. Defined.

(** The loop of the handler of [serveWebSocketBackend]. *)
Definition ws_echo_body (_ : unit) : itree (msgE (ws_kind * string)) (unit + unit) :=
  let! r := ITree.trigger RecvMsg in
  match r with
  | Err _ => Ret (inr tt)
  | Ok (messageType, payload) =>
      if negb (bool_decide (messageType = TextMessage)) && negb (bool_decide (messageType = BinaryMessage))
      then Ret (inl tt)
      else
        let! w := ITree.trigger (SendMsg (messageType, payload)) in
        match w with
        | Err _ => Ret (inr tt)
        | Ok _ => Ret (inl tt)
        end
  end.
Definition serveWebSocketConn : itree (msgE (ws_kind * string)) unit := ITree.iter ws_echo_body tt.

(** The whole handler; [upgraded]: the handshake succeeds. *)
Definition websocket_handler (upgraded : bool) : itree (msgE (ws_kind * string)) unit :=
  if upgraded then serveWebSocketConn else Ret tt.

(** The loop of [checkWebSocket] on the connection it dialed. *)
Fixpoint checkWebSocket_loop (messages : list (ws_kind * string)) : itree (msgE (ws_kind * string)) (res failure unit) :=
  match messages with
  | [] => Ret (Ok tt)
  | msg :: messages' =>
      let! w := ITree.trigger (SendMsg msg) in
      match w with
      | Err e => Ret (Err e)
      | Ok _ =>
          let! r := ITree.trigger RecvMsg in
          match r with
          | Err e => Ret (Err e)
          | Ok (kind, data) =>
              if negb (bool_decide (kind = msg.1)) || negb (String.eqb data msg.2) then Ret (Err "websocket echo")
              else checkWebSocket_loop messages'
          end
      end
  end.
Definition ws_messages : list (ws_kind * string) :=
  [(TextMessage, "hello text"); (BinaryMessage, String "000" (String "001" (String "002" (String "003" (String "255" "")))));
   (TextMessage, "second text")].
Definition checkWebSocket : itree (msgE (ws_kind * string)) (res failure unit) := checkWebSocket_loop ws_messages.

(** [grpcBackend.Unary]. *)
Definition Unary (value : string) : string := "grpc-unary:" +:+ value.

(** The method's handler; [dec]: the decoded message, [interceptor]: the
    server's interceptor around a handler. *)
Definition unary_handler (dec : res failure string)
    (interceptor : option (string -> (string -> res failure string) -> res failure string)) : res failure string :=
  match dec with
  | Err e => Err e
  | Ok req =>
      match interceptor with
      | None => Ok (Unary req)
      | Some intercept => intercept req (fun request => Ok (Unary request))
      end
  end.

(** [grpcBackend.Chat] on the stream's values: nil at the end of the stream. *)
Definition chat_body (_ : unit) : itree (msgE string) (unit + res failure unit) :=
  let! r := ITree.trigger RecvMsg in
  match r with
  | Err e => Ret (inr (if String.eqb e "EOF" then Ok tt else Err e))
  | Ok value =>
      let! w := ITree.trigger (SendMsg ("grpc-stream:" +:+ value)) in
      match w with
      | Err e => Ret (inr (Err e))
      | Ok _ => Ret (inl tt)
      end
  end.
Definition Chat : itree (msgE string) (res failure unit) := ITree.iter chat_body tt.

(** The loop of [checkGRPC] over the values of the stream; returning closes
    the sending side. *)
Fixpoint checkChat_loop (values : list string) : itree (msgE string) (res failure unit) :=
  match values with
  | [] => Ret (Ok tt)
  | value :: values' =>
      let! w := ITree.trigger (SendMsg value) in
      match w with
      | Err e => Ret (Err e)
      | Ok _ =>
          let! r := ITree.trigger RecvMsg in
          match r with
          | Err e => Ret (Err e)
          | Ok resp =>
              if negb (String.eqb resp ("grpc-stream:" +:+ value)) then Ret (Err "grpc stream response")
              else checkChat_loop values'
          end
      end
  end.

(** [checkGRPC] once connected: the unary call, then the stream.  [invoke]: what
    the unary method answers. *)
Definition checkGRPC (invoke : string -> res failure string) : itree (msgE string) (res failure unit) :=
  match invoke "payload" with
  | Err e => Ret (Err e)
  | Ok resp =>
      if negb (String.eqb resp "grpc-unary:payload") then Ret (Err "grpc unary response")
      else checkChat_loop ["one"; "two"; "three"]
  end.

(** ** Lemmas *)

Lemma conn_io_iff X (e : connE X) (P P' : Prop) i o x i' o' :
  (P <-> P') -> conn_io X e P i o x i' o' -> conn_io X e P' i o x i' o'.
Proof. intros HP. destruct e; cbn; [done|]. by rewrite HP. Qed.

Lemma msg_io_iff {M} X (e : msgE M X) (P P' : Prop) i o x i' o' :
  (P <-> P') -> msg_io X e P i o x i' o' -> msg_io X e P' i o x i' o'.
Proof. intros HP. destruct e; cbn; [done|]. by rewrite HP. Qed.

(** The check has passed and the backend's program is done. *)
Definition passed {E : Type -> Type} {Q B} (p : Joined E Q (res failure unit) B) : Prop :=
  p_left p ≈ Ret (Ok tt) /\ returned (p_right p).

Lemma passed_equiv {E : Type -> Type} {Q B} (p q : Joined E Q (res failure unit) B) : pair_equiv p q -> passed p -> passed q.
Proof. intros (H1 & H2 & _) [K1 K2]. split; [by rewrite <- H1|by rewrite <- H2]. Qed.

(** *** The byte stream *)

Definition echo_write (chunk : string) : itree connE unit :=
  Vis (ConnWrite chunk) (fun w => match w with Ok _ => serveTCPConn | Err _ => Ret tt end).

Lemma serveTCPConn_unfold :
  serveTCPConn ≈ Vis (ConnRead copyBufferSize) (fun r => match r with Ok chunk => echo_write chunk | Err _ => Ret tt end).
Proof.
  unfold serveTCPConn at 1. rewrite unfold_iter. unfold tcp_echo_body at 1. rewrite bind_bind, bind_trigger.
  apply eqit_Vis. intros [chunk|e]; [|by rewrite bind_ret_l].
  rewrite bind_bind, bind_trigger. apply eqit_Vis. intros [[]|e]; rewrite bind_ret_l; [by rewrite tau_eutt|done].
Qed.

Lemma ReadFull_from_done n acc : n <= String.length acc -> ReadFull_from n acc ≈ Ret (Ok acc).
Proof.
  intros Hn. unfold ReadFull_from. rewrite unfold_iter, (proj2 (Nat.leb_le _ _) Hn). by rewrite bind_ret_l.
Qed.

Lemma ReadFull_from_more n acc :
  String.length acc < n ->
  ReadFull_from n acc ≈ Vis (ConnRead (n - String.length acc)) (fun r =>
    match r with
    | Ok chunk => ReadFull_from n (acc +:+ chunk)
    | Err e => Ret (Err (if String.eqb acc "" then e else "unexpected EOF"))
    end).
Proof.
  intros Hn. unfold ReadFull_from at 1. rewrite unfold_iter, (proj2 (Nat.leb_gt _ _) Hn).
  rewrite bind_bind, bind_trigger. apply eqit_Vis. intros [chunk|e]; rewrite bind_ret_l; [by rewrite tau_eutt|done].
Qed.

(** The backend: waiting for bytes, or about to write back some. *)
Definition echo_state (chunk : option string) : itree connE unit :=
  match chunk with None => serveTCPConn | Some c => echo_write c end.
Definition in_hand (chunk : option string) : string := default "" chunk.

Lemma str_length_zero s : String.length s = 0 -> s = "".
Proof. by destruct s. Qed.

Lemma copyBufferSize_pos : 1 <= copyBufferSize.
Proof. apply Nat.leb_le. reflexivity. Qed.

Section Bytes.
Context (goal : Joined connE string (res failure unit) unit -> Prop).
Context (goal_equiv : forall p q, pair_equiv p q -> goal p -> goal q).
#[local] Set Default Proof Using "Type*".
#[local] Abbreviation reaches := (always_reaches conn_io goal).

Lemma reaches_equiv p q : pair_equiv p q -> reaches p -> reaches q.
Proof. by apply always_reaches_equiv; [apply conn_io_iff|]. Qed.

(** What is on the way back, in the backend's hands and on the way there is
    what the check still has to read; it will read all of it. *)
Lemma reads_back k payload m acc chunk up down :
  3 * String.length up + 2 * String.length (in_hand chunk) + String.length down <= m ->
  payload = acc +:+ down +:+ in_hand chunk +:+ up -> chunk <> Some "" ->
  reaches (mkJoined (k (Ok payload)) serveTCPConn "" "") ->
  reaches (mkJoined (ITree.bind (ReadFull_from (String.length payload) acc) k) (echo_state chunk) up down).
Proof.
  intros Hm Hp Hc Hk. revert acc chunk up down Hm Hp Hc. induction m as [m IH] using lt_wf_ind. intros acc chunk up down Hm Hp Hc.
  assert (Hlen : String.length payload = String.length acc + String.length down + String.length (in_hand chunk) + String.length up)
    by (rewrite Hp, !length_app_str; lia).
  destruct (decide (String.length payload <= String.length acc)) as [Hdone|Hmore].
  { assert (down = "" /\ in_hand chunk = "" /\ up = "") as (-> & Hh & ->)
      by (split_and!; apply str_length_zero; lia).
    destruct chunk as [c|]; [cbn in Hh; by subst c|]. cbn in Hp. rewrite app_str_nil_r in Hp. subst acc.
    eapply reaches_equiv; [|exact Hk]. apply mkJoined_proper; try done.
    by rewrite ReadFull_from_done, bind_ret_l. }
  assert (Ht : ITree.bind (ReadFull_from (String.length payload) acc) k ≈
    Vis (ConnRead (String.length payload - String.length acc)) (fun r => ITree.bind (match r with
      | Ok chunk => ReadFull_from (String.length payload) (acc +:+ chunk)
      | Err e => Ret (Err (if String.eqb acc "" then e else "unexpected EOF")) end) k))
    by (rewrite ReadFull_from_more by lia; by rewrite bind_vis).
  pose proof (vis_not_returned _ _ _ Ht) as Hnt.
  assert (Hread : forall x d' u' (ended : Prop), ~ ended ->
    conn_io _ (ConnRead (String.length payload - String.length acc)) ended down up x d' u' ->
    reaches (mkJoined (ITree.bind (match x with
      | Ok chunk => ReadFull_from (String.length payload) (acc +:+ chunk)
      | Err e => Ret (Err (if String.eqb acc "" then e else "unexpected EOF")) end) k) (echo_state chunk) u' d')).
  { intros x d' u' ended He (-> & [(c & -> & Hne & _ & ->)|(_ & _ & _ & ?)]); [|done].
    rewrite length_app_str in *. destruct c; [done|]. cbn [String.length] in *.
    eapply (IH (m - 1)); [lia|lia| |done]. by rewrite Hp, !app_str_assoc. }
  destruct chunk as [c|]; cbn [echo_state in_hand default] in *.
  - assert (Hs : echo_write c ≈ Vis (ConnWrite c) (fun w => match w with Ok _ => serveTCPConn | Err _ => Ret tt end)) by done.
    eapply (reach_events conn_io conn_io_iff); [done|exact Ht|exact Hs|right; by do 3 eexists| |].
    + intros x d' u'. apply Hread. by eapply vis_not_returned.
    + intros x u' d' (-> & -> & ->). assert (c <> "") by congruence. destruct c as [|a c]; [done|].
      apply (IH (m - 1)) with (chunk := None); [cbn in *; lia|rewrite length_app_str; cbn in *; lia| |done].
      cbn. by rewrite Hp, <- !app_str_assoc.
  - pose proof serveTCPConn_unfold as Hs.
    eapply (reach_events conn_io conn_io_iff); [done|exact Ht|exact Hs| | |].
    + destruct down as [|a down]; [right|left].
      * destruct up as [|a up]; [cbn in *; lia|]. exists (Ok (String a "")), up, "". split; [done|]. left. exists (String a "").
        split_and!; try done. exact copyBufferSize_pos.
      * exists (Ok (String a "")), down, up. split; [done|]. left. exists (String a "").
        split_and!; try done. cbn. lia.
    + intros x d' u'. apply Hread. by eapply vis_not_returned.
    + intros x u' d' (-> & [(c & -> & Hne & _ & ->)|(_ & _ & _ & ?)]); [|done].
      rewrite length_app_str in *. destruct c as [|a c]; [done|].
      apply (IH (m - 1)) with (chunk := Some (String a c)); [cbn in *; lia|cbn in *; lia|done|done].
Qed.

(** One exchange: the payload is written, and comes back. *)
Lemma exchange_back k payload :
  reaches (mkJoined (k (Ok tt)) serveTCPConn "" "") ->
  reaches (mkJoined (ITree.bind (writeAndReadTCP payload) k) serveTCPConn "" "").
Proof.
  intros Hk.
  assert (Ht : ITree.bind (writeAndReadTCP payload) k ≈ Vis (ConnWrite payload) (fun w => ITree.bind (match w with
      | Err e => Ret (Err e)
      | Ok _ => ITree.bind (ReadFull (String.length payload)) (fun got => match got with
          | Err e => Ret (Err e)
          | Ok got => if negb (String.eqb got payload) then Ret (Err "tcp echo mismatch") else Ret (Ok tt) end)
      end) k)).
  { unfold writeAndReadTCP. rewrite bind_trigger. by rewrite bind_vis. }
  eapply (reach_events conn_io conn_io_iff); [done|exact Ht|exact serveTCPConn_unfold|left; by do 3 eexists| |].
  - intros x d' u' (-> & -> & ->). cbn [String.append]. eapply reaches_equiv.
    { apply mkJoined_proper; [by rewrite bind_bind|done..]. }
    apply (reads_back _ payload (3 * String.length payload) "" None); [cbn; lia|done|done|].
    rewrite String.eqb_refl. cbn [negb]. eapply reaches_equiv; [|exact Hk].
    apply mkJoined_proper; try done. by rewrite bind_ret_l.
  - intros x u' d' (-> & [(c & _ & Hne & _ & Hc)|(_ & _ & _ & Hend)]); [by destruct c|].
    by apply (vis_not_returned _ _ _ Ht) in Hend.
Qed.
End Bytes.

(** *** Messages *)

Section MessageLemmas.
Context {M B : Type} (goal : Joined (msgE M) (list M) (res failure unit) B -> Prop).
Context (goal_equiv : forall p q, pair_equiv p q -> goal p -> goal q).
#[local] Set Default Proof Using "Type*".
#[local] Abbreviation reaches := (always_reaches msg_io goal).

(** One exchange: the message goes, the backend answers, the answer comes. *)
Lemma message_back m a ks kw kc kr s t :
  s ≈ Vis RecvMsg ks -> ks (Ok m) ≈ Vis (SendMsg a) kw -> kw (Ok tt) ≈ s ->
  t ≈ Vis (SendMsg m) kc -> kc (Ok tt) ≈ Vis RecvMsg kr ->
  reaches (mkJoined (kr (Ok a)) s [] []) -> reaches (mkJoined t s [] []).
Proof.
  intros Hs Hs1 Hs2 Ht Ht1 Hk.
  eapply (reach_events msg_io msg_io_iff); [done|exact Ht|exact Hs|left; by do 3 eexists| |].
  2: { intros x u' d' (_ & [(? & _ & ?)|(_ & _ & _ & He)]); [done|]. by apply (vis_not_returned _ _ _ Ht) in He. }
  intros x d' u' (-> & -> & ->). cbn [app].
  eapply (reach_events msg_io msg_io_iff); [done|exact Ht1|exact Hs| | |].
  - right. exists (Ok m), [], []. split; [done|]. left. by exists m.
  - intros x d' u' (_ & [(? & _ & ?)|(_ & _ & _ & He)]); [done|]. by apply (vis_not_returned _ _ _ Hs) in He.
  - intros x u' d' (-> & [(m' & -> & [= <- <-])|(_ & ? & _)]); [|done].
    eapply (reach_events msg_io msg_io_iff); [done|exact Ht1|exact Hs1|right; by do 3 eexists| |].
    + intros x d' u' (_ & [(? & _ & ?)|(_ & _ & _ & He)]); [done|]. by apply (vis_not_returned _ _ _ Hs1) in He.
    + intros x u' d' (-> & -> & ->). cbn [app].
      assert (Hs' : kw (Ok tt) ≈ Vis RecvMsg ks) by by rewrite Hs2.
      eapply (reach_events msg_io msg_io_iff); [done|exact Ht1|exact Hs'| | |].
      * left. exists (Ok a), [], []. split; [done|]. left. by exists a.
      * intros x d' u' (-> & [(m' & -> & [= <- <-])|(_ & ? & _)]); [|done].
        eapply always_reaches_equiv; [apply msg_io_iff|done| |exact Hk]. by apply mkJoined_proper.
      * intros x u' d' (_ & [(? & _ & ?)|(_ & _ & _ & He)]); [done|]. by apply (vis_not_returned _ _ _ Ht1) in He.
Qed.

(** The check has returned: the backend sees the end and returns. *)
Lemma message_end r ks s t :
  t ≈ Ret r -> s ≈ Vis RecvMsg ks ->
  (forall e, goal (mkJoined t (ks (Err e)) [] [])) -> reaches (mkJoined t s [] []).
Proof.
  intros Ht Hs Hk. assert (Hr : returned t) by by exists r.
  eapply (reach_ended msg_io msg_io_iff); [done|exact Ht|exact Hs| |].
  - exists (Err "EOF"), [], []. split; [done|]. right. by split_and!.
  - intros x u' d' (-> & [(? & _ & ?)|(-> & _ & -> & _)]); [done|]. by apply ar_there.
Qed.
End MessageLemmas.

Definition ws_reply (r : res failure (ws_kind * string)) : itree (msgE (ws_kind * string)) unit :=
  match r with
  | Err _ => Ret tt
  | Ok (messageType, payload) =>
      if negb (bool_decide (messageType = TextMessage)) && negb (bool_decide (messageType = BinaryMessage))
      then serveWebSocketConn
      else Vis (SendMsg (messageType, payload)) (fun w => match w with Err _ => Ret tt | Ok _ => serveWebSocketConn end)
  end.

Lemma serveWebSocketConn_unfold : serveWebSocketConn ≈ Vis RecvMsg ws_reply.
Proof.
  unfold serveWebSocketConn at 1. rewrite unfold_iter. unfold ws_echo_body at 1. rewrite bind_bind, bind_trigger.
  apply eqit_Vis. intros [[messageType payload]|e]; cbn [ws_reply]; [|by rewrite bind_ret_l].
  destruct (_ && _); [by rewrite bind_ret_l, tau_eutt|].
  rewrite bind_bind, bind_trigger. apply eqit_Vis. intros [[]|e]; rewrite bind_ret_l; [by rewrite tau_eutt|done].
Qed.

Definition chat_reply (r : res failure string) : itree (msgE string) (res failure unit) :=
  match r with
  | Err e => Ret (if String.eqb e "EOF" then Ok tt else Err e)
  | Ok value => Vis (SendMsg ("grpc-stream:" +:+ value)) (fun w => match w with Err e => Ret (Err e) | Ok _ => Chat end)
  end.

Lemma Chat_unfold : Chat ≈ Vis RecvMsg chat_reply.
Proof.
  unfold Chat at 1. rewrite unfold_iter. unfold chat_body at 1. rewrite bind_bind, bind_trigger.
  apply eqit_Vis. intros [value|e]; cbn [chat_reply]; [|by rewrite bind_ret_l].
  rewrite bind_bind, bind_trigger. apply eqit_Vis. intros [[]|e]; rewrite bind_ret_l; [by rewrite tau_eutt|done].
Qed.

(** The loops of the checks reach their end. *)
Lemma ws_loop_passes messages :
  Forall (fun m => m.1 <> OtherMessage) messages ->
  always_reaches msg_io passed (mkJoined (checkWebSocket_loop messages) serveWebSocketConn [] []).
Proof.
  induction 1 as [|[kind data] messages Hm _ IH]; cbn [checkWebSocket_loop].
  - eapply message_end; [apply passed_equiv|reflexivity|apply serveWebSocketConn_unfold|].
    intros e. split; [done|by exists tt].
  - assert (Hk : negb (bool_decide (kind = TextMessage)) && negb (bool_decide (kind = BinaryMessage)) = false) by (by destruct kind).
    eapply (message_back passed passed_equiv (kind, data) (kind, data) ws_reply);
      [apply serveWebSocketConn_unfold|cbn [ws_reply]; rewrite Hk; reflexivity|reflexivity|by rewrite bind_trigger|cbn beta iota; by rewrite bind_trigger|].
    cbn. rewrite bool_decide_eq_true_2, String.eqb_refl by done. exact IH.
Qed.

Lemma chat_loop_passes values :
  always_reaches msg_io passed (mkJoined (checkChat_loop values) Chat [] []).
Proof.
  induction values as [|value values IH]; cbn [checkChat_loop].
  - eapply message_end; [apply passed_equiv|reflexivity|apply Chat_unfold|].
    intros e. split; [done|]. exists (if String.eqb e "EOF" then Ok tt else Err e). reflexivity.
  - eapply (message_back passed passed_equiv value ("grpc-stream:" +:+ value) chat_reply); [apply Chat_unfold|cbn [chat_reply]; reflexivity|reflexivity|by rewrite bind_trigger|cbn beta iota; by rewrite bind_trigger|].
    cbn beta iota. rewrite String.eqb_refl. exact IH.
Qed.

(** ** Property *)

(** C37: the smoke test's session checks pass.  Joined to its backend by a
    channel that delivers everything in order, bytes in any chunks, under every
    interleaving: the TCP check, whatever its payload, the WebSocket check
    and the gRPC check are never stuck, return after finitely many steps
    without an error, and the backend's handler then returns too. *)
Theorem echo_checks_pass :
  (forall first, always_reaches conn_io passed (mkJoined (checkTCPSession first) serveTCPConn "" "")) /\
  always_reaches msg_io passed (mkJoined checkWebSocket (websocket_handler true) [] []) /\
  always_reaches msg_io passed (mkJoined (checkGRPC (fun value => unary_handler (Ok value) None)) Chat [] []).
Proof.
  split_and!.
  - intros first. unfold checkTCPSession. apply exchange_back; [apply passed_equiv|]. cbn beta iota.
    eapply (reaches_equiv _ passed_equiv (mkJoined (ITree.bind (writeAndReadTCP "second-write") (fun r => Ret r)) serveTCPConn "" "")).
    { apply mkJoined_proper; [|done..]. by rewrite bind_ret_r. }
    apply exchange_back; [apply passed_equiv|].
    eapply (reach_ended conn_io conn_io_iff); [apply passed_equiv|reflexivity|exact serveTCPConn_unfold| |].
    + exists (Err "EOF"), "", "". split; [done|]. right. split_and!; try done. by eexists.
    + intros x u' d' (-> & [(c & _ & Hne & _ & Hc)|(-> & _ & -> & _)]); [by destruct c|]. apply ar_there.
      split; [done|by exists tt].
  - apply ws_loop_passes. unfold ws_messages. repeat constructor; done.
  - apply chat_loop_passes.
Qed.
