(* ===== verification/E2eCheck.v ===== *)
(** * The smoke test program

    [cmd/airpc-e2e/main.go] apart from its echo sessions ([E2eEcho]): the
    command line, the HTTP backend, the HTTP checks, the order of the checks
    and what is printed.  The network is a parameter: what the HTTP client
    gets, and how the sessions with an address end. *)
From S2P Require Import Prelude GoString GoStd GoURL Flag EdgeRoutes EdgeUnary.
From S2P Require ConnectorProxy.

#[local] Open Scope Z_scope.

Definition defaultBaseURL : string := "http://edge:8080".
Definition defaultTCPAddr : string := "edge:7000".
Definition defaultWSURL : string := "ws://edge:8080/ws".
Definition defaultGRPCAddr : string := "edge:7003".

Inductive e2e_error :=
| MissingCommand | UnknownCommand (c : string) | FlagFailed (e : flag_error)
| BackendRequires | UnsupportedMode (mode : string)
| HealthNotReady (url : string)
| CheckFailed (name : string) (e : e2e_error)
| CallFailed (what : string)                            (** an error of a library call *)
| HTTPStatus (status : Z) (body : string) | HTTPBody (body : string) | BackendHeader (value : string)
| HopByHopForwarded | LargeRequestStatus (status : Z) | WantUnavailable (status : Z)
| StayedOpen (what : string)
| NeedsAddress | WasReachable (addr : string).

(** [io.ReadAll]. *)
Definition ReadAll (b : Body) : res e2e_error string :=
  if body_fails b then Err (CallFailed "read") else Ok (body_data b).

(** [h.Set(key, value)]. *)
Definition Header_Set (h : Header) (key value : string) : Header := <[CanonicalHeaderKey key := [value]]> h.

(** ** The HTTP backend *)

(** [u.RequestURI()] of a URL without an opaque part. *)
Definition RequestURI (u : URL) : string :=
  let path := EscapedPath u in
  let result := if String.eqb path "" then "/" else path in
  if ForceQuery u || negb (String.eqb (RawQuery u) "") then result +:+ "?" +:+ RawQuery u else result.

(** The handler of [serveHTTPBackend]; [u]: the URL of the request. *)
Definition serveHTTPBackend (u : URL) (r : HTTPRequest) : HTTPResponse :=
  match ReadAll (req_Body r) with
  | Err _ => http_Error "read body" 400
  | Ok body =>
      if negb (String.eqb (Path u) "/api/echo") || negb (String.eqb (RawQuery u) "x=1&y=two") then
        http_Error ("unexpected path or query: " +:+ RequestURI u) 400
      else if negb (String.eqb (req_Method r) "POST") || negb (String.eqb body "hello-http") then
        http_Error "unexpected method or body" 400
      else if negb (String.eqb (Header_Get (req_Header r) "X-Airpc-Test") "allowed") ||
              negb (String.eqb (Header_Get (req_Header r) "X-Blocked") "") ||
              negb (String.eqb (Header_Get (req_Header r) "Authorization") "") then
        http_Error "unexpected forwarded headers" 400
      else
        mkHTTPResponse 201 (Header_Set (Header_Set ∅ "X-Backend-Header" "preserved") "Connection" "close")
          ("http-ok:" +:+ RequestURI u +:+ ":" +:+ body +:+ ":" +:+ Header_Get (req_Header r) "X-Airpc-Test") false
  end.

(** ** The HTTP checks *)

Section HTTP.
Context {UT : UnicodeTables} (Do : ConnectorProxy.backend).

Definition echo_url (baseURL : string) : string := TrimRightByte baseURL "/" +:+ "/http/api/echo?x=1&y=two".

Fixpoint Repeat (s : string) (n : nat) : string :=
  match n with O => "" | S n' => s +:+ Repeat s n' end.

(** [client.Do] on a request made by [http.NewRequest]. *)
Definition request (method url : string) (header : Header) (body : string) : res e2e_error ConnectorProxy.BackendResponse :=
  match ConnectorProxy.NewRequest method url with
  | Err _ => Err (CallFailed "new request")
  | Ok (method, u) =>
      match Do method u header body with
      | Err _ => Err (CallFailed "do")
      | Ok resp => Ok resp
      end
  end.

Definition check_header : Header :=
  Header_Set (Header_Set (Header_Set (Header_Set (Header_Set ∅
    "Content-Type" "text/plain") "X-Airpc-Test" "allowed") "X-Blocked" "must-not-forward")
    "Authorization" "must-not-forward") "Connection" "keep-alive".

Definition wantBody : string := "http-ok:/api/echo?x=1&y=two:hello-http:allowed".

Definition checkHTTP (baseURL : string) : res e2e_error unit :=
  let? resp := request "POST" (echo_url baseURL) check_header "hello-http" in
  let? body := ReadAll (ConnectorProxy.br_Body resp) in
  if negb (ConnectorProxy.br_StatusCode resp =? 201) then Err (HTTPStatus (ConnectorProxy.br_StatusCode resp) body)
  else if negb (String.eqb body wantBody) then Err (HTTPBody body)
  else if negb (String.eqb (Header_Get (ConnectorProxy.br_Header resp) "X-Backend-Header") "preserved") then
    Err (BackendHeader (Header_Get (ConnectorProxy.br_Header resp) "X-Backend-Header"))
  else if negb (String.eqb (Header_Get (ConnectorProxy.br_Header resp) "Connection") "") then Err HopByHopForwarded
  else
    let? tooLargeResp := request "POST" (echo_url baseURL) ∅ (Repeat "x" 128) in
    if negb (ConnectorProxy.br_StatusCode tooLargeResp =? 413)
    then Err (LargeRequestStatus (ConnectorProxy.br_StatusCode tooLargeResp)) else Ok tt.

(** [client.Get] of the health endpoint at an attempt of [runWaitHealth]: the status. *)
Definition get_health (baseURL : string) : res e2e_error Z :=
  let? resp := request "GET" (TrimRightByte baseURL "/" +:+ "/_airpc/healthz") ∅ "" in
  Ok (ConnectorProxy.br_StatusCode resp).

(** An error of [client.Post] is a success: nothing answers. *)
Definition checkHTTPDown (baseURL : string) : res e2e_error unit :=
  match request "POST" (echo_url baseURL) (Header_Set ∅ "Content-Type" "text/plain") "hello-http" with
  | Err _ => Ok tt
  | Ok resp =>
      let status := ConnectorProxy.br_StatusCode resp in
      if (status =? 503) || (status =? 504) || (status =? 502) then Ok tt else Err (WantUnavailable status)
  end.
End HTTP.

(** ** The session checks that expect nothing to answer *)

(** How far a probe of an address gets. *)
Inductive probe := ProbeDialFails | ProbeWriteFails | ProbeReadFails | ProbeAnswered.

Definition checkWebSocketDown (p : probe) : res e2e_error unit :=
  match p with
  | ProbeDialFails | ProbeWriteFails | ProbeReadFails => Ok tt
  | ProbeAnswered => Err (StayedOpen "websocket stayed open while connector was down")
  end.

Definition checkTCPDown (p : probe) : res e2e_error unit :=
  match p with
  | ProbeDialFails | ProbeWriteFails | ProbeReadFails => Ok tt
  | ProbeAnswered => Err (StayedOpen "tcp route echoed data while connector was down")
  end.

(** [invoked]: dialing and the call both succeed. *)
Definition checkGRPCDown (invoked : bool) : res e2e_error unit :=
  if invoked then Err (StayedOpen "grpc route succeeded while connector was down") else Ok tt.

Definition checkUnreachable (reachable : bool) (addr : string) : res e2e_error unit :=
  if reachable then Err (WasReachable addr) else Ok tt.

(** The first error of a list of results. *)
Fixpoint first_error (results : list (res e2e_error unit)) : res e2e_error unit :=
  match results with
  | [] => Ok tt
  | Ok _ :: results' => first_error results'
  | Err e :: _ => Err e
  end.

(** [checkTCP]: a short payload, a large random one, then eight sessions at
    once; [session]: how [checkTCPSession] ends for a payload, [random]: what
    [rand.Read] fills the buffer with, [order]: the order in which the
    goroutines report. *)
Definition checkTCP (session : string -> res e2e_error unit) (random : option string) (order : list nat) : res e2e_error unit :=
  let? _ := session "first" in
  match random with
  | None => Err (CallFailed "rand")
  | Some large =>
      let? _ := session large in
      first_error (map (fun i => session ("concurrent-" +:+ String (zb (48 + Z.of_nat i)) "")) order)
  end.

(** ** Running *)

(** The rest of the world, by address. *)
Record Network := mkNetwork {
  nt_Do : nat -> ConnectorProxy.backend;                (** the HTTP client, at each attempt *)
  nt_tcp : string -> string -> res e2e_error unit;      (** [checkTCPSession] *)
  nt_ws : string -> res e2e_error unit;                 (** [checkWebSocket] *)
  nt_grpc : string -> res e2e_error unit;               (** [checkGRPC] *)
  nt_probe : string -> probe;
  nt_invoked : string -> bool;
  nt_reachable : string -> bool;
  nt_random : option string;
  nt_order : list nat
}.

(** What is printed, and the outcome. *)
Abbreviation outcome := (list string * res e2e_error unit)%type.

(** The loop over the checks. *)
Fixpoint run_checks (checks : list (string * res e2e_error unit)) : outcome :=
  match checks with
  | [] => ([], Ok tt)
  | (name, result) :: checks' =>
      match result with
      | Err e => ([], Err (CheckFailed name e))
      | Ok _ => let '(out, r) := run_checks checks' in (("ok: " +:+ name) :: out, r)
      end
  end.

(** The loop of [runWaitHealth], with [n] attempts left. *)
Fixpoint wait_loop (get : nat -> res e2e_error Z) (i n : nat) : bool :=
  match n with
  | O => false
  | S n' =>
      match get i with
      | Ok status => if status =? 200 then true else wait_loop get (S i) n'
      | Err _ => wait_loop get (S i) n'
      end
  end.

(** The loop of [runCheckUnreachable]. *)
Fixpoint unreachable_loop (reachable : string -> bool) (addrs : list string) : outcome :=
  match addrs with
  | [] => ([], Ok tt)
  | addr :: addrs' =>
      match checkUnreachable (reachable addr) addr with
      | Err e => ([], Err e)
      | Ok _ => let '(out, r) := unreachable_loop reachable addrs' in (("ok: unreachable " +:+ addr) :: out, r)
      end
  end.

Section Run.
Context {UT : UnicodeTables} (net : Network).

Definition runDownChecks (baseURL tcpAddr wsURL grpcAddr : string) : outcome :=
  run_checks
    [("http down", checkHTTPDown (nt_Do net 0) baseURL);
     ("websocket down", checkWebSocketDown (nt_probe net wsURL));
     ("tcp down", checkTCPDown (nt_probe net tcpAddr));
     ("grpc down", checkGRPCDown (nt_invoked net grpcAddr))].

Definition check_flags : list string := ["base-url"; "tcp-addr"; "ws-url"; "grpc-addr"].

Definition runCheck (args : list string) (down : bool) : outcome :=
  match flag_Parse any_value check_flags args ∅ with
  | Err e => ([], Err (FlagFailed e))
  | Ok (values, _) =>
      let baseURL := flag_or values "base-url" defaultBaseURL in
      let tcpAddr := flag_or values "tcp-addr" defaultTCPAddr in
      let wsURL := flag_or values "ws-url" defaultWSURL in
      let grpcAddr := flag_or values "grpc-addr" defaultGRPCAddr in
      if down then runDownChecks baseURL tcpAddr wsURL grpcAddr
      else
        run_checks
          [("http unary", checkHTTP (nt_Do net 0) baseURL);
           ("websocket", nt_ws net wsURL);
           ("tcp", checkTCP (nt_tcp net tcpAddr) (nt_random net) (nt_order net));
           ("grpc", nt_grpc net grpcAddr)]
  end.

Definition wait_accepts (name value : string) : bool :=
  if String.eqb name "attempts" then int_value value else true.

Definition runWaitHealth (args : list string) : outcome :=
  match flag_Parse wait_accepts ["base-url"; "attempts"] args ∅ with
  | Err e => ([], Err (FlagFailed e))
  | Ok (values, _) =>
      let baseURL := flag_or values "base-url" defaultBaseURL in
      let attempts := default 60 (values !! "attempts" ≫= ParseInt0) in
      if wait_loop (fun i => get_health (nt_Do net i) baseURL) 0 (Z.to_nat attempts) then (["ok: edge health is ready"], Ok tt)
      else ([], Err (HealthNotReady baseURL))
  end.

Definition runCheckUnreachable (args : list string) : outcome :=
  match args with
  | [] => ([], Err NeedsAddress)
  | _ => unreachable_loop (nt_reachable net) args
  end.

(** [runBackend] up to the server it starts: what serving in a mode on an
    address ends with. *)
Definition runBackend (serve : string -> string -> res e2e_error unit) (args : list string) : outcome :=
  match flag_Parse any_value ["mode"; "addr"] args ∅ with
  | Err e => ([], Err (FlagFailed e))
  | Ok (values, _) =>
      let mode := flag_value values "mode" in
      let addr := flag_value values "addr" in
      if String.eqb mode "" || String.eqb addr "" then ([], Err BackendRequires)
      else if String.eqb mode "http" || String.eqb mode "tcp" || String.eqb mode "websocket" || String.eqb mode "grpc"
      then ([], serve mode addr)
      else ([], Err (UnsupportedMode mode))
  end.

Definition run (serve : string -> string -> res e2e_error unit) (args : list string) : outcome :=
  match args with
  | [] => ([], Err MissingCommand)
  | c :: args' =>
      if String.eqb c "backend" then runBackend serve args'
      else if String.eqb c "check" then runCheck args' false
      else if String.eqb c "check-down" then runCheck args' true
      else if String.eqb c "check-unreachable" then runCheckUnreachable args'
      else if String.eqb c "wait-health" then runWaitHealth args'
      else ([], Err (UnknownCommand c))
  end.

(** The status [main] exits with. *)
Definition main (serve : string -> string -> res e2e_error unit) (args : list string) : Z :=
  match (run serve args).2 with Ok _ => 0 | Err _ => 1 end.
End Run.

(** ** Lemmas *)

(** The checks run in order up to the first that fails: a line for each that
    passed, the name of the one that failed. *)
Lemma run_checks_passed passed :
  Forall (fun c => c.2 = Ok tt) passed -> run_checks passed = (map (fun c => "ok: " +:+ c.1) passed, Ok tt).
Proof. induction 1 as [|[name r] passed Hr _ IH]; [done|]. cbn in *. by rewrite Hr, IH. Qed.

Lemma run_checks_failed passed name e rest :
  Forall (fun c => c.2 = Ok tt) passed ->
  run_checks (passed ++ (name, Err e) :: rest) = (map (fun c => "ok: " +:+ c.1) passed, Err (CheckFailed name e)).
Proof. induction 1 as [|[n r] passed Hr _ IH]; [done|]. cbn in *. by rewrite Hr, IH. Qed.

(** Waiting succeeds exactly when some attempt is answered with 200. *)
Lemma wait_loop_iff get i n : wait_loop get i n = true <-> exists j, (i <= j < i + n)%nat /\ get j = Ok 200.
Proof.
  revert i. induction n as [|n IH]; intros i; cbn.
  { split; [done|]. intros (j & ? & _). lia. }
  assert (Hi : (exists j, (i <= j < i + S n)%nat /\ get j = Ok 200) <-> get i = Ok 200 \/ wait_loop get (S i) n = true).
  { rewrite IH. split; [|intros [?|(j & ? & ?)]; [exists i|exists j]; split; done || lia].
    intros (j & Hj & Hg). destruct (decide (j = i)) as [->|]; [by left|right]. exists j. split; [lia|done]. }
  rewrite Hi. destruct (get i) as [status|e]; [|naive_solver].
  destruct (Z.eqb_spec status 200) as [->|]; naive_solver.
Qed.
