(* ===== verification/E2eSmoke.v ===== *)
(** * The smoke test against the system it tests

    The HTTP checks of [cmd/airpc-e2e/main.go] run against the whole system as
    [deploy/airpc.yaml] configures it: the edge's handler, NATS, the
    connector's proxy and the test's own backend, each with the definitions
    that model it, joined by HTTP connections that deliver what is sent.  The
    websocket, TCP and gRPC checks are outcomes of the network here
    ([session_checks]); nothing is claimed of them. *)
From S2P Require Import Prelude GoString GoStd GoURL Msgpack HttpEnvelope Headers Config TunnelEnvelope Link EdgeRoutes EdgeUnary Lifecycle EndToEnd E2eCheck.
From S2P Require ConnectorProxy EdgeTunnel.

#[local] Open Scope Z_scope.

(** ** The configuration *)

Definition smoke_route (name mode prefix listen target : string) (limits : Z * Z) (forwarded : list string) : Route :=
  mkRoute name mode "" prefix "" listen target limits.1 limits.2 0 0 5000000000 0 forwarded false.

(** The routes of [deploy/airpc.yaml]. *)
Definition smoke_http : Route :=
  smoke_route "http_echo" ModeHTTP "/http" "" "http://http-backend:9000" (64, 1048576) ["content-type"; "x-airpc-test"; "x-request-id"].
Definition smoke_tcp : Route := smoke_route "tcp_echo" ModeTCP "" ":7000" "tcp-backend:9001" (0, 0) [].
Definition smoke_ws : Route := smoke_route "ws_echo" ModeWebSocket "/ws" "" "ws://websocket-backend:9002" (0, 0) [].
Definition smoke_grpc : Route := smoke_route "grpc_echo" ModeGRPC "" ":7003" "grpc-backend:9003" (0, 0) [].
Definition smoke_routes : list Route := [smoke_http; smoke_tcp; smoke_ws; smoke_grpc].

(** ** HTTP between a client and a server *)

(** What [net/http] adds to a request or a response with a given body. *)
Record HTTPWire := mkHTTPWire { hw_request : string -> Header; hw_response : string -> Header }.

(** Only headers the handlers and clients have not set, with values. *)
Record wire_ok (w : HTTPWire) : Prop := {
  wo_request body k vs : hw_request w body !! k = Some vs ->
    k ∈ ["User-Agent"; "Accept-Encoding"; "Content-Length"] /\ vs <> [];
  wo_response body k vs : hw_response w body !! k = Some vs ->
    k ∈ ["Date"; "Content-Length"; "Content-Type"] /\ vs <> [] /\ Forall (avoids crlf) vs /\
    (k = "Content-Type" -> vs = ["text/plain; charset=utf-8"])
}.

Section System.
Context {UT : UnicodeTables} {MF : Msgpack Frame} {MQ : Msgpack Request} {MR : Msgpack Response}.

(** A client's call to a server with a handler: the target crosses as
    [u.RequestURI()] and is parsed again. *)
Definition roundTrip (w : HTTPWire) (handler : URL -> HTTPRequest -> HTTPResponse) : ConnectorProxy.backend :=
  fun method u header body =>
    match ParseRequestURI (RequestURI u) with
    | Err _ => Err tt
    | Ok su =>
        let resp := handler su (mkHTTPRequest method (Path su) (RawQuery su) (Host u) false
          (header ∪ hw_request w body) (mkBody body false)) in
        Ok (ConnectorProxy.mkBackendResponse (resp_status resp)
              (resp_header resp ∪ hw_response w (resp_body resp)) (len (resp_body resp))
              (mkBody (resp_body resp) (resp_aborted resp)))
    end.

(** What the edge's surroundings decide for a request: the sixteen random bytes
    of its id, its deadline, the order its headers are visited in, the answer
    of a websocket route, and what is relayed of a streamed body. *)
Record Surroundings := mkSurroundings {
  su_random : HTTPRequest -> string;
  su_deadline : HTTPRequest -> Z;
  su_order : Header -> list (string * list string);
  su_websocket : HTTPRequest -> HTTPResponse;
  su_streamed : Response -> HTTPResponse
}.

Record surroundings_ok (s : Surroundings) : Prop := {
  so_random req : String.length (su_random s req) = 16%nat;
  so_deadline req : 0 < su_deadline s req <= max_int64;
  so_order h : iteration h (su_order s h)
}.

(** The edge's handler: [ServeHTTP] with what each case writes. *)
Definition edge_handler (s : Surroundings) (nats : string -> string -> nats_result) (httpTable wsTable : list route)
    (_ : URL) (req : HTTPRequest) : HTTPResponse :=
  match ServeHTTP httpTable wsTable req with
  | Healthz => mkHTTPResponse 200 {["Content-Type" := ["text/plain; charset=utf-8"]]} ("ok" +:+ String LF "") false
  | WebSocketRoute _ _ => su_websocket s req
  | NotFound => http_Error "404 page not found" 404
  | UnaryRoute matched suffix =>
      match (serveUnary (requestID (Some (su_random s req))) (su_deadline s req)
               (su_order s (req_Header req)) nats req matched suffix).1 with
      | Answer resp => resp
      | StreamedAnswer resp => su_streamed s resp
      end
  end.

(** The connector's side: the table of its routes, its handler of payloads. *)
Definition smoke_table : gmap string ConnectorProxy.route :=
  match ConnectorProxy.httpRoutes smoke_routes with
  | Ok routes => ConnectorProxy.routesByName routes
  | Err _ => ∅
  end.
Definition smoke_connector (w : HTTPWire) (cid : string) (link : option Link) : string -> string :=
  connector_reply cid (roundTrip w serveHTTPBackend) smoke_table link.

(** The system: with a connector, and without one. *)
Definition system_up (w : HTTPWire) (s : Surroundings) (cid : string) (link : option Link) : ConnectorProxy.backend :=
  roundTrip w (edge_handler s (connector_nats smoke_http (smoke_connector w cid link))
    (httpRoutes smoke_routes) (wsRoutes smoke_routes)).
Definition system_down (w : HTTPWire) (s : Surroundings) : ConnectorProxy.backend :=
  roundTrip w (edge_handler s (fun _ _ => mkNatsResult (Err ErrNoResponders) false)
    (httpRoutes smoke_routes) (wsRoutes smoke_routes)).

(** ** The networks of the runs *)

(** The checks of the sessions, whose outcomes the networks decide. *)
Definition session_checks (net : Network) : list (string * res e2e_error unit) :=
  [("websocket", nt_ws net defaultWSURL);
   ("tcp", checkTCP (nt_tcp net defaultTCPAddr) (nt_random net) (nt_order net));
   ("grpc", nt_grpc net defaultGRPCAddr)].

(** [openDataSession] returns a session. *)
Definition opened_session {MO : Msgpack OpenRequest} {MP : Msgpack OpenResponse} (deadlineMS : Z) (turns : list EdgeTunnel.open_turn)
    (r : Route) (id path : string) (e : EdgeTunnel.Edge) : bool :=
  match (EdgeTunnel.openDataSession deadlineMS turns r id path e).2 with Some (Ok _) => true | _ => false end.

(** Without a connector nobody answers open requests; only a connection the edge
    relays can answer a probe. *)
Record network_down {MO : Msgpack OpenRequest} {MP : Msgpack OpenResponse} (w : HTTPWire) (s : Surroundings) (net : Network) : Prop := {
  nd_http i : nt_Do net i = system_down w s;
  nd_tcp : nt_probe net defaultTCPAddr = ProbeAnswered -> exists rid deadlineMS t rest e idle,
    EdgeTunnel.ot_nats t = (fun _ _ => Err ErrNoResponders) /\
    handleTCPConn rid (fun id path => opened_session deadlineMS (t :: rest) smoke_tcp id path e) smoke_tcp = ConnRelayed idle;
  nd_ws : nt_probe net defaultWSURL = ProbeAnswered -> exists rid deadlineMS t rest e suffix idle,
    EdgeTunnel.ot_nats t = (fun _ _ => Err ErrNoResponders) /\
    handleWebSocketRoute true rid (fun id path => opened_session deadlineMS (t :: rest) smoke_ws id path e)
      (mkroute smoke_ws "/ws" "") suffix = WSRelayed idle;
  nd_grpc : nt_invoked net defaultGRPCAddr = true -> exists rid deadlineMS t rest e idle,
    EdgeTunnel.ot_nats t = (fun _ _ => Err ErrNoResponders) /\
    handleTCPConn rid (fun id path => opened_session deadlineMS (t :: rest) smoke_grpc id path e) smoke_grpc = ConnRelayed idle
}.
End System.

(** ** Lemmas *)

Section Lemmas.
Context {UT : UnicodeTables}.

(** A map with canonical names, all with values. *)
Definition proper_header (h : Header) : Prop := canonical_header h /\ forall k, h !! k <> Some [].

Lemma proper_decide h :
  bool_decide (map_Forall (fun k vs => CanonicalHeaderKey k = k /\ vs <> []) h) = true -> proper_header h.
Proof.
  intros H%bool_decide_eq_true. split; [intros k vs Hk|intros k Hk]; by apply H in Hk as [? ?].
Qed.

Lemma proper_union h h' : proper_header h -> proper_header h' -> proper_header (h ∪ h').
Proof.
  intros [H1 H2] [H1' H2']. split.
  - intros k vs [?|[_ ?]]%lookup_union_Some_raw; [by eapply H1|by eapply H1'].
  - intros k [?|[_ ?]]%lookup_union_Some_raw; [by eapply H2|by eapply H2'].
Qed.

(** On a canonical map whose entries have values, the filters' loop is a
    filter. *)
Lemma copyLoop_filter (keep : string -> bool) src order :
  proper_header src -> iteration src order ->
  copyLoop keep order ∅ = filter (fun e => keep e.1 = true) src.
Proof.
  intros [Hc Hne] Hit. apply map_eq. intros k. apply option_eq. intros vs.
  rewrite (copyLoop_iteration keep src), map_lookup_filter_Some by done.
  cbn [fst]. split; [by intros (? & _ & ?)|]. intros [H ?]. split; [done|]. split; [|done]. intros ->. by apply (Hne k).
Qed.

Lemma addHeaders_id h :
  proper_header h -> addHeaders (map_to_list h) ∅ = h.
Proof.
  intros Hp. rewrite addHeaders_copy.
  - rewrite (copyLoop_filter _ h) by (done || apply Permutation_refl). by apply map_filter_id.
  - intros [k vs] He. apply elem_of_map_to_list in He. by eapply Hp.
Qed.

Definition crosses (k : string) : bool := negb (String.eqb k "") && negb (isHopByHop k).
Lemma FilterResponse_filter h :
  proper_header h -> FilterResponse (map_to_list h) = filter (fun e => crosses e.1 = true) h.
Proof. intros Hp. unfold FilterResponse. rewrite filterResponseLoop_copy. apply (copyLoop_filter _ h); [done|apply Permutation_refl]. Qed.

(** What [net/http] adds never gets in the way. *)
Context (w : HTTPWire) (Hw : wire_ok w).
#[local] Set Default Proof Using "Type*".

Lemma request_adds_proper body : proper_header (hw_request w body).
Proof.
  split; [intros k vs H|intros k H]; apply (wo_request w Hw) in H as [Hk Hv]; [|done].
  rewrite !elem_of_cons, elem_of_nil in Hk. by destruct Hk as [->|[->|[->|[]]]].
Qed.

Lemma response_adds_proper body : proper_header (hw_response w body).
Proof.
  split; [intros k vs H|intros k H]; apply (wo_response w Hw) in H as (Hk & Hv & _); [|done].
  rewrite !elem_of_cons, elem_of_nil in Hk. by destruct Hk as [->|[->|[->|[]]]].
Qed.

Definition forwarded_name (k : string) : bool :=
  bool_decide (k ∈ allowedSet (Route_ForwardedHeaders smoke_http) ∅) && negb (isHopByHop k).

Lemma forwarded_not_added k : k ∈ ["User-Agent"; "Accept-Encoding"; "Content-Length"] -> forwarded_name k = false.
Proof using Type. rewrite !elem_of_cons, elem_of_nil. intros [->|[->|[->|[]]]]; vm_compute; reflexivity. Qed.

Lemma forwarded_headers h body order :
  proper_header h -> iteration (h ∪ hw_request w body) order ->
  FilterRequest order (Route_ForwardedHeaders smoke_http) = filter (fun e => forwarded_name e.1 = true) h.
Proof.
  intros Hp Hit. unfold FilterRequest. rewrite filterRequestLoop_copy, (copyLoop_filter _ _ _ (proper_union _ _ Hp (request_adds_proper body)) Hit).
  apply map_eq. intros k. apply option_eq. intros vs. rewrite !map_lookup_filter_Some, lookup_union_Some_raw.
  split; intros [Ha Hk]; split; try exact Hk; [|by left]. destruct Ha as [Ha|[_ Ha]]; [exact Ha|].
  apply (wo_request w Hw) in Ha as [Ha _]. apply forwarded_not_added in Ha. cbn [fst] in Hk. unfold forwarded_name in Ha. congruence.
Qed.

Lemma answer_headers h body :
  proper_header h -> FilterResponse (map_to_list (h ∪ hw_response w body)) = filter (fun e => crosses e.1 = true) h ∪ hw_response w body.
Proof.
  intros Hp. rewrite FilterResponse_filter by (apply proper_union; [done|apply response_adds_proper]).
  apply map_eq. intros k. apply option_eq. intros vs. rewrite map_lookup_filter_Some, !lookup_union_Some_raw, map_lookup_filter_Some, map_lookup_filter_None.
  assert (Ha : forall vs', hw_response w body !! k = Some vs' -> crosses k = true).
  { intros vs' Ha. apply (wo_response w Hw) in Ha as (Ha & _). rewrite !elem_of_cons, elem_of_nil in Ha. by destruct Ha as [->|[->|[->|[]]]]. }
  destruct (h !! k) eqn:E; naive_solver.
Qed.
End Lemmas.

Section Checks.
Context {UT : UnicodeTables} {MF : Msgpack Frame} {MQ : Msgpack Request} {MR : Msgpack Response}.
Context {LQ : MsgpackLaws Request} {LR : MsgpackLaws Response}.
Context (w : HTTPWire) (Hw : wire_ok w) (s : Surroundings) (Hs : surroundings_ok s).
#[local] Set Default Proof Using "Type*".

Definition smoke_url : URL := mkURL "http" "" None "edge:8080" "/http/api/echo" "" false false "x=1&y=two" "".
Definition smoke_suffix : string := "/api/echo?x=1&y=two".
Definition smoke_edge_route : route := mkroute smoke_http "/http" "".

Lemma smoke_url_new : ConnectorProxy.NewRequest "POST" (echo_url defaultBaseURL) = Ok ("POST", smoke_url).
Proof using Type. reflexivity. Qed.

(** The request as the edge receives it. *)
Definition smoke_request (h : Header) (body : string) : HTTPRequest :=
  mkHTTPRequest "POST" "/http/api/echo" "x=1&y=two" "edge:8080" false (h ∪ hw_request w body) (mkBody body false).

Definition smoke_unary nats h body : unary_outcome :=
  let req := smoke_request h body in
  (serveUnary (requestID (Some (su_random s req))) (su_deadline s req)
     (su_order s (req_Header req)) nats req smoke_edge_route smoke_suffix).1.

(** What the client gets: the answer of the unary handler for the route. *)
Lemma smoke_trip nats h body resp :
  smoke_unary nats h body = Answer resp ->
  roundTrip w (edge_handler s nats (httpRoutes smoke_routes) (wsRoutes smoke_routes)) "POST" smoke_url h body =
  Ok (ConnectorProxy.mkBackendResponse (resp_status resp) (resp_header resp ∪ hw_response w (resp_body resp))
    (len (resp_body resp)) (mkBody (resp_body resp) (resp_aborted resp))).
Proof using Type.
  intros Hr. unfold roundTrip.
  change (ParseRequestURI (RequestURI smoke_url)) with
    (@Ok url_error _ (mkURL "" "" None "" "/http/api/echo" "" false false "x=1&y=two" "")).
  cbn beta iota zeta. unfold edge_handler.
  change (ServeHTTP (httpRoutes smoke_routes) (wsRoutes smoke_routes) _) with (UnaryRoute smoke_edge_route smoke_suffix).
  cbn beta iota. change (mkHTTPRequest _ _ _ _ _ _ _) with (smoke_request h body).
  unfold smoke_unary in Hr. cbv zeta in Hr. by rewrite Hr.
Qed.

Lemma smoke_id req : exists rid, requestID (Some (su_random s req)) = Some rid /\ rid <> "".
Proof using Hs.
  exists (hex_EncodeToString (su_random s req)). split; [done|].
  eapply requestID_token; [by apply so_random|reflexivity].
Qed.

Lemma smoke_envelope_wf rid h body :
  rid <> "" -> proper_header h -> headers_wf (filter (fun e => forwarded_name e.1 = true) h) ->
  let req := smoke_request h body in
  Request_Headers (unary_envelope rid (su_deadline s req) smoke_edge_route smoke_suffix (su_order s (req_Header req)) body req) =
    filter (fun e => forwarded_name e.1 = true) h /\
  int64_range (su_deadline s req) /\
  request_wf (unary_envelope rid (su_deadline s req) smoke_edge_route smoke_suffix (su_order s (req_Header req)) body req).
Proof using Hw Hs.
  intros Hrid Hp Hh req.
  pose proof (so_deadline s Hs req) as Hd.
  assert (Hf : Request_Headers (unary_envelope rid (su_deadline s req) smoke_edge_route smoke_suffix
    (su_order s (req_Header req)) body req) = filter (fun e => forwarded_name e.1 = true) h).
  { apply (forwarded_headers w Hw h body); [done|]. apply (so_order s Hs). }
  split; [done|]. split; [unfold int64_range, min_int64, max_int64 in *; lia|].
  unfold request_wf. rewrite Hf. split_and!; try done; cbn -[su_deadline]; try lia.
  - unfold requestScheme. cbn. destruct (String.eqb_spec (Header_Get (h ∪ hw_request w body) "X-Forwarded-Proto") "https") as [->|];
      [by right|]. destruct (String.eqb_spec (Header_Get (h ∪ hw_request w body) "X-Forwarded-Proto") "http") as [->|]; by left.
  - by apply ContainsAny_avoids.
  - split; [done|by apply ContainsAny_avoids].
Qed.

(** Nobody serves the route: the client is told so. *)
Lemma smoke_unary_down h :
  proper_header h -> headers_wf (filter (fun e => forwarded_name e.1 = true) h) ->
  smoke_unary (fun _ _ => mkNatsResult (Err ErrNoResponders) false) h "hello-http" =
  Answer (http_Error "Service Unavailable" 503).
Proof.
  intros Hp Hh. unfold smoke_unary. cbv zeta. destruct (smoke_id (smoke_request h "hello-http")) as (rid & -> & Hrid).
  destruct (smoke_envelope_wf rid h "hello-http" Hrid Hp Hh) as (_ & Hd & Hwf).
  assert (Hv := proj2 (Request_Validate_iff (unary_envelope _ _ _ _ _ _ _) Hd) Hwf).
  destruct (encode_validated_total Request_Validate _ Hv) as [payload Hpl].
  by rewrite (serveUnary_sent rid _ _ _ (smoke_request h "hello-http") smoke_edge_route smoke_suffix "hello-http" payload eq_refl Hpl).
Qed.

(** A body above the route's limit never leaves the edge. *)
Lemma smoke_unary_large nats h :
  smoke_unary nats h (Repeat "x" 128) = Answer (http_Error "request body too large" 413).
Proof using Type. reflexivity. Qed.

(** The backend's answer, as the connector's client gets it. *)
Definition smoke_backend_url : URL := mkURL "http" "" None "http-backend:9000" "/api/echo" "" false false "x=1&y=two" "".
Definition smoke_fwd : Header := <["Content-Type" := ["text/plain"]]> {["X-Airpc-Test" := ["allowed"]]}.
Definition smoke_kept : Header := {["X-Backend-Header" := ["preserved"]]}.
Definition smoke_backend_answer : HTTPResponse :=
  mkHTTPResponse 201 (Header_Set (Header_Set ∅ "X-Backend-Header" "preserved") "Connection" "close") wantBody false.

(** A name [net/http] adds is none of those the handlers look at. *)
Lemma not_added body k : k ∈ ["X-Airpc-Test"; "X-Blocked"; "Authorization"] -> hw_request w body !! k = None.
Proof.
  intros Hk. destruct (hw_request w body !! k) eqn:E; [|done]. exfalso. apply (wo_request w Hw) in E as [E _].
  rewrite !elem_of_cons, elem_of_nil in E, Hk. by destruct E as [->|[->|[->|[]]]], Hk as [?|[?|[?|[]]]].
Qed.

Lemma smoke_backend_call :
  roundTrip w serveHTTPBackend "POST" smoke_backend_url smoke_fwd "hello-http" =
  Ok (ConnectorProxy.mkBackendResponse 201 (resp_header smoke_backend_answer ∪ hw_response w wantBody) (len wantBody) (mkBody wantBody false)).
Proof.
  unfold roundTrip. change (ParseRequestURI (RequestURI smoke_backend_url)) with
    (@Ok url_error _ (mkURL "" "" None "" "/api/echo" "" false false "x=1&y=two" "")).
  cbn beta iota zeta. cbn [Path RawQuery].
  assert (Ha : forall k, k ∈ ["X-Airpc-Test"; "X-Blocked"; "Authorization"] ->
    Header_Get (smoke_fwd ∪ hw_request w "hello-http") k = Header_Get smoke_fwd k).
  { intros k Hk. unfold Header_Get. rewrite lookup_union.
    assert (Hc : CanonicalHeaderKey k = k) by (rewrite !elem_of_cons, elem_of_nil in Hk; by destruct Hk as [->|[->|[->|[]]]]).
    rewrite Hc, (not_added "hello-http" k Hk). by destruct (smoke_fwd !! k). }
  assert (Hr : serveHTTPBackend (mkURL "" "" None "" "/api/echo" "" false false "x=1&y=two" "")
    (mkHTTPRequest "POST" "/api/echo" "x=1&y=two" (Host smoke_backend_url) false
       (smoke_fwd ∪ hw_request w "hello-http") (mkBody "hello-http" false)) = smoke_backend_answer).
  { unfold serveHTTPBackend. cbn [ReadAll body_fails body_data req_Body req_Header req_Method Path RawQuery].
    rewrite !Ha by (by repeat constructor). reflexivity. }
  by rewrite Hr.
Qed.

Lemma smoke_kept_wf : headers_wf (smoke_kept ∪ hw_response w wantBody).
Proof.
  intros k vs [H|[_ H]]%lookup_union_Some_raw.
  - revert k vs H. by apply validateHeaders_spec.
  - apply (wo_response w Hw) in H as (Hk & _ & Hv & _). split; [|done].
    rewrite !elem_of_cons, elem_of_nil in Hk. by destruct Hk as [->|[->|[->|[]]]].
Qed.

Lemma check_header_proper : proper_header check_header.
Proof using Type. by apply proper_decide. Qed.

Definition smoke_connector_route : ConnectorProxy.route :=
  ConnectorProxy.mkroute smoke_http (mkURL "http" "" None "http-backend:9000" "" "" false false "" "").

Lemma smoke_table_route : smoke_table !! "http_echo" = Some smoke_connector_route.
Proof using Type. vm_compute. reflexivity. Qed.

Lemma smoke_target : ConnectorProxy.targetURL (ConnectorProxy.route_target smoke_connector_route) smoke_suffix = Ok smoke_backend_url.
Proof using Type. vm_compute. reflexivity. Qed.

Lemma smoke_backend_request : ConnectorProxy.NewRequest "POST" (URL_String smoke_backend_url) = Ok ("POST", smoke_backend_url).
Proof using Type. vm_compute. reflexivity. Qed.

Lemma smoke_forwards : filter (fun e => forwarded_name e.1 = true) check_header = smoke_fwd.
Proof using Type. vm_compute. reflexivity. Qed.

Lemma smoke_keeps : filter (fun e => crosses e.1 = true) (resp_header smoke_backend_answer) = smoke_kept.
Proof using Type. vm_compute. reflexivity. Qed.

Lemma smoke_keeps_again : filter (fun e => crosses e.1 = true) smoke_kept = smoke_kept.
Proof using Type. vm_compute. reflexivity. Qed.

Lemma smoke_answer_proper : proper_header (resp_header smoke_backend_answer).
Proof using Type. by apply proper_decide. Qed.

Lemma smoke_kept_proper : proper_header smoke_kept.
Proof using Type. by apply proper_decide. Qed.

(** The answer is small and not an event stream. *)
Lemma smoke_inline cid env link :
  (ConnectorProxy.answer cid smoke_connector_route env
    (ConnectorProxy.mkBackendResponse 201 (resp_header smoke_backend_answer ∪ hw_response w wantBody) (len wantBody) (mkBody wantBody false))
    link).1.2 =
  mkResponse HttpEnvelope.Version (Request_RequestID env) 201 (smoke_kept ∪ hw_response w wantBody) wantBody "" "" None.
Proof.
  set (br := ConnectorProxy.mkBackendResponse _ _ _ _).
  assert (Hct : Header_Get (ConnectorProxy.br_Header br) "Content-Type" = Header_Get (hw_response w wantBody) "Content-Type").
  { unfold Header_Get. change (CanonicalHeaderKey "Content-Type") with "Content-Type". cbn [br ConnectorProxy.br_Header].
    rewrite lookup_union. change (resp_header smoke_backend_answer !! "Content-Type") with (@None (list string)).
    by rewrite (left_id_L None (∪)). }
  assert (Hs' : ConnectorProxy.shouldStream br (ConnectorProxy.routeResponseLimit smoke_http) = false).
  { unfold ConnectorProxy.shouldStream. rewrite Hct. unfold Header_Get. change (CanonicalHeaderKey "Content-Type") with "Content-Type".
    destruct (hw_response w wantBody !! "Content-Type") as [vs|] eqn:E; [|reflexivity].
    apply (wo_response w Hw) in E as (_ & _ & _ & H). rewrite H by done. reflexivity. }
  unfold ConnectorProxy.answer. change (ConnectorProxy.route_cfg smoke_connector_route) with smoke_http. rewrite Hs'.
  cbn [fst snd]. unfold ConnectorProxy.inlineResponse.
  change (ConnectorProxy.readBounded (ConnectorProxy.br_Body br) (ConnectorProxy.routeResponseLimit (ConnectorProxy.route_cfg smoke_connector_route)))
    with (@Ok unit _ (wantBody, false)).
  cbn [br ConnectorProxy.br_Header ConnectorProxy.br_StatusCode]. cbv iota beta.
  by rewrite (answer_headers w Hw), smoke_keeps by exact smoke_answer_proper.
Qed.

(** What the connector makes of the envelope. *)
Lemma smoke_connector_reply cid link env payload :
  DecodeRequest payload = Ok env ->
  Request_Route env = "http_echo" -> Request_Path env = smoke_suffix -> Request_Method env = "POST" ->
  Request_Headers env = smoke_fwd -> Request_Body env = "hello-http" ->
  smoke_connector w cid link payload =
  match ConnectorProxy.respond (mkResponse HttpEnvelope.Version (Request_RequestID env) 201
    (smoke_kept ∪ hw_response w wantBody) wantBody "" "" None) with Some bs => bs | None => "" end.
Proof.
  intros Hdec Hr Hp Hm Hh Hb. unfold smoke_connector, connector_reply, ConnectorProxy.handle.
  rewrite Hdec, Hr, smoke_table_route. unfold ConnectorProxy.forward.
  rewrite Hp, smoke_target, Hm, smoke_backend_request, Hh, Hb, smoke_backend_call. by rewrite smoke_inline.
Qed.

(** With a connector, the client gets the backend's answer. *)
Lemma smoke_unary_up cid link :
  smoke_unary (connector_nats smoke_http (smoke_connector w cid link)) check_header "hello-http" =
  Answer (mkHTTPResponse 201 (smoke_kept ∪ hw_response w wantBody) wantBody false).
Proof.
  unfold smoke_unary. cbv zeta. destruct (smoke_id (smoke_request check_header "hello-http")) as (rid & -> & Hrid).
  assert (Hh : headers_wf (filter (fun e => forwarded_name e.1 = true) check_header)) by by apply validateHeaders_spec.
  destruct (smoke_envelope_wf rid check_header "hello-http" Hrid check_header_proper Hh) as (Hf & Hd & Hwf).
  rewrite smoke_forwards in Hf. set (env := unary_envelope rid _ _ _ _ _ _) in *.
  set (response := mkResponse HttpEnvelope.Version rid 201 (smoke_kept ∪ hw_response w wantBody) wantBody "" "" None).
  refine (eq_trans (serveUnary_reply rid _ _ (smoke_request check_header "hello-http") smoke_edge_route smoke_suffix "hello-http"
    (smoke_connector w cid link) response Hd eq_refl Hwf
    (fun payload Hdec => smoke_connector_reply cid link env payload Hdec eq_refl eq_refl eq_refl Hf eq_refl) _ eq_refl eq_refl) _).
  - split; [done|]. split; [done|]. cbn [Response_Error response]. split; [cbn [Response_Status response]; lia|].
    split; [exact smoke_kept_wf|by left].
  - cbn [Response_StreamSessionID response String.eqb negb]. unfold writeResponse. cbn [Response_Status Response_Headers Response_Body response].
    rewrite (answer_headers w Hw), smoke_keeps_again by exact smoke_kept_proper.
    by rewrite addHeaders_id by (apply proper_union; [exact smoke_kept_proper|by apply response_adds_proper]).
Qed.

(** The headers the check looks at. *)
Lemma smoke_final_headers body :
  Header_Get (smoke_kept ∪ hw_response w wantBody ∪ hw_response w body) "X-Backend-Header" = "preserved" /\
  Header_Get (smoke_kept ∪ hw_response w wantBody ∪ hw_response w body) "Connection" = "".
Proof.
  assert (Hn : forall b, hw_response w b !! "Connection" = None).
  { intros b. destruct (hw_response w b !! "Connection") eqn:E; [|done]. exfalso.
    apply (wo_response w Hw) in E as [E _]. rewrite !elem_of_cons, elem_of_nil in E. by destruct E as [?|[?|[?|[]]]]. }
  unfold Header_Get. change (CanonicalHeaderKey "X-Backend-Header") with "X-Backend-Header".
  change (CanonicalHeaderKey "Connection") with "Connection". rewrite !lookup_union, !Hn.
  change (smoke_kept !! "X-Backend-Header") with (Some ["preserved"]). change (smoke_kept !! "Connection") with (@None (list string)).
  split; [|done]. by destruct (hw_response w wantBody !! _), (hw_response w body !! _).
Qed.

End Checks.

(** *** The checks *)

Section Up.
Context {UT : UnicodeTables} {MF : Msgpack Frame} {MQ : Msgpack Request} {MR : Msgpack Response}.
Context {LQ : MsgpackLaws Request} {LR : MsgpackLaws Response}.
Context (w : HTTPWire) (Hw : wire_ok w) (s : Surroundings) (Hs : surroundings_ok s).
#[local] Set Default Proof Using "Type*".

Lemma smoke_http_up cid link : checkHTTP (system_up w s cid link) defaultBaseURL = Ok tt.
Proof.
  unfold checkHTTP, request. rewrite smoke_url_new. unfold system_up.
  rewrite (smoke_trip w s _ check_header "hello-http" _ (smoke_unary_up w Hw s Hs cid link)).
  rewrite (smoke_trip w s _ ∅ (Repeat "x" 128) _ (smoke_unary_large w s _ ∅)).
  destruct (smoke_final_headers w Hw wantBody) as [H1 H2].
  cbn [ConnectorProxy.br_Header ConnectorProxy.br_StatusCode ConnectorProxy.br_Body resp_status resp_header resp_body resp_aborted ReadAll body_fails body_data] in *.
  rewrite H1, H2. reflexivity.
Qed.

Lemma smoke_http_down : checkHTTPDown (system_down w s) defaultBaseURL = Ok tt.
Proof.
  assert (Hp : proper_header (Header_Set ∅ "Content-Type" "text/plain")) by by apply proper_decide.
  assert (Hh : headers_wf (filter (fun e => forwarded_name e.1 = true) (Header_Set ∅ "Content-Type" "text/plain")))
    by by apply validateHeaders_spec.
  unfold checkHTTPDown, request. rewrite smoke_url_new. unfold system_down.
  rewrite (smoke_trip w s _ (Header_Set ∅ "Content-Type" "text/plain") "hello-http" _ (smoke_unary_down w Hw s Hs _ Hp Hh)).
  reflexivity.
Qed.

Lemma smoke_health : get_health (system_down w s) defaultBaseURL = Ok 200.
Proof using Type. reflexivity. Qed.
End Up.

(** An attempt that nobody answers is the last: no session is opened. *)
Lemma unanswered_opens_nothing `{!Msgpack Frame, !Msgpack OpenRequest, !Msgpack OpenResponse} deadlineMS t rest r id path e :
  EdgeTunnel.ot_nats t = (fun _ _ => Err ErrNoResponders) ->
  opened_session deadlineMS (t :: rest) r id path e = false.
Proof.
  intros Ht. unfold opened_session. cbn [EdgeTunnel.openDataSession]. rewrite Ht. unfold EdgeTunnel.attemptOpenDataSession.
  by destruct (EncodeOpenRequest _).
Qed.

(** ** Property *)

(** C9: The smoke test's HTTP check passes on the system it is shipped with.  The
    configuration of [deploy/airpc.yaml], whatever the random ids, the
    deadlines, the iteration of the header maps, the headers [net/http] adds,
    the MessagePack library, the connector's id and the state of its tunnel.
    With a connector, [check] finds the HTTP check ok, whatever the sessions of
    the other checks come to, and goes on to those: its request crosses the
    edge, NATS, the connector and the test's backend, its client sees the
    backend's answer to exactly the allowed headers, and 413 for a body over the
    limit.  Without a connector [check-down] and [wait-health] succeed: the
    client is told 503, and no stream connection is relayed. *)
Theorem smoke_http_passes {UT : UnicodeTables} {MF : Msgpack Frame} {MQ : Msgpack Request} {MR : Msgpack Response}
    {MO : Msgpack OpenRequest} {MP : Msgpack OpenResponse} {LQ : MsgpackLaws Request} {LR : MsgpackLaws Response}
    w s cid link up down serve :
  wire_ok w -> surroundings_ok s -> nt_Do up 0 = system_up w s cid link -> network_down w s down ->
  run up serve ["check"] =
    (let '(out, result) := run_checks (session_checks up) in ("ok: http unary" :: out, result)) /\
  run down serve ["check-down"] = (["ok: http down"; "ok: websocket down"; "ok: tcp down"; "ok: grpc down"], Ok tt) /\
  run down serve ["wait-health"] = (["ok: edge health is ready"], Ok tt).
Proof.
  intros Hw Hs Hu Hd. split; [|split].
  - change (run up serve ["check"]) with
      (run_checks (("http unary", checkHTTP (nt_Do up 0) defaultBaseURL) :: session_checks up)).
    cbn [run_checks]. rewrite Hu, smoke_http_up by done. by destruct (run_checks (session_checks up)).
  - change (run down serve ["check-down"]) with (runDownChecks down defaultBaseURL defaultTCPAddr defaultWSURL defaultGRPCAddr).
    unfold runDownChecks. apply run_checks_passed. repeat constructor; cbn [snd].
    + rewrite (nd_http _ _ _ Hd). by apply smoke_http_down.
    + destruct (nt_probe down defaultWSURL) eqn:E; try done. destruct (nd_ws _ _ _ Hd E) as (rid & d & t & rest & e & suffix & idle & Ht & Hr).
      unfold handleWebSocketRoute in Hr. cbn [negb] in Hr. destruct rid; [|done]. by rewrite unanswered_opens_nothing in Hr.
    + destruct (nt_probe down defaultTCPAddr) eqn:E; try done. destruct (nd_tcp _ _ _ Hd E) as (rid & d & t & rest & e & idle & Ht & Hr).
      unfold handleTCPConn in Hr. destruct rid; [|done]. by rewrite unanswered_opens_nothing in Hr.
    + destruct (nt_invoked down defaultGRPCAddr) eqn:E; [|done]. destruct (nd_grpc _ _ _ Hd E) as (rid & d & t & rest & e & idle & Ht & Hr).
      unfold handleTCPConn in Hr. destruct rid; [|done]. by rewrite unanswered_opens_nothing in Hr.
  - assert (Hg : wait_loop (fun i => get_health (nt_Do down i) defaultBaseURL) 0 60 = true).
    { apply wait_loop_iff. exists 0%nat. split; [lia|]. rewrite (nd_http _ _ _ Hd). apply smoke_health. }
    change (run down serve ["wait-health"]) with
      (if wait_loop (fun i => get_health (nt_Do down i) defaultBaseURL) 0 60
       then (["ok: edge health is ready"], @Ok e2e_error unit tt) else ([], Err (HealthNotReady defaultBaseURL))).
    by rewrite Hg.
Qed.

(** ** Witness *)

#[local] Existing Instance ascii_tables.
#[local] Existing Instance frame_msgpack.
#[local] Existing Instance request_msgpack.
#[local] Existing Instance response_msgpack.
#[local] Existing Instance countable_msgpack_laws.

Definition demo_wire : HTTPWire :=
  mkHTTPWire (fun _ => {["User-Agent" := ["Go-http-client/1.1"]]})
    (fun _ => {["Content-Type" := ["text/plain; charset=utf-8"]]}).
Definition demo_surroundings : Surroundings :=
  mkSurroundings (fun _ => "0123456789abcdef") (fun _ => demo_deadline) map_to_list
    (fun _ => http_Error "Bad Request" 400) (fun _ => http_Error "Bad Gateway" 502).

Lemma demo_wire_ok : wire_ok demo_wire.
Proof.
  split; intros body k vs H; cbn [demo_wire hw_request hw_response] in H; apply lookup_singleton_Some in H as [<- <-].
  - split; [repeat constructor|done].
  - split; [repeat constructor|]. split; [done|]. split; [|done]. repeat constructor. by apply ContainsAny_avoids.
Qed.

Lemma demo_surroundings_ok : surroundings_ok demo_surroundings.
Proof. split; [done| |intros h; apply Permutation_refl]. intros req. cbn. unfold demo_deadline, max_int64. lia. Qed.

#[local] Existing Instance open_request_msgpack.
#[local] Existing Instance open_response_msgpack.

(** The HTTP client of [system], and nothing else that answers. *)
Definition demo_network (system : ConnectorProxy.backend) : Network :=
  mkNetwork (fun _ => system) (fun _ _ => Err (CallFailed "dial")) (fun _ => Err (CallFailed "dial")) (fun _ => Err (CallFailed "dial"))
    (fun _ => ProbeReadFails) (fun _ => false) (fun _ => false) (Some "random") [0; 1; 2; 3; 4; 5; 6; 7]%nat.
Definition demo_up : Network := demo_network (system_up demo_wire demo_surroundings "c1" None).
Definition demo_down : Network := demo_network (system_down demo_wire demo_surroundings).

Lemma demo_network_down : network_down demo_wire demo_surroundings demo_down.
Proof. by split. Qed.

Lemma smoke_http_passes_witness :
  run demo_up (fun _ _ => Ok tt) ["check"] = (["ok: http unary"], Err (CheckFailed "websocket" (CallFailed "dial"))) /\
  (run demo_down (fun _ _ => Ok tt) ["check-down"]).2 = Ok tt.
Proof.
  destruct (smoke_http_passes (LQ := countable_msgpack_laws) (LR := countable_msgpack_laws)
    demo_wire demo_surroundings "c1" None demo_up demo_down (fun _ _ => Ok tt) demo_wire_ok demo_surroundings_ok eq_refl
    demo_network_down) as (H1 & H2 & _).
  rewrite H1, H2. split; reflexivity.
Defined.
