(* ===== verification/Metrics.v ===== *)
(** * Metrics

    [internal/telemetry/metrics.go] and everything that updates it: the status
    recorder and the deferred updates of [serveUnary] ([edge/edge.go]), the
    session gauges and byte counters ([edge/data.go]), the RPC counters
    ([grpcobs/observer.go]) and the tunnel metrics of the connector's loop
    ([connector/data.go]).  A series there is no sample of is absent, not zero.
    What a series ought to show is computed from the responses, connections and
    observers of the run ([expected]), not from the updates. *)
From S2P Require Import Prelude GoString GoStd Msgpack HttpEnvelope Config TunnelEnvelope Relay EdgeRoutes EdgeUnary Lifecycle Observer ConnectorTunnel.
From stdpp Require Import pretty.

#[local] Open Scope Z_scope.

(** ** The collectors *)

(** A time series: a collector and its label values.  Of a histogram the
    number of observations. *)
Inductive series :=
| HTTPRequests (route status : string)
| HTTPDuration (route : string)
| StreamSessionsTotal (route mode : string)
| StreamSessionsActive (route mode : string)
| StreamBytes (route direction : string)
| TunnelConnected (connector_id : string)
| TunnelDials (connector_id outcome : string)
| GRPCRPCs (route method code : string)
| GRPCDuration (route method : string).

#[export] Instance series_eq_dec : EqDecision series.
Proof. solve_decision. Defined.

(** What a scrape shows: the values of the series there are.  A series of a
    vector is there from its first use on, at zero until it is updated.  The
    values are floats, and these operations exact, below 2^53. *)
Definition Metrics : Type := series -> option Z.
Definition no_series : Metrics := fun _ => None.
Definition Add (k : series) (n : Z) (m : Metrics) : Metrics :=
  fun k' => if decide (k' = k) then Some (default 0 (m k') + n) else m k'.
Definition Inc (k : series) : Metrics -> Metrics := Add k 1.
Definition Dec (k : series) : Metrics -> Metrics := Add k (-1).
Definition Set_ (k : series) (v : Z) (m : Metrics) : Metrics := fun k' => if decide (k' = k) then Some v else m k'.
(** [WithLabelValues], when nothing is done with the series yet. *)
Definition WithLabelValues (k : series) : Metrics -> Metrics := Add k 0.

(** [strconv.Itoa]. *)
Definition Itoa (n : Z) : string := pretty n.

(** ** The edge: unary requests *)

(** [http.ResponseWriter]: the status that went out, the informational ones
    before it, the body, and the flushes. *)
Record ResponseWriter := mkResponseWriter {
  rw_status : option Z;
  rw_informational : list Z;
  rw_body : string;
  rw_flushes : nat
}.
Definition new_writer : ResponseWriter := mkResponseWriter None [] "" 0.

(** 101 is final, the other statuses below 200 are sent ahead. *)
Definition informational (code : Z) : bool := (100 <=? code) && (code <=? 199) && negb (code =? 101).

Definition rw_WriteHeader (code : Z) (w : ResponseWriter) : ResponseWriter :=
  match rw_status w with
  | Some _ => w
  | None =>
      if informational code
      then mkResponseWriter None (rw_informational w ++ [code]) (rw_body w) (rw_flushes w)
      else mkResponseWriter (Some code) (rw_informational w) (rw_body w) (rw_flushes w)
  end.
Definition commit (w : ResponseWriter) : ResponseWriter :=
  match rw_status w with None => rw_WriteHeader 200 w | Some _ => w end.
Definition rw_Write (p : string) (w : ResponseWriter) : ResponseWriter :=
  let w := commit w in mkResponseWriter (rw_status w) (rw_informational w) (rw_body w +:+ p) (rw_flushes w).
Definition rw_Flush (w : ResponseWriter) : ResponseWriter :=
  let w := commit w in mkResponseWriter (rw_status w) (rw_informational w) (rw_body w) (S (rw_flushes w)).

(** [statusRecorder]; [sr_flusher]: the writer is an [http.Flusher]. *)
Record statusRecorder := mkStatusRecorder { sr_writer : ResponseWriter; sr_flusher : bool; sr_status : Z }.
Definition newRecorder (flusher : bool) : statusRecorder := mkStatusRecorder new_writer flusher 200.
Definition WriteHeader (code : Z) (r : statusRecorder) : statusRecorder :=
  mkStatusRecorder (rw_WriteHeader code (sr_writer r)) (sr_flusher r) code.
Definition Write (p : string) (r : statusRecorder) : statusRecorder :=
  mkStatusRecorder (rw_Write p (sr_writer r)) (sr_flusher r) (sr_status r).
Definition Flush (r : statusRecorder) : statusRecorder :=
  if sr_flusher r then mkStatusRecorder (rw_Flush (sr_writer r)) true (sr_status r) else r.

(** The end of [http.Error] and of [writeResponse]. *)
Definition write_answer (status : Z) (body : string) (r : statusRecorder) : statusRecorder :=
  Write body (WriteHeader status r).

(** The loop of [serveStreamedResponse] on the writer: the recorder is always a
    flusher. *)
Fixpoint stream_writes (events : list stream_event) (r : statusRecorder) : statusRecorder :=
  match events with
  | [] => r
  | ev :: events' =>
      match ev with
      | ClientGone | TunnelGone => r
      | StreamFrame frame write_ok =>
          if String.eqb (Frame_Type frame) FrameData then
            if write_ok then stream_writes events' (Flush (Write (Frame_Payload frame) r)) else r
          else if String.eqb (Frame_Type frame) FrameEOF || String.eqb (Frame_Type frame) FrameClose ||
                  String.eqb (Frame_Type frame) FrameError then r
          else stream_writes events' r
      end
  end.

(** [serveStreamedResponse] on the writer; [claimed]: the link is there and its
    session was claimed. *)
Definition stream_answer (resp : Response) (claimed : bool) (events : list stream_event) (r : statusRecorder) : statusRecorder :=
  if claimed then stream_writes events (WriteHeader (Response_Status resp) r)
  else write_answer 502 ("connector stream unavailable" +:+ String LF "") r.

(** What [serveUnary] does with the recorder, given the outcome of the request. *)
Definition unary_writes (o : unary_outcome) (claimed : bool) (events : list stream_event) (r : statusRecorder) : statusRecorder :=
  match o with
  | Answer resp => write_answer (resp_status resp) (resp_body resp) r
  | StreamedAnswer resp => stream_answer resp claimed events r
  end.

(** The deferred function of [serveUnary]; it runs after a panic too. *)
Definition serveUnary_deferred (matched : route) (r : statusRecorder) (m : Metrics) : Metrics :=
  Inc (HTTPDuration (Route_Name (route_cfg matched)))
    (Inc (HTTPRequests (Route_Name (route_cfg matched)) (Itoa (sr_status r))) m).

(** ** The edge: sessions *)

(** Before the relay starts, and when it has returned. *)
Definition session_started (r : Route) (m : Metrics) : Metrics :=
  Inc (StreamSessionsActive (Route_Name r) (Route_Mode r)) (Inc (StreamSessionsTotal (Route_Name r) (Route_Mode r)) m).
Definition session_ended (r : Route) (m : Metrics) : Metrics :=
  Dec (StreamSessionsActive (Route_Name r) (Route_Mode r)) m.

(** [observeConn] fetches the counters of both directions. *)
Definition observe_counters (r : Route) (m : Metrics) : Metrics :=
  WithLabelValues (StreamBytes (Route_Name r) "out") (WithLabelValues (StreamBytes (Route_Name r) "in") m).

(** [observedConn.Read] and [Write]: what an operation adds to the counters. *)
Definition conn_metrics (r : Route) (op : conn_op) (m : Metrics) : Metrics :=
  match op with
  | OpRead p _ => if 0 <? len p then Add (StreamBytes (Route_Name r) "in") (len p) m else m
  | OpWrite p => if 0 <? len p then Add (StreamBytes (Route_Name r) "out") (len p) m else m
  | OpCloseWrite => m
  end.

(** [Observer.finish]: an RPC that had started is counted. *)
Definition finish_metrics (stream : Z) (code : string) (o : Observer) (m : Metrics) : Metrics :=
  match ob_started o !! stream with
  | None => m
  | Some rpc =>
      Inc (GRPCDuration (ob_route o) (rpc_method rpc)) (Inc (GRPCRPCs (ob_route o) (rpc_method rpc) code) m)
  end.

(** A turn of the parsers' loops. *)
Definition observe_metrics (e : observed) (o : Observer) (m : Metrics) : Metrics :=
  match e with
  | FromClient _ _ | FromBackend _ OtherFrame => m
  | FromBackend _ (MetaHeaders stream _ fields) =>
      match grpc_status fields with
      | Some value => finish_metrics stream (statusCode value) o m
      | None => m
      end
  | FromBackend _ (RSTStream stream) => finish_metrics stream "canceled" o m
  end.

(** ** The edge as a whole *)

(** A unary request that was served: its route and its response. *)
Record served := mkServed { sv_route : route; sv_writer : ResponseWriter }.

(** A session that was relayed: the observed connection and, on gRPC routes, the
    observer, and whether the relay still runs. *)
Record session := mkSession {
  ss_route : Route;
  ss_conn : option observedConn;
  ss_observer : option Observer;
  ss_live : bool
}.

Record EdgeTelemetry := mkEdgeTelemetry {
  et_metrics : Metrics;
  et_served : list served;
  et_sessions : list session
}.
Definition edge_idle : EdgeTelemetry := mkEdgeTelemetry no_series [] [].

(** [handleTCPConn] and [handleWebSocketRoute] from the open session to the
    relay. *)
Definition tcp_session (conn : Conn) (r : Route) : session :=
  mkSession r (Some (observeConn conn r))
    (if String.eqb (Route_Mode r) ModeGRPC then Some (New (Route_Name r)) else None) true.
Definition websocket_session (r : Route) : session := mkSession r None None true.

Section Edge.
Context {UT : UnicodeTables} {MQ : Msgpack Request} {MR : Msgpack Response}.

(** [serveUnary] on the response: what the handler decides, written through the
    recorder. *)
Definition unary_recorder (requestID : option string) (deadlineMS : Z) (order : list (string * list string))
    (nats : string -> string -> nats_result) (req : HTTPRequest) (matched : route) (suffix : string)
    (claimed : bool) (events : list stream_event) : statusRecorder :=
  unary_writes (serveUnary requestID deadlineMS order nats req matched suffix).1 claimed events (newRecorder true).

(** What happens at the edge: a unary request is served; a connection or a
    WebSocket gets a session; the relay reads from or writes to an observed
    connection, also just after the session's end; a parser takes a frame; a
    relay returns. *)
Inductive edge_step : EdgeTelemetry -> EdgeTelemetry -> Prop :=
| es_unary requestID deadlineMS order nats req matched suffix claimed events m sv ss :
    let r := unary_recorder requestID deadlineMS order nats req matched suffix claimed events in
    informational (sr_status r) = false ->
    edge_step (mkEdgeTelemetry m sv ss)
      (mkEdgeTelemetry (serveUnary_deferred matched r m) (sv ++ [mkServed matched (sr_writer r)]) ss)
| es_conn requestID opened conn r idle m sv ss :
    handleTCPConn requestID opened r = ConnRelayed idle -> conn_read conn = "" -> conn_written conn = "" ->
    edge_step (mkEdgeTelemetry m sv ss)
      (mkEdgeTelemetry (observe_counters r (session_started r m)) sv (ss ++ [tcp_session conn r]))
| es_websocket upgraded requestID opened r suffix idle m sv ss :
    handleWebSocketRoute upgraded requestID opened r suffix = WSRelayed idle ->
    edge_step (mkEdgeTelemetry m sv ss)
      (mkEdgeTelemetry (session_started (route_cfg r) m) sv (ss ++ [websocket_session (route_cfg r)]))
| es_op i op r c o live m sv ss :
    ss !! i = Some (mkSession r (Some c) o live) ->
    edge_step (mkEdgeTelemetry m sv ss)
      (mkEdgeTelemetry (conn_metrics r op m) sv (<[i := mkSession r (Some (observed_op c op)) o live]> ss))
| es_frame i e r c o live m sv ss :
    ss !! i = Some (mkSession r c (Some o) live) ->
    edge_step (mkEdgeTelemetry m sv ss)
      (mkEdgeTelemetry (observe_metrics e o m) sv (<[i := mkSession r c (Some (observe o e)) live]> ss))
| es_end i r c o m sv ss :
    ss !! i = Some (mkSession r c o true) ->
    edge_step (mkEdgeTelemetry m sv ss)
      (mkEdgeTelemetry (session_ended r m) sv (<[i := mkSession r c o false]> ss)).
End Edge.

(** ** The connector: its tunnel *)

(** The updates of [run] at a turn of its loop. *)
Definition run_metrics (id : string) (ev : run_event) (c : tunnelClient) (m : Metrics) : Metrics :=
  match tc_run c, ev with
  | Dialing _, DialFailed ctx_done => if ctx_done then m else Inc (TunnelDials id "failed") m
  | Dialing _, DialOK _ => Set_ (TunnelConnected id) 1 (Inc (TunnelDials id "connected") m)
  | Connected _, (LinkEnded | ContextDone) => Set_ (TunnelConnected id) 0 m
  | _, _ => m
  end.

Record ConnectorTelemetry := mkConnectorTelemetry {
  ct_client : tunnelClient;
  ct_metrics : Metrics;
  ct_log : list run_event
}.

Inductive connector_step (id : string) : ConnectorTelemetry -> ConnectorTelemetry -> Prop :=
| cs_turn now ev c c' m log :
    run_turn now ev c = Some c' ->
    connector_step id (mkConnectorTelemetry c m log) (mkConnectorTelemetry c' (run_metrics id ev c m) (log ++ [ev])).
Definition connector_idle (s : ConnectorTelemetry) : Prop :=
  exists now, s = mkConnectorTelemetry (run_start now) no_series [].

(** ** What the metrics are meant to say *)

(** The sum of a measure over a list, and the number of entries with a property. *)
Definition tally {A} (f : A -> Z) (l : list A) : Z := foldr (fun x n => f x + n) 0 l.
Definition one (P : Prop) `{Decision P} : Z := if decide P then 1 else 0.

(** The value [v] of a series that is there once [n] is positive; a counter of [n]
    things. *)
Definition shown (n v : Z) : option Z := if 0 <? n then Some v else None.
Definition counted (n : Z) : option Z := shown n n.

Definition on_route (route mode : string) (s : session) : Prop :=
  Route_Name (ss_route s) = route /\ Route_Mode (ss_route s) = mode.
#[export] Instance on_route_dec route mode s : Decision (on_route route mode s).
Proof. unfold on_route. apply _. Defined.

(** A session whose connection is observed, and the bytes that crossed it. *)
Definition observed_on (route : string) (s : session) : Z :=
  match ss_conn s with Some _ => one (Route_Name (ss_route s) = route) | None => 0 end.
Definition bytes_on (route : string) (side : Conn -> string) (s : session) : Z :=
  match ss_conn s with
  | Some c => if decide (Route_Name (ss_route s) = route) then len (side (oc_conn c)) else 0
  | None => 0
  end.

(** The RPCs of a session that were recorded as completed. *)
Definition rpcs_on (route : string) (P : rpc_record -> Z) (s : session) : Z :=
  match ss_observer s with
  | Some o => if decide (Route_Name (ss_route s) = route) then tally P (ob_records o) else 0
  | None => 0
  end.

(** The value of a series of the edge, from the responses that went out and the
    sessions' connections and observers. *)
Definition expected (s : EdgeTelemetry) (k : series) : option Z :=
  match k with
  | HTTPRequests route status =>
      counted (tally (fun v => one (Route_Name (route_cfg (sv_route v)) = route /\
        Itoa <$> rw_status (sv_writer v) = Some status)) (et_served s))
  | HTTPDuration route =>
      counted (tally (fun v => one (Route_Name (route_cfg (sv_route v)) = route)) (et_served s))
  | StreamSessionsTotal route mode => counted (tally (fun x => one (on_route route mode x)) (et_sessions s))
  | StreamSessionsActive route mode =>
      shown (tally (fun x => one (on_route route mode x)) (et_sessions s))
        (tally (fun x => one (on_route route mode x /\ ss_live x = true)) (et_sessions s))
  | StreamBytes route direction =>
      if String.eqb direction "in"
      then shown (tally (observed_on route) (et_sessions s)) (tally (bytes_on route conn_read) (et_sessions s))
      else if String.eqb direction "out"
      then shown (tally (observed_on route) (et_sessions s)) (tally (bytes_on route conn_written) (et_sessions s))
      else None
  | GRPCRPCs route method code =>
      counted (tally (rpcs_on route (fun x => one (rec_method x = method /\ rec_code x = code))) (et_sessions s))
  | GRPCDuration route method => counted (tally (rpcs_on route (fun x => one (rec_method x = method))) (et_sessions s))
  | TunnelConnected _ | TunnelDials _ _ => None
  end.

(** The same of a connector: whether there is a tunnel, once there was one, and
    the dials by outcome. *)
Definition dialed_ok (ev : run_event) : Z := match ev with DialOK _ => 1 | _ => 0 end.
Definition dial_failed (ev : run_event) : Z := match ev with DialFailed false => 1 | _ => 0 end.
Definition connector_expected (id : string) (s : ConnectorTelemetry) (k : series) : option Z :=
  match k with
  | TunnelConnected id' =>
      if decide (id' = id) then shown (tally dialed_ok (ct_log s)) (Z.b2z (connected (ct_client s))) else None
  | TunnelDials id' outcome =>
      if decide (id' = id) then
        if String.eqb outcome "connected" then counted (tally dialed_ok (ct_log s))
        else if String.eqb outcome "failed" then counted (tally dial_failed (ct_log s))
        else None
      else None
  | _ => None
  end.

(** ** Lemmas *)

Lemma tally_snoc {A} (f : A -> Z) l x : tally f (l ++ [x]) = tally f l + f x.
Proof. unfold tally. induction l as [|y l IH]; cbn; [lia|]. rewrite IH. lia. Qed.

Lemma tally_nonneg {A} (f : A -> Z) l : (forall x, 0 <= f x) -> 0 <= tally f l.
Proof. intros Hf. unfold tally. induction l as [|x l IH]; cbn; [lia|]. pose proof (Hf x). lia. Qed.

Lemma tally_update {A} (f : A -> Z) l i x y :
  l !! i = Some x -> tally f (<[i := y]> l) = tally f l - f x + f y.
Proof.
  unfold tally. revert i. induction l as [|z l IH]; intros i Hi; [done|].
  destruct i as [|i]; cbn in Hi |- *; [injection Hi as ->; lia|]. rewrite IH by done. lia.
Qed.

Lemma tally_member {A} (f : A -> Z) l i x :
  (forall y, 0 <= f y) -> l !! i = Some x -> f x <= tally f l.
Proof.
  intros Hf. unfold tally. revert i. induction l as [|z l IH]; intros i Hi; [done|].
  destruct i as [|i]; cbn in Hi |- *.
  - injection Hi as ->. pose proof (tally_nonneg f l Hf). unfold tally in *. lia.
  - pose proof (IH i Hi). pose proof (Hf z). lia.
Qed.

(** A measure that vanishes where another does vanishes with it. *)
Lemma tally_vanish {A} (f g : A -> Z) l :
  (forall x, 0 <= f x) -> (forall x, f x = 0 -> g x = 0) -> tally f l <= 0 -> tally g l = 0.
Proof.
  intros Hf Hg. unfold tally. induction l as [|x l IH]; cbn; [done|]. intros Hle.
  pose proof (Hf x). pose proof (tally_nonneg f l Hf). unfold tally in *. rewrite (Hg x), IH by lia. lia.
Qed.

Lemma one_nonneg (P : Prop) `{Decision P} : 0 <= one P.
Proof. unfold one. case_decide; lia. Qed.

Lemma default_shown n v : (n <= 0 -> v = 0) -> default 0 (shown n v) = v.
Proof. unfold shown. intros H. destruct (Z.ltb_spec 0 n); cbn; [done|]. symmetry. auto. Qed.

Lemma default_counted n : 0 <= n -> default 0 (counted n) = n.
Proof. intros H. apply default_shown. lia. Qed.

Lemma shown_pos n v : 0 < n -> shown n v = Some v.
Proof. unfold shown. intros H. by apply Z.ltb_lt in H as ->. Qed.

(** The recorder remembers the status of the one call of [WriteHeader]. *)
Lemma stream_writes_status events r : sr_status (stream_writes events r) = sr_status r.
Proof.
  revert r. induction events as [|ev events IH]; intros r; [done|]. cbn [stream_writes].
  destruct ev as [| |frame write_ok]; try done.
  destruct (String.eqb _ FrameData); [destruct write_ok|destruct (_ || _)]; try done. rewrite IH. unfold Flush. by destruct (sr_flusher _).
Qed.

(** A committed status stays. *)
Lemma stream_writes_sent events r code :
  rw_status (sr_writer r) = Some code -> rw_status (sr_writer (stream_writes events r)) = Some code.
Proof.
  revert r. induction events as [|ev events IH]; intros r Hr; [done|]. cbn [stream_writes].
  destruct ev as [| |frame write_ok]; try done.
  destruct (String.eqb _ FrameData); [destruct write_ok|destruct (_ || _)]; try done; apply IH; [|done].
  unfold Flush, Write, rw_Flush, rw_Write, commit. cbn. destruct (sr_flusher r); cbn; by rewrite Hr; cbn; rewrite ?Hr.
Qed.

Lemma write_answer_sent status body flusher :
  informational status = false ->
  rw_status (sr_writer (write_answer status body (newRecorder flusher))) = Some status.
Proof.
  intros Hi. assert (Hw : rw_status (rw_WriteHeader status new_writer) = Some status)
    by (unfold rw_WriteHeader; cbn [rw_status new_writer]; by rewrite Hi).
  unfold write_answer, Write, WriteHeader, rw_Write, commit. cbn [sr_writer newRecorder rw_status]. by rewrite !Hw.
Qed.

(** The status the recorder counts is the one that was sent, but for
    informational ones. *)
Lemma unary_writes_sent o claimed events flusher :
  let r := unary_writes o claimed events (newRecorder flusher) in
  informational (sr_status r) = false -> rw_status (sr_writer r) = Some (sr_status r).
Proof.
  destruct o as [resp|resp]; cbn [unary_writes]; [apply write_answer_sent|]. unfold stream_answer.
  destruct claimed; [|apply write_answer_sent]. cbv zeta. rewrite stream_writes_status. intros Hi.
  apply stream_writes_sent. cbn [WriteHeader sr_writer sr_status newRecorder] in *.
  unfold rw_WriteHeader. cbn [rw_status new_writer]. by rewrite Hi.
Qed.

(** An informational status is counted as itself and sent as 200. *)
Lemma informational_counted_as_sent :
  let r := unary_writes (Answer (mkHTTPResponse 103 ∅ "early" false)) false [] (newRecorder true) in
  sr_status r = 103 /\ rw_status (sr_writer r) = Some 200.
Proof. by split. Qed.

(** *** The edge *)

(** The observer of a session is its route's. *)
Definition session_ok (s : session) : Prop :=
  match ss_observer s with Some o => ob_route o = Route_Name (ss_route s) | None => True end.

Record truthful (s : EdgeTelemetry) : Prop := {
  tr_series : forall k, et_metrics s k = expected s k;
  tr_sessions : Forall session_ok (et_sessions s)
}.

Lemma observed_on_nonneg route x : 0 <= observed_on route x.
Proof. unfold observed_on. destruct (ss_conn x); [apply one_nonneg|lia]. Qed.

Lemma rpcs_on_nonneg route P x : (forall y, 0 <= P y) -> 0 <= rpcs_on route P x.
Proof.
  intros HP. unfold rpcs_on. destruct (ss_observer x); [|lia]. case_decide; [by apply tally_nonneg|lia].
Qed.

Lemma bytes_vanish route side x : observed_on route x = 0 -> bytes_on route side x = 0.
Proof. unfold observed_on, bytes_on, one. destruct (ss_conn x); [|done]. by case_decide. Qed.

Lemma live_vanish route mode x : one (on_route route mode x) = 0 -> one (on_route route mode x /\ ss_live x = true) = 0.
Proof. unfold one. repeat case_decide; tauto. Qed.

Lemma observe_route o e : ob_route (observe o e) = ob_route o.
Proof.
  assert (Hf : forall now stream code, ob_route (finish now stream code o) = ob_route o).
  { intros. unfold finish. by destruct (ob_started o !! stream). }
  destruct e as [now [| |]|now [stream path fields|stream|]]; cbn; try done. by destruct (grpc_status fields).
Qed.

(** What a frame adds to an observer's records. *)
Definition new_records (e : observed) (o : Observer) : list rpc_record :=
  match e with
  | FromBackend now frame =>
      match match frame with
            | MetaHeaders stream _ fields => (fun v => (stream, statusCode v)) <$> grpc_status fields
            | RSTStream stream => Some (stream, "canceled")
            | OtherFrame => None
            end with
      | Some (stream, code) =>
          match ob_started o !! stream with
          | Some rpc => [mkRpcRecord stream (ob_route o) (rpc_method rpc) code (now - rpc_start rpc)]
          | None => []
          end
      | None => []
      end
  | FromClient _ _ => []
  end.

Lemma observe_records o e : ob_records (observe o e) = ob_records o ++ new_records e o.
Proof.
  destruct e as [now [stream path fields|stream|]|now [stream path fields|stream|]]; cbn; rewrite ?app_nil_r; try done.
  - destruct (grpc_status fields); cbn; [|by rewrite app_nil_r]. unfold finish.
    destruct (ob_started o !! stream); cbn; by rewrite ?app_nil_r.
  - unfold finish. destruct (ob_started o !! stream); cbn; by rewrite ?app_nil_r.
Qed.

(** At most one record, and what is counted for it. *)
Lemma observe_metrics_records e o m :
  match new_records e o with
  | [] => observe_metrics e o m = m
  | [x] => rec_route x = ob_route o /\
      observe_metrics e o m = Inc (GRPCDuration (ob_route o) (rec_method x)) (Inc (GRPCRPCs (ob_route o) (rec_method x) (rec_code x)) m)
  | _ => False
  end.
Proof.
  destruct e as [now frame|now [stream path fields|stream|]]; cbn; try done.
  - destruct (grpc_status fields); cbn; [|done]. unfold finish_metrics. by destruct (ob_started o !! stream).
  - unfold finish_metrics. by destruct (ob_started o !! stream).
Qed.

Lemma Add_other k d m k' : k' <> k -> Add k d m k' = m k'.
Proof. unfold Add. by case_decide. Qed.

(** An update of a series that is shown as it should be. *)
Lemma Add_shown k d m k' n v dn dv :
  m k' = shown n v -> (n <= 0 -> v = 0) ->
  (k' = k -> 0 < n + dn /\ dv = d) -> (k' <> k -> dn = 0 /\ dv = 0) ->
  Add k d m k' = shown (n + dn) (v + dv).
Proof.
  intros Hm Hv Heq Hne. unfold Add. destruct (decide (k' = k)) as [->|Hk].
  - destruct (Heq eq_refl) as [Hn ->]. by rewrite Hm, default_shown, shown_pos.
  - destruct (Hne Hk) as [-> ->]. by rewrite !Z.add_0_r.
Qed.

Lemma Inc_counted k m k' n d :
  m k' = counted n -> 0 <= n -> (k' = k -> d = 1) -> (k' <> k -> d = 0) -> Inc k m k' = counted (n + d).
Proof. intros Hm Hn Heq Hne. apply Add_shown; [done|lia|intros H; rewrite (Heq H); lia|intros H; by rewrite (Hne H)]. Qed.

Lemma one_if (P : Prop) `{Decision P} : (P -> one P = 1) /\ (~ P -> one P = 0).
Proof. unfold one. by case_decide. Qed.

Ltac ones := intros; unfold one, on_route in *; repeat case_decide; destruct_and?; simplify_eq; try lia; exfalso; tauto.

Lemma unary_step r status m sv matched ss :
  truthful (mkEdgeTelemetry m sv ss) -> rw_status (sr_writer r) = Some status -> sr_status r = status ->
  truthful (mkEdgeTelemetry (serveUnary_deferred matched r m) (sv ++ [mkServed matched (sr_writer r)]) ss).
Proof.
  intros [Hk Hs] Hsent Hst. split; [|done]. intros k. specialize (Hk k). cbn [et_metrics] in *.
  unfold serveUnary_deferred, Inc. rewrite Hst. destruct k; cbn [expected et_served et_sessions] in *;
    rewrite ?tally_snoc; cbn [sv_route sv_writer]; try (rewrite !Add_other by done; exact Hk).
  - rewrite (Add_other (HTTPDuration _)) by done. rewrite Hsent. cbn [fmap option_fmap option_map].
    apply Inc_counted; [done|apply tally_nonneg; intros; apply one_nonneg|ones|ones].
  - apply Inc_counted; [by rewrite Add_other|apply tally_nonneg; intros; apply one_nonneg|ones|ones].
Qed.

Lemma rpcs_vanish route P x : ss_observer x = None \/ (exists r, ss_observer x = Some (New r)) -> rpcs_on route P x = 0.
Proof. unfold rpcs_on. intros [->|[r ->]]; [done|]. by case_decide. Qed.

(** A session is appended: the session counters move, and a series that it adds
    nothing to stays. *)
Lemma session_series m sv ss x k :
  truthful (mkEdgeTelemetry m sv ss) -> ss_live x = true ->
  ss_observer x = None \/ (exists r, ss_observer x = Some (New r)) ->
  (forall route direction, k <> StreamBytes route direction) ->
  session_started (ss_route x) m k = expected (mkEdgeTelemetry m sv (ss ++ [x])) k.
Proof.
  intros [Hk _] Hlive Hob Hnb. specialize (Hk k). unfold session_started, Inc.
  destruct k; cbn [expected et_metrics et_served et_sessions] in *; rewrite ?tally_snoc;
    try (rewrite !Add_other by done; rewrite ?rpcs_vanish, ?Z.add_0_r by done; exact Hk).
  - rewrite (Add_other (StreamSessionsActive _ _)) by done.
    apply Inc_counted; [done|apply tally_nonneg; intros; apply one_nonneg|ones|ones].
  - apply Add_shown; [by rewrite Add_other| | |].
    + apply tally_vanish; [intros; apply one_nonneg|apply live_vanish].
    + intros [= -> ->]. pose proof (tally_nonneg (fun y => one (on_route (Route_Name (ss_route x)) (Route_Mode (ss_route x)) y)) ss
        ltac:(intros; apply one_nonneg)).
      split; ones.
    + split; ones.
  - by destruct (Hnb route direction).
Qed.

Lemma conn_step conn r m sv ss :
  truthful (mkEdgeTelemetry m sv ss) -> conn_read conn = "" -> conn_written conn = "" ->
  truthful (mkEdgeTelemetry (observe_counters r (session_started r m)) sv (ss ++ [tcp_session conn r])).
Proof.
  intros Ht Hr Hw. assert (Hob : ss_observer (tcp_session conn r) = None \/ exists r', ss_observer (tcp_session conn r) = Some (New r')).
  { cbn. destruct (String.eqb _ _); [right; by eexists|by left]. }
  split.
  - intros k. cbn [et_metrics]. unfold observe_counters, WithLabelValues.
    assert (Hd : (exists route direction, k = StreamBytes route direction) \/ forall route direction, k <> StreamBytes route direction)
      by (destruct k; try (right; done); left; by do 2 eexists).
    destruct Hd as [(route & direction & ->)|Hd].
    2:{ rewrite !Add_other by apply Hd. by apply (session_series m sv ss (tcp_session conn r)). }
    pose proof (tr_series _ Ht (StreamBytes route direction)) as Hk. cbn [expected et_metrics et_sessions] in *.
    assert (Hst : session_started r m (StreamBytes route direction) = m (StreamBytes route direction))
      by (unfold session_started, Inc; by rewrite !Add_other).
    assert (Hb : forall side, bytes_on route side (tcp_session conn r) = if decide (Route_Name r = route) then len (side conn) else 0) by done.
    assert (Ho : observed_on route (tcp_session conn r) = one (Route_Name r = route)) by done.
    pose proof (tally_nonneg (observed_on route) ss (observed_on_nonneg route)) as Hn.
    assert (Hv : forall side, tally (observed_on route) ss <= 0 -> tally (bytes_on route side) ss = 0)
      by (intros side; apply tally_vanish; [apply observed_on_nonneg|apply bytes_vanish]).
    assert (Hcase : direction = "in" \/ direction = "out" \/ direction <> "in" /\ direction <> "out")
      by (destruct (decide (direction = "in")), (decide (direction = "out")); tauto).
    destruct Hcase as [Hin|[Hin|[Hin Hout]]]; [subst direction; cbn [String.eqb Ascii.eqb Bool.eqb] in *..|].
    + rewrite Add_other by done. rewrite !tally_snoc, Hb, Ho, Hr. change (len "") with 0.
      apply Add_shown; [by rewrite Hst|auto|intros [= ->]|intros Hne]; unfold one; repeat case_decide; try lia; congruence.
    + rewrite !tally_snoc, Hb, Ho, Hw. change (len "") with 0.
      apply Add_shown; [by rewrite Add_other, Hst|auto|intros [= ->]|intros Hne]; unfold one; repeat case_decide; try lia; congruence.
    + rewrite (proj2 (String.eqb_neq _ _) Hin), (proj2 (String.eqb_neq _ _) Hout) in *.
      rewrite !Add_other by congruence. by rewrite Hst.
  - cbn [et_sessions]. apply list.Forall_app. split; [apply (tr_sessions _ Ht)|]. apply list.Forall_singleton.
    unfold session_ok, tcp_session. cbn. by destruct (String.eqb _ _).
Qed.

Lemma websocket_step r m sv ss :
  truthful (mkEdgeTelemetry m sv ss) ->
  truthful (mkEdgeTelemetry (session_started r m) sv (ss ++ [websocket_session r])).
Proof.
  intros Ht. split.
  - intros k. cbn [et_metrics].
    assert (Hd : (exists route direction, k = StreamBytes route direction) \/ forall route direction, k <> StreamBytes route direction)
      by (destruct k; try (right; done); left; by do 2 eexists).
    destruct Hd as [(route & direction & ->)|Hd];
      [|apply (session_series m sv ss (websocket_session r)); [done|done|by left|done]].
    pose proof (tr_series _ Ht (StreamBytes route direction)) as Hk. cbn [expected et_metrics et_sessions] in *.
    unfold session_started, Inc. rewrite !Add_other by done. rewrite !tally_snoc. cbn [observed_on bytes_on websocket_session ss_conn].
    by rewrite !Z.add_0_r.
  - apply list.Forall_app. split; [apply (tr_sessions _ Ht)|]. by apply list.Forall_singleton.
Qed.

Lemma tally_same {A} (f : A -> Z) l i x y :
  l !! i = Some x -> f y = f x -> tally f (<[i := y]> l) = tally f l.
Proof. intros Hi Hf. rewrite (tally_update _ _ _ _ _ Hi). lia. Qed.

(** What an operation adds to the bytes of a direction. *)
Definition op_in (op : conn_op) : Z := match op with OpRead p _ => len p | _ => 0 end.
Definition op_out (op : conn_op) : Z := match op with OpWrite p => len p | _ => 0 end.

Lemma op_conn op c : oc_conn (observed_op c op) = plain_op (oc_conn c) op.
Proof. destruct op as [p err|p|]; cbn; unfold observed_Read, observed_Write; try destruct (0 <? len p); done. Qed.

Lemma op_bytes op c :
  len (conn_read (plain_op c op)) = len (conn_read c) + op_in op /\
  len (conn_written (plain_op c op)) = len (conn_written c) + op_out op.
Proof.
  destruct op as [p err|p|]; cbn; unfold len; rewrite ?length_app_str; [lia..|].
  unfold closeWrite. destruct (conn_canCloseWrite c); cbn; lia.
Qed.

(** The counters of the operation's own route move by its bytes, and no others. *)
Lemma conn_metrics_series r op m k n v dv :
  m k = shown n v -> 0 <= op_in op -> 0 <= op_out op -> (n <= 0 -> v = 0) ->
  (k = StreamBytes (Route_Name r) "in" -> 0 < n /\ dv = op_in op) ->
  (k = StreamBytes (Route_Name r) "out" -> 0 < n /\ dv = op_out op) ->
  (k <> StreamBytes (Route_Name r) "in" -> k <> StreamBytes (Route_Name r) "out" -> dv = 0) ->
  conn_metrics r op m k = shown n (v + dv).
Proof.
  intros Hm Hi Ho Hv Hin Hout Hother. rewrite <- (Z.add_0_r n).
  assert (Hstay : dv = 0 -> m k = shown (n + 0) (v + dv)) by (intros ->; by rewrite !Z.add_0_r).
  assert (Hk : k = StreamBytes (Route_Name r) "in" \/ k = StreamBytes (Route_Name r) "out" \/
    (k <> StreamBytes (Route_Name r) "in" /\ k <> StreamBytes (Route_Name r) "out"))
    by (destruct (decide (k = StreamBytes (Route_Name r) "in")), (decide (k = StreamBytes (Route_Name r) "out")); tauto).
  destruct Hk as [Hk|[Hk|[Hk1 Hk2]]].
  - destruct (Hin Hk) as [Hn ->]. destruct op as [p err|p|]; cbn [conn_metrics op_in] in *; [|destruct (0 <? len p); [rewrite Add_other by (subst k; done)|]; by apply Hstay|by apply Hstay].
    destruct (Z.ltb_spec 0 (len p)); [|apply Hstay; lia]. apply Add_shown; [done|done|intros _; lia|done].
  - destruct (Hout Hk) as [Hn ->]. destruct op as [p err|p|]; cbn [conn_metrics op_out] in *; [destruct (0 <? len p); [rewrite Add_other by (subst k; done)|]; by apply Hstay| |by apply Hstay].
    destruct (Z.ltb_spec 0 (len p)); [|apply Hstay; lia]. apply Add_shown; [done|done|intros _; lia|done].
  - specialize (Hother Hk1 Hk2). destruct op as [p err|p|]; cbn [conn_metrics]; try destruct (0 <? len p);
      rewrite ?Add_other by done; by apply Hstay.
Qed.

(** An operation on an observed connection changes nothing else. *)
Lemma op_step i op r c o live m sv ss :
  truthful (mkEdgeTelemetry m sv ss) -> ss !! i = Some (mkSession r (Some c) o live) ->
  truthful (mkEdgeTelemetry (conn_metrics r op m) sv (<[i := mkSession r (Some (observed_op c op)) o live]> ss)).
Proof.
  intros Ht Hi. split; [|cbn; apply Forall_insert; [apply (tr_sessions _ Ht)|];
    exact (Forall_lookup_1 _ _ _ _ (tr_sessions _ Ht) Hi)].
  set (y := mkSession r (Some (observed_op c op)) o live).
  assert (Hnn : 0 <= op_in op /\ 0 <= op_out op) by (destruct op; cbn; unfold len; lia).
  assert (Hobs : forall route, tally (observed_on route) (<[i:=y]> ss) = tally (observed_on route) ss)
    by (intros route; by apply (tally_same _ _ _ _ _ Hi)).
  assert (Hmem : 0 < tally (observed_on (Route_Name r)) ss).
  { pose proof (tally_member (observed_on (Route_Name r)) ss i _ (observed_on_nonneg _) Hi) as Hm.
    unfold observed_on at 1 in Hm. cbn in Hm. unfold one in Hm. rewrite decide_True in Hm by done. lia. }
  destruct (op_bytes op (oc_conn c)) as [Hbr Hbw].
  assert (Hr : forall route, tally (bytes_on route conn_read) (<[i:=y]> ss) =
    tally (bytes_on route conn_read) ss + if decide (Route_Name r = route) then op_in op else 0).
  { intros route. rewrite (tally_update _ _ _ _ _ Hi). unfold bytes_on at 2 3. cbn [ss_conn ss_route y]. rewrite op_conn, Hbr.
    case_decide; lia. }
  assert (Hw : forall route, tally (bytes_on route conn_written) (<[i:=y]> ss) =
    tally (bytes_on route conn_written) ss + if decide (Route_Name r = route) then op_out op else 0).
  { intros route. rewrite (tally_update _ _ _ _ _ Hi). unfold bytes_on at 2 3. cbn [ss_conn ss_route y]. rewrite op_conn, Hbw.
    case_decide; lia. }
  assert (Hv : forall route side, tally (observed_on route) ss <= 0 -> tally (bytes_on route side) ss = 0)
    by (intros route side; apply tally_vanish; [apply observed_on_nonneg|apply bytes_vanish]).
  intros k. pose proof (tr_series _ Ht k) as Hk. cbn [et_metrics] in *.
  assert (Hother : (forall route direction, k <> StreamBytes route direction) -> conn_metrics r op m k = m k).
  { intros Hd. destruct op as [p err|p|]; cbn [conn_metrics]; try destruct (0 <? len p); rewrite ?Add_other by apply Hd; done. }
  destruct k; cbn [expected et_served et_sessions] in *;
    try (rewrite Hother by done; rewrite ?(tally_same _ _ _ _ y Hi) by done; exact Hk).
  rewrite Hobs, Hr, Hw. destruct (String.eqb_spec direction "in") as [Hin|Hin].
  { apply conn_metrics_series; [exact Hk|apply Hnn|apply Hnn|apply Hv|..].
    - intros [= ->]. by rewrite decide_True.
    - congruence.
    - intros Hne _. rewrite decide_False by congruence. done. }
  destruct (String.eqb_spec direction "out") as [Hout|Hout].
  - apply conn_metrics_series; [exact Hk|apply Hnn|apply Hnn|apply Hv|..].
    + congruence.
    + intros [= ->]. by rewrite decide_True.
    + intros _ Hne. rewrite decide_False by congruence. done.
  - rewrite <- Hk. destruct op as [p err|p|]; cbn [conn_metrics]; try destruct (0 <? len p); rewrite ?Add_other by congruence; done.
Qed.

(** A frame seen by an observer changes only the RPC series, by what it records. *)
Lemma frame_step i e r c o live m sv ss :
  truthful (mkEdgeTelemetry m sv ss) -> ss !! i = Some (mkSession r c (Some o) live) ->
  truthful (mkEdgeTelemetry (observe_metrics e o m) sv (<[i := mkSession r c (Some (observe o e)) live]> ss)).
Proof.
  intros Ht Hi. pose proof (Forall_lookup_1 _ _ _ _ (tr_sessions _ Ht) Hi) as Hok. unfold session_ok in Hok. cbn in Hok.
  split; [|cbn; apply Forall_insert; [apply (tr_sessions _ Ht)|]; unfold session_ok; cbn; by rewrite observe_route].
  set (y := mkSession r c (Some (observe o e)) live).
  assert (Hrpc : forall route P, tally (rpcs_on route P) (<[i:=y]> ss) =
    tally (rpcs_on route P) ss + if decide (Route_Name r = route) then tally P (new_records e o) else 0).
  { intros route P. rewrite (tally_update _ _ _ _ _ Hi). unfold rpcs_on at 2 3. cbn [ss_observer ss_route y].
    rewrite observe_records. assert (Happ : forall l l', tally P (l ++ l') = tally P l + tally P l').
    { intros l l'. unfold tally. induction l as [|x l IH]; cbn; [done|]. rewrite IH. lia. }
    rewrite Happ. case_decide; lia. }
  pose proof (observe_metrics_records e o m) as Hm.
  intros k. pose proof (tr_series _ Ht k) as Hk. cbn [et_metrics] in *.
  destruct (new_records e o) as [|x [|]] eqn:Hnew; [|destruct Hm as [_ Hm]|done].
  - rewrite Hm. destruct k; cbn [expected et_served et_sessions] in *; rewrite ?Hrpc;
      rewrite ?(tally_same _ _ _ _ y Hi) by done; try exact Hk; rewrite Hk; cbn; case_decide; by rewrite Z.add_0_r.
  - rewrite Hm. unfold Inc. destruct k; cbn [expected et_served et_sessions] in *; rewrite ?Hrpc;
      try (rewrite !Add_other by done; rewrite ?(tally_same _ _ _ _ y Hi) by done; exact Hk).
    + rewrite (Add_other (GRPCDuration _ _)) by done. rewrite Hok. cbn [tally foldr]. rewrite Z.add_0_r.
      apply Inc_counted; [done|apply tally_nonneg; intros z; apply rpcs_on_nonneg; intros; apply one_nonneg|ones|ones].
    + rewrite Hok. cbn [tally foldr]. rewrite Z.add_0_r.
      apply Inc_counted; [by rewrite Add_other|apply tally_nonneg; intros z; apply rpcs_on_nonneg; intros; apply one_nonneg|ones|ones].
Qed.

Lemma end_step i r c o m sv ss :
  truthful (mkEdgeTelemetry m sv ss) -> ss !! i = Some (mkSession r c o true) ->
  truthful (mkEdgeTelemetry (session_ended r m) sv (<[i := mkSession r c o false]> ss)).
Proof.
  intros Ht Hi. split; [|cbn; apply Forall_insert; [apply (tr_sessions _ Ht)|];
    exact (Forall_lookup_1 _ _ _ _ (tr_sessions _ Ht) Hi)].
  set (y := mkSession r c o false). intros k. pose proof (tr_series _ Ht k) as Hk. cbn [et_metrics] in *.
  unfold session_ended, Dec. destruct k; cbn [expected et_served et_sessions] in *;
    try (rewrite !Add_other by done; rewrite ?(tally_same _ _ _ _ y Hi) by done; exact Hk).
  rewrite (tally_same (fun x => one (on_route route mode x)) _ _ _ y Hi) by done.
  rewrite (tally_update _ _ _ _ y Hi). cbn [ss_live y].
  pose proof (tally_member (fun x => one (on_route route mode x)) ss i _ ltac:(intros; apply one_nonneg) Hi) as Hmem.
  rewrite <- (Z.add_0_r (tally (fun x => one (on_route route mode x)) ss)), <- Z.add_sub_swap, <- Z.add_sub_assoc.
  apply Add_shown; [done| |ones|ones].
  apply tally_vanish; [intros; apply one_nonneg|apply live_vanish].
Qed.

Section EdgeSteps.
Context {UT : UnicodeTables} {MQ : Msgpack Request} {MR : Msgpack Response}.

Lemma edge_step_truthful s s' : truthful s -> edge_step s s' -> truthful s'.
Proof.
  intros Ht Hs. revert Ht.
  destruct Hs as [requestID deadlineMS order nats req matched suffix claimed events m sv ss r Hi|
    requestID opened conn r idle m sv ss _ Hr Hw|upgraded requestID opened r suffix idle m sv ss _|
    i op r c o live m sv ss Hi|i e r c o live m sv ss Hi|i r c o m sv ss Hi]; intros Ht.
  - apply (unary_step r (sr_status r)); [done| |done]. by apply unary_writes_sent.
  - by apply conn_step.
  - by apply websocket_step.
  - by apply op_step.
  - by apply frame_step.
  - by apply end_step.
Qed.

Lemma edge_idle_truthful : truthful edge_idle.
Proof. split; [|constructor]. intros k. destruct k; try done. cbn. by repeat destruct (String.eqb _ _). Qed.
End EdgeSteps.

(** *** The connector *)

Record connector_truthful (id : string) (s : ConnectorTelemetry) : Prop := {
  cn_link : connected (ct_client s) = match tc_run (ct_client s) with Connected _ => true | _ => false end;
  cn_series : forall k, ct_metrics s k = connector_expected id s k;
  cn_dialed : connected (ct_client s) = true -> 0 < tally dialed_ok (ct_log s)
}.

(** The dial counters after a dial. *)
Lemma dial_series id m c c' log ev outcome id' outcome' :
  m (TunnelDials id' outcome') = connector_expected id (mkConnectorTelemetry c m log) (TunnelDials id' outcome') ->
  dialed_ok ev = (if String.eqb outcome "connected" then 1 else 0) ->
  dial_failed ev = (if String.eqb outcome "failed" then 1 else 0) ->
  outcome = "connected" \/ outcome = "failed" ->
  Inc (TunnelDials id outcome) m (TunnelDials id' outcome') =
    connector_expected id (mkConnectorTelemetry c' m (log ++ [ev])) (TunnelDials id' outcome').
Proof.
  intros Hm Hd Hf Ho. cbn [connector_expected ct_log] in *. rewrite !tally_snoc, Hd, Hf. revert Hm.
  pose proof (tally_nonneg dialed_ok log ltac:(by intros [])) as H0.
  pose proof (tally_nonneg dial_failed log ltac:(by intros [| [] | | |])) as H1.
  destruct (decide (id' = id)) as [->|Hne]; [|intros Hm; unfold Inc; rewrite Add_other by congruence; exact Hm].
  destruct (String.eqb_spec outcome' "connected") as [->|Hc]; [|destruct (String.eqb_spec outcome' "failed") as [->|Hfl]]; intros Hm.
  - apply Inc_counted; [done|done|by intros [= <-]|]. intros Hne. destruct Ho as [->| ->]; [done|reflexivity].
  - apply Inc_counted; [done|done|by intros [= <-]|]. intros Hne. destruct Ho as [->| ->]; [reflexivity|done].
  - unfold Inc. rewrite Add_other; [exact Hm|]. intros [= ->]. by destruct Ho.
Qed.

(** The gauge after the tunnel went down. *)
Lemma down_series id m log c c' ev k :
  (forall k, m k = connector_expected id (mkConnectorTelemetry c m log) k) ->
  0 < tally dialed_ok log -> dialed_ok ev = 0 -> dial_failed ev = 0 -> connected c' = false ->
  Set_ (TunnelConnected id) 0 m k = connector_expected id (mkConnectorTelemetry c' m (log ++ [ev])) k.
Proof.
  intros Hm Hpos Hd Hf Hc. specialize (Hm k). unfold Set_. destruct k; try (rewrite decide_False by done; exact Hm).
  - cbn [connector_expected ct_client ct_log] in *. rewrite tally_snoc, Hd, Hc, Z.add_0_r.
    destruct (decide (connector_id = id)) as [->|Hne]; [by rewrite decide_True, shown_pos|].
    by rewrite decide_False by congruence.
  - rewrite decide_False by done. cbn [connector_expected ct_log] in *. by rewrite !tally_snoc, Hd, Hf, !Z.add_0_r.
Qed.

Lemma run_loop_run now backoff c : match tc_run (run_loop now backoff c) with Connected _ => true | _ => false end = false.
Proof. unfold run_loop. cbn. by destruct (0 <? backoff). Qed.

Lemma run_loop_connected now backoff c : connected (run_loop now backoff c) = connected c.
Proof. done. Qed.

(** The turns of the loop, by what they do to the tunnel. *)
Lemma run_turn_tunnel now ev c c' :
  connected c = match tc_run c with Connected _ => true | _ => false end ->
  run_turn now ev c = Some c' ->
  connected c' = match tc_run c' with Connected _ => true | _ => false end /\
  match tc_run c, ev with
  | Dialing _, DialOK _ => connected c' = true
  | Dialing _, DialFailed _ => connected c' = connected c
  | Connected _, (LinkEnded | ContextDone) => connected c' = false
  | Waiting _, (TimerFired | ContextDone) => connected c' = connected c
  | _, _ => False
  end.
Proof.
  intros Hc Ht. unfold run_turn in Ht. destruct (tc_run c) eqn:E, ev; try done.
  - destruct (_ <=? now); [|done]. injection Ht as <-. cbn in *. by split.
  - injection Ht as <-. by split.
  - destruct ctx_done; injection Ht as <-; [by split|].
    rewrite run_loop_run, run_loop_connected. by split.
  - injection Ht as <-. by split.
  - injection Ht as <-. rewrite run_loop_run, run_loop_connected. by split.
  - injection Ht as <-. by split.
Qed.

Lemma dialed_nonneg l : 0 <= tally dialed_ok l.
Proof. apply tally_nonneg. by intros []. Qed.
Lemma failed_nonneg l : 0 <= tally dial_failed l.
Proof. apply tally_nonneg. by intros [| [] | | |]. Qed.

(** A turn that is no dial leaves the dial counters alone, and the gauge unless it
    ends the tunnel. *)
Lemma connector_series id m log c c' ev k :
  (forall k, m k = connector_expected id (mkConnectorTelemetry c m log) k) ->
  run_metrics id ev c m = m -> dialed_ok ev = 0 -> dial_failed ev = 0 -> connected c' = connected c ->
  run_metrics id ev c m k = connector_expected id (mkConnectorTelemetry c' (run_metrics id ev c m) (log ++ [ev])) k.
Proof.
  intros Hm -> Hd Hf Hc. rewrite Hm. destruct k; cbn [connector_expected ct_client ct_log]; try done;
    by rewrite !tally_snoc, ?Hd, ?Hf, ?Hc, !Z.add_0_r.
Qed.

Lemma connector_step_truthful id s s' : connector_truthful id s -> connector_step id s s' -> connector_truthful id s'.
Proof.
  intros [Hl Hm Hd] H. destruct H as [now ev c c' m log Ht]. cbn [ct_client ct_metrics ct_log] in *.
  destruct (run_turn_tunnel now ev c c' Hl Ht) as [Hl' He].
  pose proof (dialed_nonneg log) as H0. pose proof (failed_nonneg log) as H1. split; [exact Hl'| |].
  - intros k. cbn [ct_metrics].
    destruct (tc_run c) eqn:E, ev as [|ctx_done|link| |]; try done;
      try (apply (connector_series id m log c c'); [exact Hm|unfold run_metrics; by rewrite E|done|done|exact He]).
    + destruct ctx_done; [apply (connector_series id m log c c'); [exact Hm|unfold run_metrics; by rewrite E|done|done|exact He]|].
      unfold run_metrics. rewrite E. destruct k; try (unfold Inc; rewrite Add_other by done; exact (Hm _)).
      * unfold Inc. rewrite Add_other, Hm by done. cbn [connector_expected ct_client ct_log]. by rewrite tally_snoc, Z.add_0_r, He.
      * apply (dial_series id m c c' log); [exact (Hm _)|done|done|by right].
    + unfold run_metrics. rewrite E. unfold Set_. destruct k; try (rewrite decide_False by done; unfold Inc; rewrite Add_other by done; exact (Hm _)).
      * cbn [connector_expected ct_client ct_log]. rewrite tally_snoc, He. cbn [dialed_ok].
        destruct (decide (connector_id = id)) as [->|Hne]; [rewrite decide_True by done; by rewrite shown_pos by lia|].
        rewrite decide_False by congruence. unfold Inc. rewrite Add_other, Hm by done. cbn. by rewrite decide_False.
      * rewrite decide_False by done. apply (dial_series id m c c' log); [exact (Hm _)|done|done|by left].
    + unfold run_metrics. rewrite E. apply (down_series id m log c c'); try done. apply Hd. by rewrite Hl.
    + unfold run_metrics. rewrite E. apply (down_series id m log c c'); try done. apply Hd. by rewrite Hl.
  - cbn [ct_client ct_log]. rewrite tally_snoc. intros Hrun. revert He.
    destruct (tc_run c) eqn:E, ev as [|ctx_done|link| |]; try done; cbn [dialed_ok]; try lia; intros He;
      rewrite ?He in Hrun; try done; pose proof (Hd Hrun); lia.
Qed.

(** ** Property *)

(** C20: what [/metrics] reports is true.  At every moment of an edge, whatever
    requests, sessions and RPCs came and went, a scrape shows exactly the series
    that were used, with these values: [airpc_http_requests_total] the number of
    unary responses of the route that went out with the status (other than
    informational ones), the gauge of active sessions the number of relays still
    running (zero again when all have returned), the byte counters what was read
    from and written to the observed connections, the RPC counters the RPCs their
    observers recorded as completed, and as many durations.  Of a connector,
    every dial that did not end with the process is counted with its outcome, and
    [airpc_tunnel_connected] is 1 exactly when the proxy and the open handler see
    a tunnel and 0 when they do not, from the first successful dial on; before it
    there is no such series, and the documented alert on its being 0 is silent. *)
Theorem metrics_truthful {UT : UnicodeTables} {MQ : Msgpack Request} {MR : Msgpack Response} id s t :
  reachable edge_step (eq edge_idle) s -> reachable (connector_step id) connector_idle t ->
  (forall k, et_metrics s k = expected s k) /\ (forall k, ct_metrics t k = connector_expected id t k).
Proof.
  intros Hs Ht. split.
  - apply tr_series. revert s Hs. apply (reachable_inv _ _ truthful).
    + intros ? <-. apply edge_idle_truthful.
    + apply edge_step_truthful.
  - apply (cn_series id). revert t Ht. apply (reachable_inv _ _ (connector_truthful id)); [|apply connector_step_truthful].
    intros t (now & ->). split; [done| |done]. intros k. destruct k; cbn; repeat case_decide; try done.
    by repeat destruct (String.eqb _ _).
Qed.

(** ** Witness *)

#[local] Existing Instance ascii_tables.
#[local] Existing Instance request_msgpack.
#[local] Existing Instance response_msgpack.

(** A request without an id is answered 500; a session is opened, reads five
    bytes and ends. *)
Definition demo_stream_route : Route := mkRoute "db" ModeTCP "" "" "" ":7000" "10.0.0.8:5432" 0 0 0 0 0 0 [] false.
Definition demo_unary : statusRecorder :=
  unary_recorder None 0 [] (fun _ _ => mkNatsResult (Err ErrNoResponders) false) (demo_request "/x")
    (mkroute (demo_route "api" "/" "") "/" "") "/x" false [].
Definition demo_plain : Conn := mkConn "" "" true false false None.
Definition demo_read : conn_op := OpRead "hello" None.
Definition demo_telemetry : EdgeTelemetry :=
  let m0 := serveUnary_deferred (mkroute (demo_route "api" "/" "") "/" "") demo_unary no_series in
  let m1 := observe_counters demo_stream_route (session_started demo_stream_route m0) in
  mkEdgeTelemetry (session_ended demo_stream_route (conn_metrics demo_stream_route demo_read m1))
    [mkServed (mkroute (demo_route "api" "/" "") "/" "") (sr_writer demo_unary)]
    [mkSession demo_stream_route (Some (observed_op (observeConn demo_plain demo_stream_route) demo_read)) None false].
Definition demo_tunnel : ConnectorTelemetry :=
  mkConnectorTelemetry (attemptDone (mkTunnelClient (Some 7%nat) (Connected 0) 0 false ({[7%nat]} ∪ ∅)))
    (run_metrics "c1" (DialOK 7) (run_start 0) no_series) [DialOK 7].

Lemma demo_telemetry_reachable : reachable edge_step (eq edge_idle) demo_telemetry.
Proof.
  exists edge_idle. split; [done|].
  eapply rtc_l; [apply (es_unary None 0 [] (fun _ _ => mkNatsResult (Err ErrNoResponders) false) (demo_request "/x")
    (mkroute (demo_route "api" "/" "") "/" "") "/x" false []); reflexivity|].
  eapply rtc_l; [apply (es_conn (Some "s1") (fun _ _ => true) demo_plain demo_stream_route 0); reflexivity|].
  eapply rtc_l; [apply (es_op 0 demo_read demo_stream_route (observeConn demo_plain demo_stream_route) None true); reflexivity|].
  eapply rtc_l; [eapply (es_end 0); reflexivity|]. apply rtc_refl.
Qed.

Lemma demo_tunnel_reachable : reachable (connector_step "c1") connector_idle demo_tunnel.
Proof.
  exists (mkConnectorTelemetry (run_start 0) no_series []). split; [by exists 0|]. apply rtc_once.
  exact (cs_turn "c1" 0 (DialOK 7) (run_start 0) _ no_series [] eq_refl).
Qed.

Lemma metrics_truthful_witness :
  et_metrics demo_telemetry (HTTPRequests "api" "500") = Some 1 /\
  et_metrics demo_telemetry (StreamSessionsActive "db" ModeTCP) = Some 0 /\
  et_metrics demo_telemetry (StreamBytes "db" "in") = Some 5 /\
  et_metrics demo_telemetry (StreamBytes "api" "in") = None /\
  ct_metrics demo_tunnel (TunnelConnected "c1") = Some 1.
Proof.
  destruct (metrics_truthful "c1" demo_telemetry demo_tunnel demo_telemetry_reachable demo_tunnel_reachable) as (H1 & H2).
  rewrite !H1, H2. split_and!; vm_compute; reflexivity.
Defined.
