(* ===== verification/Natscore.v ===== *)
(** * The NATS client

    [internal/natscore/nats.go] as programs over the calls it makes to the NATS
    library, which are events: an interpretation of the events is a NATS
    server and connection.  The subscriptions of [Lifecycle] are one. *)
From S2P Require Import Prelude GoString GoStd Interact Lifecycle.
From ITree Require Import ITree ITreeFacts.
From ITree Require Import Events.State Events.StateFacts.

Section Natscore.
(** The library's [*nats.Conn], [*nats.Subscription], [*nats.Msg] and errors. *)
Context {Conn Sub RawMsg nats_err : Type}.

Inductive nats_option := Name (name : string) | MaxReconnects (n : Z) | UserCredentials (file : string).

(** [Msg]: the raw message is nil in one that no subscription delivered. *)
Record Msg := mkMsg { msg_Subject : string; msg_Reply : string; msg_Data : string; msg_msg : option RawMsg }.

(** The calls to the library. *)
Inductive natsE : Type -> Type :=
| NatsConnect (url : string) (opts : list nats_option) : natsE (res nats_err Conn)
| NatsRequestMsg (nc : Conn) (subject data : string) : natsE (res nats_err string)     (** the answer's [Data] *)
| NatsPublish (nc : Conn) (subject data : string) : natsE (res nats_err unit)
| NatsSubscribe (nc : Conn) (subject : string) : natsE (res nats_err Sub)
| NatsQueueSubscribe (nc : Conn) (subject queue : string) : natsE (res nats_err Sub)
| NatsFlush (nc : Conn) : natsE (res nats_err unit)
| NatsUnsubscribe (sub : Sub) : natsE (res nats_err unit)
| NatsRespond (msg : RawMsg) (data : string) : natsE (res nats_err unit)
| NatsDrain (nc : Conn) : natsE (res nats_err unit)
| NatsClose (nc : Conn) : natsE unit.

Inductive natscore_error :=
| Library (e : nats_err)                               (** returned as it is *)
| ConnectNATS (e : nats_err) | SubscribeFailed (subject : string) (e : nats_err)
| QueueSubscribeFailed (subject : string) (e : nats_err) | FlushFailed (subject : string) (e : nats_err)
| MissingMessage.

Definition connect_options (name credsFile : string) : list nats_option :=
  [Name name; MaxReconnects (-1)] ++ (if String.eqb credsFile "" then [] else [UserCredentials credsFile]).

Definition Connect (url name credsFile : string) : itree natsE (res natscore_error Conn) :=
  let! r := ITree.trigger (NatsConnect url (connect_options name credsFile)) in
  match r with
  | Ok nc => Ret (Ok nc)
  | Err e => Ret (Err (ConnectNATS e))
  end.

(** An error of the library that is passed on. *)
Definition passed_on {A} (r : res nats_err A) : res natscore_error A :=
  match r with Ok a => Ok a | Err e => Err (Library e) end.

Definition Request (nc : Conn) (subject data : string) : itree natsE (res natscore_error string) :=
  let! r := ITree.trigger (NatsRequestMsg nc subject data) in Ret (passed_on r).

Definition Publish (nc : Conn) (subject data : string) : itree natsE (res natscore_error unit) :=
  let! r := ITree.trigger (NatsPublish nc subject data) in Ret (passed_on r).

(** The message a subscription's handler is given. *)
Definition delivered (subject reply data : string) (raw : RawMsg) : Msg := mkMsg subject reply data (Some raw).

(** The end of both subscriptions: what the server has not confirmed is taken
    back. *)
Definition flush_subscription (nc : Conn) (subject : string) (sub : Sub) : itree natsE (res natscore_error Sub) :=
  let! r := ITree.trigger (NatsFlush nc) in
  match r with
  | Ok _ => Ret (Ok sub)
  | Err e => let! _ := ITree.trigger (NatsUnsubscribe sub) in Ret (Err (FlushFailed subject e))
  end.

Definition Subscribe (nc : Conn) (subject : string) : itree natsE (res natscore_error Sub) :=
  let! r := ITree.trigger (NatsSubscribe nc subject) in
  match r with
  | Err e => Ret (Err (SubscribeFailed subject e))
  | Ok sub => flush_subscription nc subject sub
  end.

Definition QueueSubscribe (nc : Conn) (subject queue : string) : itree natsE (res natscore_error Sub) :=
  let! r := ITree.trigger (NatsQueueSubscribe nc subject queue) in
  match r with
  | Err e => Ret (Err (QueueSubscribeFailed subject e))
  | Ok sub => flush_subscription nc subject sub
  end.

Definition Respond (m : Msg) (data : string) : itree natsE (res natscore_error unit) :=
  match msg_msg m with
  | None => Ret (Err MissingMessage)
  | Some raw => let! r := ITree.trigger (NatsRespond raw data) in Ret (passed_on r)
  end.

(** [*Subscription] and [*Client] may be nil, and so may what they hold. *)
Definition Unsubscribe (s : option (option Sub)) : itree natsE (res natscore_error unit) :=
  match s with
  | Some (Some sub) => let! r := ITree.trigger (NatsUnsubscribe sub) in Ret (passed_on r)
  | _ => Ret (Ok tt)
  end.

Definition Drain (c : option (option Conn)) : itree natsE (res natscore_error unit) :=
  match c with
  | Some (Some nc) => let! r := ITree.trigger (NatsDrain nc) in Ret (passed_on r)
  | _ => Ret (Ok tt)
  end.

Definition Close (c : option (option Conn)) : itree natsE unit :=
  match c with
  | Some (Some nc) => ITree.trigger (NatsClose nc)
  | _ => Ret tt
  end.
End Natscore.
Arguments natsE : clear implicits.

(** ** The subscriptions of a connector *)

(** A connection on which the subscription to [subject] and the flush after it
    succeed as [env] says; the state is what the process holds. *)
Definition subscribing (env : Lifecycle.connector_env) (subject : string) X
    (e : natsE unit string unit unit X) (held : gset Lifecycle.resource) : itree void1 (gset Lifecycle.resource * X) :=
    match e in natsE _ _ _ _ X return itree void1 (gset Lifecycle.resource * X) with
    | NatsSubscribe _ s | NatsQueueSubscribe _ s _ =>
        if Lifecycle.ce_subscribe env subject then Ret ({[Lifecycle.Subscription s]} ∪ held, Ok s) else Ret (held, Err tt)
    | NatsFlush _ => if Lifecycle.ce_flush env subject then Ret (held, Ok tt) else Ret (held, Err tt)
    | NatsUnsubscribe s => Ret (held ∖ {[Lifecycle.Subscription s]}, Ok tt)
    | NatsConnect _ _ => Ret (held, Ok tt)
    | NatsRequestMsg _ _ _ => Ret (held, Err tt)
    | NatsPublish _ _ _ | NatsRespond _ _ | NatsDrain _ => Ret (held, Ok tt)
    | NatsClose _ => Ret (held, tt)
    end.

(** What [Lifecycle] says of a subscription is what the wrapper does: both kinds
    are held exactly when subscribing and flushing succeed, and nothing is left
    behind otherwise. *)
Lemma subscription_refines env subject queue held :
  let expected := Lifecycle.Subscribe env subject held in
  forall t, t = Subscribe tt subject \/ t = QueueSubscribe tt subject queue ->
  exists r, interp_state (subscribing env subject) t held ≈ Ret (expected.1, r) /\ is_ok r = expected.2.
Proof.
  intros expected t Ht. unfold expected, Lifecycle.Subscribe.
  destruct (Lifecycle.ce_subscribe env subject) eqn:Es; cbn [negb];
    [destruct (Lifecycle.ce_flush env subject) eqn:Ef; cbn [negb]|];
    destruct Ht as [-> | ->]; unfold Subscribe, QueueSubscribe, flush_subscription; eexists;
    (split; [repeat (rewrite ?interp_state_bind, ?interp_state_trigger, ?interp_state_ret; cbn [subscribing]; rewrite ?Es, ?Ef, ?bind_ret_l; cbn beta iota delta [fst snd]); reflexivity|reflexivity]).
Qed.
